(** * A-Crawler: a shallow embedding of the identity, extraction and
      persistence core, and the properties its specification states.

    Part I holds the model, one module per source file; Part II holds the
    properties.

    Conventions of the model.
    - A JavaScript string is a [string]; an [ascii] stands for a UTF-16 code
      unit below 256, so the only non-ASCII white space the model knows is
      U+00A0.
    - [undefined] and [null] of an optional field are [None].
    - Code that runs inside jsdom, cheerio, Readability or Turndown is taken
      through the interface of those libraries (classes [Dom], [Services]).
    - SQL [NULL] is [None]; a statement's assignments run left to right. *)

From Stdlib Require Import ZArith List Ascii String Lia Bool QArith.
From stdpp Require Import base option list strings gmap sorting.

Set Warnings "-register-all".

#[local] Open Scope string_scope.
#[local] Open Scope Z_scope.

(* ===================================================================== *)
(** * Part I. The model                                                   *)
(* ===================================================================== *)

(** ** JavaScript values *)
Module Js.

Definition chars (s : string) : list ascii := list_ascii_of_string s.
Definition str (l : list ascii) : string := string_of_list_ascii l.

(** [!s] on a string: only the empty string is falsy. *)
Definition truthy (s : string) : bool := negb (String.eqb s "").

(** [x || null] on an optional string. *)
Definition orNull (x : option string) : option string :=
  match x with
  | Some s => if truthy s then Some s else None
  | None => None
  end.

(** [x || null] on an optional integer-valued number: 0 is falsy. *)
Definition orNullNum (x : option Z) : option Z :=
  match x with
  | Some n => if n =? 0 then None else Some n
  | None => None
  end.

(** [x || null] on an optional fraction: 0 is falsy. *)
Definition orNullFrac (x : option Q) : option Q :=
  match x with
  | Some q => if Qnum q =? 0 then None else Some q
  | None => None
  end.

(** [x || 0] on an optional number. *)
Definition orZero (x : option Z) : Z :=
  match x with
  | Some n => n
  | None => 0
  end.

(** The double quote, for the selectors that hold one. *)
Definition dq : string := String "034" "".

(** [a || b] on strings. *)
Definition orElse (a b : string) : string := if truthy a then a else b.

(** White space as [\s] and [String.prototype.trim] see it, on code units
    below 256: TAB, LF, VT, FF, CR, SPACE and NO-BREAK SPACE. *)
Definition isSpace (c : ascii) : bool :=
  let n := nat_of_ascii c in
  ((9 <=? n) && (n <=? 13) || (n =? 32) || (n =? 160))%nat.

Fixpoint trimStart (l : list ascii) : list ascii :=
  match l with
  | c :: r => if isSpace c then trimStart r else l
  | [] => []
  end.

Definition trimEnd (l : list ascii) : list ascii := rev (trimStart (rev l)).

(** [String.prototype.trim] on code units. *)
Definition trimChars (l : list ascii) : list ascii := trimEnd (trimStart l).

Definition trim (s : string) : string := str (trimChars (chars s)).

(** [s.replace(/\s+/g, ' ')]: every maximal run of white space becomes one
    space; [inRun] tells that the run's space was already written. *)
Fixpoint collapseSpaceRuns (inRun : bool) (l : list ascii) : list ascii :=
  match l with
  | [] => []
  | c :: r =>
      if isSpace c
      then (if inRun then collapseSpaceRuns true r
            else " "%char :: collapseSpaceRuns true r)
      else c :: collapseSpaceRuns false r
  end.

Definition collapseWhitespace (s : string) : string :=
  str (collapseSpaceRuns false (chars s)).

(** [text.trim().split(/\s+/).filter(w => w.length > 0).length]: the number
    of maximal runs of characters that are not white space. *)
Fixpoint countRuns (inWord : bool) (l : list ascii) : nat :=
  match l with
  | [] => 0%nat
  | c :: r =>
      if isSpace c then countRuns false r
      else if inWord then countRuns true r else S (countRuns true r)
  end.

Definition wordCount (text : string) : Z := Z.of_nat (countRuns false (chars text)).

End Js.

(** ** src/types/database.types.ts and src/db/schema.sql *)
Module Types.

Inductive CrawlStatus := OK | REDIRECT_ALIAS | NOT_FOUND | SOFT_404 | ERROR.
Inductive FetchMode := cheerio | playwright.
Inductive ExtractionMethod := readability | semantic | cms_pattern | fallback.

(** The text the column [extraction_method] holds. *)
Definition methodName (m : ExtractionMethod) : string :=
  match m with
  | readability => "readability"
  | semantic => "semantic"
  | cms_pattern => "cms_pattern"
  | fallback => "fallback"
  end.

#[global] Instance CrawlStatus_eq_dec : EqDecision CrawlStatus.
Proof. solve_decision. Defined.
#[global] Instance FetchMode_eq_dec : EqDecision FetchMode.
Proof. solve_decision. Defined.
#[global] Instance ExtractionMethod_eq_dec : EqDecision ExtractionMethod.
Proof. solve_decision. Defined.

(** [CrawlerPageInsert], with the [nav_structure] and [sitemap_type_hint]
    that [runCrawl] puts into the object it hands to [upsertPage].  The
    navigation structure travels as its JSON text. *)
Record CrawlerPageInsert := {
  final_url : string;
  requested_url_original : option string;
  status_code : option Z;
  crawl_status : CrawlStatus;
  redirect_chain : option (list string);
  html_content : option string;
  clean_html : option string;
  markdown : option string;
  nav_structure : option string;
  title : option string;
  h1 : option string;
  meta_description : option string;
  word_count : option Z;
  content_hash : option string;
  sitemap_type_hint : option string;
  fetch_mode : option FetchMode;
  extraction_method : option ExtractionMethod;
  junk_score : option Q;
  last_error : option string;
  run_id : option string
}.

(** A row of [crawler_pages]: the columns of schema.sql, the two columns of
    migration 001 ([markdown_enhanced], [structural_stats]) and the
    [nav_structure] column the navigation backfill fills.  The surrogate
    [id] is left out; [last_crawled_at] counts seconds. *)
Record Row := {
  r_final_url : string;
  r_requested_url_original : option string;
  r_status_code : option Z;
  r_crawl_status : CrawlStatus;
  r_redirect_chain : option (list string);
  r_html_content : option string;
  r_clean_html : option string;
  r_markdown : option string;
  r_markdown_enhanced : option string;
  r_title : option string;
  r_h1 : option string;
  r_meta_description : option string;
  r_word_count : option Z;
  r_content_hash : option string;
  r_sitemap_type_hint : option string;
  r_nav_structure : option string;
  r_structural_stats : option string;
  r_fetch_mode : option FetchMode;
  r_extraction_method : option ExtractionMethod;
  r_junk_score : option Q;
  r_last_crawled_at : nat;
  r_last_error : option string;
  r_run_id : option string
}.

End Types.

(** ** src/db/queries.ts *)
Module Queries.
Import Types.

(** The array [params] of [upsertPage]: one entry per [?] of the INSERT, in
    the order of its column list. *)
Record Params := {
  v_final_url : string;
  v_requested_url_original : option string;
  v_status_code : option Z;
  v_crawl_status : CrawlStatus;
  v_redirect_chain : option (list string);
  v_html_content : option string;
  v_clean_html : option string;
  v_markdown : option string;
  v_title : option string;
  v_h1 : option string;
  v_meta_description : option string;
  v_word_count : option Z;
  v_content_hash : option string;
  v_sitemap_type_hint : option string;
  v_fetch_mode : option FetchMode;
  v_extraction_method : option ExtractionMethod;
  v_junk_score : option Q;
  v_last_error : option string;
  v_run_id : option string
}.

(** The parameter binding: [page.x || null] for all optional fields but
    [word_count], which is bound as [page.word_count || 0], and
    [redirect_chain], which is bound when present.  [page.nav_structure]
    is bound to nothing. *)
Definition bindParams (page : CrawlerPageInsert) : Params := {|
  v_final_url := final_url page;
  v_requested_url_original := Js.orNull (requested_url_original page);
  v_status_code := Js.orNullNum (status_code page);
  v_crawl_status := crawl_status page;
  v_redirect_chain := redirect_chain page;
  v_html_content := Js.orNull (html_content page);
  v_clean_html := Js.orNull (clean_html page);
  v_markdown := Js.orNull (markdown page);
  v_title := Js.orNull (title page);
  v_h1 := Js.orNull (h1 page);
  v_meta_description := Js.orNull (meta_description page);
  v_word_count := Some (Js.orZero (word_count page));
  v_content_hash := Js.orNull (content_hash page);
  v_sitemap_type_hint := Js.orNull (sitemap_type_hint page);
  v_fetch_mode := fetch_mode page;
  v_extraction_method := extraction_method page;
  v_junk_score := Js.orNullFrac (junk_score page);
  v_last_error := Js.orNull (last_error page);
  v_run_id := Js.orNull (run_id page)
|}.

(** SQL [COALESCE(a, b)]. *)
Definition COALESCE {A} (a b : option A) : option A :=
  match a with
  | Some x => Some x
  | None => b
  end.

(** [VALUES(content_hash) IS NOT NULL AND
     VALUES(content_hash) != COALESCE(content_hash, '')], read as the
    condition of [IF]: unknown counts as false.  The comparison is the one
    of binary strings; the digests the crawler binds are lower-case
    hexadecimal, on which the column's collation agrees with it. *)
Definition hashChanged (new stored : option string) : bool :=
  match new with
  | None => false
  | Some h => negb (String.eqb h (default "" stored))
  end.

(** The row an INSERT without conflict creates at time [now]: the columns
    the statement does not list take their defaults. *)
Definition insertedRow (now : nat) (v : Params) : Row := {|
  r_final_url := v_final_url v;
  r_requested_url_original := v_requested_url_original v;
  r_status_code := v_status_code v;
  r_crawl_status := v_crawl_status v;
  r_redirect_chain := v_redirect_chain v;
  r_html_content := v_html_content v;
  r_clean_html := v_clean_html v;
  r_markdown := v_markdown v;
  r_markdown_enhanced := None;
  r_title := v_title v;
  r_h1 := v_h1 v;
  r_meta_description := v_meta_description v;
  r_word_count := v_word_count v;
  r_content_hash := v_content_hash v;
  r_sitemap_type_hint := v_sitemap_type_hint v;
  r_nav_structure := None;
  r_structural_stats := None;
  r_fetch_mode := v_fetch_mode v;
  r_extraction_method := v_extraction_method v;
  r_junk_score := v_junk_score v;
  r_last_crawled_at := now;
  r_last_error := v_last_error v;
  r_run_id := v_run_id v
|}.

(** One assignment [col = e] of the UPDATE list, as a function on the row. *)
Inductive Column :=
  | c_status_code | c_crawl_status | c_redirect_chain | c_fetch_mode
  | c_html_content | c_clean_html | c_markdown
  | c_title | c_h1 | c_meta_description | c_word_count
  | c_extraction_method | c_junk_score | c_content_hash
  | c_sitemap_type_hint | c_last_error | c_last_crawled_at | c_run_id.

(** [assign now v c r] runs the assignment to column [c]; the right-hand
    side reads the row [r] as the assignments before it left it. *)
Definition assign (now : nat) (v : Params) (c : Column) (r : Row) : Row :=
  let upd f :=
    f (r_status_code r) (r_crawl_status r) (r_redirect_chain r)
      (r_html_content r) (r_clean_html r) (r_markdown r) (r_title r)
      (r_h1 r) (r_meta_description r) (r_word_count r) (r_content_hash r)
      (r_sitemap_type_hint r) (r_fetch_mode r) (r_extraction_method r)
      (r_junk_score r) (r_last_crawled_at r) (r_last_error r) (r_run_id r) in
  let mk sc cs rc hc ch md ti hh de wc co sh fm em js lc le ri := {|
    r_final_url := r_final_url r;
    r_requested_url_original := r_requested_url_original r;
    r_status_code := sc; r_crawl_status := cs; r_redirect_chain := rc;
    r_html_content := hc; r_clean_html := ch; r_markdown := md;
    r_markdown_enhanced := r_markdown_enhanced r;
    r_title := ti; r_h1 := hh; r_meta_description := de;
    r_word_count := wc; r_content_hash := co; r_sitemap_type_hint := sh;
    r_nav_structure := r_nav_structure r;
    r_structural_stats := r_structural_stats r;
    r_fetch_mode := fm; r_extraction_method := em; r_junk_score := js;
    r_last_crawled_at := lc; r_last_error := le; r_run_id := ri |} in
  match c with
  | c_status_code =>
      upd (fun _ cs rc hc ch md ti hh de wc co sh fm em js lc le ri =>
        mk (v_status_code v) cs rc hc ch md ti hh de wc co sh fm em js lc le ri)
  | c_crawl_status =>
      upd (fun sc _ rc hc ch md ti hh de wc co sh fm em js lc le ri =>
        mk sc (v_crawl_status v) rc hc ch md ti hh de wc co sh fm em js lc le ri)
  | c_redirect_chain =>
      upd (fun sc cs _ hc ch md ti hh de wc co sh fm em js lc le ri =>
        mk sc cs (v_redirect_chain v) hc ch md ti hh de wc co sh fm em js lc le ri)
  | c_fetch_mode =>
      upd (fun sc cs rc hc ch md ti hh de wc co sh _ em js lc le ri =>
        mk sc cs rc hc ch md ti hh de wc co sh (v_fetch_mode v) em js lc le ri)
  | c_html_content =>
      upd (fun sc cs rc hc ch md ti hh de wc co sh fm em js lc le ri =>
        mk sc cs rc
           (if hashChanged (v_content_hash v) co then v_html_content v else hc)
           ch md ti hh de wc co sh fm em js lc le ri)
  | c_clean_html =>
      upd (fun sc cs rc hc ch md ti hh de wc co sh fm em js lc le ri =>
        mk sc cs rc hc
           (if hashChanged (v_content_hash v) co then v_clean_html v else ch)
           md ti hh de wc co sh fm em js lc le ri)
  | c_markdown =>
      upd (fun sc cs rc hc ch md ti hh de wc co sh fm em js lc le ri =>
        mk sc cs rc hc ch (COALESCE (v_markdown v) md)
           ti hh de wc co sh fm em js lc le ri)
  | c_title =>
      upd (fun sc cs rc hc ch md ti hh de wc co sh fm em js lc le ri =>
        mk sc cs rc hc ch md (COALESCE (v_title v) ti)
           hh de wc co sh fm em js lc le ri)
  | c_h1 =>
      upd (fun sc cs rc hc ch md ti hh de wc co sh fm em js lc le ri =>
        mk sc cs rc hc ch md ti (COALESCE (v_h1 v) hh)
           de wc co sh fm em js lc le ri)
  | c_meta_description =>
      upd (fun sc cs rc hc ch md ti hh de wc co sh fm em js lc le ri =>
        mk sc cs rc hc ch md ti hh (COALESCE (v_meta_description v) de)
           wc co sh fm em js lc le ri)
  | c_word_count =>
      upd (fun sc cs rc hc ch md ti hh de wc co sh fm em js lc le ri =>
        mk sc cs rc hc ch md ti hh de (COALESCE (v_word_count v) wc)
           co sh fm em js lc le ri)
  | c_extraction_method =>
      upd (fun sc cs rc hc ch md ti hh de wc co sh fm em js lc le ri =>
        mk sc cs rc hc ch md ti hh de wc co sh fm
           (COALESCE (v_extraction_method v) em) js lc le ri)
  | c_junk_score =>
      upd (fun sc cs rc hc ch md ti hh de wc co sh fm em js lc le ri =>
        mk sc cs rc hc ch md ti hh de wc co sh fm em
           (COALESCE (v_junk_score v) js) lc le ri)
  | c_content_hash =>
      upd (fun sc cs rc hc ch md ti hh de wc co sh fm em js lc le ri =>
        mk sc cs rc hc ch md ti hh de wc (COALESCE (v_content_hash v) co)
           sh fm em js lc le ri)
  | c_sitemap_type_hint =>
      upd (fun sc cs rc hc ch md ti hh de wc co sh fm em js lc le ri =>
        mk sc cs rc hc ch md ti hh de wc co
           (COALESCE (v_sitemap_type_hint v) sh) fm em js lc le ri)
  | c_last_error =>
      upd (fun sc cs rc hc ch md ti hh de wc co sh fm em js lc _ ri =>
        mk sc cs rc hc ch md ti hh de wc co sh fm em js lc (v_last_error v) ri)
  | c_last_crawled_at =>
      upd (fun sc cs rc hc ch md ti hh de wc co sh fm em js _ le ri =>
        mk sc cs rc hc ch md ti hh de wc co sh fm em js now le ri)
  | c_run_id =>
      upd (fun sc cs rc hc ch md ti hh de wc co sh fm em js lc le _ =>
        mk sc cs rc hc ch md ti hh de wc co sh fm em js lc le (v_run_id v))
  end.

(** The assignment list of [ON DUPLICATE KEY UPDATE], in the order the
    statement writes it. *)
Definition updateList : list Column :=
  [ c_status_code; c_crawl_status; c_redirect_chain; c_fetch_mode;
    c_html_content; c_clean_html; c_markdown;
    c_title; c_h1; c_meta_description; c_word_count;
    c_extraction_method; c_junk_score; c_content_hash; c_sitemap_type_hint;
    c_last_error; c_last_crawled_at; c_run_id ].

Definition onDuplicateKeyUpdate (now : nat) (v : Params) (stored : Row) : Row :=
  fold_left (fun r c => assign now v c r) updateList stored.

(** [crawler_pages], keyed by its unique [final_url].  Keys are compared
    as strings: two URLs that the collation of the column takes for one
    are two keys here. *)
Abbreviation Table := (gmap string Row).

(** [upsertPage(page)] at time [now]. *)
Definition upsertPage (now : nat) (page : CrawlerPageInsert) (t : Table) : Table :=
  let v := bindParams page in
  match t !! v_final_url v with
  | Some stored => <[ v_final_url v := onDuplicateKeyUpdate now v stored ]> t
  | None => <[ v_final_url v := insertedRow now v ]> t
  end.

(** [pageExists(finalUrl)]. *)
Definition pageExists (finalUrl : string) (t : Table) : bool :=
  bool_decide (is_Some (t !! finalUrl)).

End Queries.

(** ** Node's [crypto.createHash('md5')] (RFC 1321) *)
Module Md5.

(** [update(content)] hashes the UTF-8 encoding of the string; a code unit
    from 128 to 255 takes two bytes. *)
Definition utf8 (c : ascii) : list Z :=
  let n := Z.of_nat (nat_of_ascii c) in
  if n <? 128 then [n]
  else [Z.lor 192 (Z.shiftr n 6); Z.lor 128 (Z.land n 63)].

Definition utf8Encode (s : string) : list Z := flat_map utf8 (Js.chars s).

Definition w32 (x : Z) : Z := x mod 2 ^ 32.
Definition add32 (a b : Z) : Z := w32 (a + b).
Definition not32 (a : Z) : Z := Z.lxor a (2 ^ 32 - 1).
Definition rotl32 (x c : Z) : Z :=
  w32 (Z.lor (Z.shiftl x c) (Z.shiftr x (32 - c))).

Definition shifts : list Z :=
  [ 7; 12; 17; 22; 7; 12; 17; 22; 7; 12; 17; 22; 7; 12; 17; 22;
    5; 9; 14; 20; 5; 9; 14; 20; 5; 9; 14; 20; 5; 9; 14; 20;
    4; 11; 16; 23; 4; 11; 16; 23; 4; 11; 16; 23; 4; 11; 16; 23;
    6; 10; 15; 21; 6; 10; 15; 21; 6; 10; 15; 21; 6; 10; 15; 21 ].

Definition sines : list Z :=
  [ 0xd76aa478; 0xe8c7b756; 0x242070db; 0xc1bdceee;
    0xf57c0faf; 0x4787c62a; 0xa8304613; 0xfd469501;
    0x698098d8; 0x8b44f7af; 0xffff5bb1; 0x895cd7be;
    0x6b901122; 0xfd987193; 0xa679438e; 0x49b40821;
    0xf61e2562; 0xc040b340; 0x265e5a51; 0xe9b6c7aa;
    0xd62f105d; 0x02441453; 0xd8a1e681; 0xe7d3fbc8;
    0x21e1cde6; 0xc33707d6; 0xf4d50d87; 0x455a14ed;
    0xa9e3e905; 0xfcefa3f8; 0x676f02d9; 0x8d2a4c8a;
    0xfffa3942; 0x8771f681; 0x6d9d6122; 0xfde5380c;
    0xa4beea44; 0x4bdecfa9; 0xf6bb4b60; 0xbebfbc70;
    0x289b7ec6; 0xeaa127fa; 0xd4ef3085; 0x04881d05;
    0xd9d4d039; 0xe6db99e5; 0x1fa27cf8; 0xc4ac5665;
    0xf4292244; 0x432aff97; 0xab9423a7; 0xfc93a039;
    0x655b59c3; 0x8f0ccc92; 0xffeff47d; 0x85845dd1;
    0x6fa87e4f; 0xfe2ce6e0; 0xa3014314; 0x4e0811a1;
    0xf7537e82; 0xbd3af235; 0x2ad7d2bb; 0xeb86d391 ].

(** Little-endian bytes of a word, and back. *)
Definition leBytes (n : nat) (x : Z) : list Z :=
  map (fun i => Z.land (Z.shiftr x (8 * Z.of_nat i)) 255) (seq 0 n).

Fixpoint leWord (bs : list Z) : Z :=
  match bs with
  | [] => 0
  | b :: r => b + 256 * leWord r
  end.

(** The message, the byte 128, zero bytes up to 56 modulo 64, and the length
    in bits as 64 bits. *)
Definition pad (msg : list Z) : list Z :=
  let len := Z.of_nat (length msg) in
  let zeros := Z.to_nat ((55 - len) mod 64) in
  msg ++ [128] ++ repeat 0 zeros ++ leBytes 8 ((8 * len) mod 2 ^ 64).

Fixpoint chunks (fuel : nat) (n : nat) (l : list Z) : list (list Z) :=
  match fuel with
  | O => []
  | S f =>
      match l with
      | [] => []
      | _ => take n l :: chunks f n (drop n l)
      end
  end.

Definition State : Type := Z * Z * Z * Z.

Definition round (m : list Z) (st : State) (i : nat) : State :=
  let '(a, b, c, d) := st in
  let iz := Z.of_nat i in
  let '(f, g) :=
    if iz <? 16 then (Z.lor (Z.land b c) (Z.land (not32 b) d), iz)
    else if iz <? 32 then
      (Z.lor (Z.land d b) (Z.land (not32 d) c), (5 * iz + 1) mod 16)
    else if iz <? 48 then (Z.lxor b (Z.lxor c d), (3 * iz + 5) mod 16)
    else (Z.lxor c (Z.lor b (not32 d)), (7 * iz) mod 16) in
  let f' := add32 (add32 (add32 f a) (nth i sines 0)) (nth (Z.to_nat g) m 0) in
  (d, add32 b (rotl32 f' (nth i shifts 0)), b, c).

Definition block (st : State) (chunk : list Z) : State :=
  let m := map leWord (chunks 16 4 chunk) in
  let '(a0, b0, c0, d0) := st in
  let '(a, b, c, d) := fold_left (round m) (seq 0 64) st in
  (add32 a0 a, add32 b0 b, add32 c0 c, add32 d0 d).

Definition initial : State := (0x67452301, 0xefcdab89, 0x98badcfe, 0x10325476).

Definition digest (msg : list Z) : list Z :=
  let padded := pad msg in
  let '(a, b, c, d) :=
    fold_left block (chunks (length padded) 64 padded) initial in
  leBytes 4 a ++ leBytes 4 b ++ leBytes 4 c ++ leBytes 4 d.

Definition hexDigit (n : Z) : ascii :=
  if n <? 10 then ascii_of_nat (Z.to_nat (48 + n))
  else ascii_of_nat (Z.to_nat (87 + n)).

(** [digest('hex')]. *)
Definition hex (bs : list Z) : string :=
  Js.str (flat_map (fun b => [hexDigit (Z.shiftr b 4); hexDigit (Z.land b 15)]) bs).

End Md5.

(** ** src/utils/hash.ts *)
Module Hash.

Definition md5Hash (content : string) : string :=
  Md5.hex (Md5.digest (Md5.utf8Encode content)).

(** [html.replace(/\s+/g, ' ').trim()]. *)
Definition normalizeSpace (html : string) : string :=
  Js.trim (Js.collapseWhitespace html).

Definition hashHtmlContent (html : string) : string :=
  if Js.truthy html then md5Hash (normalizeSpace html) else "".

End Hash.

(** ** src/config/constants.ts *)
Module Constants.

Definition TRACKING_PARAMS : list string :=
  [ "utm_source"; "utm_medium"; "utm_campaign"; "utm_term"; "utm_content";
    "utm_id"; "fbclid"; "gclid"; "msclkid"; "ref"; "mc_cid"; "mc_eid";
    "_ga"; "_gl"; "gad_source"; "campaignid"; "adgroupid" ].

Definition READABILITY_MIN_WORDS : Z := 100.

Definition CMS_CONTENT_SELECTORS : list string :=
  [ ".entry-content"; ".post-content"; ".article-content"; ".content-area";
    "#content"; ".main-content";
    "[itemprop=" ++ Js.dq ++ "articleBody" ++ Js.dq ++ "]" ].

(** The soft-404 patterns all have the shape [/c1.*c2.* ... cn/i]; a pattern
    is kept as its literal chunks. *)
Definition SOFT_404_TITLE_PATTERNS : list (list string) :=
  [ ["not found"]; ["404"]; ["page"; "not"; "exist"];
    ["page"; "cannot"; "be"; "found"]; ["no"; "page"; "found"] ].

Definition SOFT_404_BODY_PATTERNS : list (list string) :=
  [ ["sorry"; "page"; "not"; "found"];
    ["the"; "page"; "you"; "requested"; "could"; "not"; "be"; "found"];
    ["we"; "can"; "t"; "find"; "that"; "page"];
    ["404"; "error"] ].

End Constants.

(** ** Regular expressions of the shape [/c1.*c2.* ... cn/i] *)
Module Regex.

Definition lowerChar (c : ascii) : ascii :=
  let n := nat_of_ascii c in
  if ((65 <=? n) && (n <=? 90))%nat then ascii_of_nat (n + 32) else c.

(** [.] matches every code unit but the line terminators. *)
Definition isLineTerminator (c : ascii) : bool :=
  let n := nat_of_ascii c in ((n =? 10) || (n =? 13))%nat.

(** [stripPrefix lit l]: what follows [lit] when [l] starts with it, case
    ignored; the literals are lower-case ASCII. *)
Fixpoint stripPrefix (lit l : list ascii) : option (list ascii) :=
  match lit, l with
  | [], _ => Some l
  | _ :: _, [] => None
  | a :: lit', c :: l' =>
      if Ascii.eqb a (lowerChar c) then stripPrefix lit' l' else None
  end.

(** [afterDots chunks l]: [l] matches [.*c1.*c2 ...] from its start. *)
Fixpoint afterDots (chunks : list (list ascii)) (l : list ascii) : bool :=
  match chunks with
  | [] => true
  | lit :: more =>
      (fix scan (l : list ascii) : bool :=
         match stripPrefix lit l with
         | Some rest => afterDots more rest
         | None => false
         end
         || match l with
            | c :: r => if isLineTerminator c then false else scan r
            | [] => false
            end) l
  end.

(** [matchAt chunks l]: the pattern matches at the start of [l]. *)
Definition matchAt (chunks : list (list ascii)) (l : list ascii) : bool :=
  match chunks with
  | [] => true
  | lit :: more =>
      match stripPrefix lit l with
      | Some rest => afterDots more rest
      | None => false
      end
  end.

Fixpoint searchFrom (chunks : list (list ascii)) (l : list ascii) : bool :=
  matchAt chunks l
  || match l with
     | _ :: r => searchFrom chunks r
     | [] => false
     end.

(** [pattern.test(s)]. *)
Definition test (pattern : list string) (s : string) : bool :=
  searchFrom (map Js.chars pattern) (Js.chars s).

(** [s.replace(/re/g, ...)] for an expression that matches no empty text:
    [matchAt l] gives, when the expression matches at the start of [l], the
    replacement and what follows the match.  A match takes at least one
    character, so the length of the text is fuel enough. *)
Fixpoint replaceAllFuel (matchAt : list ascii -> option (list ascii * list ascii))
    (fuel : nat) (l : list ascii) : list ascii :=
  match fuel, l with
  | S f, c :: r =>
      match matchAt l with
      | Some (out, rest) => (out ++ replaceAllFuel matchAt f rest)%list
      | None => c :: replaceAllFuel matchAt f r
      end
  | _, _ => []
  end.

Definition replaceAll (matchAt : list ascii -> option (list ascii * list ascii))
    (l : list ascii) : list ascii :=
  replaceAllFuel matchAt (length l) l.

End Regex.

(** ** src/extraction/htmlCleaner.ts and src/extraction/contentExtractor.ts *)
Module Extract.
Import Types.

(** What [document.querySelector(selector)] gives on a parsed document. *)
Inductive Query :=
  | Throws                      (* the selector or the parse raised *)
  | NoMatch                     (* null *)
  | Match (innerHTML : string).

(** The libraries the extraction runs in: jsdom and Readability. *)
Class Dom := {
  (** the body of [cleanHtml] after its guard on the empty string *)
  domClean : string -> string;
  (** the body of [removeElements] after its guards *)
  domRemove : string -> list string -> string;
  (** [new JSDOM(html).window.document.querySelector(selector)] *)
  querySelector : string -> string -> Query;
  (** [new JSDOM(html).window.document.body.textContent]; [None] when the
      parse raises *)
  bodyTextContent : string -> option string;
  (** [new Readability(new JSDOM(html, { url }).window.document).parse()]'s
      [content]; [None] when there is no article or the call raises *)
  readabilityContent : string -> string -> option string
}.

Record ExtractionResult := {
  cleanHtml : string;
  extractionMethod : ExtractionMethod;
  wordCount : Z;
  success : bool
}.

Section WithDom.
Context `{Dom}.

Definition cleanHtmlOf (html : string) : string :=
  if Js.truthy html then domClean html else "".

Definition removeElements (html : string) (selectors : list string) : string :=
  match selectors with
  | [] => html
  | _ => if Js.truthy html then domRemove html selectors else html
  end.

(** The loop of [extractBySelectors]: the first selector whose element has
    inner HTML that is not blank; a raise ends the search with null. *)
Fixpoint firstNonBlank (html : string) (selectors : list string) : option string :=
  match selectors with
  | [] => None
  | sel :: rest =>
      match querySelector html sel with
      | Throws => None
      | NoMatch => firstNonBlank html rest
      | Match inner =>
          if Js.truthy (Js.trim inner) then Some inner
          else firstNonBlank html rest
      end
  end.

Definition extractBySelectors (html : string) (selectors : list string) : option string :=
  if Js.truthy html then firstNonBlank html selectors else None.

(** [/<[^>]*>/] at the start of [l]: [closes l] is what follows the first
    [>] of [l]. *)
Fixpoint closes (l : list ascii) : option (list ascii) :=
  match l with
  | [] => None
  | c :: r => if Ascii.eqb c ">" then Some r else closes r
  end.

Definition tagAt (l : list ascii) : option (list ascii * list ascii) :=
  match l with
  | c :: r => if Ascii.eqb c "<" then rest ← closes r; Some ([" "%char], rest) else None
  | [] => None
  end.

(** [html.replace(/<[^>]*>/g, ' ')]. *)
Definition stripTags (html : string) : string :=
  Js.str (Regex.replaceAll tagAt (Js.chars html)).

Definition countWords (html : string) : Z :=
  if Js.truthy html then
    match bodyTextContent html with
    | Some text => Js.wordCount text
    | None => Js.wordCount (stripTags html)
    end
  else 0.

Definition extractWithReadability (html url : string) : option ExtractionResult :=
  match readabilityContent html url with
  | Some content =>
      if Js.truthy content then
        Some {| cleanHtml := content; extractionMethod := readability;
                wordCount := countWords content; success := true |}
      else None
  | None => None
  end.

Definition extractBySemantic (html : string) : option ExtractionResult :=
  match extractBySelectors html
          [ "article"; "main";
            "[role=" ++ Js.dq ++ "main" ++ Js.dq ++ "]";
            "[itemprop=" ++ Js.dq ++ "articleBody" ++ Js.dq ++ "]" ] with
  | Some extracted =>
      Some {| cleanHtml := extracted; extractionMethod := semantic;
              wordCount := countWords extracted; success := true |}
  | None => None
  end.

Definition extractByCmsPatterns (html : string) : option ExtractionResult :=
  match extractBySelectors html Constants.CMS_CONTENT_SELECTORS with
  | Some extracted =>
      Some {| cleanHtml := extracted; extractionMethod := cms_pattern;
              wordCount := countWords extracted; success := true |}
  | None => None
  end.

(** A strategy's result is taken when it has the word count. *)
Definition accepted (r : option ExtractionResult) : option ExtractionResult :=
  match r with
  | Some x => if Constants.READABILITY_MIN_WORDS <=? wordCount x then Some x else None
  | None => None
  end.

(** Step 3 of [extractContent]: the domain selectors. *)
Definition extractByDomainSelectors (cleanedHtml : string)
    (domainSelectors : option (list string)) : option ExtractionResult :=
  match domainSelectors with
  | Some (sel :: sels) =>
      match extractBySelectors cleanedHtml (sel :: sels) with
      | Some extracted =>
          if Js.truthy extracted then
            Some {| cleanHtml := extracted; extractionMethod := cms_pattern;
                    wordCount := countWords extracted; success := true |}
          else None
      | None => None
      end
  | _ => None
  end.

(** Steps 1 and 2 of [extractContent]. *)
Definition cleanedHtmlOf (html : string) (removeSelectors : option (list string)) : string :=
  let cleaned0 := cleanHtmlOf html in
  match removeSelectors with
  | Some (sel :: sels) => removeElements cleaned0 (sel :: sels)
  | _ => cleaned0
  end.

Definition extractContent (html url : string)
    (domainSelectors removeSelectors : option (list string)) : ExtractionResult :=
  if Js.truthy html then
    let cleanedHtml := cleanedHtmlOf html removeSelectors in
    match accepted (extractByDomainSelectors cleanedHtml domainSelectors) with
    | Some r => r
    | None =>
    match accepted (extractWithReadability cleanedHtml url) with
    | Some r => r
    | None =>
    match accepted (extractBySemantic cleanedHtml) with
    | Some r => r
    | None =>
    match accepted (extractByCmsPatterns cleanedHtml) with
    | Some r => r
    | None =>
        {| cleanHtml := cleanedHtml; extractionMethod := fallback;
           wordCount := countWords cleanedHtml; success := true |}
    end end end end
  else
    {| cleanHtml := ""; extractionMethod := fallback; wordCount := 0;
       success := false |}.

End WithDom.
End Extract.

(** ** src/core/crawler.ts *)
Module Crawler.
Import Types Extract.

Record PageMetadata := {
  m_title : option string;
  m_h1 : option string;
  m_metaDescription : option string
}.

Record DomainOverride := {
  main_content_selectors : option (list string);
  remove_selectors : option (list string)
}.

(** What the request handler calls outside the extraction: the URL
    normalizer, the metadata parser, the override lookup, Turndown, the
    junk score and the navigation extractor (as the JSON text stored). *)
Class Services := {
  normalizeUrl : string -> option string;      (* [None]: it raises *)
  extractDomain : string -> option string;     (* [None]: it raises *)
  extractMetadata : string -> string -> PageMetadata;
  getDomainOverride : string -> option DomainOverride;
  htmlToMarkdown : string -> string -> option string -> string;
  calculateJunkScore : string -> Q;
  extractNavStructure : string -> string -> string
}.

(** Crawlee's request, with the two entries of [userData]. *)
Record Request := {
  url : string;
  loadedUrl : option string;
  originalUrl : option string;
  sitemapTypeHint : option string
}.

Section WithServices.
Context `{Dom} `{Services}.

(** The status classification of the request handler. *)
Definition classify (statusCode : Z) : CrawlStatus :=
  if (statusCode =? 404) || (statusCode =? 410) then NOT_FOUND
  else if 400 <=? statusCode then ERROR
  else OK.

(** [a || b] where [a] may be undefined. *)
Definition orString (a : option string) (b : string) : string :=
  match Js.orNull a with
  | Some s => s
  | None => b
  end.

(** The override lookup and the extraction of the request handler;
    [None] when [extractDomain] raises. *)
Definition extractionFor (finalUrl htmlContent : string) : option ExtractionResult :=
  domain ← extractDomain finalUrl;
  let domainOverride := getDomainOverride domain in
  Some (extractContent htmlContent finalUrl
          (domainOverride ≫= main_content_selectors)
          (domainOverride ≫= remove_selectors)).

(** The object [pageData] the request handler builds for a response with
    the status [statusCode] (absent when there is no response) and the
    body [body]; [None] when a normalizer raises. *)
Definition pageDataOf (runId : string) (request : Request)
    (statusCode : option Z) (body : string) : option CrawlerPageInsert :=
  let loaded := orString (loadedUrl request) (url request) in
  let requestedUrl := orString (originalUrl request) loaded in
  finalUrl ← normalizeUrl loaded;
  let status := Js.orZero statusCode in
  let redirectChain :=
    if String.eqb requestedUrl finalUrl then [] else [requestedUrl; finalUrl] in
  let crawlStatus := classify status in
  let htmlContent := body in
  let metadata := extractMetadata htmlContent finalUrl in
  extraction ← extractionFor finalUrl htmlContent;
  let markdown :=
    if success extraction
    then htmlToMarkdown (cleanHtml extraction) finalUrl (m_h1 metadata)
    else "" in
  let contentHash :=
    Hash.hashHtmlContent (Js.orElse (cleanHtml extraction) htmlContent) in
  let junkScore :=
    calculateJunkScore (Js.orElse (cleanHtml extraction) htmlContent) in
  let navStructure := extractNavStructure htmlContent finalUrl in
  Some {|
    final_url := finalUrl;
    requested_url_original := Some requestedUrl;
    status_code := Some status;
    crawl_status := crawlStatus;
    redirect_chain :=
      match redirectChain with [] => None | _ => Some redirectChain end;
    html_content := Some htmlContent;
    clean_html := Some (cleanHtml extraction);
    markdown := Some markdown;
    nav_structure := Some navStructure;
    title := Js.orNull (m_title metadata);
    h1 := Js.orNull (m_h1 metadata);
    meta_description := Js.orNull (m_metaDescription metadata);
    word_count := Some (wordCount extraction);
    content_hash := Some contentHash;
    sitemap_type_hint := Js.orNull (sitemapTypeHint request);
    fetch_mode := Some cheerio;
    extraction_method := Some (extractionMethod extraction);
    junk_score := Some junkScore;
    last_error := None;
    run_id := Some runId
  |}.

(** The object the failed-request handler builds. *)
Definition failedPageDataOf (runId : string) (request : Request)
    (message : string) : option CrawlerPageInsert :=
  finalUrl ← normalizeUrl (url request);
  Some {|
    final_url := finalUrl;
    requested_url_original := Some (url request);
    status_code := None;
    crawl_status := ERROR;
    redirect_chain := None;
    html_content := None;
    clean_html := None;
    markdown := None;
    nav_structure := None;
    title := None;
    h1 := None;
    meta_description := None;
    word_count := None;
    content_hash := None;
    sitemap_type_hint := None;
    fetch_mode := None;
    extraction_method := None;
    junk_score := None;
    last_error := Some message;
    run_id := Some runId
  |}.

End WithServices.
End Crawler.

(** ** src/types/enhancedMarkdown.types.ts and
       src/extraction/enhancedMarkdownConverter.ts *)
Module EnhancedMarkdown.

Definition nl : ascii := "010".

(** [[A-Z_]]. *)
Definition isNameChar (c : ascii) : bool :=
  let n := nat_of_ascii c in
  ((65 <=? n) && (n <=? 90) || (n =? 95))%nat.

(** [span p l]: the longest prefix of [l] within [p], and the rest. *)
Fixpoint span (p : ascii -> bool) (l : list ascii) : list ascii * list ascii :=
  match l with
  | c :: r => if p c then let '(a, b) := span p r in (c :: a, b) else ([], l)
  | [] => ([], [])
  end.

(** [literal lit l]: what follows [lit] when [l] starts with it. *)
Fixpoint literal (lit l : list ascii) : option (list ascii) :=
  match lit, l with
  | [], _ => Some l
  | _ :: _, [] => None
  | a :: lit', c :: l' => if Ascii.eqb a c then literal lit' l' else None
  end.

(** [[A-Z_]+] at the start of [l]: the name and the rest.  The class holds
    none of the characters that follow a name in the patterns below, so the
    longest name is the only one a match can use. *)
Definition name (l : list ascii) : option (list ascii * list ascii) :=
  match span isNameChar l with
  | ([], _) => None
  | r => Some r
  end.

(** [STRUCT_MARKER_REGEX = /<!-- STRUCT:[A-Z_]+:[A-Z_]+ -->/g] at the start
    of [l]: what follows the marker. *)
Definition marker (l : list ascii) : option (list ascii) :=
  r1 ← literal (Js.chars "<!-- STRUCT:") l;
  '(_, r2) ← name r1;
  r3 ← literal (Js.chars ":") r2;
  '(_, r4) ← name r3;
  literal (Js.chars " -->") r4.

(** [md.replace(STRUCT_MARKER_REGEX, '')]. *)
Definition removeMarkers (l : list ascii) : list ascii :=
  Regex.replaceAll (fun l => rest ← marker l; Some ([], rest)) l.

(** [md.replace(/\n{3,}/g, '\n\n')]: of a run of line feeds the first two
    stay; [run] counts the line feeds of the run read so far. *)
Fixpoint collapseNewlines (run : nat) (l : list ascii) : list ascii :=
  match l with
  | [] => []
  | c :: r =>
      if Ascii.eqb c nl then
        (if (run <? 2)%nat then c :: collapseNewlines (S run) r
         else collapseNewlines (S run) r)
      else c :: collapseNewlines 0 r
  end.

(** [/<!-- STRUCT:([A-Z_]+):START -->\n\n/g] to
    ['<!-- STRUCT:$1:START -->\n'], at the start of [l]. *)
Definition startThenBlank (l : list ascii) : option (list ascii * list ascii) :=
  r1 ← literal (Js.chars "<!-- STRUCT:") l;
  '(n, r2) ← name r1;
  r3 ← literal (Js.chars ":START -->") r2;
  r4 ← literal [nl; nl] r3;
  Some ((Js.chars "<!-- STRUCT:" ++ n ++ Js.chars ":START -->" ++ [nl])%list, r4).

(** [/\n\n<!-- STRUCT:([A-Z_]+):END -->/g] to ['\n<!-- STRUCT:$1:END -->']. *)
Definition blankThenEnd (l : list ascii) : option (list ascii * list ascii) :=
  r0 ← literal [nl; nl] l;
  r1 ← literal (Js.chars "<!-- STRUCT:") r0;
  '(n, r2) ← name r1;
  r3 ← literal (Js.chars ":END -->") r2;
  Some (([nl] ++ Js.chars "<!-- STRUCT:" ++ n ++ Js.chars ":END -->")%list, r3).

Definition postProcessEnhancedMarkdown (markdown : string) : string :=
  let p1 := collapseNewlines 0 (Js.chars markdown) in
  let p2 := Regex.replaceAll startThenBlank p1 in
  let p3 := Regex.replaceAll blankThenEnd p2 in
  Js.str (Js.trimChars p3).

(** [convertWithMarkers], from what Turndown returns for the marked HTML. *)
Definition convertWithMarkers (turndownOutput : string) (h1 : option string)
    (includeH1 : bool) : string :=
  let markdown := postProcessEnhancedMarkdown turndownOutput in
  match Js.orNull h1 with
  | Some h =>
      if includeH1 then "# " ++ Js.trim h ++ Js.str [nl; nl] ++ markdown
      else markdown
  | None => markdown
  end.

(** Steps 4 and 5 of [htmlToEnhancedMarkdown]: the plain Markdown of a
    marked one. *)
Definition plainMarkdownOf (markedMarkdown : string) : string :=
  let plainMarkdown :=
    Js.trimChars (removeMarkers (Js.chars markedMarkdown)) in
  Js.str (Js.trimChars (collapseNewlines 0 plainMarkdown)).

(** The two Markdown fields of [htmlToEnhancedMarkdown]'s result. *)
Record EnhancedMarkdownResult := {
  markdown : string;
  plainMarkdown : string
}.

Definition htmlToEnhancedMarkdown (turndownOutput : string)
    (h1 : option string) (includeH1 : bool) : EnhancedMarkdownResult :=
  let markedMarkdown := convertWithMarkers turndownOutput h1 includeH1 in
  {| markdown := markedMarkdown; plainMarkdown := plainMarkdownOf markedMarkdown |}.

(** [stripStructuralMarkers]. *)
Definition stripStructuralMarkers (markdown : string) : string :=
  Js.str (Js.trimChars (collapseNewlines 0 (removeMarkers (Js.chars markdown)))).

(** The regex and the collapse alone, with no trim. *)
Definition stripAndCollapse (markdown : string) : string :=
  Js.str (collapseNewlines 0 (removeMarkers (Js.chars markdown))).

End EnhancedMarkdown.

(** ** src/extraction/markdownConverter.ts: the [smartLists] rule *)
Module MarkdownConverter.

(** A DOM node as Turndown walks it; [nodeName] is upper case. *)
Inductive Node :=
  | Element (nodeName : string) (children : list Node)
  | TextNode (data : string).

Fixpoint descendants (n : Node) : list Node :=
  match n with
  | Element _ cs => flat_map (fun c => c :: descendants c) cs
  | TextNode _ => []
  end.

Definition hasName (name : string) (n : Node) : bool :=
  match n with
  | Element t _ => String.eqb t name
  | TextNode _ => false
  end.

(** [node.querySelectorAll(tag)] for a tag name. *)
Definition querySelectorAll (tag : string) (n : Node) : list Node :=
  filter (fun d => hasName tag d = true) (descendants n).

Definition isList (node : Node) : bool := hasName "UL" node || hasName "OL" node.

(** The filter of the rule [smartLists].  [links / items > 0.8] is taken
    on the integers as [5 * links > 4 * items]: the quotient of two counts
    below 10^15 rounds to a double above the double 0.8 exactly then. *)
Definition smartLists (node : Node) : bool :=
  if isList node then
    let listItems := length (querySelectorAll "LI" node) in
    let linksInList := length (querySelectorAll "A" node) in
    ((0 <? listItems) && (4 * listItems <? 5 * linksInList))%nat
  else false.

Section Turndown.
(** The replacement the remaining rules of the service give a node, from
    the converted content of its children. *)
Variable otherRules : Node -> string -> string.

(** Turndown's walk: the children first, then the rule that claims the
    node.  Of the rules [createTurndownService] adds only [smartLists]
    filters lists, and its replacement is the empty string. *)
Fixpoint turndown (n : Node) : string :=
  match n with
  | TextNode d => otherRules n d
  | Element _ cs =>
      let content := String.concat "" (map turndown cs) in
      if smartLists n then "" else otherRules n content
  end.

End Turndown.

(** The list items that are links: the [li] descendants holding an [a]. *)
Definition linkItems (node : Node) : list Node :=
  filter (fun li => querySelectorAll "A" li <> []) (querySelectorAll "LI" node).

(** The rule as the specification words it: a list is a navigation list
    exactly when at least 80% of its items are links. *)
Definition atLeast80PercentLinks (node : Node) : bool :=
  isList node
  && (4 * length (querySelectorAll "LI" node) <=? 5 * length (linkItems node))%nat.

End MarkdownConverter.

(** ** src/types/navigation.types.ts and src/extraction/navExtractor.ts *)
Module Nav.

Inductive LinkType := text | image | icon.

Record NavItem := {
  url : string;
  label : string;
  depth : nat;
  order : nat;
  parent_labels : option (list string);
  is_external : bool;
  link_type : LinkType
}.

Inductive LinkSourceType :=
  | contextual_body | faq_module | toc_or_jump | breadcrumb | primary_nav
  | footer | template_cta | repeated_block | related_posts | author_bio
  | testimonial.

Inductive StructuralElementType :=
  | s_faq_module | s_toc_or_jump | s_breadcrumb | s_template_cta
  | s_accordion | s_testimonial | s_author_bio | s_related_posts.

Record ContentLink := {
  cl_url : string;
  cl_label : string;
  source_type : LinkSourceType;
  nearest_heading : option string;
  body_position_pct : Z;
  cl_is_external : bool
}.

(** An anchor as the extractor reads it: [attr('href')]; the text of its
    own text nodes ([clone().children().remove().end().text()]); [text()];
    whether it holds an [img]; the [alt] of its first [img]; whether it
    holds one of [img, svg, i, .fa, .fas, .fab]. *)
Record Anchor := {
  href : option string;
  ownText : string;
  fullText : string;
  hasImg : bool;
  imgAlt : option string;
  hasIcon : bool
}.

(** A list item and its element children: an anchor, a [span] with its
    anchor children, a submenu (a [ul], or another element of the class
    [sub-menu]) with its [> li] children, or anything else. *)
Inductive Li :=
  | LiOf (children : list Child)
with Child :=
  | ChildA (a : Anchor)
  | ChildSpan (anchors : list Anchor)
  | ChildMenu (isUl : bool) (items : list Li)
  | ChildOther.

Definition childrenOf (li : Li) : list Child := let 'LiOf cs := li in cs.

(** [$li.find('> a, > span > a').first()]. *)
Fixpoint linkOrSpanLink (cs : list Child) : option Anchor :=
  match cs with
  | ChildA a :: _ => Some a
  | ChildSpan (a :: _) :: _ => Some a
  | _ :: r => linkOrSpanLink r
  | [] => None
  end.

(** [$li.find('> a').first()]. *)
Fixpoint directLink (cs : list Child) : option Anchor :=
  match cs with
  | ChildA a :: _ => Some a
  | _ :: r => directLink r
  | [] => None
  end.

(** [$li.find('> ul.sub-menu, > ul.dropdown-menu, > .sub-menu, > ul')], its
    first element's [> li]. *)
Fixpoint anySubmenu (cs : list Child) : option (list Li) :=
  match cs with
  | ChildMenu _ items :: _ => Some items
  | _ :: r => anySubmenu r
  | [] => None
  end.

(** [$li.find('> ul.sub-menu, > ul.dropdown-menu, > ul')], its first
    element's [> li]. *)
Fixpoint ulSubmenu (cs : list Child) : option (list Li) :=
  match cs with
  | ChildMenu true items :: _ => Some items
  | _ :: r => ulSubmenu r
  | [] => None
  end.

(** A menu container: whether it lies in (or is) an [li]; its [> li]; all
    the [li] below it, in document order. *)
Record Container := {
  withinLi : bool;
  topLevelItems : list Li;
  allItems : list Li
}.

Definition startsWith (p s : string) : bool :=
  match EnhancedMarkdown.literal (Js.chars p) (Js.chars s) with
  | Some _ => true
  | None => false
  end.

Fixpoint includesChars (p l : list ascii) : bool :=
  match EnhancedMarkdown.literal p l with
  | Some _ => true
  | None => match l with _ :: r => includesChars p r | [] => false end
  end.

Definition includes (p s : string) : bool := includesChars (Js.chars p) (Js.chars s).

Definition toLowerCase (s : string) : string := Js.str (map Regex.lowerChar (Js.chars s)).

Definition UTILITY_LINK_PROTOCOLS : list string := ["tel:"; "mailto:"; "sms:"; "whatsapp:"].

Definition SOCIAL_DOMAINS : list string :=
  [ "facebook.com"; "instagram.com"; "twitter.com"; "x.com"; "youtube.com";
    "linkedin.com"; "tiktok.com"; "pinterest.com"; "maps.google.com";
    "goo.gl/maps"; "yelp.com" ].

Definition isUtilityLink (u : string) : bool :=
  let lowerUrl := toLowerCase u in
  existsb (fun p => startsWith p lowerUrl) UTILITY_LINK_PROTOCOLS
  || existsb (fun d => includes d lowerUrl) SOCIAL_DOMAINS.

(** An [a[href]] of a language switcher as the extractor reads it:
    [attr('href')], [text()], [attr('hreflang')], [attr('class')]. *)
Record LangLink := {
  ll_href : option string;
  ll_text : string;
  ll_hreflang : option string;
  ll_class : option string
}.

Definition isAsciiLetter (c : ascii) : bool :=
  let n := nat_of_ascii (Regex.lowerChar c) in ((97 <=? n) && (n <=? 122))%nat.

(** [classes.match(/lang[_-]([a-z]{2})/i)]: the group of the first match. *)
Fixpoint langMatch (l : list ascii) : option (list ascii) :=
  match
    match Regex.stripPrefix (Js.chars "lang") l with
    | Some (sep :: a :: b :: _) =>
        if (Ascii.eqb sep "_" || Ascii.eqb sep "-")
           && isAsciiLetter a && isAsciiLetter b
        then Some [a; b] else None
    | _ => None
    end
  with
  | Some group => Some group
  | None => match l with _ :: r => langMatch r | [] => None end
  end.

(** What the extractor takes from the URL API, from the structural
    detector and from the string library. *)
Class Env := {
  normalizeUrlSafe : string -> string -> string;
  isExternalLink : string -> string -> bool;
  (** [Math.round((index / Math.max(totalLinks, 1)) * 100)] *)
  positionPct : nat -> nat -> Z;
  (** [String.prototype.toUpperCase] *)
  toUpperCase : string -> string
}.

Section WithEnv.
Context `{Env}.
Variable baseUrl : string.

Definition attrOr (a : option string) : string := default "" a.

(** The label of a menu link. *)
Definition menuLabel (a : Anchor) : string :=
  Js.orElse (Js.trim (ownText a)) (Js.trim (fullText a)).

Definition linkTypeOf (a : Anchor) : LinkType := if hasImg a then image else text.

(** The body of the loop of [extractSubmenuItems] for the [li] at [index];
    [deeper] extracts a deeper submenu into the items. *)
Definition submenuItem (deeper : list Li -> list NavItem -> list string -> list NavItem)
    (parentLabels : list string) (depth : nat)
    (items : list NavItem) (index : nat) (li : Li) : list NavItem :=
  match directLink (childrenOf li) with
  | None => items
  | Some link =>
      let h := attrOr (href link) in
      let lbl := menuLabel link in
      if negb (Js.truthy h) || negb (Js.truthy lbl) then items
      else if String.eqb h "#" || startsWith "javascript:" h then items
      else
        let items1 := (items ++ [ {|
          url := normalizeUrlSafe h baseUrl;
          label := lbl;
          depth := depth;
          order := index;
          parent_labels := Some parentLabels;
          is_external := isExternalLink h baseUrl;
          link_type := linkTypeOf link |} ])%list in
        match ulSubmenu (childrenOf li) with
        | Some sub => deeper sub items1 (parentLabels ++ [lbl])%list
        | None => items1
        end
  end.

(** [each((index, li) => ...)] over a list, threading the items. *)
Fixpoint eachIndexed {A} (f : list NavItem -> nat -> A -> list NavItem)
    (index : nat) (l : list A) (items : list NavItem) : list NavItem :=
  match l with
  | [] => items
  | x :: r => eachIndexed f (S index) r (f items index x)
  end.

(** [extractSubmenuItems] at the depth [4 - levels]: with no level left the
    depth is above 3 and the call returns at once. *)
Fixpoint extractSubmenuItems (levels : nat) (submenu : list Li)
    (items : list NavItem) (parentLabels : list string) : list NavItem :=
  match levels with
  | O => items
  | S lv =>
      eachIndexed
        (submenuItem (fun sub its labels => extractSubmenuItems lv sub its labels)
           parentLabels (4 - levels))
        0 submenu items
  end.

(** The body of the loop of [extractMenuItems]. *)
Definition menuItem (skipNested : bool) (items : list NavItem) (li : Li) : list NavItem :=
  if skipNested then items
  else
    match linkOrSpanLink (childrenOf li) with
    | None => items
    | Some link =>
        let h := attrOr (href link) in
        let lbl := menuLabel link in
        if negb (Js.truthy lbl) then items
        else
          let submenu := anySubmenu (childrenOf li) in
          let hasSubmenu := bool_decide (is_Some submenu) in
          if negb hasSubmenu
             && (negb (Js.truthy h) || String.eqb h "#" || startsWith "javascript:" h)
          then items
          else
            let items1 := (items ++ [ {|
              url := if Js.truthy h && negb (String.eqb h "#")
                     then normalizeUrlSafe h baseUrl else "#";
              label := lbl;
              depth := 0;
              order := length items;
              parent_labels := None;
              is_external := isExternalLink h baseUrl;
              link_type := linkTypeOf link |} ])%list in
            match submenu with
            | Some sub => extractSubmenuItems 3 sub items1 [lbl]
            | None => items1
            end
    end.

Definition extractMenuItems (container : Container) : list NavItem :=
  match topLevelItems container with
  | [] => fold_left (menuItem false) (allItems container) []
  | tops => fold_left (menuItem (withinLi container)) tops []
  end.

(** A cluster and the selector that found it. *)
Record ExtractedCluster := {
  items : list NavItem;
  selector : option string
}.

(** [extractFooterNav]: [candidates] pairs each of FOOTER_NAV_SELECTORS
    with its first element, when there is one; [fallbacks] pairs each
    fallback selector with the [a[href]] below its first element. *)
Definition footerFallbackItem (items : list NavItem) (a : Anchor) : list NavItem :=
  let h := attrOr (href a) in
  let lbl := Js.trim (fullText a) in
  if Js.truthy h && Js.truthy lbl && negb (isUtilityLink h) then
    let u := normalizeUrlSafe h baseUrl in
    if existsb (fun item => String.eqb (url item) u) items then items
    else (items ++ [ {|
      url := u; label := lbl; depth := 0; order := length items;
      parent_labels := None; is_external := isExternalLink h baseUrl;
      link_type := text |} ])%list
  else items.

Fixpoint footerFallback (fallbacks : list (string * option (list Anchor))) : ExtractedCluster :=
  match fallbacks with
  | [] => {| items := []; selector := None |}
  | (sel, None) :: rest => footerFallback rest
  | (sel, Some links) :: rest =>
      let its := fold_left footerFallbackItem links [] in
      if (2 <=? length its)%nat
      then {| items := take 20 its; selector := Some (sel ++ " (fallback)") |}
      else footerFallback rest
  end.

Fixpoint extractFooterNav (candidates : list (string * option Container))
    (fallbacks : list (string * option (list Anchor))) : ExtractedCluster :=
  match candidates with
  | [] => footerFallback fallbacks
  | (sel, None) :: rest => extractFooterNav rest fallbacks
  | (sel, Some container) :: rest =>
      let its := extractMenuItems container in
      if (2 <=? length its)%nat then {| items := its; selector := Some sel |}
      else extractFooterNav rest fallbacks
  end.

(** [extractPrimaryNav]: [candidates] as above for PRIMARY_NAV_SELECTORS;
    [anyMenu] is the first element of ['ul.menu, nav ul']. *)
Fixpoint extractPrimaryNav (candidates : list (string * option Container))
    (anyMenu : option Container) : ExtractedCluster :=
  match candidates with
  | [] =>
      match anyMenu with
      | Some container =>
          let cleanItems :=
            filter (fun item => is_external item = false
                                /\ isUtilityLink (url item) = false)
                   (extractMenuItems container) in
          if (3 <=? length cleanItems)%nat
          then {| items := cleanItems; selector := Some "ul.menu (fallback)" |}
          else {| items := []; selector := None |}
      | None => {| items := []; selector := None |}
      end
  | (sel, None) :: rest => extractPrimaryNav rest anyMenu
  | (sel, Some container) :: rest =>
      let its := extractMenuItems container in
      let internalLinks := filter (fun item => is_external item = false) its in
      let cleanItems := filter (fun item => isUtilityLink (url item) = false) its in
      if (3 <=? length internalLinks)%nat && (3 <=? length cleanItems)%nat
      then {| items := cleanItems; selector := Some sel |}
      else extractPrimaryNav rest anyMenu
  end.

(** [extractUtilityLinks]: [containers] pairs each of UTILITY_SELECTORS
    that matches with the [a[href]] below its elements; [headerContacts]
    are the [tel:] and [mailto:] links of the header. *)
Definition utilityItem (sel : string)
    (st : list NavItem * option string) (a : Anchor) : list NavItem * option string :=
  let '(allItems, usedSelector) := st in
  let h := attrOr (href a) in
  let lbl := Js.orElse (Js.trim (fullText a)) (attrOr (imgAlt a)) in
  if Js.truthy h && (isUtilityLink h || isExternalLink h baseUrl) then
    if existsb (fun item => String.eqb (url item) h) allItems then st
    else ((allItems ++ [ {|
      url := h; label := Js.orElse lbl "[icon]"; depth := 0;
      order := length allItems; parent_labels := None;
      is_external := isExternalLink h baseUrl;
      link_type := if hasIcon a then icon else text |} ])%list,
      match usedSelector with Some s => Some s | None => Some sel end)
  else st.

(** [href.replace(/^(tel:|mailto:)/, '')]. *)
Definition stripContactScheme (h : string) : string :=
  match EnhancedMarkdown.literal (Js.chars "tel:") (Js.chars h) with
  | Some r => Js.str r
  | None =>
      match EnhancedMarkdown.literal (Js.chars "mailto:") (Js.chars h) with
      | Some r => Js.str r
      | None => h
      end
  end.

Definition headerContactItem (allItems : list NavItem) (a : Anchor) : list NavItem :=
  let h := attrOr (href a) in
  let lbl := Js.orElse (Js.trim (fullText a)) (stripContactScheme h) in
  if existsb (fun item => String.eqb (url item) h) allItems then allItems
  else (allItems ++ [ {|
    url := h; label := lbl; depth := 0; order := length allItems;
    parent_labels := None; is_external := false; link_type := text |} ])%list.

Definition extractUtilityLinks (containers : list (string * list Anchor))
    (headerContacts : list Anchor) : ExtractedCluster :=
  let '(allItems, usedSelector) :=
    fold_left (fun st c => fold_left (utilityItem c.1) c.2 st) containers ([], None) in
  {| items := fold_left headerContactItem headerContacts allItems;
     selector := usedSelector |}.

(** [extractLanguageSwitcher]: [containers] pairs each of
    LANGUAGE_SWITCHER_SELECTORS that matches with the [a[href]] below its
    elements. *)
Definition languageLabel (a : LangLink) : string :=
  let label := Js.trim (ll_text a) in
  let hreflang := attrOr (ll_hreflang a) in
  let label :=
    if negb (Js.truthy label) && Js.truthy hreflang then toUpperCase hreflang
    else label in
  if negb (Js.truthy label) then
    match langMatch (Js.chars (attrOr (ll_class a))) with
    | Some group => toUpperCase (Js.str group)
    | None => label
    end
  else label.

(** The guard of the push: [href && label && label.length <= 10]. *)
Definition languageKeeps (a : LangLink) : bool :=
  Js.truthy (attrOr (ll_href a)) && Js.truthy (languageLabel a)
  && (String.length (languageLabel a) <=? 10)%nat.

Definition languageItem (items : list NavItem) (index : nat) (a : LangLink)
    : list NavItem :=
  if languageKeeps a then
    (items ++ [ {|
      url := normalizeUrlSafe (attrOr (ll_href a)) baseUrl;
      label := languageLabel a; depth := 0; order := index;
      parent_labels := None; is_external := false; link_type := text |} ])%list
  else items.

Fixpoint extractLanguageSwitcher (containers : list (string * list LangLink))
    : ExtractedCluster :=
  match containers with
  | [] => {| items := []; selector := None |}
  | (sel, links) :: rest =>
      let its := eachIndexed languageItem 0 links [] in
      if (2 <=? length its)%nat && (length its <=? 10)%nat
      then {| items := its; selector := Some sel |}
      else extractLanguageSwitcher rest
  end.

(** An [a[href]] of the main content as [extractContentLinks] reads it:
    the attribute; whether [closest(CONTENT_EXCLUDE_SELECTORS)] finds an
    ancestor; [text()]; the [alt] of its first [img]; the structural
    element at [html.indexOf($.html($link))], when there is one; the text of
    the nearest heading among its previous siblings, and among its
    parent's. *)
Record LinkEl := {
  l_href : option string;
  l_excluded : bool;
  l_text : string;
  l_imgAlt : option string;
  l_structural : option StructuralElementType;
  l_prevHeading : option string;
  l_parentPrevHeading : option string
}.

Definition mapStructuralType (t : StructuralElementType) : LinkSourceType :=
  match t with
  | s_faq_module => faq_module
  | s_toc_or_jump => toc_or_jump
  | s_breadcrumb => breadcrumb
  | s_template_cta => template_cta
  | s_accordion => faq_module
  | s_testimonial => testimonial
  | s_author_bio => author_bio
  | s_related_posts => related_posts
  end.

(** The state of the loop: the links pushed, [seenUrls], [currentHeading]. *)
Record LinkState := {
  contentLinks : list ContentLink;
  seenUrls : gset string;
  currentHeading : option string
}.

Definition contentLabel (l : LinkEl) : string :=
  Js.orElse (Js.trim (l_text l)) (attrOr (l_imgAlt l)).

(** The links the loop does not return from before it looks at the URL. *)
Definition qualifies (l : LinkEl) : bool :=
  let h := attrOr (l_href l) in
  Js.truthy h && negb (String.eqb h "#") && negb (startsWith "javascript:" h)
  && negb (l_excluded l) && Js.truthy (contentLabel l).

Definition contentLinkStep (totalLinks : nat) (st : LinkState)
    (index : nat) (l : LinkEl) : LinkState :=
  let h := attrOr (l_href l) in
  if negb (Js.truthy h) || String.eqb h "#" || startsWith "javascript:" h then st
  else if l_excluded l then st
  else
    let lbl := contentLabel l in
    if negb (Js.truthy lbl) then st
    else
      let u := normalizeUrlSafe h baseUrl in
      if decide (u ∈ seenUrls st) then st
      else
        let sourceType0 :=
          match l_structural l with
          | Some t => mapStructuralType t
          | None => contextual_body
          end in
        let sourceType :=
          if startsWith "#" h || (includes "#" h && startsWith baseUrl h)
          then toc_or_jump else sourceType0 in
        let heading :=
          match l_prevHeading l, l_parentPrevHeading l with
          | Some t, _ => Some (Js.trim t)
          | None, Some t => Some (Js.trim t)
          | None, None => currentHeading st
          end in
        {| contentLinks := (contentLinks st ++ [ {|
             cl_url := u;
             cl_label := lbl;
             source_type := sourceType;
             nearest_heading := Js.orNull heading;
             body_position_pct := positionPct index totalLinks;
             cl_is_external := isExternalLink h baseUrl |} ])%list;
           seenUrls := {[ u ]} ∪ seenUrls st;
           currentHeading := heading |}.

Fixpoint eachLink (totalLinks : nat) (index : nat) (links : list LinkEl)
    (st : LinkState) : LinkState :=
  match links with
  | [] => st
  | l :: r => eachLink totalLinks (S index) r (contentLinkStep totalLinks st index l)
  end.

(** [extractContentLinks] on the [a[href]] of the main content, in
    document order. *)
Definition extractContentLinks (links : list LinkEl) : list ContentLink :=
  contentLinks
    (eachLink (length links) 0 links
       {| contentLinks := []; seenUrls := ∅; currentHeading := None |}).

(** The first occurrence of every key, in order. *)
Fixpoint firstOccurrences {A} (key : A -> string) (seen : gset string)
    (l : list A) : list A :=
  match l with
  | [] => []
  | x :: r =>
      if decide (key x ∈ seen) then firstOccurrences key seen r
      else x :: firstOccurrences key ({[ key x ]} ∪ seen) r
  end.

End WithEnv.
End Nav.

(** ** src/core/urlNormalizer.ts *)
Module Url.

(** The outcome of a call: a value, an exception, or an input on which the
    model of the platform's [URL] does not speak. *)
Inductive Result (A : Type) :=
  | Ok (a : A)
  | Raises
  | Unmodelled.
Arguments Ok {A} a.
Arguments Raises {A}.
Arguments Unmodelled {A}.

Definition bind {A B} (r : Result A) (f : A -> Result B) : Result B :=
  match r with
  | Ok a => f a
  | Raises => Raises
  | Unmodelled => Unmodelled
  end.

#[global] Instance Result_bind : MBind Result := fun A B f r => bind r f.

(** *** The platform's [URL], on the URLs the model covers

    The model reads [http(s)://host[:port][/path][?query][#fragment]] with a
    host of dot-separated labels over letters, digits and hyphens whose
    last label starts with a letter, a path over the characters the parser
    leaves as they are, and a query over letters, digits and [-._*=&] whose
    values hold no [=].
    Other inputs are [Unmodelled], but for the failures modelled: no host,
    and a port that is no number below 65536. *)

Record URL := {
  scheme : list ascii;
  hostname : list ascii;
  port : option N;
  path : list (list ascii);
  query : option (list ascii)
}.

Definition isDigit (c : ascii) : bool :=
  let n := nat_of_ascii c in ((48 <=? n) && (n <=? 57))%nat.
Definition isLower (c : ascii) : bool :=
  let n := nat_of_ascii c in ((97 <=? n) && (n <=? 122))%nat.
Definition isUpper (c : ascii) : bool :=
  let n := nat_of_ascii c in ((65 <=? n) && (n <=? 90))%nat.
Definition isAlnum (c : ascii) : bool := isDigit c || isLower c || isUpper c.
Definition oneOf (s : string) (c : ascii) : bool :=
  existsb (Ascii.eqb c) (Js.chars s).

Definition isPathChar (c : ascii) : bool := isAlnum c || oneOf "-._~!$&'()*+,;=:@/" c.
Definition isQueryChar (c : ascii) : bool := isAlnum c || oneOf "-._*=&" c.
Definition isPrintable (c : ascii) : bool :=
  let n := nat_of_ascii c in ((33 <=? n) && (n <=? 126))%nat.

(** [splitOn c l]: the pieces of [l] between the occurrences of [c]. *)
Fixpoint splitOn (c : ascii) (l : list ascii) : list (list ascii) :=
  match l with
  | [] => [[]]
  | x :: r =>
      if Ascii.eqb x c then [] :: splitOn c r
      else match splitOn c r with
           | p :: ps => (x :: p) :: ps
           | [] => [[x]]
           end
  end.

(** [break p l]: [l] cut before its first character within [p]. *)
Fixpoint break (p : ascii -> bool) (l : list ascii) : list ascii * list ascii :=
  match l with
  | c :: r => if p c then ([], l) else let '(a, b) := break p r in (c :: a, b)
  | [] => ([], [])
  end.

Fixpoint dropSlashes (l : list ascii) : list ascii :=
  match l with
  | c :: r => if Ascii.eqb c "/" then dropSlashes r else l
  | [] => []
  end.

Definition lower (l : list ascii) : list ascii := map Regex.lowerChar l.

(** [/^https?:\/\//i]. *)
Definition hasHttpScheme (l : list ascii) : bool :=
  match Regex.stripPrefix (Js.chars "http://") l,
        Regex.stripPrefix (Js.chars "https://") l with
  | None, None => false
  | _, _ => true
  end.

(** The path state of the parser: a segment [..] drops the segment before
    it, a segment [.] is dropped, and either leaves an empty segment when
    it is the last. *)
Fixpoint pathSegments (acc : list (list ascii)) (segs : list (list ascii))
    : list (list ascii) :=
  match segs with
  | [] => acc
  | s :: rest =>
      let isLast := match rest with [] => true | _ => false end in
      if bool_decide (s = Js.chars "..") then
        let acc' := removelast acc in
        pathSegments (if isLast then acc' ++ [[]] else acc')%list rest
      else if bool_decide (s = Js.chars ".") then
        pathSegments (if isLast then acc ++ [[]] else acc)%list rest
      else pathSegments (acc ++ [s])%list rest
  end.

(** The path of a URL from the text of the path, empty or starting with a
    slash. *)
Definition parsePath (p : list ascii) : list (list ascii) :=
  match p with
  | [] => [[]]
  | _ :: r => pathSegments [] (splitOn "/" r)
  end.

Definition pathname (u : URL) : list ascii :=
  flat_map (fun s => "/"%char :: s) (path u).

Definition decimal (ds : list ascii) : N :=
  fold_left (fun n d => (10 * n + N.of_nat (nat_of_ascii d - 48))%N) ds 0%N.

Definition defaultPort (scheme : list ascii) : N :=
  if bool_decide (scheme = Js.chars "http") then 80%N else 443%N.

Definition parsePort (scheme ds : list ascii) : Result (option N) :=
  if forallb isDigit ds then
    match ds with
    | [] => Ok None
    | _ =>
        let n := decimal ds in
        if (65535 <? n)%N then Raises
        else if (n =? defaultPort scheme)%N then Ok None
        else Ok (Some n)
    end
  else Raises.

(** The hosts the model covers, lower case. *)
Definition coveredHost (h : list ascii) : bool :=
  let labels := splitOn "." h in
  forallb (fun l => match l with [] => false | _ => true end) labels
  && forallb (fun l => forallb (fun c => isDigit c || isLower c || Ascii.eqb c "-") l) labels
  && forallb (fun l => match Regex.stripPrefix (Js.chars "xn--") l with
                       | Some _ => false | None => true end) labels
  && match last labels with
     | Some (c :: _) => isLower c
     | _ => false
     end.

(** [new URL(input)] for an input that has the scheme. *)
Definition parse (input : list ascii) : Result URL :=
  if negb (forallb isPrintable input) || existsb (oneOf "\") input
  then Unmodelled else
  let '(sch, afterScheme) := break (Ascii.eqb ":") input in
  let sch := lower sch in
  let rest := dropSlashes (drop 1 afterScheme) in
  let '(authority, afterAuthority) := break (oneOf "/?#\") rest in
  if existsb (oneOf "@[]%") authority then Unmodelled else
  let '(host, afterHost) := break (Ascii.eqb ":") authority in
  let host := lower host in
  match host with
  | [] => Raises
  | _ =>
      if negb (coveredHost host) then Unmodelled else
      p ← parsePort sch (drop 1 afterHost);
      let '(pathText, afterPath) := break (oneOf "?#") afterAuthority in
      if negb (forallb isPathChar pathText) then Unmodelled else
      let '(q, _) :=
        match afterPath with
        | c :: r => if Ascii.eqb c "?" then break (Ascii.eqb "#") r else ([], [])
        | [] => ([], [])
        end in
      let hasQuery := match afterPath with
                      | c :: _ => Ascii.eqb c "?"
                      | [] => false
                      end in
      if negb (forallb isQueryChar q)
         || existsb (fun piece => (1 <? length (filter (fun c => c = "="%char) piece))%nat)
              (splitOn "&" q)
      then Unmodelled else
      Ok {| scheme := sch; hostname := host; port := p;
            path := parsePath pathText;
            query := if hasQuery then Some q else None |}
  end.

(** The decimal digits of a number. *)
Fixpoint digitsFuel (fuel : nat) (n : N) (acc : list ascii) : list ascii :=
  match fuel with
  | O => acc
  | S f =>
      let d := ascii_of_nat (48 + N.to_nat (n mod 10)) in
      if (n <? 10)%N then d :: acc else digitsFuel f (n / 10)%N (d :: acc)
  end.

(** [url.toString()]. *)
Definition href (u : URL) : list ascii :=
  (scheme u ++ Js.chars "://" ++ hostname u
   ++ match port u with
      | Some n => ":"%char :: digitsFuel 5 n []
      | None => []
      end
   ++ pathname u
   ++ match query u with
      | Some q => "?"%char :: q
      | None => []
      end)%list.

(** [url.search]: the query with its question mark, empty for no query and
    for the empty query. *)
Definition search (u : URL) : list ascii :=
  match query u with
  | Some (c :: q) => "?"%char :: c :: q
  | _ => []
  end.

(** [url.search = value] for a value over the query characters. *)
Definition setSearch (value : list ascii) (u : URL) : URL :=
  {| scheme := scheme u; hostname := hostname u; port := port u; path := path u;
     query := match value with
              | [] => None
              | c :: r => Some (if Ascii.eqb c "?" then r else value)
              end |}.

(** [url.pathname = value] for a value over the path characters that
    starts with a slash. *)
Definition setPathname (value : list ascii) (u : URL) : URL :=
  {| scheme := scheme u; hostname := hostname u; port := port u;
     path := parsePath value; query := query u |}.

(** *** [URLSearchParams], on queries over the query characters *)

Definition Pair : Type := list ascii * list ascii.

Definition parsePair (piece : list ascii) : Pair :=
  let '(n, v) := break (Ascii.eqb "=") piece in (n, drop 1 v).

(** [new URLSearchParams(search)]. *)
Definition parseParams (search : list ascii) : list Pair :=
  let body := match search with
              | c :: r => if Ascii.eqb c "?" then r else search
              | [] => []
              end in
  map parsePair (filter (fun p => p <> []) (splitOn "&" body)).

(** [params.delete(name)]. *)
Definition deleteParam (name : string) (ps : list Pair) : list Pair :=
  filter (fun p => p.1 <> Js.chars name) ps.

(** [params.toString()]. *)
Fixpoint serializeParams (ps : list Pair) : list ascii :=
  match ps with
  | [] => []
  | [(n, v)] => (n ++ "="%char :: v)%list
  | (n, v) :: rest => (n ++ "="%char :: v ++ "&"%char :: serializeParams rest)%list
  end.

Section Normalize.
(** [a.localeCompare(b)] of the process's locale, on parameter names. *)
Variable localeCompare : list ascii -> list ascii -> comparison.

(** [Array.prototype.sort] with the comparator of [normalizeUrl]; the sort
    is stable. *)
Fixpoint insertPair (x : Pair) (l : list Pair) : list Pair :=
  match l with
  | [] => [x]
  | y :: r =>
      match localeCompare y.1 x.1 with
      | Lt => y :: insertPair x r
      | _ => x :: l
      end
  end.

Definition sortPairs (l : list Pair) : list Pair := foldr insertPair [] l.

Definition normalizeChars (url : list ascii) : Result (list ascii) :=
  match url with
  | [] => Raises
  | _ =>
      let trimmed := Js.trimChars url in
      let normalized :=
        if hasHttpScheme trimmed then trimmed
        else (Js.chars "https://" ++ trimmed)%list in
      urlObj ← parse normalized;
      let searchParams :=
        fold_left (fun ps param => deleteParam param ps)
          Constants.TRACKING_PARAMS (parseParams (search urlObj)) in
      let sortedParams := sortPairs searchParams in
      let urlObj := setSearch (serializeParams sortedParams) urlObj in
      let p := pathname urlObj in
      let p' :=
        if negb (bool_decide (p = Js.chars "/"))
           && bool_decide (last p = Some "/"%char)
        then removelast p else p in
      let urlObj := setPathname p' urlObj in
      Ok (href urlObj)
  end.

(** [normalizeUrl(url)]. *)
Definition normalizeUrl (url : string) : Result string :=
  match normalizeChars (Js.chars url) with
  | Ok l => Ok (Js.str l)
  | Raises => Raises
  | Unmodelled => Unmodelled
  end.

(** [extractDomain(url)]. *)
Definition extractDomain (url : string) : Result string :=
  match normalizeChars (Js.chars url) with
  | Ok normalized =>
      match parse normalized with
      | Ok urlObj => Ok (Js.str (hostname urlObj))
      | Raises => Raises
      | Unmodelled => Unmodelled
      end
  | Raises => Raises
  | Unmodelled => Unmodelled
  end.

End Normalize.

(** Code-unit order, which [localeCompare] agrees with on lower-case
    letters and digits. *)
Fixpoint codeUnitCompare (a b : list ascii) : comparison :=
  match a, b with
  | [], [] => Eq
  | [], _ => Lt
  | _, [] => Gt
  | x :: a', y :: b' =>
      match Nat.compare (nat_of_ascii x) (nat_of_ascii y) with
      | Eq => codeUnitCompare a' b'
      | c => c
      end
  end.

End Url.

(** ** src/scripts: the two backfills, and the writes to the table *)
Module History.
Import Types.

(** [UPDATE crawler_pages SET markdown = ?, markdown_enhanced = ?,
    structural_stats = ? WHERE id = ?]. *)
Definition setMarkdown (plain marked stats : string) (r : Row) : Row := {|
  r_final_url := r_final_url r;
  r_requested_url_original := r_requested_url_original r;
  r_status_code := r_status_code r;
  r_crawl_status := r_crawl_status r;
  r_redirect_chain := r_redirect_chain r;
  r_html_content := r_html_content r;
  r_clean_html := r_clean_html r;
  r_markdown := Some plain;
  r_markdown_enhanced := Some marked;
  r_title := r_title r;
  r_h1 := r_h1 r;
  r_meta_description := r_meta_description r;
  r_word_count := r_word_count r;
  r_content_hash := r_content_hash r;
  r_sitemap_type_hint := r_sitemap_type_hint r;
  r_nav_structure := r_nav_structure r;
  r_structural_stats := Some stats;
  r_fetch_mode := r_fetch_mode r;
  r_extraction_method := r_extraction_method r;
  r_junk_score := r_junk_score r;
  r_last_crawled_at := r_last_crawled_at r;
  r_last_error := r_last_error r;
  r_run_id := r_run_id r
|}.

(** [UPDATE crawler_pages SET nav_structure = ? WHERE id = ?]. *)
Definition setNavStructure (nav : string) (r : Row) : Row := {|
  r_final_url := r_final_url r;
  r_requested_url_original := r_requested_url_original r;
  r_status_code := r_status_code r;
  r_crawl_status := r_crawl_status r;
  r_redirect_chain := r_redirect_chain r;
  r_html_content := r_html_content r;
  r_clean_html := r_clean_html r;
  r_markdown := r_markdown r;
  r_markdown_enhanced := r_markdown_enhanced r;
  r_title := r_title r;
  r_h1 := r_h1 r;
  r_meta_description := r_meta_description r;
  r_word_count := r_word_count r;
  r_content_hash := r_content_hash r;
  r_sitemap_type_hint := r_sitemap_type_hint r;
  r_nav_structure := Some nav;
  r_structural_stats := r_structural_stats r;
  r_fetch_mode := r_fetch_mode r;
  r_extraction_method := r_extraction_method r;
  r_junk_score := r_junk_score r;
  r_last_crawled_at := r_last_crawled_at r;
  r_last_error := r_last_error r;
  r_run_id := r_run_id r
|}.

Section WithServices.
Context `{Extract.Dom} `{Crawler.Services}.

(** The writes to [crawler_pages]: the two handlers' upserts, the two
    backfill scripts' updates of one row (the Markdown backfill from what
    Turndown returns for the row's marked HTML), and the deletion of a
    domain's rows ([deleted] is the set of keys the LIKE pattern selects). *)
Inductive step : Queries.Table -> Queries.Table -> Prop :=
  | step_crawled now runId request statusCode body page t :
      Crawler.pageDataOf runId request statusCode body = Some page ->
      step t (Queries.upsertPage now page t)
  | step_failed now runId request message page t :
      Crawler.failedPageDataOf runId request message = Some page ->
      step t (Queries.upsertPage now page t)
  | step_backfill_markdown key row turndownOutput stats t :
      t !! key = Some row ->
      is_Some (r_clean_html row) ->
      let result :=
        EnhancedMarkdown.htmlToEnhancedMarkdown turndownOutput (r_h1 row) true in
      step t (<[ key := setMarkdown (EnhancedMarkdown.plainMarkdown result)
                          (EnhancedMarkdown.markdown result) stats row ]> t)
  | step_backfill_nav key row nav t :
      t !! key = Some row ->
      is_Some (r_html_content row) ->
      r_nav_structure row = None ->
      step t (<[ key := setNavStructure nav row ]> t)
  | step_clear (deleted : gset string) t :
      step t (filter (fun kv => kv.1 ∉ deleted) t).

(** The tables a history of writes leaves, from the empty table. *)
Inductive reachable : Queries.Table -> Prop :=
  | reachable_empty : reachable ∅
  | reachable_step t t' : reachable t -> step t t' -> reachable t'.


End WithServices.
End History.

(** ** Concrete pages, rows and libraries, for the examples of Part II *)
Module Sample.
Import Types.

Definition digestA : string := "0cc9cd4dd26c5137b675a0d819cb9ab0".

(** A row as a first crawl of [https://ex.com/a] leaves it. *)
Definition storedRow : Row := {|
  r_final_url := "https://ex.com/a";
  r_requested_url_original := Some "https://ex.com/a";
  r_status_code := Some 200;
  r_crawl_status := OK;
  r_redirect_chain := None;
  r_html_content := Some "<p>a b</p>";
  r_clean_html := Some "a b";
  r_markdown := Some "a b";
  r_markdown_enhanced := None;
  r_title := Some "Old title";
  r_h1 := Some "Heading";
  r_meta_description := Some "About a";
  r_word_count := Some 120;
  r_content_hash := Some digestA;
  r_sitemap_type_hint := Some "page";
  r_nav_structure := Some "{old}";
  r_structural_stats := None;
  r_fetch_mode := Some cheerio;
  r_extraction_method := Some readability;
  r_junk_score := Some (1 # 4)%Q;
  r_last_crawled_at := 100;
  r_last_error := None;
  r_run_id := Some "run-1"
|}.

Definition storedTable : Queries.Table := {[ "https://ex.com/a" := storedRow ]}.

(** A second crawl of the page: the same content, a new title and a new
    navigation structure. *)
Definition recrawledPage : CrawlerPageInsert := {|
  final_url := "https://ex.com/a";
  requested_url_original := Some "https://ex.com/a";
  status_code := Some 200;
  crawl_status := OK;
  redirect_chain := None;
  html_content := Some "<p>a  b</p>";
  clean_html := Some "a  b";
  markdown := Some "a b";
  nav_structure := Some "{new}";
  title := Some "New title";
  h1 := Some "Heading";
  meta_description := Some "About a";
  word_count := Some 120;
  content_hash := Some digestA;
  sitemap_type_hint := Some "page";
  fetch_mode := Some cheerio;
  extraction_method := Some readability;
  junk_score := Some (1 # 4)%Q;
  last_error := None;
  run_id := Some "run-2"
|}.

(** The URL functions of the crawler on the model of [Url], with the
    code-unit order for the locale's. *)
Definition normalize (u : string) : option string :=
  match Url.normalizeUrl Url.codeUnitCompare u with
  | Url.Ok s => Some s
  | _ => None
  end.

Definition domainOf (u : string) : option string :=
  match Url.extractDomain Url.codeUnitCompare u with
  | Url.Ok s => Some s
  | _ => None
  end.

(** The services for pages whose metadata is [meta], on a site with the
    override [override]; Turndown leaves plain text as it is. *)
Definition services (meta : Crawler.PageMetadata)
    (override : option Crawler.DomainOverride) : Crawler.Services := {|
  Crawler.normalizeUrl := normalize;
  Crawler.extractDomain := domainOf;
  Crawler.extractMetadata := fun _ _ => meta;
  Crawler.getDomainOverride := fun _ => override;
  Crawler.htmlToMarkdown := fun html _ _ => html;
  Crawler.calculateJunkScore := fun _ => 0%Q;
  Crawler.extractNavStructure := fun _ _ => "{}"
|}.

Definition noMetadata : Crawler.PageMetadata :=
  {| Crawler.m_title := None; Crawler.m_h1 := None;
     Crawler.m_metaDescription := None |}.

(** jsdom and Readability on a document that is plain text: nothing to
    clean, no element to select, no article. *)
Definition plainText : Extract.Dom := {|
  Extract.domClean := fun html => html;
  Extract.domRemove := fun html _ => html;
  Extract.querySelector := fun _ _ => Extract.NoMatch;
  Extract.bodyTextContent := fun html => Some html;
  Extract.readabilityContent := fun _ _ => None
|}.

Definition requestA : Crawler.Request := {|
  Crawler.url := "https://ex.com/a";
  Crawler.loadedUrl := Some "https://ex.com/a";
  Crawler.originalUrl := Some "https://ex.com/a";
  Crawler.sitemapTypeHint := Some "page"
|}.

(** The URL functions of the navigation extractor on the model of [Url],
    for a base that is an origin and links that are absolute URLs or
    absolute paths: [new URL(url, baseUrl).href] is then the base followed
    by the path. *)
Definition absoluteUrl (u base : string) : string :=
  if Url.hasHttpScheme (Js.chars u) then u else base ++ u.

Definition hostOf (u : string) : option (list ascii) :=
  match Url.parse (Js.chars u) with
  | Url.Ok parsed => Some (Url.hostname parsed)
  | _ => None
  end.

Definition isProtocolLink (u : string) : bool :=
  Nav.startsWith "tel:" u || Nav.startsWith "mailto:" u.

(** [normalizeUrlSafe]: the [catch] gives the link back as it is. *)
Definition normalizeUrlSafe (u base : string) : string :=
  if isProtocolLink u then u
  else default u (normalize (if Nav.startsWith "http" u then u else absoluteUrl u base)).

Definition isExternalLink (u base : string) : bool :=
  if negb (Js.truthy u) || Nav.startsWith "#" u || Nav.startsWith "javascript:" u
  then false
  else if isProtocolLink u then false
  else match hostOf (absoluteUrl u base), hostOf base with
       | Some linkHost, Some baseHost => negb (bool_decide (linkHost = baseHost))
       | _, _ => false
       end.

(** [Math.round] takes the half up; the quotient is the exact one, as the
    floating-point one is on the few links of the samples. *)
Definition navEnv : Nav.Env := {|
  Nav.normalizeUrlSafe := normalizeUrlSafe;
  Nav.isExternalLink := isExternalLink;
  Nav.positionPct := fun index total =>
    let t := Nat.max total 1 in Z.of_nat ((200 * index + t) / (2 * t));
  Nav.toUpperCase := fun s =>
    Js.str (map (fun c =>
                   let n := nat_of_ascii c in
                   if ((97 <=? n) && (n <=? 122))%nat then ascii_of_nat (n - 32)
                   else c)
              (Js.chars s))
|}.

(** The site of the navigation samples; its name holds no social domain. *)
Definition site : string := "https://site.org".

Definition link (href label : string) : Nav.Anchor := {|
  Nav.href := Some href; Nav.ownText := label; Nav.fullText := label;
  Nav.hasImg := false; Nav.imgAlt := None; Nav.hasIcon := false
|}.

Definition leaf (href label : string) : Nav.Li :=
  Nav.LiOf [Nav.ChildA (link href label)].

(** A footer menu of two entries, the first with a submenu of two. *)
Definition footerMenu : Nav.Container := {|
  Nav.withinLi := false;
  Nav.topLevelItems :=
    [ Nav.LiOf [ Nav.ChildA (link "/services" "Services");
                 Nav.ChildMenu true [ leaf "/services/a" "A";
                                      leaf "/services/b" "B" ] ];
      leaf "/contact" "Contact" ];
  Nav.allItems := []
|}.

(** A submenu of three [li]: the second has no link, the third a submenu
    of its own. *)
Definition nestedSubmenu : list Nav.Li :=
  [ leaf "/services/a" "A"; Nav.LiOf [];
    Nav.LiOf [ Nav.ChildA (link "/services/b" "B");
               Nav.ChildMenu true [ leaf "/services/b/1" "B1" ] ] ].

(** A primary menu of four entries without submenus, the third a social
    link. *)
Definition primaryMenuWithSocial : Nav.Container := {|
  Nav.withinLi := false;
  Nav.topLevelItems :=
    [ leaf "/about" "About"; leaf "/blog" "Blog";
      leaf "https://facebook.com/ex" "Facebook"; leaf "/contact" "Contact" ];
  Nav.allItems := []
|}.

(** The links of a language switcher, the second with no label. *)
Definition languageLinks : list Nav.LangLink :=
  [ {| Nav.ll_href := Some "/en"; Nav.ll_text := "EN";
       Nav.ll_hreflang := None; Nav.ll_class := None |};
    {| Nav.ll_href := Some "/"; Nav.ll_text := "";
       Nav.ll_hreflang := None; Nav.ll_class := Some "flag" |};
    {| Nav.ll_href := Some "/es"; Nav.ll_text := "";
       Nav.ll_hreflang := None; Nav.ll_class := Some "item lang-es" |} ].

(** A flat menu of three entries. *)
Definition flatFooterMenu : Nav.Container := {|
  Nav.withinLi := false;
  Nav.topLevelItems :=
    [ leaf "/about" "About"; leaf "/blog" "Blog"; leaf "/contact" "Contact" ];
  Nav.allItems := []
|}.

(** A link of a main content. *)
Definition contentLink (href label : string) : Nav.LinkEl := {|
  Nav.l_href := Some href; Nav.l_excluded := false; Nav.l_text := label;
  Nav.l_imgAlt := None; Nav.l_structural := None;
  Nav.l_prevHeading := None; Nav.l_parentPrevHeading := None
|}.

(** The links of a main content: the third repeats the URL of the first,
    under another label. *)
Definition repeatedLinks : list Nav.LinkEl :=
  [ contentLink "/pricing" "Pricing"; contentLink "/docs" "Docs";
    contentLink "/pricing" "See our plans" ].

(** A list item that is a link, and one that is not. *)
Definition linkItem : MarkdownConverter.Node :=
  MarkdownConverter.Element "LI"
    [ MarkdownConverter.Element "A" [ MarkdownConverter.TextNode "more" ] ].

Definition plainItem : MarkdownConverter.Node :=
  MarkdownConverter.Element "LI" [ MarkdownConverter.TextNode "plain" ].

(** A list of five items, four of them links. *)
Definition fourOfFive : MarkdownConverter.Node :=
  MarkdownConverter.Element "UL"
    [ linkItem; linkItem; linkItem; linkItem; plainItem ].

(** A list of three items, all of them links. *)
Definition linksOnly : MarkdownConverter.Node :=
  MarkdownConverter.Element "UL" [ linkItem; linkItem; linkItem ].

(** What Turndown returns for [<div class=question><br></div><p>rest</p>]:
    the rule [faqItems] gives the marker and a line feed for the blank
    question, and the paragraph follows after a blank line. *)
Definition blankQuestion : string :=
  Js.str (Js.chars "<!-- STRUCT:FAQ:Q -->"
          ++ [EnhancedMarkdown.nl; EnhancedMarkdown.nl] ++ Js.chars "rest")%list.

(** What the failed-request handler stores for the sample request. *)
Definition failedPage : CrawlerPageInsert := {|
  final_url := "https://ex.com/a";
  requested_url_original := Some "https://ex.com/a";
  status_code := None;
  crawl_status := ERROR;
  redirect_chain := None;
  html_content := None;
  clean_html := None;
  markdown := None;
  nav_structure := None;
  title := None;
  h1 := None;
  meta_description := None;
  word_count := None;
  content_hash := None;
  sitemap_type_hint := None;
  fetch_mode := None;
  extraction_method := None;
  junk_score := None;
  last_error := Some "timeout";
  run_id := Some "run-3"
|}.

(** The first crawl of the sample page, a plain-text document. *)
Definition firstCrawl : option CrawlerPageInsert :=
  @Crawler.pageDataOf plainText (services noMetadata None)
    "run-1" requestA (Some 200) "a  b".

(** A later crawl of the page, its content changed. *)
Definition secondCrawl : option CrawlerPageInsert :=
  @Crawler.pageDataOf plainText (services noMetadata None)
    "run-2" requestA (Some 200) "c d".

(** [n] words, a space between two. *)
Definition words (n : nat) : string := String.concat " " (repeat "word" n).

(** A soft 404: the title says so, and the body has forty words. *)
Definition notFoundMetadata : Crawler.PageMetadata :=
  {| Crawler.m_title := Some "Page Not Found"; Crawler.m_h1 := None;
     Crawler.m_metaDescription := None |}.

Definition notFoundBody : string := words 40.

(** A page whose body is one advertisement, on a site whose override
    removes the advertisements. *)
Definition adOnlyBody : string := "<div class=ad>Sale</div>".

Definition adOverride : Crawler.DomainOverride :=
  {| Crawler.main_content_selectors := None;
     Crawler.remove_selectors := Some [".ad"] |}.

(** jsdom and Readability on that page.  [cleanHtml] gives the page back:
    its tree walker starts at the body, which goes with the comments, so
    that [document.body.innerHTML] raises and the [catch] returns the
    HTML.  [removeElements] takes the advertisement out and leaves an empty
    body, in which there is nothing to select and no article.  Other
    documents are taken as plain text. *)
Definition adOnly : Extract.Dom := {|
  Extract.domClean := fun html => html;
  Extract.domRemove := fun html selectors =>
    if String.eqb html adOnlyBody && bool_decide (selectors = [".ad"])
    then "" else html;
  Extract.querySelector := fun _ _ => Extract.NoMatch;
  Extract.bodyTextContent := fun html =>
    if String.eqb html adOnlyBody then Some "Sale" else Some html;
  Extract.readabilityContent := fun _ _ => None
|}.

Definition adOnlyCrawl : option CrawlerPageInsert :=
  @Crawler.pageDataOf adOnly (services noMetadata (Some adOverride))
    "run-1" requestA (Some 200) adOnlyBody.

Definition adOnlyDigest : string := "fc74159d5be0338c330a7b965f7f93e5".

(** jsdom on a plain-text document in which the selector [.article-body]
    finds an element of 120 words. *)
Definition withArticleBody : Extract.Dom := {|
  Extract.domClean := fun html => html;
  Extract.domRemove := fun html _ => html;
  Extract.querySelector := fun _ sel =>
    if String.eqb sel ".article-body" then Extract.Match (words 120)
    else Extract.NoMatch;
  Extract.bodyTextContent := fun html => Some html;
  Extract.readabilityContent := fun _ _ => None
|}.

Definition articleOverride : Crawler.DomainOverride :=
  {| Crawler.main_content_selectors := Some [".article-body"];
     Crawler.remove_selectors := None |}.

End Sample.

(** ** The vocabulary of the properties *)
Module Invariants.
Import Types.

(** The text a digest is taken from when the clean HTML [clean] and the raw
    HTML [raw] are stored: the clean HTML, or the raw HTML when there is
    none. *)
Definition hashedText (clean raw : option string) (src : string) : Prop :=
  clean = Some src \/ (clean = None /\ raw = Some src).

(** A row's hash is the digest of its content as the crawler takes it. *)
Definition hashMatchesContent (r : Row) : Prop :=
  forall h, r_content_hash r = Some h ->
  exists src, hashedText (r_clean_html r) (r_html_content r) src
              /\ h = Hash.md5Hash (Hash.normalizeSpace src).

(** The same of the values [upsertPage] binds for a page. *)
Definition carriesHashOfContent (page : CrawlerPageInsert) : Prop :=
  forall h, Js.orNull (content_hash page) = Some h ->
  exists src, hashedText (Js.orNull (clean_html page))
                (Js.orNull (html_content page)) src
              /\ h = Hash.md5Hash (Hash.normalizeSpace src).

(** A row's hash as the specification words it: the digest of the stored
    clean HTML, white space normalized. *)
Definition hashMatchesCleanHtml (r : Row) : Prop :=
  forall h, r_content_hash r = Some h ->
  exists clean, r_clean_html r = Some clean
                /\ h = Hash.md5Hash (Hash.normalizeSpace clean).

(** The title or the body matches a known 404 phrase. *)
Definition matchesSoft404Phrase (title body : string) : bool :=
  existsb (fun p => Regex.test p title) Constants.SOFT_404_TITLE_PATTERNS
  || existsb (fun p => Regex.test p body) Constants.SOFT_404_BODY_PATTERNS.

(** The order values of a cluster are 0, 1, 2, ... in the order of the
    list. *)
Definition denseFromZero (items : list Nav.NavItem) : Prop :=
  map Nav.order items = seq 0 (length items).

(** The order values as the specification words them, read at its
    weakest: at each depth, below every order value of the cluster every
    smaller number is an order value too. *)
Definition denseAtEachDepth (items : list Nav.NavItem) : bool :=
  forallb (fun item =>
    forallb (fun j =>
      existsb (fun other =>
        (Nav.depth other =? Nav.depth item)%nat && (Nav.order other =? j)%nat)
        items)
      (seq 0 (Nav.order item)))
    items.

(** The [li] that [extractMenuItems] visits. *)
Definition visited (container : Nav.Container) : list Nav.Li :=
  match Nav.topLevelItems container with
  | [] => Nav.allItems container
  | tops => tops
  end.

(** A menu none of whose visited items has a submenu. *)
Definition flatMenu (container : Nav.Container) : Prop :=
  Forall (fun li => Nav.anySubmenu (Nav.childrenOf li) = None) (visited container).

(** The items of a submenu that [extractSubmenuItems] keeps. *)
Definition submenuKeeps (li : Nav.Li) : bool :=
  match Nav.directLink (Nav.childrenOf li) with
  | None => false
  | Some link =>
      let h := default "" (Nav.href link) in
      Js.truthy h && Js.truthy (Js.orElse (Js.trim (Nav.ownText link))
                                  (Js.trim (Nav.fullText link)))
      && negb (String.eqb h "#") && negb (Nav.startsWith "javascript:" h)
  end.

(** The positions, from [start], of the elements of a list within [keep]. *)
Fixpoint keptIndices {A} (keep : A -> bool) (start : nat) (l : list A) : list nat :=
  match l with
  | [] => []
  | x :: r =>
      if keep x then start :: keptIndices keep (S start) r
      else keptIndices keep (S start) r
  end.

End Invariants.

(* ===================================================================== *)
(** * Part I, continued. The code around the claims                       *)
(* ===================================================================== *)

(** ** src/extraction/navExtractor.ts: the breadcrumb and the fingerprint *)
Module NavMore.

Record BreadcrumbItem := {
  b_label : string;
  b_url : option string
}.

(** An [a] or [span] below a breadcrumb container as [extractBreadcrumb]
    reads it: [text()]; whether it is an [a]; [attr('href')]; the [text()]
    of its parent when that is an [a] or a [span]. *)
Record CrumbEl := {
  c_text : string;
  c_isA : bool;
  c_href : option string;
  c_parentText : option string
}.

(** The first element of a breadcrumb selector: its [a] and [span]
    descendants in document order, and its [text()]. *)
Record CrumbContainer := {
  elements : list CrumbEl;
  fullText : string
}.

(** [[>\/»›\|]], on the code units of the model (U+203A lies outside). *)
Definition isSeparator (c : ascii) : bool :=
  Ascii.eqb c ">" || Ascii.eqb c "/" || Ascii.eqb c "187" || Ascii.eqb c "|".

(** [/^[>\/»›\|]+$/.test(text)]. *)
Definition separatorsOnly (text : string) : bool :=
  match Js.chars text with
  | [] => false
  | l => forallb isSeparator l
  end.

(** The body of the loop of strategy 1. *)
Definition crumbItem (items : list BreadcrumbItem) (el : CrumbEl)
    : list BreadcrumbItem :=
  let text := Js.trim (c_text el) in
  if negb (Js.truthy text) || separatorsOnly text || (100 <? String.length text)%nat
  then items
  else if match c_parentText el with
          | Some parentText => String.eqb (Js.trim parentText) text
          | None => false
          end
  then items
  else
    let href := if c_isA el then c_href el else None in
    if existsb (fun item => String.eqb (b_label item) text) items then items
    else (items ++ [ {| b_label := text; b_url := Js.orNull href |} ])%list.

(** [s.split(/[>\/»›\|]/)]. *)
Fixpoint splitWhere (p : ascii -> bool) (l : list ascii) : list (list ascii) :=
  match l with
  | [] => [[]]
  | x :: r =>
      if p x then [] :: splitWhere p r
      else match splitWhere p r with
           | piece :: pieces => (x :: piece) :: pieces
           | [] => [[x]]
           end
  end.

(** Strategy 2: the parts of the text between the separators. *)
Definition crumbParts (text : string) : list BreadcrumbItem :=
  map (fun part => {| b_label := part; b_url := None |})
    (filter (fun part => Js.truthy part = true)
       (map (fun piece => Js.str (Js.trimChars piece))
          (splitWhere isSeparator (Js.chars text)))).

(** [extractBreadcrumb]: [containers] are the first elements of the
    BREADCRUMB_SELECTORS that match, in the order of the selectors. *)
Fixpoint extractBreadcrumb (containers : list CrumbContainer) : list BreadcrumbItem :=
  match containers with
  | [] => []
  | container :: rest =>
      let items := fold_left crumbItem (elements container) [] in
      if (2 <=? length items)%nat then items
      else
        let parts := crumbParts (fullText container) in
        if (2 <=? length parts)%nat then parts
        else extractBreadcrumb rest
  end.

(** A label that is trimmed and not empty. *)
Definition goodLabel (item : BreadcrumbItem) : Prop :=
  b_label item <> "" /\ Js.trim (b_label item) = b_label item.

(** [Array.prototype.sort()] on strings: the order of the code units. *)
Definition codeUnitLe (a b : string) : Prop :=
  Url.codeUnitCompare (Js.chars a) (Js.chars b) <> Gt.

#[global] Instance codeUnitLe_dec : RelDecision codeUnitLe.
Proof. intros a b. unfold codeUnitLe. apply _. Defined.

(** [generateNavFingerprint]. *)
Definition generateNavFingerprint (items : list Nav.NavItem) : string :=
  let urls :=
    merge_sort codeUnitLe
      (map Nav.url (filter (fun item => Nav.is_external item = false) items)) in
  String.substring 0 16 (Hash.md5Hash (String.concat "|" urls)).

End NavMore.

(** ** The navigation extractor: shapes for the statements *)
Module NavShape.

(** An item of depth 0 has no parent labels; a deeper one lies at most at
    depth 3 and has as many parent labels as its depth. *)
Definition wellNested (item : Nav.NavItem) : Prop :=
  match Nav.depth item with
  | O => Nav.parent_labels item = None
  | d => (d <= 3)%nat
         /\ exists labels, Nav.parent_labels item = Some labels /\ length labels = d
  end.

End NavShape.

(** ** src/utils/hash.ts: the other two functions *)
Module HashMore.

(** [hashMarkdownContent]. *)
Definition hashMarkdownContent (markdown : string) : string :=
  if Js.truthy markdown
  then Hash.md5Hash (Js.trim (Js.collapseWhitespace markdown))
  else "".

(** [hashesMatch]. *)
Definition hashesMatch (hash1 hash2 : option string) : bool :=
  match Js.orNull hash1, Js.orNull hash2 with
  | Some h1, Some h2 => String.eqb h1 h2
  | _, _ => false
  end.

(** A lower-case hexadecimal digit. *)
Definition isHexDigit (c : ascii) : bool :=
  let n := nat_of_ascii c in
  ((48 <=? n) && (n <=? 57) || (97 <=? n) && (n <=? 102))%nat.

End HashMore.

(** ** [String.prototype.split] and [Array.prototype.join], on a line feed *)
Module Lines.

Definition nl : ascii := EnhancedMarkdown.nl.

(** [s.split('\n')]: the empty string gives one empty line. *)
Definition split (l : list ascii) : list (list ascii) := Url.splitOn nl l.

(** [lines.join('\n')]. *)
Fixpoint join (lines : list (list ascii)) : list ascii :=
  match lines with
  | [] => []
  | [line] => line
  | line :: rest => (line ++ nl :: join rest)%list
  end.

End Lines.

(** ** src/extraction/markdownConverter.ts: the passes over the lines *)
Module Markdown.

(** [.] of a regular expression: every code unit but the line
    terminators. *)
Definition isDot (c : ascii) : bool := negb (Regex.isLineTerminator c).

Definition isHash (c : ascii) : bool := Ascii.eqb c "#".

(** [\s+(.+)$] after the hashes of a heading: group 2.  The white space is
    taken as long as it goes; when nothing follows it the expression gives
    back its last character to [(.+)], and fails when [.] does not match
    that one.  What follows the white space has to be matched by [.] up to
    the end. *)
Definition headingText (afterHashes : list ascii) : option (list ascii) :=
  let '(ws, rest) := EnhancedMarkdown.span Js.isSpace afterHashes in
  match ws, rest with
  | [], _ => None
  | _ :: _, _ :: _ => if forallb isDot rest then Some rest else None
  | [_], [] => None
  | _ :: _ :: _, [] =>
      match last ws with
      | Some c => if isDot c then Some [c] else None
      | None => None
      end
  end.

(** [line.match(/^(#{1,max})\s+(.+)$/)]: the length of group 1, and
    group 2.  A line with more hashes than [max] does not match: after
    [max] of them, or fewer, white space has to follow. *)
Definition headingMatch (max : nat) (line : list ascii) : option (nat * list ascii) :=
  let '(hashes, afterHashes) := EnhancedMarkdown.span isHash line in
  let level := length hashes in
  if ((1 <=? level) && (level <=? max))%nat
  then text ← headingText afterHashes; Some (level, text)
  else None.

(** [line.match(/^#\s+(.+)$/)]: group 1. *)
Definition h1Match (line : list ascii) : option (list ascii) :=
  match line with
  | c :: afterHash => if isHash c then headingText afterHash else None
  | [] => None
  end.

(** The line [`${'#'.repeat(level)} ${text}`]. *)
Definition headingLine (level : nat) (text : list ascii) : list ascii :=
  (repeat "#"%char level ++ " "%char :: text)%list.

(** *** [deduplicateLines] *)

(** The loop over the lines; [previousLine] is the last non-blank line
    kept or skipped, trimmed. *)
Fixpoint deduplicateLoop (previousLine : list ascii) (lines : list (list ascii))
    : list (list ascii) :=
  match lines with
  | [] => []
  | line :: rest =>
      let trimmedLine := Js.trimChars line in
      if Js.truthy (Js.str trimmedLine) && bool_decide (trimmedLine = previousLine)
      then deduplicateLoop previousLine rest
      else line :: deduplicateLoop
                     (if Js.truthy (Js.str trimmedLine) then trimmedLine
                      else previousLine)
                     rest
  end.

Definition deduplicateLines (markdown : string) : string :=
  Js.str (Lines.join (deduplicateLoop [] (Lines.split (Js.chars markdown)))).

(** *** [normalizeHeadings] *)

Fixpoint normalizeLoop (lastHeadingLevel : nat) (lines : list (list ascii))
    : list (list ascii) :=
  match lines with
  | [] => []
  | line :: rest =>
      match headingMatch 6 line with
      | Some (currentLevel, text) =>
          let adjustedLevel :=
            if (lastHeadingLevel + 1 <? currentLevel)%nat
            then (lastHeadingLevel + 1)%nat else currentLevel in
          headingLine adjustedLevel text :: normalizeLoop adjustedLevel rest
      | None => line :: normalizeLoop lastHeadingLevel rest
      end
  end.

Definition normalizeHeadings (markdown : string) : string :=
  Js.str (Lines.join (normalizeLoop 0 (Lines.split (Js.chars markdown)))).

(** *** [shiftHeadingLevels] *)

Fixpoint shiftLoop (skipFirstH1 firstH1Seen : bool) (lines : list (list ascii))
    : list (list ascii) :=
  match lines with
  | [] => []
  | line :: rest =>
      match headingMatch 5 line with
      | Some (currentLevel, text) =>
          if skipFirstH1 && (currentLevel =? 1)%nat && negb firstH1Seen
          then line :: shiftLoop skipFirstH1 true rest
          else headingLine (Nat.min (currentLevel + 1) 6) text
               :: shiftLoop skipFirstH1 firstH1Seen rest
      | None => line :: shiftLoop skipFirstH1 firstH1Seen rest
      end
  end.

Definition shiftHeadingLevels (markdown : string) (skipFirstH1 : bool) : string :=
  Js.str (Lines.join (shiftLoop skipFirstH1 false (Lines.split (Js.chars markdown)))).

(** *** [detectH1InMarkdown] and [ensureH1InMarkdown] *)

Record H1Detection := {
  hasH1 : bool;
  position : Z;
  text : option string
}.

Fixpoint detectFrom (i : nat) (lines : list (list ascii)) : H1Detection :=
  match lines with
  | [] => {| hasH1 := false; position := -1; text := None |}
  | line :: rest =>
      match h1Match line with
      | Some t =>
          {| hasH1 := true; position := Z.of_nat i;
             text := Some (Js.str (Js.trimChars t)) |}
      | None => detectFrom (S i) rest
      end
  end.

Definition detectH1InMarkdown (markdown : string) : H1Detection :=
  detectFrom 0 (Lines.split (Js.chars markdown)).

Record H1EnsureResult := {
  markdown : string;
  seoIssues : list string;
  modified : bool
}.

(** The decimal digits of a number, as a template literal prints it. *)
Definition decimal (n : nat) : string :=
  Js.str (Url.digitsFuel (S n) (N.of_nat n) []).

(** [lines.splice(position, 1)]. *)
Definition splice1 {A} (position : nat) (lines : list A) : list A :=
  (take position lines ++ drop (S position) lines)%list.

Definition ensureH1InMarkdown (md h1 : string) (detectSeoIssues : bool)
    : H1EnsureResult :=
  if negb (Js.truthy h1) || negb (Js.truthy (Js.trim h1))
  then {| markdown := md; seoIssues := []; modified := false |}
  else
    let detection := detectH1InMarkdown md in
    if hasH1 detection && (position detection =? 0)
       && bool_decide (text detection = Some (Js.trim h1))
    then {| markdown := md; seoIssues := []; modified := false |}
    else
      let issues :=
        if hasH1 detection && (0 <? position detection) && detectSeoIssues
        then [ "H1 found at line "
               ++ decimal (Z.to_nat (position detection + 1))
               ++ ", not at document start" ]
        else [] in
      let cleanedMarkdown :=
        if hasH1 detection
        then Js.str (Lines.join (splice1 (Z.to_nat (position detection))
                                   (Lines.split (Js.chars md))))
        else md in
      {| markdown := "# " ++ Js.trim h1 ++ Js.str [Lines.nl; Lines.nl] ++ cleanedMarkdown;
         seoIssues := issues;
         modified := true |}.

(** *** The shape of the lines, for the statements *)

(** The levels of the headings among the lines. *)
Definition headingLevels (lines : list (list ascii)) : list nat :=
  omap (fun line => fst <$> headingMatch 6 line) lines.

(** No heading lies more than one level below the heading before it; the
    first one is counted from [last]. *)
Fixpoint noLevelSkipped (last : nat) (levels : list nat) : Prop :=
  match levels with
  | [] => True
  | level :: rest => (1 <= level <= last + 1)%nat /\ noLevelSkipped level rest
  end.

(** The lines that are not blank, trimmed. *)
Definition nonBlankTrimmed (lines : list (list ascii)) : list (list ascii) :=
  filter (fun line => line <> []) (map Js.trimChars lines).

(** No entry repeats the entry before it; the first one is compared with
    [previous]. *)
Fixpoint noRepeat (previous : list ascii) (lines : list (list ascii)) : Prop :=
  match lines with
  | [] => True
  | line :: rest => line <> previous /\ noRepeat line rest
  end.

End Markdown.

(** ** src/extraction/enhancedMarkdownConverter.ts:
       [extractLinksWithContext] *)
Module LinkContext.
Import EnhancedMarkdown.

(** What [mapStructureToLinkSource] returns: a source type, or, for a
    marker type whose lower-case name is a property every object inherits,
    that property. *)
Inductive LinkSource :=
  | SourceType (name : string)
  | ObjectConstructor           (* [mapping['constructor']] *)
  | ObjectPrototype.            (* [mapping['__proto__']] *)

Definition mapStructureToLinkSource (structure : option string) : LinkSource :=
  match structure with
  | None => SourceType "contextual_body"
  | Some s =>
      if negb (Js.truthy s) then SourceType "contextual_body"
      else if String.eqb s "faq" then SourceType "faq_module"
      else if String.eqb s "toc" then SourceType "toc_or_jump"
      else if String.eqb s "breadcrumb" then SourceType "breadcrumb"
      else if String.eqb s "cta" then SourceType "template_cta"
      else if String.eqb s "accordion" then SourceType "faq_module"
      else if String.eqb s "testimonial" then SourceType "contextual_body"
      else if String.eqb s "author" then SourceType "contextual_body"
      else if String.eqb s "related" then SourceType "related_posts"
      else if String.eqb s "constructor" then ObjectConstructor
      else if String.eqb s "__proto__" then ObjectPrototype
      else SourceType "contextual_body"
  end.

Record LinkWithContext := {
  url : string;
  label : string;
  linkSourceType : LinkSource;
  nearestHeading : option string;
  position : nat
}.

(** [/<!-- STRUCT:([A-Z_]+):ACTION -->/] at the start of [l]: group 1. *)
Definition markerAt (action : string) (l : list ascii) : option (list ascii) :=
  r1 ← literal (Js.chars "<!-- STRUCT:") l;
  '(n, r2) ← name r1;
  _ ← literal (Js.chars (":" ++ action ++ " -->")) r2;
  Some n.

(** [line.match(/<!-- STRUCT:([A-Z_]+):ACTION -->/)]: group 1 of the first
    match. *)
Fixpoint markerMatch (action : string) (l : list ascii) : option (list ascii) :=
  match markerAt action l with
  | Some n => Some n
  | None =>
      match l with
      | _ :: r => markerMatch action r
      | [] => None
      end
  end.

(** [/\[([^\]]+)\]\(([^)]+)\)/] at the start of [l]: groups 1 and 2, and
    what follows the match.  Each class runs up to the first character
    outside it, which has to be the bracket that follows in the
    expression. *)
Definition linkAt (l : list ascii)
    : option (list ascii * list ascii * list ascii) :=
  match l with
  | c :: r0 =>
      if Ascii.eqb c "[" then
        let '(lbl, r1) := span (fun c => negb (Ascii.eqb c "]")) r0 in
        match lbl, r1 with
        | _ :: _, c1 :: c2 :: r2 =>
            if Ascii.eqb c1 "]" && Ascii.eqb c2 "(" then
              let '(u, r3) := span (fun c => negb (Ascii.eqb c ")")) r2 in
              match u, r3 with
              | _ :: _, c3 :: r4 =>
                  if Ascii.eqb c3 ")" then Some (lbl, u, r4) else None
              | _, _ => None
              end
            else None
        | _, _ => None
        end
      else None
  | [] => None
  end.

(** The loop [while ((match = linkRegex.exec(line)) !== null)]: the
    matches from left to right, each with its index.  [skip] counts the
    characters of the last match still to pass. *)
Fixpoint linkMatches (skip index : nat) (l : list ascii)
    : list (nat * list ascii * list ascii) :=
  match l with
  | [] => []
  | _ :: r =>
      match skip with
      | S k => linkMatches k (S index) r
      | O =>
          match linkAt l with
          | Some (lbl, u, _) =>
              (index, lbl, u) :: linkMatches (length lbl + length u + 3) (S index) r
          | None => linkMatches 0 (S index) r
          end
      end
  end.

(** The loop over the lines. *)
Fixpoint linesLoop (currentStructure currentHeading : option string)
    (charPosition : nat) (lines : list (list ascii)) : list LinkWithContext :=
  match lines with
  | [] => []
  | line :: rest =>
      let currentStructure :=
        match markerMatch "START" line with
        | Some n => Some (Nav.toLowerCase (Js.str n))
        | None =>
            match markerMatch "END" line with
            | Some _ => None
            | None => currentStructure
            end
        end in
      let currentHeading :=
        match Markdown.headingMatch 6 line with
        | Some (_, text) => Some (Js.str text)
        | None => currentHeading
        end in
      (map (fun m : nat * list ascii * list ascii =>
              let '(index, lbl, u) := m in
              {| url := Js.str u;
                 label := Js.str lbl;
                 linkSourceType := mapStructureToLinkSource currentStructure;
                 nearestHeading := Js.orNull currentHeading;
                 position := charPosition + index |})
           (linkMatches 0 0 line)
       ++ linesLoop currentStructure currentHeading
            (charPosition + length line + 1) rest)%list
  end.

Definition extractLinksWithContext (enhancedMarkdown : string)
    : list LinkWithContext :=
  linesLoop None None 0 (Lines.split (Js.chars enhancedMarkdown)).

(** *** For the statements *)

(** The text [[label](url)] of a link. *)
Definition linkText (link : LinkWithContext) : list ascii :=
  ("["%char :: Js.chars (label link)
   ++ "]"%char :: "("%char :: Js.chars (url link) ++ [")"%char])%list.

(** The links lie one after the other from [from] on, without overlap. *)
Fixpoint apart (from : nat) (links : list LinkWithContext) : Prop :=
  match links with
  | [] => True
  | link :: rest =>
      (from <= position link)%nat
      /\ apart (position link + length (linkText link)) rest
  end.

(** The matches of the link expression in a line, from [from] on, from
    left to right and without overlap. *)
Inductive matchesIn (line : list ascii)
    : nat -> list (nat * list ascii * list ascii) -> Prop :=
  | matchesIn_nil from : matchesIn line from []
  | matchesIn_cons from index lbl u rest ms :
      (from <= index)%nat ->
      drop index line
      = ("["%char :: lbl ++ "]"%char :: "("%char :: u ++ ")"%char :: rest)%list ->
      lbl <> [] -> u <> [] -> ("]"%char ∉ lbl) -> (")"%char ∉ u) ->
      matchesIn line (index + (length lbl + length u + 4)) ms ->
      matchesIn line from ((index, lbl, u) :: ms).

End LinkContext.

(** ** src/parsers/sitemapParser.ts *)
Module Sitemap.

(** [sitemapUrl.split('/').pop() || '']. *)
Definition filenameOf (sitemapUrl : string) : string :=
  Js.str (default [] (last (Url.splitOn "/" (Js.chars sitemapUrl)))).

(** The patterns are made of the letters a to z, [-] and [_]; lower-casing
    matters for the letters A to Z only. *)
Definition extractSitemapTypeHint (sitemapUrl : string) : option string :=
  let lowerFilename := Nav.toLowerCase (filenameOf sitemapUrl) in
  let starts p := Nav.startsWith p lowerFilename in
  let includes p := Nav.includes p lowerFilename in
  if starts "post-sitemap" then Some "post"
  else if starts "page-sitemap" then Some "page"
  else if starts "category-sitemap" || starts "post_category-sitemap"
  then Some "pagination"
  else if starts "tag-sitemap" || starts "post_tag-sitemap" then Some "pagination"
  else if starts "author-sitemap" || starts "post_author-sitemap"
  then Some "pagination"
  else if starts "sitemap-posts" then Some "post"
  else if starts "sitemap-pages" then Some "page"
  else if starts "sitemap-categories" then Some "pagination"
  else if starts "sitemap-tags" then Some "pagination"
  else if includes "blog" then Some "post"
  else if includes "article" then Some "post"
  else if includes "news" then Some "post"
  else if includes "product" then Some "product"
  else if includes "event" then Some "event"
  else if includes "portfolio" then Some "portfolio"
  else None.

(** The fields of [SitemapUrl] that the parser sets. *)
Record SitemapUrl := {
  url : string;
  normalizedUrl : string;
  sitemapSource : string;
  typeHint : option string
}.

Section WithNormalizer.
(** [normalizeUrl]; [None] when it raises. *)
Variable normalizeUrl : string -> option string.

(** [isValidUrl]. *)
Definition isValidUrl (u : string) : bool :=
  Js.truthy u && bool_decide (is_Some (normalizeUrl u)).

(** The loop of [parseSitemap] over the sites Sitemapper fetched. *)
Definition parseSitemapOf (sitemapUrl : string) (sites : list string)
    : list SitemapUrl :=
  let hint := extractSitemapTypeHint sitemapUrl in
  omap (fun u =>
          if isValidUrl u then
            normalized ← normalizeUrl u;
            Some {| url := u; normalizedUrl := normalized;
                    sitemapSource := sitemapUrl; typeHint := hint |}
          else None)
       sites.

(** The second loop of [parseMultipleSitemaps]: [fetched] pairs each
    sitemap to parse with the sites Sitemapper fetched for it, or with
    nothing when [parseSitemap] raised.  The state is [allUrls] and
    [seenUrls]. *)
Definition addEntry (st : list SitemapUrl * gset string) (urlEntry : SitemapUrl)
    : list SitemapUrl * gset string :=
  let '(allUrls, seenUrls) := st in
  if decide (normalizedUrl urlEntry ∈ seenUrls) then st
  else ((allUrls ++ [urlEntry])%list, {[ normalizedUrl urlEntry ]} ∪ seenUrls).

Definition addSitemap (st : list SitemapUrl * gset string)
    (sitemap : string * option (list string)) : list SitemapUrl * gset string :=
  match sitemap.2 with
  | Some sites => fold_left addEntry (parseSitemapOf sitemap.1 sites) st
  | None => st
  end.

Definition parseMultipleSitemaps (fetched : list (string * option (list string)))
    : list SitemapUrl :=
  (fold_left addSitemap fetched ([], ∅)).1.

End WithNormalizer.

End Sitemap.

(** ** src/core/crawler.ts: the queue of [runCrawl] *)
Module Enqueue.

(** The counters of [CrawlStats] the loop touches, the requests added to
    the queue, and [queuedUrls]. *)
Record State := {
  queue : list Crawler.Request;
  queuedUrls : gset string;
  pagesSkipped : nat
}.

Section WithServices.
(** [normalizeUrl], [None] when it raises; [options.recrawl]; the answer of
    [pageExists], [None] when the query raises, which no write changes
    while the loop runs.  The queue takes every request it is given. *)
Variable normalizeUrl : string -> option string.
Variable recrawl : bool.
Variable pageExists : string -> option bool.

(** [!options.recrawl && (await pageExists(normalized))]: the query runs
    only when [recrawl] is off. *)
Definition alreadyCrawled (normalized : string) : option bool :=
  if recrawl then Some false else pageExists normalized.

(** The body of the loop over [urls]; the [catch] leaves the entry out. *)
Definition enqueueEntry (st : State) (urlEntry : Sitemap.SitemapUrl) : State :=
  match normalizeUrl (Sitemap.normalizedUrl urlEntry) with
  | None => st
  | Some normalized =>
      if decide (normalized ∈ queuedUrls st) then st
      else match alreadyCrawled normalized with
      | None => st
      | Some true =>
        {| queue := queue st; queuedUrls := queuedUrls st;
           pagesSkipped := S (pagesSkipped st) |}
      | Some false =>
        {| queue := (queue st ++ [ {|
             Crawler.url := normalized;
             Crawler.loadedUrl := None;
             Crawler.originalUrl := Some (Sitemap.url urlEntry);
             Crawler.sitemapTypeHint := Sitemap.typeHint urlEntry |} ])%list;
           queuedUrls := {[ normalized ]} ∪ queuedUrls st;
           pagesSkipped := pagesSkipped st |}
      end
  end.

Definition enqueueAll (urls : list Sitemap.SitemapUrl) : State :=
  fold_left enqueueEntry urls
    {| queue := []; queuedUrls := ∅; pagesSkipped := 0 |}.

End WithServices.

End Enqueue.

(** ** src/extraction/htmlCleaner.ts: [normalizeWhitespace] *)
Module HtmlCleaner.
Import EnhancedMarkdown.

(** [/>\s+</] at the start of [l]: the replacement [><] and what follows
    the match.  No white space is a [<], so the longest run of white space
    is the only one a match can use. *)
Definition betweenTags (l : list ascii) : option (list ascii * list ascii) :=
  r1 ← literal [">"%char] l;
  match span Js.isSpace r1 with
  | (_ :: _, r2) => r3 ← literal ["<"%char] r2; Some ([">"%char; "<"%char], r3)
  | ([], _) => None
  end.

(** [normalizeWhitespace(html)]. *)
Definition normalizeWhitespace (html : string) : string :=
  if Js.truthy html
  then Js.str (Js.trimChars
                 (Regex.replaceAll betweenTags
                    (Js.collapseSpaceRuns false (Js.chars html))))
  else "".

(** A text whose white space is single spaces; [afterSpace] tells that a
    space stands before it. *)
Fixpoint singleSpaced (afterSpace : bool) (l : list ascii) : bool :=
  match l with
  | [] => true
  | c :: r =>
      if Js.isSpace c
      then Ascii.eqb c " " && negb afterSpace && singleSpaced true r
      else singleSpaced false r
  end.

(** A text in which [/>\s+</] matches nowhere. *)
Fixpoint noGap (l : list ascii) : bool :=
  match l with
  | [] => true
  | _ :: r =>
      match betweenTags l with
      | Some _ => false
      | None => noGap r
      end
  end.

End HtmlCleaner.

(** ** src/extraction/structuralDetector.ts *)
Module StructuralDetector.
Import Nav.

#[global] Instance StructuralElementType_eq_dec : EqDecision StructuralElementType.
Proof. solve_decision. Defined.

(** A selector's attribute value, in its double quotes. *)
Definition quoted (value : string) : string := Js.dq ++ value ++ Js.dq.

Definition FAQ_SELECTORS : list string :=
  [ "[itemtype*=" ++ quoted "FAQPage" ++ "]"; "[typeof=" ++ quoted "FAQPage" ++ "]";
    ".faq"; ".faqs"; ".faq-section"; ".faq-container"; ".faq-list";
    ".faq-accordion"; "#faq"; "#faqs";
    "[class*=" ++ quoted "faq" ++ "]"; "[id*=" ++ quoted "faq" ++ "]";
    ".accordion[class*=" ++ quoted "question" ++ "]";
    ".accordion[class*=" ++ quoted "faq" ++ "]";
    ".elementor-widget-n-accordion"; ".elementor-widget-accordion";
    "[data-widget_type=" ++ quoted "accordion.default" ++ "]";
    "[data-widget_type=" ++ quoted "n-accordion.default" ++ "]";
    ".elementor-widget-wdt-accordion-and-toggle"; ".wdt-accordion-toggle-holder";
    "[data-widget_type=" ++ quoted "wdt-accordion-and-toggle.default" ++ "]" ].

Definition TOC_SELECTORS : list string :=
  [ ".toc"; ".table-of-contents"; ".tableofcontents"; "#toc";
    "#table-of-contents"; "nav.toc";
    "[class*=" ++ quoted "toc" ++ "]"; "[id*=" ++ quoted "toc" ++ "]";
    ".jump-links"; ".page-nav"; ".content-nav"; ".in-page-nav";
    "[class*=" ++ quoted "jump-to" ++ "]" ].

Definition BREADCRUMB_SELECTORS : list string :=
  [ "[itemtype*=" ++ quoted "BreadcrumbList" ++ "]";
    "[typeof=" ++ quoted "BreadcrumbList" ++ "]";
    ".breadcrumb"; ".breadcrumbs"; ".breadcrumb-nav"; "#breadcrumb";
    "#breadcrumbs"; "[class*=" ++ quoted "breadcrumb" ++ "]";
    "nav[aria-label*=" ++ quoted "breadcrumb" ++ " i]" ].

Definition CTA_SELECTORS : list string :=
  [ ".cta"; ".call-to-action"; ".cta-section"; ".cta-block"; ".cta-banner";
    ".cta-box"; "[class*=" ++ quoted "cta" ++ "]";
    ".hero .btn"; ".hero button"; ".banner .btn";
    "[class*=" ++ quoted "schedule" ++ "]"; "[class*=" ++ quoted "consult" ++ "]";
    "[class*=" ++ quoted "contact-form" ++ "]" ].

Definition ACCORDION_SELECTORS : list string :=
  [ ".accordion"; ".accordions"; "[class*=" ++ quoted "accordion" ++ "]";
    "[data-accordion]"; ".collapse-group"; ".expandable" ].

Definition TESTIMONIAL_SELECTORS : list string :=
  [ ".testimonial"; ".testimonials"; ".review"; ".reviews"; ".customer-review";
    ".patient-review"; "[class*=" ++ quoted "testimonial" ++ "]";
    "[class*=" ++ quoted "review" ++ "]"; "[itemtype*=" ++ quoted "Review" ++ "]" ].

Definition AUTHOR_BIO_SELECTORS : list string :=
  [ ".author-bio"; ".author-box"; ".about-author"; ".author-info";
    "[class*=" ++ quoted "author-bio" ++ "]"; "[class*=" ++ quoted "author-box" ++ "]";
    "[itemtype*=" ++ quoted "Person" ++ "][class*=" ++ quoted "author" ++ "]" ].

Definition RELATED_POSTS_SELECTORS : list string :=
  [ ".related-posts"; ".related-articles"; ".related-content";
    ".you-may-also-like"; "[class*=" ++ quoted "related-post" ++ "]";
    "[class*=" ++ quoted "related-article" ++ "]" ].

(** [StructuralElement], without the metadata, which no index and no type
    depends on. *)
Record StructuralElement := {
  type : StructuralElementType;
  startIndex : Z;
  endIndex : Z;
  selector : string
}.

(** The counts of [StructuralDetectionResult]. *)
Record Stats := {
  faq_modules : nat;
  toc_sections : nat;
  breadcrumbs : nat;
  template_ctas : nat;
  accordions : nat;
  testimonials : nat;
  author_bios : nat;
  related_posts : nat
}.

Record StructuralDetectionResult := {
  elements : list StructuralElement;
  stats : Stats
}.

(** [hay.indexOf(needle)], counting from [i]. *)
Fixpoint indexFrom (needle hay : list ascii) (i : Z) : Z :=
  match EnhancedMarkdown.literal needle hay with
  | Some _ => i
  | None =>
      match hay with
      | [] => -1
      | _ :: rest => indexFrom needle rest (i + 1)
      end
  end.

Definition indexOf (hay needle : string) : Z :=
  indexFrom (Js.chars needle) (Js.chars hay) 0.

Definition length (s : string) : Z := Z.of_nat (String.length s).

(** An element a selector finds, as the detectors read it: [$.html($el)];
    [$el.attr('data-id') || $el.attr('id') || '']; and of each [a] within,
    [attr('href') || '']. *)
Record Node := {
  outerHtml : string;
  dataId : string;
  linkHrefs : list string
}.

(** The parsed page: what [$(selector)] finds, in document order, and
    [$.html($script)] of the first JSON-LD script in which
    [detectJsonLdFAQ] finds a [FAQPage]. *)
Class Page := {
  select : string -> list Node;
  jsonLdFaqScript : option string
}.

Section WithPage.
Context `{Page}.
Variable html : string.

(** The loop state of a detector: [elements] and [seen]. *)
Definition Found : Type := list StructuralElement * gset Z.

(** The body of [$(selector).each] in [detectTOCSections],
    [detectBreadcrumbs], [detectCTAs], [detectAccordions],
    [detectTestimonials], [detectAuthorBios] and [detectRelatedPosts],
    which differ in the type they give, in the start indices they pass
    over ([faqStartIndices] in [detectAccordions], none elsewhere) and in
    the elements they push ([isAnchorBased] in [detectTOCSections], all
    elsewhere). *)
Definition eachElement (ty : StructuralElementType) (passOver : gset Z)
    (push : Node -> bool) (sel : string) (st : Found) (el : Node) : Found :=
  let '(els, seen) := st in
  let start := indexOf html (outerHtml el) in
  if (start =? -1) || bool_decide (start ∈ seen) then st
  else if bool_decide (start ∈ passOver) then st
  else
    let seen := {[ start ]} ∪ seen in
    if push el
    then ((els ++ [ {| type := ty; startIndex := start;
                       endIndex := start + length (outerHtml el);
                       selector := sel |} ])%list, seen)
    else (els, seen).

Definition detectWith (ty : StructuralElementType) (selectors : list string)
    (passOver : gset Z) (push : Node -> bool) : list StructuralElement :=
  (fold_left
     (fun st sel => fold_left (eachElement ty passOver push sel) (select sel) st)
     selectors ([], ∅)).1.

(** [href.startsWith('#')]. *)
Definition isAnchor (href : string) : bool :=
  match href with
  | String c _ => Ascii.eqb c "#"
  | EmptyString => false
  end.

(** [metadata.isAnchorBased]:
    [anchorCount > 0 && anchorCount >= links.length * 0.5]. *)
Definition isAnchorBased (el : Node) : bool :=
  let anchorCount := List.length (filter (fun href => isAnchor href = true) (linkHrefs el)) in
  (0 <? anchorCount)%nat && (List.length (linkHrefs el) <=? 2 * anchorCount)%nat.

Definition detectTOCSections : list StructuralElement :=
  detectWith s_toc_or_jump TOC_SELECTORS ∅ isAnchorBased.

Definition detectBreadcrumbs : list StructuralElement :=
  detectWith s_breadcrumb BREADCRUMB_SELECTORS ∅ (fun _ => true).

Definition detectCTAs : list StructuralElement :=
  detectWith s_template_cta CTA_SELECTORS ∅ (fun _ => true).

Definition detectAccordions (faqElements : list StructuralElement)
    : list StructuralElement :=
  detectWith s_accordion ACCORDION_SELECTORS
    (list_to_set (map startIndex faqElements)) (fun _ => true).

Definition detectTestimonials : list StructuralElement :=
  detectWith s_testimonial TESTIMONIAL_SELECTORS ∅ (fun _ => true).

Definition detectAuthorBios : list StructuralElement :=
  detectWith s_author_bio AUTHOR_BIO_SELECTORS ∅ (fun _ => true).

Definition detectRelatedPosts : list StructuralElement :=
  detectWith s_related_posts RELATED_POSTS_SELECTORS ∅ (fun _ => true).

(** The element [detectJsonLdFAQ] returns for the script it finds. *)
Definition detectJsonLdFAQ : option StructuralElement :=
  scriptHtml ← jsonLdFaqScript;
  let start := indexOf html scriptHtml in
  Some {| type := s_faq_module;
          startIndex := if start =? -1 then 0 else start;
          endIndex := if start =? -1 then 0 else start + length scriptHtml;
          selector := "script[type=" ++ quoted "application/ld+json" ++ "] (FAQPage)" |}.

(** The body of [$(selector).each] in [detectFAQSections]: an element
    that is not found in the page is looked for by its [data-id], and is
    pushed with the index [-1] when that fails too. *)
Definition eachFaq (sel : string) (st : Found) (el : Node) : Found :=
  let '(els, seen) := st in
  let found := indexOf html (outerHtml el) in
  let start :=
    if found =? -1
    then (if Js.truthy (dataId el)
          then indexOf html ("data-id=" ++ quoted (dataId el))
          else found)
    else found in
  let dedupKey :=
    if start =? -1
    then length (outerHtml el) * 1000 + Z.min (length (outerHtml el)) 100
    else start in
  if bool_decide (dedupKey ∈ seen) then st
  else ((els ++ [ {| type := s_faq_module; startIndex := start;
                     endIndex := start + length (outerHtml el);
                     selector := sel |} ])%list,
        {[ dedupKey ]} ∪ seen).

Definition detectFAQSections : list StructuralElement :=
  let init : Found :=
    match detectJsonLdFAQ with
    | Some jsonLdFaq => ([jsonLdFaq], {[ startIndex jsonLdFaq ]})
    | None => ([], ∅)
    end in
  (fold_left (fun st sel => fold_left (eachFaq sel) (select sel) st)
     FAQ_SELECTORS init).1.

Definition detectStructuralElements : StructuralDetectionResult :=
  let faqElements := detectFAQSections in
  let tocElements := detectTOCSections in
  let breadcrumbElements := detectBreadcrumbs in
  let ctaElements := detectCTAs in
  let accordionElements := detectAccordions faqElements in
  let testimonialElements := detectTestimonials in
  let authorElements := detectAuthorBios in
  let relatedElements := detectRelatedPosts in
  {| elements :=
       (faqElements ++ tocElements ++ breadcrumbElements ++ ctaElements
        ++ accordionElements ++ testimonialElements ++ authorElements
        ++ relatedElements)%list;
     stats :=
       {| faq_modules := List.length faqElements;
          toc_sections := List.length tocElements;
          breadcrumbs := List.length breadcrumbElements;
          template_ctas := List.length ctaElements;
          accordions := List.length accordionElements;
          testimonials := List.length testimonialElements;
          author_bios := List.length authorElements;
          related_posts := List.length relatedElements |} |}.

End WithPage.

(** [getStructuralTypeAtPosition(position, elements)]. *)
Definition getStructuralTypeAtPosition (position : Z)
    (els : list StructuralElement) : option StructuralElement :=
  List.find (fun element =>
               (startIndex element <=? position) && (position <=? endIndex element))
    els.

(** *** For the statements *)

(** The elements of one type. *)
Definition ofType (ty : StructuralElementType) (els : list StructuralElement)
    : list StructuralElement :=
  filter (fun element => type element = ty) els.

(** The place of a type in the order in which [detectStructuralElements]
    runs the detectors. *)
Definition detectionOrder (ty : StructuralElementType) : nat :=
  match ty with
  | s_faq_module => 0
  | s_toc_or_jump => 1
  | s_breadcrumb => 2
  | s_template_cta => 3
  | s_accordion => 4
  | s_testimonial => 5
  | s_author_bio => 6
  | s_related_posts => 7
  end.

(** [outer] stands in [html] from [start] on. *)
Definition standsAt (html outer : string) (start : Z) : Prop :=
  0 <= start
  /\ take (String.length outer) (drop (Z.to_nat start) (Js.chars html))
     = Js.chars outer.

End StructuralDetector.

(** ** src/parsers/metadataExtractor.ts *)
Module Metadata.

Record PageMetadata := {
  title : option string;
  h1 : option string;
  metaDescription : option string;
  canonicalUrl : option string;
  ogImage : option string;
  language : option string
}.

(** The document as the extractor reads it.  An element the extractor
    looks for with [querySelector] is absent ([None]) or gives the text or
    the attribute read off it; an attribute may be absent in turn. *)
Record Document := {
  titleText : option string;               (* [title]: [textContent] *)
  ogTitleContent : option (option string);  (* [meta[property="og:title"]]: [content] *)
  h1Text : option string;                  (* the first [h1]: [textContent] *)
  descriptionContent : option (option string);   (* [meta[name="description"]] *)
  ogDescriptionContent : option (option string); (* [meta[property="og:description"]] *)
  canonicalHref : option (option string);  (* [link[rel="canonical"]]: [href] *)
  ogImageContent : option (option string); (* [meta[property="og:image"]] *)
  htmlLang : option string;                (* [documentElement]: [lang] *)
  contentLanguage : option (option string); (* [meta[http-equiv="content-language"]] *)
  headingTexts : nat -> list string        (* the [h<level>] elements: [textContent] *)
}.

(** An attribute that is present and not empty. *)
Definition attribute (el : option (option string)) : option string :=
  el ≫= Js.orNull.

Definition extractTitle (document : Document) : option string :=
  match Js.orNull (titleText document) with
  | Some text => Some (Js.trim text)
  | None =>
      match attribute (ogTitleContent document) with
      | Some content => Some (Js.trim content)
      | None =>
          match Js.orNull (h1Text document) with
          | Some text => Some (Js.trim text)
          | None => None
          end
      end
  end.

Definition extractH1 (document : Document) : option string :=
  match Js.orNull (h1Text document) with
  | Some t =>
      let text := Js.trim t in
      Some (if (500 <? String.length text)%nat then String.substring 0 500 text
            else text)
  | None => None
  end.

Definition extractMetaDescription (document : Document) : option string :=
  match attribute (descriptionContent document) with
  | Some content => Some (Js.trim content)
  | None =>
      match attribute (ogDescriptionContent document) with
      | Some content => Some (Js.trim content)
      | None => None
      end
  end.

Definition extractLanguage (document : Document) : option string :=
  match Js.orNull (htmlLang document) with
  | Some lang => Some (Js.trim lang)
  | None =>
      match attribute (contentLanguage document) with
      | Some content => Some (Js.trim content)
      | None => None
      end
  end.

Definition noMetadata : PageMetadata := {|
  title := None; h1 := None; metaDescription := None;
  canonicalUrl := None; ogImage := None; language := None
|}.

Section WithDom.
(** [new JSDOM(html, { url })]: the document, unless it raises. *)
Variable parse : string -> option string -> option Document.
(** [new URL(href, baseUrl).toString()], unless it raises. *)
Variable resolve : string -> string -> option string.

(** [extractCanonical] and [extractOgImage]: the attribute, made absolute
    where there is a base URL and the URL API takes it. *)
Definition absolute (el : option (option string)) (baseUrl : option string)
    : option string :=
  match attribute el with
  | Some href =>
      match Js.orNull baseUrl with
      | Some base => Some (default href (resolve href base))
      | None => Some href
      end
  | None => None
  end.

Definition extractMetadata (html : string) (url : option string) : PageMetadata :=
  if negb (Js.truthy html) then noMetadata
  else
    match parse html url with
    | Some document =>
        {| title := extractTitle document;
           h1 := extractH1 document;
           metaDescription := extractMetaDescription document;
           canonicalUrl := absolute (canonicalHref document) url;
           ogImage := absolute (ogImageContent document) url;
           language := extractLanguage document |}
    | None => noMetadata
    end.

(** [hasMultipleH1s(html)]. *)
Definition hasMultipleH1s (html : string) : bool :=
  match parse html None with
  | Some document => (1 <? length (headingTexts document 1))%nat
  | None => false
  end.

(** [extractHeadingStructure(html)]: the headings level by level. *)
Definition extractHeadingStructure (html : string) : list (nat * string) :=
  match parse html None with
  | Some document =>
      flat_map
        (fun level =>
           omap (fun textContent =>
                   let text := Js.trim textContent in
                   if Js.truthy text then Some (level, text) else None)
             (headingTexts document level))
        (seq 1 6)
  | None => []
  end.

End WithDom.

End Metadata.

(** ** Concrete inputs for the examples of Part II, continued *)
Module Examples.

(** A Markdown text whose H1 stands on the second line. *)
Definition lateHeading : string :=
  Js.str (Js.chars "intro" ++ [Lines.nl] ++ Js.chars "# Old" ++ [Lines.nl]
          ++ Js.chars "x")%list.

(** A marked Markdown text: a link under a heading, a link in a FAQ
    block, a link after it. *)
Definition markedText : string :=
  Js.str (Js.chars "## Intro" ++ [Lines.nl]
          ++ Js.chars "See [a [b](/x) and [c]()." ++ [Lines.nl]
          ++ Js.chars "<!-- STRUCT:FAQ:START -->" ++ [Lines.nl]
          ++ Js.chars "[q](/faq#1)" ++ [Lines.nl]
          ++ Js.chars "<!-- STRUCT:FAQ:END -->" ++ [Lines.nl]
          ++ Js.chars "[home](/)")%list.

(** An item of a cluster. *)
Definition navItem (u : string) (external : bool) : Nav.NavItem := {|
  Nav.url := u; Nav.label := "x"; Nav.depth := 0; Nav.order := 0;
  Nav.parent_labels := None; Nav.is_external := external;
  Nav.link_type := Nav.text
|}.

End Examples.

(* ===================================================================== *)
(** * Part II. Properties                                                 *)
(* ===================================================================== *)

(** ** The hash agrees with RFC 1321 on its test suite *)
Module HashVectors.

Example md5_empty : Hash.md5Hash "" = "d41d8cd98f00b204e9800998ecf8427e".
Proof. vm_compute. reflexivity. Qed.

Example md5_abc : Hash.md5Hash "abc" = "900150983cd24fb0d6963f7d28e17f72".
Proof. vm_compute. reflexivity. Qed.

Example md5_two_blocks :
  Hash.md5Hash "xxxxxxxxxxxxxxxxxxxxxxxxxxxxxxxxxxxxxxxxxxxxxxxxxxxxxxxxxxxxxxxxxxxxxx"
  = "7d56c0f83fd1e320d60ea2f13dfdeedd".
Proof. vm_compute. reflexivity. Qed.

End HashVectors.

(** ** Global replacement terminates within its fuel *)
Module RegexProps.
Import Regex EnhancedMarkdown.

Lemma replaceAllFuel_stable matchAt :
  (forall l out rest, matchAt l = Some (out, rest) -> (length rest < length l)%nat) ->
  forall n l fuel1 fuel2,
    (length l <= n)%nat -> (n <= fuel1)%nat -> (n <= fuel2)%nat ->
    replaceAllFuel matchAt fuel1 l = replaceAllFuel matchAt fuel2 l.
Proof.
  intros Hshorter n. induction n as [|n IH]; intros l fuel1 fuel2 Hl H1 H2.
  - destruct l; [|cbn in Hl; lia]. by destruct fuel1, fuel2.
  - destruct l as [|c r]; [by destruct fuel1, fuel2|].
    destruct fuel1 as [|fuel1]; [lia|]. destruct fuel2 as [|fuel2]; [lia|].
    cbn [replaceAllFuel]. cbn [length] in Hl.
    destruct (matchAt (c :: r)) as [[out rest]|] eqn:Hmatch.
    + apply Hshorter in Hmatch. cbn [length] in Hmatch.
      f_equal. apply IH; lia.
    + f_equal. apply IH; lia.
Qed.

(** More fuel than the length of the text changes nothing. *)
Lemma replaceAllFuel_enough matchAt fuel l :
  (forall l out rest, matchAt l = Some (out, rest) -> (length rest < length l)%nat) ->
  (length l <= fuel)%nat ->
  replaceAllFuel matchAt fuel l = replaceAll matchAt l.
Proof.
  intros Hshorter Hfuel. unfold replaceAll.
  by apply (replaceAllFuel_stable matchAt Hshorter (length l)).
Qed.

Lemma literal_length lit l rest :
  literal lit l = Some rest -> length l = (length lit + length rest)%nat.
Proof.
  revert l. induction lit as [|a lit IH]; intros [|c l]; cbn; try discriminate.
  - by intros [= <-].
  - by intros [= <-].
  - destruct (Ascii.eqb a c); [|discriminate]. intros Hrest%IH. lia.
Qed.

Lemma span_length p l : length l = (length (span p l).1 + length (span p l).2)%nat.
Proof.
  induction l as [|c l IH]; cbn; [done|].
  destruct (p c); [|done]. destruct (span p l) as [a b]. cbn in *. lia.
Qed.

Lemma name_length l n rest :
  name l = Some (n, rest) -> length l = (length n + length rest)%nat /\ n <> [].
Proof.
  unfold name. pose proof (span_length isNameChar l) as Hlen.
  destruct (span isNameChar l) as [[|c a] b]; [discriminate|].
  intros [= <- <-]. done.
Qed.

Lemma marker_shorter l rest : marker l = Some rest -> (length rest < length l)%nat.
Proof.
  unfold marker. intros Hm.
  destruct (literal _ l) as [r1|] eqn:E1; [|discriminate]. cbn [mbind option_bind] in Hm.
  destruct (name r1) as [[n1 r2]|] eqn:E2; [|discriminate]. cbn [mbind option_bind] in Hm.
  destruct (literal _ r2) as [r3|] eqn:E3; [|discriminate]. cbn [mbind option_bind] in Hm.
  destruct (name r3) as [[n2 r4]|] eqn:E4; [|discriminate]. cbn [mbind option_bind] in Hm.
  apply literal_length in E1, E3, Hm. apply name_length in E2 as [E2 _], E4 as [E4 _].
  cbn [length Js.chars list_ascii_of_string] in *. lia.
Qed.

(** The model of [replace(STRUCT_MARKER_REGEX, '')] does not run out of
    fuel. *)
Lemma removeMarkers_fuel fuel l :
  (length l <= fuel)%nat ->
  replaceAllFuel (fun l => rest ← marker l; Some ([], rest)) fuel l = removeMarkers l.
Proof.
  apply replaceAllFuel_enough. intros l0 out rest Hm.
  destruct (marker l0) as [r|] eqn:E; [|discriminate].
  cbn [mbind option_bind] in Hm. injection Hm as <- <-. by apply marker_shorter.
Qed.

Lemma startThenBlank_shorter l out rest :
  startThenBlank l = Some (out, rest) -> (length rest < length l)%nat.
Proof.
  unfold startThenBlank. intros Hm.
  destruct (literal _ l) as [r1|] eqn:E1; [|discriminate]. cbn [mbind option_bind] in Hm.
  destruct (name r1) as [[n1 r2]|] eqn:E2; [|discriminate]. cbn [mbind option_bind] in Hm.
  destruct (literal _ r2) as [r3|] eqn:E3; [|discriminate]. cbn [mbind option_bind] in Hm.
  destruct (literal _ r3) as [r4|] eqn:E4; [|discriminate]. cbn [mbind option_bind] in Hm.
  injection Hm as <- <-.
  apply literal_length in E1, E3, E4. apply name_length in E2 as [E2 _].
  cbn [length Js.chars list_ascii_of_string] in *. lia.
Qed.

Lemma blankThenEnd_shorter l out rest :
  blankThenEnd l = Some (out, rest) -> (length rest < length l)%nat.
Proof.
  unfold blankThenEnd. intros Hm.
  destruct (literal _ l) as [r0|] eqn:E0; [|discriminate]. cbn [mbind option_bind] in Hm.
  destruct (literal _ r0) as [r1|] eqn:E1; [|discriminate]. cbn [mbind option_bind] in Hm.
  destruct (name r1) as [[n1 r2]|] eqn:E2; [|discriminate]. cbn [mbind option_bind] in Hm.
  destruct (literal _ r2) as [r3|] eqn:E3; [|discriminate]. cbn [mbind option_bind] in Hm.
  injection Hm as <- <-.
  apply literal_length in E0, E1, E3. apply name_length in E2 as [E2 _].
  cbn [length Js.chars list_ascii_of_string] in *. lia.
Qed.

Lemma closes_shorter l rest : Extract.closes l = Some rest -> (length rest < length l)%nat.
Proof.
  induction l as [|c l IH]; cbn; [discriminate|].
  destruct (Ascii.eqb c ">"); [intros [= <-]; lia|]. intros Hrest%IH. lia.
Qed.

Lemma tagAt_shorter l out rest :
  Extract.tagAt l = Some (out, rest) -> (length rest < length l)%nat.
Proof.
  destruct l as [|c l]; cbn; [discriminate|].
  destruct (Ascii.eqb c "<"); [|discriminate].
  destruct (Extract.closes l) as [r|] eqn:E; [|discriminate].
  cbn [mbind option_bind]. intros [= <- <-]. apply closes_shorter in E. lia.
Qed.

End RegexProps.

(** ** The page upsert *)
Module QueriesProps.
Import Types Queries.

(** The assignments in sequence amount to one simultaneous update: the two
    content columns are assigned before [content_hash], so their condition
    reads the stored hash. *)
Lemma onDuplicateKeyUpdate_unfold now v r :
  onDuplicateKeyUpdate now v r = {|
    r_final_url := r_final_url r;
    r_requested_url_original := r_requested_url_original r;
    r_status_code := v_status_code v;
    r_crawl_status := v_crawl_status v;
    r_redirect_chain := v_redirect_chain v;
    r_html_content :=
      if hashChanged (v_content_hash v) (r_content_hash r)
      then v_html_content v else r_html_content r;
    r_clean_html :=
      if hashChanged (v_content_hash v) (r_content_hash r)
      then v_clean_html v else r_clean_html r;
    r_markdown := COALESCE (v_markdown v) (r_markdown r);
    r_markdown_enhanced := r_markdown_enhanced r;
    r_title := COALESCE (v_title v) (r_title r);
    r_h1 := COALESCE (v_h1 v) (r_h1 r);
    r_meta_description := COALESCE (v_meta_description v) (r_meta_description r);
    r_word_count := COALESCE (v_word_count v) (r_word_count r);
    r_content_hash := COALESCE (v_content_hash v) (r_content_hash r);
    r_sitemap_type_hint := COALESCE (v_sitemap_type_hint v) (r_sitemap_type_hint r);
    r_nav_structure := r_nav_structure r;
    r_structural_stats := r_structural_stats r;
    r_fetch_mode := v_fetch_mode v;
    r_extraction_method := COALESCE (v_extraction_method v) (r_extraction_method r);
    r_junk_score := COALESCE (v_junk_score v) (r_junk_score r);
    r_last_crawled_at := now;
    r_last_error := v_last_error v;
    r_run_id := v_run_id v |}.
Proof. reflexivity. Qed.

Lemma upsertPage_conflict now page (t : Table) stored :
  t !! final_url page = Some stored ->
  upsertPage now page t !! final_url page
  = Some (onDuplicateKeyUpdate now (bindParams page) stored).
Proof.
  intros Hhit. unfold upsertPage. cbn [v_final_url bindParams].
  rewrite Hhit. apply lookup_insert_eq.
Qed.

Lemma upsertPage_insert now page (t : Table) :
  t !! final_url page = None ->
  upsertPage now page t !! final_url page
  = Some (insertedRow now (bindParams page)).
Proof.
  intros Hnew. unfold upsertPage. cbn [v_final_url bindParams].
  rewrite Hnew. apply lookup_insert_eq.
Qed.

Lemma upsertPage_other now page (t : Table) key :
  key <> final_url page ->
  upsertPage now page t !! key = t !! key.
Proof.
  intros Hne. unfold upsertPage. cbn [v_final_url bindParams].
  destruct (t !! final_url page); by rewrite lookup_insert_ne.
Qed.

Lemma orNull_Some x s : Js.orNull x = Some s -> x = Some s /\ s <> "".
Proof.
  destruct x as [y|]; cbn; [|discriminate].
  unfold Js.truthy. destruct (String.eqb_spec y "") as [->|Hne]; cbn.
  - discriminate.
  - intros [= ->]. done.
Qed.

Lemma orNull_None_or x : Js.orNull x = None -> x = None \/ x = Some "".
Proof.
  destruct x as [y|]; cbn; [|by left].
  unfold Js.truthy. destruct (String.eqb_spec y "") as [->|Hne]; cbn.
  - by right.
  - discriminate.
Qed.

Lemma hashChanged_same (h : option string) : hashChanged (Js.orNull h) h = false.
Proof.
  destruct (Js.orNull h) as [s|] eqn:E; cbn; [|done].
  apply orNull_Some in E as [-> _]. cbn. by rewrite String.eqb_refl.
Qed.

Lemma hashChanged_true new stored :
  hashChanged new stored = true ->
  exists h, new = Some h /\ stored <> Some h.
Proof.
  destruct new as [h|]; cbn; [|discriminate].
  intros Hne. exists h. split; [done|]. intros ->. cbn in Hne.
  by rewrite String.eqb_refl in Hne.
Qed.

Lemma COALESCE_orNull_same (h : option string) : COALESCE (Js.orNull h) h = h.
Proof.
  destruct (Js.orNull h) as [s|] eqn:E; cbn; [|done].
  by apply orNull_Some in E as [-> _].
Qed.

(** C1, as amended.  An upsert that hits a stored row and carries the
    stored content hash leaves [html_content] and [clean_html] as they are,
    and with them the key, the requested URL, the hash, the enhanced
    Markdown, the navigation structure and the structural statistics;
    [status_code], [crawl_status], [redirect_chain], [fetch_mode],
    [last_error], [last_crawled_at] and [run_id] are taken from the new
    page, and [markdown], [title], [h1], [meta_description], [word_count],
    [extraction_method], [junk_score] and [sitemap_type_hint] from the new
    page when it binds a value.  On any conflicting upsert the two content
    columns change only when the new hash is bound and differs from the
    stored one. *)
Theorem upsert_same_hash_frame now page (t : Table) stored :
  t !! final_url page = Some stored ->
  exists row,
    upsertPage now page t !! final_url page = Some row /\
    (content_hash page = r_content_hash stored ->
     row = {|
       r_final_url := r_final_url stored;
       r_requested_url_original := r_requested_url_original stored;
       r_status_code := Js.orNullNum (status_code page);
       r_crawl_status := crawl_status page;
       r_redirect_chain := redirect_chain page;
       r_html_content := r_html_content stored;
       r_clean_html := r_clean_html stored;
       r_markdown := COALESCE (Js.orNull (markdown page)) (r_markdown stored);
       r_markdown_enhanced := r_markdown_enhanced stored;
       r_title := COALESCE (Js.orNull (title page)) (r_title stored);
       r_h1 := COALESCE (Js.orNull (h1 page)) (r_h1 stored);
       r_meta_description :=
         COALESCE (Js.orNull (meta_description page)) (r_meta_description stored);
       r_word_count := Some (Js.orZero (word_count page));
       r_content_hash := r_content_hash stored;
       r_sitemap_type_hint :=
         COALESCE (Js.orNull (sitemap_type_hint page)) (r_sitemap_type_hint stored);
       r_nav_structure := r_nav_structure stored;
       r_structural_stats := r_structural_stats stored;
       r_fetch_mode := fetch_mode page;
       r_extraction_method :=
         COALESCE (extraction_method page) (r_extraction_method stored);
       r_junk_score := COALESCE (Js.orNullFrac (junk_score page)) (r_junk_score stored);
       r_last_crawled_at := now;
       r_last_error := Js.orNull (last_error page);
       r_run_id := Js.orNull (run_id page) |}) /\
    (r_html_content row <> r_html_content stored
     \/ r_clean_html row <> r_clean_html stored ->
     exists h, Js.orNull (content_hash page) = Some h
               /\ r_content_hash stored <> Some h).
Proof.
  intros Hhit. eexists. split; [by apply upsertPage_conflict|].
  rewrite onDuplicateKeyUpdate_unfold. cbn [bindParams v_content_hash
    v_html_content v_clean_html v_status_code v_crawl_status v_redirect_chain
    v_markdown v_title v_h1 v_meta_description v_word_count v_sitemap_type_hint
    v_fetch_mode v_extraction_method v_junk_score v_last_error v_run_id
    r_html_content r_clean_html].
  split.
  - intros Hsame. rewrite Hsame, hashChanged_same, COALESCE_orNull_same.
    reflexivity.
  - destruct (hashChanged _ _) eqn:E.
    + intros _. by apply hashChanged_true.
    + intros [Hne|Hne]; by destruct Hne.
Qed.

(** The frame holds for the second crawl of the sample page. *)
Lemma upsert_same_hash_frame_witness :
  exists row,
    upsertPage 200 Sample.recrawledPage Sample.storedTable !! "https://ex.com/a"
    = Some row /\
    r_html_content row = Some "<p>a b</p>" /\ r_clean_html row = Some "a b"
    /\ r_title row = Some "New title" /\ r_last_crawled_at row = 200%nat.
Proof.
  destruct (upsert_same_hash_frame 200 Sample.recrawledPage Sample.storedTable
              Sample.storedRow) as (row & Hrow & Hframe & _).
  { apply lookup_singleton_eq. }
  exists row. split; [exact Hrow|].
  rewrite (Hframe eq_refl). cbn. repeat split; reflexivity.
Defined.

(** C1 as stated fails: the second crawl of the sample page carries the
    stored hash, and the stored title changes with it. *)
Lemma same_hash_upsert_changes_title :
  Sample.storedTable !! final_url Sample.recrawledPage = Some Sample.storedRow
  /\ content_hash Sample.recrawledPage = r_content_hash Sample.storedRow
  /\ exists row,
       upsertPage 200 Sample.recrawledPage Sample.storedTable
         !! final_url Sample.recrawledPage = Some row
       /\ r_title Sample.storedRow = Some "Old title"
       /\ r_title row = Some "New title".
Proof.
  split; [apply lookup_singleton_eq|]. split; [reflexivity|].
  eexists. split.
  - apply upsertPage_conflict, lookup_singleton_eq.
  - split; reflexivity.
Qed.

(** C5 fails on the code.  [upsertPage] binds [page.word_count || 0],
    never NULL, so the upsert of the failed-request handler, which
    supplies no word count, puts 0 in the place of the count the first
    crawl of the sample page stored; and its statement names no
    [nav_structure], so the navigation structure that the second crawl
    supplies is not stored. *)
Theorem upsert_loses_word_count_and_nav_structure :
  exists first second row0 row1 row2,
    Sample.firstCrawl = Some first
    /\ Sample.secondCrawl = Some second
    /\ @Crawler.failedPageDataOf (Sample.services Sample.noMetadata None)
         "run-3" Sample.requestA "timeout" = Some Sample.failedPage
    /\ upsertPage 10 first ∅ !! "https://ex.com/a" = Some row0
    /\ upsertPage 300 Sample.failedPage (upsertPage 10 first ∅)
         !! "https://ex.com/a" = Some row1
    /\ upsertPage 200 second (upsertPage 10 first ∅)
         !! "https://ex.com/a" = Some row2
    /\ r_word_count row0 = Some 2
    /\ word_count Sample.failedPage = None
    /\ r_word_count row1 = Some 0
    /\ nav_structure second = Some "{}"
    /\ r_nav_structure row2 = None.
Proof.
  assert (exists first, Sample.firstCrawl = Some first
            /\ final_url first = "https://ex.com/a"
            /\ word_count first = Some 2)
    as (first & Hfirst & Hurl & Hcount).
  { eexists. split; [vm_compute; reflexivity|]. split; reflexivity. }
  assert (exists second, Sample.secondCrawl = Some second
            /\ final_url second = "https://ex.com/a"
            /\ nav_structure second = Some "{}")
    as (second & Hsecond & Hurl' & Hnav).
  { eexists. split; [vm_compute; reflexivity|]. split; reflexivity. }
  pose proof (upsertPage_insert 10 first ∅ (lookup_empty _)) as Hrow0.
  rewrite Hurl in Hrow0.
  pose proof (upsertPage_conflict 300 Sample.failedPage _ _ Hrow0) as Hrow1.
  pose proof Hrow0 as Hrow2. rewrite <- Hurl' in Hrow2.
  apply (upsertPage_conflict 200 second) in Hrow2. rewrite Hurl' in Hrow2.
  exists first, second. do 3 eexists.
  split; [exact Hfirst|]. split; [exact Hsecond|].
  split; [vm_compute; reflexivity|]. split; [exact Hrow0|].
  split; [exact Hrow1|]. split; [exact Hrow2|].
  split; [cbn; by rewrite Hcount|]. split; [reflexivity|].
  split; [reflexivity|]. split; [exact Hnav|]. reflexivity.
Qed.

End QueriesProps.

(** ** The content hash of the stored rows *)
Module HashProps.
Import Types Queries Invariants.

Lemma truthy_orElse a b :
  Js.truthy (Js.orElse a b) = true ->
  (Js.truthy a = true /\ Js.orElse a b = a)
  \/ (Js.truthy a = false /\ Js.truthy b = true /\ Js.orElse a b = b).
Proof.
  unfold Js.orElse. destruct (Js.truthy a) eqn:Ea; intros Hb; [by left|].
  right. done.
Qed.

Lemma orNull_truthy s : Js.truthy s = true -> Js.orNull (Some s) = Some s.
Proof. cbn. by intros ->. Qed.

Lemma orNull_falsy s : Js.truthy s = false -> Js.orNull (Some s) = None.
Proof. cbn. by intros ->. Qed.

Lemma hashHtmlContent_nonempty html h :
  Js.orNull (Some (Hash.hashHtmlContent html)) = Some h ->
  Js.truthy html = true /\ h = Hash.md5Hash (Hash.normalizeSpace html).
Proof.
  intros Hh. apply QueriesProps.orNull_Some in Hh as [[= <-] Hne].
  unfold Hash.hashHtmlContent in *. by destruct (Js.truthy html).
Qed.

Section WithServices.
Context `{Extract.Dom} `{Crawler.Services}.

(** The request handler hashes the text it stores as clean HTML, or the
    raw HTML when the extraction left no clean HTML. *)
Lemma pageDataOf_hash runId request statusCode body page :
  Crawler.pageDataOf runId request statusCode body = Some page ->
  carriesHashOfContent page.
Proof.
  unfold Crawler.pageDataOf. intros Hpage.
  destruct (Crawler.normalizeUrl _) as [finalUrl|]; [|discriminate].
  cbn in Hpage.
  destruct (Crawler.extractionFor _ _) as [extraction|]; [|discriminate].
  cbn in Hpage. injection Hpage as <-. intros h. cbn [content_hash clean_html html_content].
  intros Hh. apply hashHtmlContent_nonempty in Hh as [Ht ->].
  apply truthy_orElse in Ht as [[Hc ->]|(Hc & Hb & ->)].
  - exists (Extract.cleanHtml extraction). split; [|done].
    left. by apply orNull_truthy.
  - exists body. split; [|done].
    right. split; [by apply orNull_falsy | by apply orNull_truthy].
Qed.

Lemma failedPageDataOf_hash runId request message page :
  Crawler.failedPageDataOf runId request message = Some page ->
  carriesHashOfContent page.
Proof.
  unfold Crawler.failedPageDataOf. intros Hpage.
  destruct (Crawler.normalizeUrl _) as [finalUrl|]; [|discriminate].
  cbn in Hpage. injection Hpage as <-. intros h. cbn. discriminate.
Qed.

End WithServices.

(** The content-hash gate keeps the hash and the content of a row
    together. *)
Lemma onDuplicateKeyUpdate_hash now page stored :
  carriesHashOfContent page ->
  hashMatchesContent stored ->
  hashMatchesContent (onDuplicateKeyUpdate now (bindParams page) stored).
Proof.
  intros Hpage Hstored h. rewrite QueriesProps.onDuplicateKeyUpdate_unfold.
  cbn [r_content_hash r_clean_html r_html_content bindParams v_content_hash
       v_clean_html v_html_content].
  destruct (hashChanged _ _) eqn:Echanged.
  - apply QueriesProps.hashChanged_true in Echanged as (h' & Hnew & _).
    rewrite Hnew. cbn. intros [= <-]. by apply Hpage.
  - destruct (Js.orNull (content_hash page)) as [h'|] eqn:Hnew; cbn.
    + intros [= <-]. apply Hstored.
      cbn in Echanged. apply negb_false_iff, String.eqb_eq in Echanged.
      destruct (r_content_hash stored) as [h0|]; cbn in Echanged; [by subst|].
      apply QueriesProps.orNull_Some in Hnew as [_ Hne]. by subst.
    + apply Hstored.
Qed.

Lemma insertedRow_hash now page :
  carriesHashOfContent page ->
  hashMatchesContent (insertedRow now (bindParams page)).
Proof. intros Hpage h. cbn. apply Hpage. Qed.

Lemma upsertPage_hash now page (t : Table) :
  carriesHashOfContent page ->
  (forall key row, t !! key = Some row -> hashMatchesContent row) ->
  forall key row,
    upsertPage now page t !! key = Some row -> hashMatchesContent row.
Proof.
  intros Hpage Ht key row.
  destruct (decide (key = final_url page)) as [->|Hne].
  - destruct (t !! final_url page) as [stored|] eqn:Hhit.
    + rewrite (QueriesProps.upsertPage_conflict _ _ _ _ Hhit).
      intros [= <-]. apply onDuplicateKeyUpdate_hash; eauto.
    + rewrite (QueriesProps.upsertPage_insert _ _ _ Hhit).
      intros [= <-]. by apply insertedRow_hash.
  - rewrite QueriesProps.upsertPage_other by done. apply Ht.
Qed.

Section Reachable.
Context `{Extract.Dom} `{Crawler.Services}.

Lemma step_hash (t t' : Table) :
  History.step t t' ->
  (forall key row, t !! key = Some row -> hashMatchesContent row) ->
  forall key row, t' !! key = Some row -> hashMatchesContent row.
Proof.
  intros Hstep Ht.
  destruct Hstep as [now runId request statusCode body page t Hpage
                    |now runId request message page t Hpage
                    |key0 row0 turndownOutput stats t Hrow0 Hclean result
                    |key0 row0 nav t Hrow0 Hhtml Hnav
                    |deleted t].
  - eapply upsertPage_hash; eauto using pageDataOf_hash.
  - eapply upsertPage_hash; eauto using failedPageDataOf_hash.
  - intros key row. destruct (decide (key0 = key)) as [->|Hne].
    + rewrite lookup_insert_eq. intros [= <-]. exact (Ht _ _ Hrow0).
    + rewrite lookup_insert_ne by done. apply Ht.
  - intros key row. destruct (decide (key0 = key)) as [->|Hne].
    + rewrite lookup_insert_eq. intros [= <-]. exact (Ht _ _ Hrow0).
    + rewrite lookup_insert_ne by done. apply Ht.
  - intros key row Hlook. apply map_lookup_filter_Some in Hlook as [Hlook _].
    by eapply Ht.
Qed.

(** C3, as amended.  In every table the crawler's writes leave, a row
    with a content hash holds the MD5 digest of its stored clean HTML,
    white space normalized, or, when it stores no clean HTML, of its
    stored raw HTML. *)
Theorem content_hash_of_stored_content (t : Table) key row :
  History.reachable t ->
  t !! key = Some row ->
  hashMatchesContent row.
Proof.
  intros Hreach. revert key row.
  induction Hreach as [|t t' _ IH Hstep].
  - intros key row. by rewrite lookup_empty.
  - by apply (step_hash t t').
Qed.

End Reachable.

(** The first crawl of the sample page stores the digest of its clean
    HTML. *)
Lemma content_hash_of_stored_content_witness :
  exists page row src,
    Sample.firstCrawl = Some page
    /\ upsertPage 10 page ∅ !! "https://ex.com/a" = Some row
    /\ r_content_hash row = Some Sample.digestA
    /\ hashedText (r_clean_html row) (r_html_content row) src
    /\ Sample.digestA = Hash.md5Hash (Hash.normalizeSpace src).
Proof.
  assert (exists page, Sample.firstCrawl = Some page
                       /\ final_url page = "https://ex.com/a"
                       /\ Js.orNull (content_hash page) = Some Sample.digestA)
    as (page & Hpage & Hurl & Hhash).
  { eexists. split; [vm_compute; reflexivity|]. split; reflexivity. }
  pose proof (QueriesProps.upsertPage_insert 10 page ∅ (lookup_empty _)) as Hrow.
  rewrite Hurl in Hrow.
  destruct (@content_hash_of_stored_content Sample.plainText
              (Sample.services Sample.noMetadata None)
              (upsertPage 10 page ∅) "https://ex.com/a" _
              (History.reachable_step ∅ _ History.reachable_empty
                 (History.step_crawled 10 "run-1" Sample.requestA (Some 200)
                    "a  b" page ∅ Hpage))
              Hrow Sample.digestA Hhash)
    as (src & Hsrc & Hdigest).
  exists page, (insertedRow 10 (bindParams page)), src. done.
Defined.

(** C3 as stated fails: on a site whose override removes the
    advertisements, the crawl of a page that is one advertisement leaves
    the extraction with an empty clean HTML, and the row stores the digest
    of the raw HTML and no clean HTML. *)
Lemma content_hash_without_clean_html :
  exists page row,
    Sample.adOnlyCrawl = Some page
    /\ clean_html page = Some ""
    /\ @History.reachable Sample.adOnly
         (Sample.services Sample.noMetadata (Some Sample.adOverride))
         (upsertPage 10 page ∅)
    /\ upsertPage 10 page ∅ !! "https://ex.com/a" = Some row
    /\ r_content_hash row = Some Sample.adOnlyDigest
    /\ r_clean_html row = None
    /\ Sample.adOnlyDigest
       = Hash.md5Hash (Hash.normalizeSpace Sample.adOnlyBody)
    /\ Sample.adOnlyDigest <> Hash.md5Hash (Hash.normalizeSpace "")
    /\ ~ hashMatchesCleanHtml row.
Proof.
  assert (exists page, Sample.adOnlyCrawl = Some page
            /\ clean_html page = Some ""
            /\ final_url page = "https://ex.com/a"
            /\ Js.orNull (content_hash page) = Some Sample.adOnlyDigest
            /\ Js.orNull (clean_html page) = None)
    as (page & Hpage & Hempty & Hurl & Hhash & Hclean).
  { eexists. split; [vm_compute; reflexivity|]. repeat split; reflexivity. }
  pose proof (QueriesProps.upsertPage_insert 10 page ∅ (lookup_empty _)) as Hrow.
  rewrite Hurl in Hrow.
  exists page, (insertedRow 10 (bindParams page)).
  split; [exact Hpage|]. split; [exact Hempty|]. split.
  { eapply History.reachable_step; [apply History.reachable_empty|].
    eapply History.step_crawled. exact Hpage. }
  split; [exact Hrow|]. split; [exact Hhash|]. split; [exact Hclean|].
  split; [vm_compute; reflexivity|]. split; [vm_compute; discriminate|].
  intros Hspec. destruct (Hspec _ Hhash) as (clean & Hsome & _).
  cbn in Hsome. rewrite Hclean in Hsome. discriminate.
Qed.

End HashProps.

(** ** The extraction cascade *)
Module ExtractProps.
Import Types Extract.

Section WithDom.
Context `{Dom}.

Lemma firstNonBlank_truthy html selectors extracted :
  firstNonBlank html selectors = Some extracted -> Js.truthy extracted = true.
Proof.
  induction selectors as [|sel rest IH]; cbn; [discriminate|].
  destruct (querySelector html sel) as [| |inner]; [discriminate|exact IH|].
  destruct (Js.truthy (Js.trim inner)) eqn:Etrim; [|exact IH].
  intros [= <-]. destruct inner; [discriminate Etrim|reflexivity].
Qed.

Lemma extractBySelectors_truthy html selectors extracted :
  extractBySelectors html selectors = Some extracted -> Js.truthy extracted = true.
Proof.
  unfold extractBySelectors. destruct (Js.truthy html); [|discriminate].
  apply firstNonBlank_truthy.
Qed.

(** C6, as amended.  When the domain selectors configured for the host
    yield content that is not blank and has the word count, the cascade
    stops there and records the extraction method [cms_pattern]. *)
Theorem domain_selectors_recorded_as_cms_pattern
    html url sel sels removeSelectors extracted :
  Js.truthy html = true ->
  extractBySelectors (cleanedHtmlOf html removeSelectors) (sel :: sels)
  = Some extracted ->
  Constants.READABILITY_MIN_WORDS <= countWords extracted ->
  extractContent html url (Some (sel :: sels)) removeSelectors
  = {| cleanHtml := extracted; extractionMethod := cms_pattern;
       wordCount := countWords extracted; success := true |}.
Proof.
  intros Hhtml Hsel Hcount. unfold extractContent. rewrite Hhtml.
  cbn zeta. unfold extractByDomainSelectors. rewrite Hsel.
  rewrite (extractBySelectors_truthy _ _ _ Hsel).
  unfold accepted. cbn [wordCount].
  by destruct (Z.leb_spec Constants.READABILITY_MIN_WORDS (countWords extracted)); [|lia].
Qed.

(** No input makes the cascade record a method named [domain_override]. *)
Lemma extractContent_method_name html url domainSelectors removeSelectors :
  methodName (extractionMethod
                (extractContent html url domainSelectors removeSelectors))
  <> "domain_override".
Proof. by destruct (extractionMethod _). Qed.

End WithDom.

(** The selector [.article-body] of the sample override finds its 120
    words. *)
Lemma domain_selectors_recorded_as_cms_pattern_witness :
  @extractContent Sample.withArticleBody "page text" "https://ex.com/a"
    (Some [".article-body"]) None
  = {| cleanHtml := Sample.words 120; extractionMethod := cms_pattern;
       wordCount := 120; success := true |}.
Proof.
  rewrite (@domain_selectors_recorded_as_cms_pattern Sample.withArticleBody
             "page text" "https://ex.com/a" ".article-body" [] None
             (Sample.words 120)).
  - reflexivity.
  - reflexivity.
  - vm_compute. reflexivity.
  - vm_compute. discriminate.
Defined.

(** C6 as stated fails: the page that the sample override extracts is
    recorded with the method [cms_pattern]. *)
Lemma domain_override_recorded_as_cms_pattern :
  exists page,
    @Crawler.pageDataOf Sample.withArticleBody
      (Sample.services Sample.noMetadata (Some Sample.articleOverride))
      "run-1" Sample.requestA (Some 200) "page text" = Some page
    /\ clean_html page = Some (Sample.words 120)
    /\ (methodName <$> extraction_method page) = Some "cms_pattern"
    /\ (methodName <$> extraction_method page) <> Some "domain_override".
Proof.
  eexists. split; [vm_compute; reflexivity|].
  split; [vm_compute; reflexivity|]. split; [reflexivity|]. discriminate.
Qed.

End ExtractProps.

(** ** The request handler *)
Module CrawlerProps.
Import Types Queries.

Section WithServices.
Context `{Extract.Dom} `{Crawler.Services}.

Lemma classify_success statusCode :
  200 <= statusCode < 300 -> Crawler.classify statusCode = OK.
Proof.
  intros Hrange. unfold Crawler.classify.
  destruct (Z.eqb_spec statusCode 404); [lia|].
  destruct (Z.eqb_spec statusCode 410); [lia|].
  destruct (Z.leb_spec 400 statusCode); [lia|]. reflexivity.
Qed.

(** C4, as amended.  A page fetched with a 2xx status is stored with the
    crawl status OK and the word count of its extraction, whatever its
    title and body say: the handler makes no soft-404 check. *)
Theorem success_status_stored_as_OK
    now runId request statusCode body page (t : Table) :
  Crawler.pageDataOf runId request (Some statusCode) body = Some page ->
  200 <= statusCode < 300 ->
  exists extraction row,
    Crawler.extractionFor (final_url page) body = Some extraction
    /\ upsertPage now page t !! final_url page = Some row
    /\ r_crawl_status row = OK
    /\ r_word_count row = Some (Extract.wordCount extraction).
Proof.
  unfold Crawler.pageDataOf. intros Hpage Hrange.
  destruct (Crawler.normalizeUrl _) as [finalUrl|]; [|discriminate].
  cbn in Hpage.
  destruct (Crawler.extractionFor _ _) as [extraction|] eqn:Hext; [|discriminate].
  cbn in Hpage. injection Hpage as <-. cbn [final_url].
  rewrite (classify_success _ Hrange).
  exists extraction. 
  match goal with |- context [upsertPage now ?p t] => set (page := p) end.
  destruct (t !! finalUrl) as [stored|] eqn:Hhit.
  - exists (onDuplicateKeyUpdate now (bindParams page) stored).
    split; [exact Hext|].
    split; [exact (QueriesProps.upsertPage_conflict now page t stored Hhit)|].
    split; reflexivity.
  - exists (insertedRow now (bindParams page)).
    split; [exact Hext|].
    split; [exact (QueriesProps.upsertPage_insert now page t Hhit)|].
    split; reflexivity.
Qed.

End WithServices.

(** The first crawl of the sample page is stored with the status OK. *)
Lemma success_status_stored_as_OK_witness :
  exists page row,
    Sample.firstCrawl = Some page
    /\ upsertPage 10 page ∅ !! final_url page = Some row
    /\ r_crawl_status row = OK
    /\ r_word_count row = Some 2.
Proof.
  assert (exists page, Sample.firstCrawl = Some page
            /\ @Crawler.extractionFor Sample.plainText
                 (Sample.services Sample.noMetadata None) (final_url page) "a  b"
               = Some {| Extract.cleanHtml := "a  b";
                         Extract.extractionMethod := fallback;
                         Extract.wordCount := 2; Extract.success := true |})
    as (page & Hpage & Hext).
  { eexists. split; [vm_compute; reflexivity|]. vm_compute. reflexivity. }
  destruct (@success_status_stored_as_OK Sample.plainText
              (Sample.services Sample.noMetadata None)
              10 "run-1" Sample.requestA 200 "a  b" page ∅ Hpage)
    as (extraction & row & Hext' & Hrow & Hstatus & Hwords); [lia|].
  exists page, row. rewrite Hext in Hext'. injection Hext' as <-. done.
Defined.

(** C4 as stated fails: a page with the status 200, the title
    [Page Not Found] and a body of forty words is stored with the crawl
    status OK. *)
Lemma soft_404_stored_as_OK :
  exists page row,
    @Crawler.pageDataOf Sample.plainText
      (Sample.services Sample.notFoundMetadata None)
      "run-1" Sample.requestA (Some 200) Sample.notFoundBody = Some page
    /\ title page = Some "Page Not Found"
    /\ Invariants.matchesSoft404Phrase "Page Not Found" Sample.notFoundBody = true
    /\ word_count page = Some 40
    /\ upsertPage 10 page ∅ !! "https://ex.com/a" = Some row
    /\ r_crawl_status row = OK
    /\ r_crawl_status row <> SOFT_404
    /\ r_word_count row = Some 40.
Proof.
  eexists. eexists. split; [vm_compute; reflexivity|].
  split; [reflexivity|]. split; [vm_compute; reflexivity|].
  split; [reflexivity|]. split.
  - match goal with |- upsertPage 10 ?p ∅ !! _ = _ =>
      exact (QueriesProps.upsertPage_insert 10 p ∅ (lookup_empty _)) end.
  - split; [reflexivity|]. split; [discriminate|]. reflexivity.
Qed.

End CrawlerProps.

(** ** Trimming and the collapse of blank lines *)
Module MarkdownProps.
Import EnhancedMarkdown.

Lemma trimStart_app a b :
  Js.trimStart (a ++ b)
  = if forallb Js.isSpace a then Js.trimStart b else (Js.trimStart a ++ b)%list.
Proof.
  induction a as [|c a IH]; cbn; [done|].
  destruct (Js.isSpace c); cbn; [exact IH|done].
Qed.

(** [trimEnd] by recursion from the front. *)
Lemma trimEnd_cons c l :
  Js.trimEnd (c :: l)
  = match Js.trimEnd l with
    | [] => if Js.isSpace c then [] else [c]
    | r => c :: r
    end.
Proof.
  unfold Js.trimEnd. cbn [rev]. rewrite trimStart_app.
  destruct (forallb Js.isSpace (rev l)) eqn:Hall.
  - assert (Js.trimStart (rev l) = []) as ->.
    { clear -Hall. induction (rev l) as [|x r IH]; cbn in *; [done|].
      destruct (Js.isSpace x); [by apply IH|done]. }
    cbn. by destruct (Js.isSpace c).
  - rewrite rev_app_distr. cbn.
    destruct (rev (Js.trimStart (rev l))) eqn:E; [|done].
    apply (f_equal (@rev ascii)) in E. rewrite rev_involutive in E. cbn in E.
    clear -Hall E. exfalso. induction (rev l) as [|x r IH]; cbn in *; [done|].
    destruct (Js.isSpace x); [by apply IH|done].
Qed.

Lemma trimEnd_nil : Js.trimEnd [] = [].
Proof. reflexivity. Qed.

(** What [trimEnd] leaves holds a character that is no white space. *)
Lemma trimEnd_spaces l :
  forallb Js.isSpace (Js.trimEnd l) = true -> Js.trimEnd l = [].
Proof.
  induction l as [|c l IH]; [done|]. rewrite trimEnd_cons.
  destruct (Js.trimEnd l) as [|x r] eqn:E.
  - destruct (Js.isSpace c) eqn:Ec; cbn; [done|]. by rewrite Ec.
  - cbn [forallb]. intros [_ Hr]%andb_true_iff. by specialize (IH Hr).
Qed.

Lemma trimEnd_idemp l : Js.trimEnd (Js.trimEnd l) = Js.trimEnd l.
Proof.
  induction l as [|c l IH]; [done|]. rewrite trimEnd_cons.
  destruct (Js.trimEnd l) as [|x r] eqn:E.
  - destruct (Js.isSpace c) eqn:Ec; [done|].
    rewrite trimEnd_cons, trimEnd_nil. by rewrite Ec.
  - rewrite trimEnd_cons, IH. done.
Qed.

Lemma trimStart_idemp l : Js.trimStart (Js.trimStart l) = Js.trimStart l.
Proof.
  induction l as [|c l IH]; [done|]. cbn.
  destruct (Js.isSpace c) eqn:Ec; [exact IH|]. cbn. by rewrite Ec.
Qed.

(** Trimming the end leaves the start trimmed. *)
Lemma trimStart_trimEnd l :
  Js.trimStart (Js.trimEnd (Js.trimStart l)) = Js.trimEnd (Js.trimStart l).
Proof.
  induction l as [|c l IH]; [done|]. cbn [Js.trimStart].
  destruct (Js.isSpace c) eqn:Ec; [exact IH|].
  rewrite trimEnd_cons.
  destruct (Js.trimEnd l); rewrite ?Ec; cbn [Js.trimStart]; by rewrite Ec.
Qed.

Lemma trimChars_idemp l : Js.trimChars (Js.trimChars l) = Js.trimChars l.
Proof.
  unfold Js.trimChars. by rewrite trimStart_trimEnd, trimEnd_idemp.
Qed.

Lemma nl_isSpace c : Ascii.eqb c nl = true -> Js.isSpace c = true.
Proof. by intros ->%Ascii.eqb_eq. Qed.

(** The collapse drops line feeds only, so it commutes with the trim of
    the start ... *)
Lemma trimStart_collapseNewlines run l :
  Js.trimStart (collapseNewlines run l) = collapseNewlines 0 (Js.trimStart l).
Proof.
  revert run. induction l as [|c l IH]; intros run; [done|].
  cbn [collapseNewlines Js.trimStart].
  destruct (Ascii.eqb c nl) eqn:Enl.
  - rewrite (nl_isSpace _ Enl).
    destruct (run <? 2)%nat; [|apply IH].
    cbn [Js.trimStart]. rewrite (nl_isSpace _ Enl). apply IH.
  - cbn [Js.trimStart]. destruct (Js.isSpace c); [apply IH|].
    cbn [collapseNewlines]. by rewrite Enl.
Qed.

Lemma collapseNewlines_nil_inv run l :
  collapseNewlines run l = [] -> forallb Js.isSpace l = true.
Proof.
  revert run. induction l as [|c l IH]; intros run; [done|].
  cbn [collapseNewlines forallb]. destruct (Ascii.eqb c nl) eqn:Enl; [|done].
  rewrite (nl_isSpace _ Enl). destruct (run <? 2)%nat; [discriminate|].
  cbn [andb]. apply IH.
Qed.

(** ... and with the trim of the end. *)
Lemma trimEnd_collapseNewlines run l :
  Js.trimEnd (collapseNewlines run l) = collapseNewlines run (Js.trimEnd l).
Proof.
  revert run. induction l as [|c l IH]; intros run; [reflexivity|].
  rewrite (trimEnd_cons c l). cbn [collapseNewlines].
  assert (Hnil : forall r, collapseNewlines r (Js.trimEnd l) = [] -> Js.trimEnd l = []).
  { intros r Hr. by apply trimEnd_spaces, (collapseNewlines_nil_inv r). }
  destruct (Js.trimEnd l) as [|x r] eqn:E.
  - (* nothing but white space follows *)
    destruct (Ascii.eqb c nl) eqn:Enl.
    + rewrite (nl_isSpace _ Enl).
      destruct (run <? 2)%nat; [rewrite trimEnd_cons|]; rewrite IH; cbn;
        by rewrite ?(nl_isSpace _ Enl).
    + rewrite trimEnd_cons, IH. cbn [collapseNewlines].
      destruct (Js.isSpace c); [reflexivity|]. cbn [collapseNewlines].
      by rewrite Enl.
  - remember (x :: r) as y eqn:Hy.
    assert (Hcons : forall k, exists a l0, collapseNewlines k y = a :: l0).
    { intros k. destruct (collapseNewlines k y) eqn:E'; [|by eauto].
      apply Hnil in E'. by subst. }
    cbn [collapseNewlines]. destruct (Ascii.eqb c nl) eqn:Enl.
    + destruct (run <? 2)%nat eqn:Erun.
      * rewrite trimEnd_cons, IH.
        by destruct (Hcons (S run)) as (a & l0 & ->).
      * by rewrite IH.
    + rewrite trimEnd_cons, IH.
      by destruct (Hcons 0%nat) as (a & l0 & ->).
Qed.

Lemma trimChars_collapseNewlines l :
  Js.trimChars (collapseNewlines 0 l) = collapseNewlines 0 (Js.trimChars l).
Proof.
  unfold Js.trimChars.
  by rewrite trimStart_collapseNewlines, trimEnd_collapseNewlines.
Qed.

(** A trim before the collapse changes nothing once a trim follows it. *)
Lemma trim_collapse_trim l :
  Js.trimChars (collapseNewlines 0 (Js.trimChars l))
  = Js.trimChars (collapseNewlines 0 l).
Proof. by rewrite !trimChars_collapseNewlines, trimChars_idemp. Qed.

(** C7, as amended.  The marker-strip regex, the collapse of three or more
    consecutive line feeds and a final trim, applied to the marked Markdown
    that [htmlToEnhancedMarkdown] returns, yield exactly the plain Markdown
    it returns with it; so they do on the pair the backfill stores as
    [markdown_enhanced] and [markdown]. *)
Theorem strip_markers_yields_plain turndownOutput h1 includeH1 stats row :
  let result := htmlToEnhancedMarkdown turndownOutput h1 includeH1 in
  stripStructuralMarkers (markdown result) = plainMarkdown result
  /\ let row' :=
       History.setMarkdown (plainMarkdown result) (markdown result) stats row in
     (stripStructuralMarkers <$> Types.r_markdown_enhanced row')
     = Types.r_markdown row'.
Proof.
  cbv zeta.
  assert (stripStructuralMarkers
            (markdown (htmlToEnhancedMarkdown turndownOutput h1 includeH1))
          = plainMarkdown (htmlToEnhancedMarkdown turndownOutput h1 includeH1))
    as Hstrip.
  { cbn [markdown plainMarkdown htmlToEnhancedMarkdown].
    unfold stripStructuralMarkers, plainMarkdownOf.
    by rewrite trim_collapse_trim. }
  split; [exact Hstrip|]. cbn [History.setMarkdown Types.r_markdown_enhanced
    Types.r_markdown fmap option_fmap option_map]. by rewrite Hstrip.
Qed.

End MarkdownProps.

(** ** The stored Markdown pair over a history of writes *)
Module HistoryProps.
Import Types Queries EnhancedMarkdown.

(** C7 as stated fails twice.  With no trim, the regex and the collapse
    leave the blank line that followed the marker of a blank question.
    And a crawl that follows the backfill replaces the stored [markdown]
    and leaves [markdown_enhanced] as the backfill wrote it. *)
Lemma stored_markdown_claim_fails :
  (let result := htmlToEnhancedMarkdown Sample.blankQuestion None true in
   markdown result = Sample.blankQuestion
   /\ stripAndCollapse (markdown result) = Js.str ([nl; nl] ++ Js.chars "rest")%list
   /\ plainMarkdown result = "rest")
  /\ exists page1 page2 row1 row3,
       Sample.firstCrawl = Some page1
       /\ Sample.secondCrawl = Some page2
       /\ let t1 := upsertPage 10 page1 ∅ in
          let result := htmlToEnhancedMarkdown "a b" (r_h1 row1) true in
          let t2 :=
            <[ "https://ex.com/a" :=
                 History.setMarkdown (plainMarkdown result) (markdown result)
                   "{}" row1 ]> t1 in
          let t3 := upsertPage 30 page2 t2 in
          t1 !! "https://ex.com/a" = Some row1
          /\ @History.reachable Sample.plainText
               (Sample.services Sample.noMetadata None) t3
          /\ t3 !! "https://ex.com/a" = Some row3
          /\ r_markdown_enhanced row3 = Some "a b"
          /\ r_markdown row3 = Some "c d"
          /\ stripStructuralMarkers "a b" = "a b".
Proof.
  split.
  { cbv zeta. repeat split; vm_compute; reflexivity. }
  assert (exists page1, Sample.firstCrawl = Some page1
            /\ final_url page1 = "https://ex.com/a"
            /\ r_h1 (insertedRow 10 (bindParams page1)) = None
            /\ is_Some (r_clean_html (insertedRow 10 (bindParams page1))))
    as (page1 & Hpage1 & Hurl1 & Hh1 & Hclean1).
  { eexists. split; [vm_compute; reflexivity|].
    split; [reflexivity|]. split; [reflexivity|]. by eexists. }
  assert (exists page2, Sample.secondCrawl = Some page2
            /\ final_url page2 = "https://ex.com/a"
            /\ Js.orNull (Types.markdown page2) = Some "c d")
    as (page2 & Hpage2 & Hurl2 & Hmd2).
  { eexists. split; [vm_compute; reflexivity|]. split; reflexivity. }
  pose proof (QueriesProps.upsertPage_insert 10 page1 ∅ (lookup_empty _)) as Hrow1.
  rewrite Hurl1 in Hrow1.
  set (row1 := insertedRow 10 (bindParams page1)) in *.
  set (t1 := upsertPage 10 page1 ∅) in *.
  set (result := htmlToEnhancedMarkdown "a b" (r_h1 row1) true).
  set (row2 := History.setMarkdown (plainMarkdown result) (markdown result) "{}" row1).
  set (t2 := <[ "https://ex.com/a" := row2 ]> t1).
  assert (Hrow2 : t2 !! final_url page2 = Some row2).
  { rewrite Hurl2. apply lookup_insert_eq. }
  pose proof (QueriesProps.upsertPage_conflict 30 page2 t2 row2 Hrow2) as Hrow3.
  rewrite Hurl2 in Hrow3.
  exists page1, page2, row1, (onDuplicateKeyUpdate 30 (bindParams page2) row2).
  split; [exact Hpage1|]. split; [exact Hpage2|]. cbv zeta.
  fold t1 result row2 t2.
  split; [exact Hrow1|]. split.
  { eapply History.reachable_step.
    - eapply History.reachable_step.
      + eapply History.reachable_step; [apply History.reachable_empty|].
        eapply History.step_crawled. exact Hpage1.
      + exact (History.step_backfill_markdown "https://ex.com/a" row1 "a b" "{}"
                 t1 Hrow1 Hclean1).
    - eapply History.step_crawled. exact Hpage2. }
  split; [exact Hrow3|].
  rewrite QueriesProps.onDuplicateKeyUpdate_unfold.
  cbn [r_markdown_enhanced r_markdown bindParams v_markdown]. rewrite Hmd2.
  split.
  { subst row2 result. cbn [History.setMarkdown r_markdown_enhanced].
    rewrite Hh1. vm_compute. reflexivity. }
  split; [reflexivity|]. vm_compute. reflexivity.
Qed.

End HistoryProps.


(** ** The rule for navigation lists *)
Module MarkdownConverterProps.
Import MarkdownConverter.

(** C8, as amended.  A [ul] or [ol] is classified as a navigation list and
    dropped from the Markdown exactly when it has a list item below it and
    the number of links below it exceeds 80% of the number of list items
    below it; every other node is left to the other rules. *)
Theorem smartLists_threshold otherRules name children :
  let node := Element name children in
  let listItems := length (querySelectorAll "LI" node) in
  let linksInList := length (querySelectorAll "A" node) in
  let navigation :=
    isList node = true /\ (0 < listItems)%nat
    /\ (4 * listItems < 5 * linksInList)%nat in
  (navigation -> smartLists node = true /\ turndown otherRules node = "")
  /\ (~ navigation ->
      smartLists node = false
      /\ turndown otherRules node
         = otherRules node (String.concat "" (map (turndown otherRules) children))).
Proof.
  cbv zeta. cbn [turndown]. unfold smartLists.
  destruct (isList (Element name children)); cycle 1.
  { split; [by intros [? _]|done]. }
  set (items := length (querySelectorAll "LI" (Element name children))).
  set (links := length (querySelectorAll "A" (Element name children))).
  destruct (Nat.ltb_spec 0 items) as [Hpos|Hzero];
    destruct (Nat.ltb_spec (4 * items) (5 * links)) as [Hover|Hunder]; cbn [andb].
  - split; [done|]. intros Hnot. by destruct Hnot.
  - split; [|done]. intros (_ & _ & ?). lia.
  - split; [|done]. intros (_ & ? & _). lia.
  - split; [|done]. intros (_ & ? & _). lia.
Qed.

(** The list of three links is dropped, whatever the other rules; the list
    of four links and a plain item goes to the other rules. *)
Lemma smartLists_threshold_witness :
  (smartLists Sample.linksOnly = true
   /\ turndown (fun _ content => content) Sample.linksOnly = "")
  /\ smartLists Sample.fourOfFive = false
  /\ turndown (fun _ content => content) Sample.fourOfFive = "moremoremoremoreplain".
Proof.
  destruct (smartLists_threshold (fun _ content => content) "UL"
              [ Sample.linkItem; Sample.linkItem; Sample.linkItem ])
    as [Hdrop _].
  destruct (smartLists_threshold (fun _ content => content) "UL"
              [ Sample.linkItem; Sample.linkItem; Sample.linkItem;
                Sample.linkItem; Sample.plainItem ])
    as [_ Hkeep].
  split.
  - apply Hdrop. split; [reflexivity|]. split; vm_compute; lia.
  - apply Hkeep. intros (_ & _ & Hover). vm_compute in Hover. lia.
Defined.

(** C8 as stated fails: of the five items of the sample list four are
    links, which is 80%, and the list is kept. *)
Lemma list_of_80_percent_links_is_kept :
  length (querySelectorAll "LI" Sample.fourOfFive) = 5%nat
  /\ length (linkItems Sample.fourOfFive) = 4%nat
  /\ length (querySelectorAll "A" Sample.fourOfFive) = 4%nat
  /\ atLeast80PercentLinks Sample.fourOfFive = true
  /\ smartLists Sample.fourOfFive = false.
Proof. repeat split; vm_compute; reflexivity. Qed.

End MarkdownConverterProps.

(** ** The navigation extractor *)
Module NavProps.
Import Nav Invariants.

Section ContentLinks.
Context `{Env} (baseUrl : string).

Let key (l : LinkEl) : string := normalizeUrlSafe (attrOr (l_href l)) baseUrl.
Let pairOf (c : ContentLink) : string * string := (cl_url c, cl_label c).
Let pairOfLink (l : LinkEl) : string * string := (key l, contentLabel l).

(** The loop body leaves the state alone unless the link qualifies and its
    URL is new; then it pushes the link and records the URL. *)
Lemma contentLinkStep_spec total st index l :
  let st' := contentLinkStep baseUrl total st index l in
  if qualifies l && negb (bool_decide (key l ∈ seenUrls st))
  then map pairOf (contentLinks st') = (map pairOf (contentLinks st) ++ [pairOfLink l])%list
       /\ seenUrls st' = {[ key l ]} ∪ seenUrls st
  else st' = st.
Proof.
  cbv zeta. unfold contentLinkStep, qualifies.
  fold (contentLabel l). fold (key l).
  destruct (Js.truthy (attrOr (l_href l))); cbn [negb orb andb]; [|done].
  destruct (String.eqb (attrOr (l_href l)) "#"); cbn [negb orb andb]; [done|].
  destruct (startsWith "javascript:" (attrOr (l_href l))); cbn [negb orb andb]; [done|].
  destruct (l_excluded l); cbn [negb andb]; [done|].
  destruct (Js.truthy (contentLabel l)); cbn [negb andb]; [|done].
  destruct (decide (key l ∈ seenUrls st)) as [Hin|Hout].
  - by rewrite bool_decide_eq_true_2.
  - rewrite bool_decide_eq_false_2 by done. cbn [negb contentLinks seenUrls].
    split; [|done]. by rewrite map_app.
Qed.

Lemma eachLink_spec total index links st :
  let st' := eachLink baseUrl total index links st in
  map pairOf (contentLinks st')
  = (map pairOf (contentLinks st)
     ++ map pairOfLink
          (firstOccurrences key (seenUrls st)
             (filter (fun l => qualifies l = true) links)))%list.
Proof.
  cbv zeta. revert index st.
  induction links as [|l links IH]; intros index st.
  - cbn. by rewrite app_nil_r.
  - cbn [eachLink]. rewrite IH.
    pose proof (contentLinkStep_spec total st index l) as Hstep.
    cbv zeta in Hstep. rewrite filter_cons.
    destruct (qualifies l) eqn:Hq; cbn [andb] in Hstep.
    + rewrite decide_True by done. cbn [firstOccurrences].
      destruct (decide (key l ∈ seenUrls st)) as [Hin|Hout].
      * rewrite bool_decide_eq_true_2 in Hstep by done. cbn in Hstep.
        by rewrite Hstep.
      * rewrite bool_decide_eq_false_2 in Hstep by done. cbn in Hstep.
        destruct Hstep as [-> ->]. by rewrite <- app_assoc.
    + rewrite decide_False by done. by rewrite Hstep.
Qed.

Lemma firstOccurrences_fresh {A} (k : A -> string) seen l u :
  u ∈ map k (firstOccurrences k seen l) -> u ∉ seen.
Proof.
  revert seen. induction l as [|y l IH]; intros seen; cbn; [by intros ?%elem_of_nil|].
  destruct (decide (k y ∈ seen)) as [Hin|Hout]; [apply IH|].
  cbn. intros [->|Hu]%elem_of_cons; [done|].
  apply IH in Hu. set_solver.
Qed.

Lemma firstOccurrences_NoDup {A} (k : A -> string) seen l :
  NoDup (map k (firstOccurrences k seen l)).
Proof.
  revert seen. induction l as [|y l IH]; intros seen; cbn; [constructor|].
  destruct (decide (k y ∈ seen)) as [Hin|Hout]; [apply IH|].
  cbn. constructor; [|apply IH].
  intros Hy%firstOccurrences_fresh. set_solver.
Qed.

(** C10.  The content links hold no two entries with the same URL: of the
    links that qualify, each normalized URL is kept once, at its first
    occurrence in document order, with the label it has there. *)
Theorem content_links_unique links :
  let result := extractContentLinks baseUrl links in
  NoDup (map cl_url result)
  /\ map (fun c => (cl_url c, cl_label c)) result
     = map (fun l => (normalizeUrlSafe (attrOr (l_href l)) baseUrl, contentLabel l))
         (firstOccurrences
            (fun l => normalizeUrlSafe (attrOr (l_href l)) baseUrl) ∅
            (filter (fun l => qualifies l = true) links)).
Proof.
  cbv zeta. unfold extractContentLinks.
  pose proof (eachLink_spec (length links) 0 links
                {| contentLinks := []; seenUrls := ∅; currentHeading := None |})
    as Hspec.
  cbv zeta in Hspec. cbn [contentLinks seenUrls map app] in Hspec.
  split; [|exact Hspec].
  apply (f_equal (map fst)) in Hspec.
  rewrite !map_map in Hspec. cbn [pairOf pairOfLink fst] in Hspec.
  change (map (fun x => cl_url x)) with (map cl_url) in Hspec.
  rewrite Hspec. apply (firstOccurrences_NoDup key).
Qed.

End ContentLinks.

(** On the sample links the repeated URL is kept once, with its first label. *)
Example repeated_links_kept_once :
  map (fun c => (cl_url c, cl_label c))
    (@extractContentLinks Sample.navEnv Sample.site Sample.repeatedLinks)
  = [ ("https://site.org/pricing", "Pricing"); ("https://site.org/docs", "Docs") ].
Proof. vm_compute. reflexivity. Qed.

Section Orders.
Context `{Env} (baseUrl : string).

Lemma dense_snoc items item :
  denseFromZero items -> order item = length items ->
  denseFromZero (items ++ [item]).
Proof.
  unfold denseFromZero. intros Hdense Horder.
  rewrite map_app, length_app, Hdense. cbn [map length].
  rewrite Nat.add_1_r, seq_S. cbn. by rewrite Horder.
Qed.

Lemma dense_fold {A} (f : list NavItem -> A -> list NavItem) (P : A -> Prop) l init :
  (forall items x, P x -> denseFromZero items -> denseFromZero (f items x)) ->
  Forall P l -> denseFromZero init -> denseFromZero (fold_left f l init).
Proof.
  intros Hf Hl. revert init.
  induction Hl as [|x l Hx _ IH]; intros init Hinit; cbn; [done|].
  apply IH. by apply Hf.
Qed.

Lemma take_seq_from start n len :
  take n (seq start len) = seq start (Nat.min n len).
Proof.
  revert start n. induction len as [|len IH]; intros start [|n]; cbn; try done.
  by rewrite IH.
Qed.

Lemma map_take {A B} (f : A -> B) n (l : list A) : map f (take n l) = take n (map f l).
Proof.
  revert n. induction l as [|x l IH]; intros [|n]; cbn; try done. by rewrite IH.
Qed.

Lemma dense_take n items : denseFromZero items -> denseFromZero (take n items).
Proof.
  unfold denseFromZero. intros Hdense.
  by rewrite map_take, Hdense, take_seq_from, length_take.
Qed.

Lemma utilityItem_dense sel st a :
  denseFromZero st.1 -> denseFromZero (utilityItem baseUrl sel st a).1.
Proof.
  destruct st as [allItems usedSelector]. unfold utilityItem. cbn [fst].
  intros Hdense.
  destruct (Js.truthy _ && _); [|done].
  destruct (existsb _ allItems); [done|]. cbn [fst].
  by apply dense_snoc.
Qed.

Lemma headerContactItem_dense allItems a :
  denseFromZero allItems -> denseFromZero (headerContactItem allItems a).
Proof.
  unfold headerContactItem. intros Hdense.
  destruct (existsb _ allItems); [done|]. by apply dense_snoc.
Qed.

Lemma footerFallbackItem_dense its a :
  denseFromZero its -> denseFromZero (footerFallbackItem baseUrl its a).
Proof.
  unfold footerFallbackItem. intros Hdense.
  destruct (Js.truthy _ && _ && _); [|done].
  destruct (existsb _ its); [done|]. by apply dense_snoc.
Qed.

Lemma menuItem_flat_dense skip its li :
  anySubmenu (childrenOf li) = None ->
  denseFromZero its -> denseFromZero (menuItem baseUrl skip its li).
Proof.
  unfold menuItem. intros Hflat Hdense. destruct skip; [done|].
  destruct (linkOrSpanLink _) as [link|]; [|done].
  destruct (negb (Js.truthy (menuLabel link))); [done|].
  rewrite Hflat. destruct (negb _ && _); [done|]. by apply dense_snoc.
Qed.

Lemma filter_deeper d (l : list NavItem) :
  Forall (fun item => (d < Nav.depth item)%nat) l ->
  filter (fun item => Nav.depth item = d) l = [].
Proof.
  induction 1 as [|item l Hitem _ IH]; [done|].
  rewrite filter_cons_False by lia. exact IH.
Qed.

(** The items [eachIndexed] adds for a submenu: those of the submenu's own
    depth carry the positions of the [li] it keeps, and the others, which
    the deeper calls add, lie deeper. *)
Lemma eachIndexed_submenu deeper labels d start submenu its :
  (forall sub its' labels',
     exists new', deeper sub its' labels' = (its' ++ new')%list
                  /\ Forall (fun item => (d < Nav.depth item)%nat) new') ->
  exists new,
    eachIndexed (submenuItem baseUrl deeper labels d) start submenu its
    = (its ++ new)%list
    /\ map order (filter (fun item => Nav.depth item = d) new)
       = keptIndices submenuKeeps start submenu
    /\ Forall (fun item => (d <= Nav.depth item)%nat) new.
Proof.
  intros Hdeeper. revert start its.
  induction submenu as [|li submenu IH]; intros start its; cbn [eachIndexed].
  - exists []. by rewrite app_nil_r.
  - cbn [keptIndices]. unfold submenuItem at 2, submenuKeeps at 1.
    fold (attrOr). unfold menuLabel.
    destruct (directLink (childrenOf li)) as [link|].
    2:{ destruct (IH (S start) its) as (new & -> & Hnew & Hdepth). by exists new. }
    fold (attrOr (href link)).
    destruct (Js.truthy (attrOr (href link))); cbn [negb orb andb].
    2:{ destruct (IH (S start) its) as (new & -> & Hnew & Hdepth). by exists new. }
    destruct (Js.truthy (Js.orElse _ _)); cbn [negb orb andb].
    2:{ destruct (IH (S start) its) as (new & -> & Hnew & Hdepth). by exists new. }
    destruct (String.eqb (attrOr (href link)) "#"); cbn [negb orb andb].
    1:{ destruct (IH (S start) its) as (new & -> & Hnew & Hdepth). by exists new. }
    destruct (startsWith "javascript:" (attrOr (href link))); cbn [negb orb andb].
    1:{ destruct (IH (S start) its) as (new & -> & Hnew & Hdepth). by exists new. }
    match goal with |- context [(its ++ [?item])%list] => set (pushed := item) end.
    destruct (ulSubmenu (childrenOf li)) as [sub|].
    + match goal with |- context [deeper sub _ ?ls] =>
        destruct (Hdeeper sub (its ++ [pushed])%list ls) as (new' & -> & Hdeep)
      end.
      destruct (IH (S start) ((its ++ [pushed]) ++ new')%list)
        as (new & -> & Hnew & Hdepth).
      exists (pushed :: new' ++ new)%list. split; [by rewrite <- !app_assoc|].
      split.
      * rewrite filter_cons_True by done. rewrite filter_app, filter_deeper by done.
        cbn. by rewrite Hnew.
      * constructor; [done|]. apply Forall_app. split; [|done].
        eapply Forall_impl; [exact Hdeep|]. intros item Hitem. cbn in Hitem. lia.
    + destruct (IH (S start) (its ++ [pushed])%list) as (new & -> & Hnew & Hdepth).
      exists (pushed :: new). split; [by rewrite <- app_assoc|].
      split; [|by constructor].
      rewrite filter_cons_True by done. cbn. by rewrite Hnew.
Qed.

(** [extractSubmenuItems] with [levels] levels left works at the depth
    [4 - levels]. *)
Lemma extractSubmenuItems_orders levels submenu its labels :
  (levels <= 4)%nat ->
  exists new,
    extractSubmenuItems baseUrl levels submenu its labels = (its ++ new)%list
    /\ Forall (fun item => (4 - levels <= Nav.depth item)%nat) new
    /\ (levels <> 0%nat ->
        map order (filter (fun item => Nav.depth item = (4 - levels)%nat) new)
        = keptIndices submenuKeeps 0 submenu).
Proof.
  revert submenu its labels.
  induction levels as [|lv IH]; intros submenu its labels Hle.
  - exists []. cbn. rewrite app_nil_r. split; [done|]. split; [constructor|done].
  - cbn [extractSubmenuItems].
    destruct (eachIndexed_submenu
                (fun sub its0 labels0 => extractSubmenuItems baseUrl lv sub its0 labels0)
                labels (4 - S lv) 0 submenu its)
      as (new & Heq & Horder & Hdepth).
    { intros sub its' labels'.
      destruct (IH sub its' labels') as (new' & Heq' & Hdeep & _); [lia|].
      exists new'. split; [exact Heq'|].
      eapply Forall_impl; [exact Hdeep|]. intros item Hitem. cbn beta in *. lia. }
    exists new. split; [exact Heq|]. split; [exact Hdepth|]. intros _. exact Horder.
Qed.

Lemma extractUtilityLinks_dense containers headerContacts :
  denseFromZero (items (extractUtilityLinks baseUrl containers headerContacts)).
Proof.
  unfold extractUtilityLinks.
  assert (Hfold : forall st,
            denseFromZero st.1 ->
            denseFromZero
              (fold_left (fun st c => fold_left (utilityItem baseUrl c.1) c.2 st)
                 containers st).1).
  { induction containers as [|[sel links] containers IH]; intros st Hst; [done|].
    cbn [fold_left]. apply IH. cbn [fst snd]. clear IH. revert st Hst.
    induction links as [|a links IH]; intros st Hst; [done|].
    cbn [fold_left]. apply IH. by apply utilityItem_dense. }
  specialize (Hfold ([], None) eq_refl).
  destruct (fold_left _ containers _) as [allItems usedSelector].
  cbn [items]. cbn [fst] in Hfold.
  apply (dense_fold _ (fun _ => True)); [|by apply Forall_true|done].
  intros ? ? _. apply headerContactItem_dense.
Qed.

Lemma footerFallback_dense fallbacks :
  denseFromZero (items (footerFallback baseUrl fallbacks)).
Proof.
  induction fallbacks as [|[sel [links|]] rest IH]; cbn [footerFallback];
    [done| |done].
  destruct (2 <=? _)%nat; [|done]. cbn [items].
  apply dense_take.
  apply (dense_fold _ (fun _ => True)); [|by apply Forall_true|done].
  intros ? ? _. apply footerFallbackItem_dense.
Qed.

Lemma extractMenuItems_flat_dense container :
  flatMenu container -> denseFromZero (extractMenuItems baseUrl container).
Proof.
  intros Hflat. unfold extractMenuItems. unfold flatMenu, visited in Hflat.
  destruct (topLevelItems container) as [|li tops];
    (eapply dense_fold; [|exact Hflat|done]);
    intros ? ? ?; by apply menuItem_flat_dense.
Qed.

(** The footer cluster is what the link fallback gives, or what
    [extractMenuItems] gives for the menu taken. *)
Lemma extractFooterNav_source candidates fallbacks :
  let cluster := extractFooterNav baseUrl candidates fallbacks in
  (cluster = footerFallback baseUrl fallbacks /\ denseFromZero (items cluster))
  \/ exists sel container,
       In (sel, Some container) candidates
       /\ selector cluster = Some sel
       /\ items cluster = extractMenuItems baseUrl container
       /\ (flatMenu container -> denseFromZero (items cluster)).
Proof.
  cbv zeta.
  induction candidates as [|[sel [container|]] rest IH]; cbn [extractFooterNav].
  - left. split; [done|]. apply footerFallback_dense.
  - destruct (2 <=? _)%nat.
    + right. exists sel, container. split; [by left|]. cbn [items selector].
      split; [done|]. split; [done|]. apply extractMenuItems_flat_dense.
    + destruct IH as [Hfallback|(s & c & Hin & Hrest)]; [by left|].
      right. exists s, c. split; [by right|]. exact Hrest.
  - destruct IH as [Hfallback|(s & c & Hin & Hrest)]; [by left|].
    right. exists s, c. split; [by right|]. exact Hrest.
Qed.

(** The primary cluster is empty, or it is what [extractMenuItems] gives
    for the menu taken, less the utility links, or for the fallback menu,
    less the external and the utility links. *)
Lemma extractPrimaryNav_filter candidates anyMenu :
  let cluster := extractPrimaryNav baseUrl candidates anyMenu in
  items cluster = []
  \/ (exists sel container,
        In (sel, Some container) candidates
        /\ selector cluster = Some sel
        /\ items cluster
           = filter (fun item => isUtilityLink (url item) = false)
               (extractMenuItems baseUrl container))
  \/ (exists container,
        anyMenu = Some container
        /\ items cluster
           = filter (fun item => is_external item = false
                                 /\ isUtilityLink (url item) = false)
               (extractMenuItems baseUrl container)).
Proof.
  cbv zeta.
  induction candidates as [|[sel [container|]] rest IH]; cbn [extractPrimaryNav].
  - destruct anyMenu as [container|]; [|by left].
    destruct (3 <=? _)%nat; [|by left].
    right. right. by exists container.
  - destruct ((3 <=? _)%nat && _).
    + right. left. exists sel, container. split; [by left|]. done.
    + destruct IH as [Hempty|[(s & c & Hin & Hrest)|Hany]]; [by left| |by right; right].
      right. left. exists s, c. split; [by right|]. exact Hrest.
  - destruct IH as [Hempty|[(s & c & Hin & Hrest)|Hany]]; [by left| |by right; right].
    right. left. exists s, c. split; [by right|]. exact Hrest.
Qed.

(** The items [eachIndexed] adds for the links of a language switcher
    carry the positions of the links it keeps. *)
Lemma eachIndexed_language start links its :
  exists new,
    eachIndexed (languageItem baseUrl) start links its = (its ++ new)%list
    /\ map order new = keptIndices languageKeeps start links.
Proof.
  revert start its.
  induction links as [|a links IH]; intros start its; cbn [eachIndexed keptIndices].
  - exists []. by rewrite app_nil_r.
  - unfold languageItem at 2. destruct (languageKeeps a).
    + match goal with |- context [(its ++ [?item])%list] => set (pushed := item) end.
      destruct (IH (S start) (its ++ [pushed])%list) as (new & -> & Hnew).
      exists (pushed :: new). split; [by rewrite <- app_assoc|].
      cbn. by rewrite Hnew.
    + destruct (IH (S start) its) as (new & -> & Hnew). by exists new.
Qed.

Lemma extractLanguageSwitcher_orders containers :
  let cluster := extractLanguageSwitcher baseUrl containers in
  (items cluster = [] /\ selector cluster = None)
  \/ exists sel links,
       In (sel, links) containers
       /\ selector cluster = Some sel
       /\ map order (items cluster) = keptIndices languageKeeps 0 links.
Proof.
  cbv zeta.
  induction containers as [|[sel links] rest IH]; cbn [extractLanguageSwitcher].
  - by left.
  - destruct ((2 <=? _)%nat && _).
    + right. exists sel, links. split; [by left|]. split; [done|].
      cbn [items].
      destruct (eachIndexed_language 0 links []) as (new & -> & Hnew).
      exact Hnew.
    + destruct IH as [Hempty|(s & l & Hin & Hsel & Horders)]; [by left|].
      right. exists s, l. split; [by right|]. by split.
Qed.

(** C9, as amended.  The order values are 0, 1, 2, ... in list order in
    [utility_header], in [footer_nav] when it comes from the link fallback
    or from a menu without submenus, and in what [extractMenuItems]
    returns for a menu without submenus.  [primary_nav] is empty, or it is
    what [extractMenuItems] returns for the menu taken, less the utility
    links (and, for the fallback menu, the external links), each item
    with the order value it had.  An item of [language_switcher] carries
    the position of its link among the links of the container.  Of the items a call of
    [extractSubmenuItems] adds for a submenu, those of the submenu itself
    carry the positions of their [li] among the [li] of that submenu, and
    the others, items of the submenus below, lie deeper. *)
Theorem nav_order_values :
  (forall containers headerContacts,
     denseFromZero (items (extractUtilityLinks baseUrl containers headerContacts)))
  /\ (forall candidates fallbacks,
        let cluster := extractFooterNav baseUrl candidates fallbacks in
        (cluster = footerFallback baseUrl fallbacks
         /\ denseFromZero (items cluster))
        \/ exists sel container,
             In (sel, Some container) candidates
             /\ selector cluster = Some sel
             /\ items cluster = extractMenuItems baseUrl container
             /\ (flatMenu container -> denseFromZero (items cluster)))
  /\ (forall container,
        flatMenu container -> denseFromZero (extractMenuItems baseUrl container))
  /\ (forall candidates anyMenu,
        let cluster := extractPrimaryNav baseUrl candidates anyMenu in
        items cluster = []
        \/ (exists sel container,
              In (sel, Some container) candidates
              /\ selector cluster = Some sel
              /\ items cluster
                 = filter (fun item => isUtilityLink (url item) = false)
                     (extractMenuItems baseUrl container))
        \/ (exists container,
              anyMenu = Some container
              /\ items cluster
                 = filter (fun item => is_external item = false
                                       /\ isUtilityLink (url item) = false)
                     (extractMenuItems baseUrl container)))
  /\ (forall containers,
        let cluster := extractLanguageSwitcher baseUrl containers in
        (items cluster = [] /\ selector cluster = None)
        \/ exists sel links,
             In (sel, links) containers
             /\ selector cluster = Some sel
             /\ map order (items cluster) = keptIndices languageKeeps 0 links)
  /\ (forall d submenu its labels,
        (d <= 3)%nat ->
        exists new,
          extractSubmenuItems baseUrl (4 - d) submenu its labels
          = (its ++ new)%list
          /\ map order (filter (fun item => Nav.depth item = d) new)
             = keptIndices submenuKeeps 0 submenu
          /\ Forall (fun item => (d <= Nav.depth item)%nat) new).
Proof.
  split; [exact extractUtilityLinks_dense|].
  split; [exact extractFooterNav_source|].
  split; [exact extractMenuItems_flat_dense|].
  split; [exact extractPrimaryNav_filter|].
  split; [exact extractLanguageSwitcher_orders|].
  intros d submenu its labels Hd.
  destruct (extractSubmenuItems_orders (4 - d) submenu its labels)
    as (new & Heq & Hdepth & Horder); [lia|].
  replace (4 - (4 - d))%nat with d in * by lia.
  exists new. split; [exact Heq|]. split; [apply Horder; lia|exact Hdepth].
Qed.

End Orders.

(** The flat sample menu gives the footer cluster the orders 0, 1, 2.  Of
    the sample submenu, whose second [li] has no link and whose third has
    a submenu of its own, the first and the third [li] give the items of
    depth 1, with the orders 0 and 2, and the item below lies at depth 2. *)
Lemma nav_order_values_witness :
  flatMenu Sample.flatFooterMenu
  /\ map order
       (items (@extractFooterNav Sample.navEnv Sample.site
                 [("footer nav ul", Some Sample.flatFooterMenu)] []))
     = [0; 1; 2]%nat
  /\ map order
       (@extractMenuItems Sample.navEnv Sample.site Sample.flatFooterMenu)
     = [0; 1; 2]%nat
  /\ (1 <= 3)%nat
  /\ exists new,
       @extractSubmenuItems Sample.navEnv Sample.site 3 Sample.nestedSubmenu
         [] ["Services"] = new
       /\ map (fun item => (depth item, order item)) new
          = [(1, 0); (1, 2); (2, 0)]%nat
       /\ map order (filter (fun item => depth item = 1%nat) new) = [0; 2]%nat
       /\ Forall (fun item => (1 <= depth item)%nat) new.
Proof.
  assert (Hflat : flatMenu Sample.flatFooterMenu) by (repeat constructor).
  destruct (@nav_order_values Sample.navEnv Sample.site)
    as (_ & Hfooter & Hmenu & _ & _ & Hsub).
  split; [exact Hflat|]. split.
  { destruct (Hfooter [("footer nav ul", Some Sample.flatFooterMenu)] [])
      as [[_ Hdense]|(sel & container & Hin & _ & _ & Hdense)].
    - exact Hdense.
    - destruct Hin as [[= <- <-]|[]]. exact (Hdense Hflat). }
  split; [exact (Hmenu Sample.flatFooterMenu Hflat)|].
  split; [lia|].
  destruct (Hsub 1%nat Sample.nestedSubmenu [] ["Services"])
    as (new & Hnew & Horder & Hdepth); [lia|].
  cbn [app] in Hnew. change (4 - 1)%nat with 3%nat in Hnew.
  exists new. split; [exact Hnew|].
  split; [rewrite <- Hnew; vm_compute; reflexivity|].
  split; [exact Horder|exact Hdepth].
Defined.

(** C9 as stated fails in three clusters.  In the footer cluster of the
    sample menu the second top-level entry carries the order 3, after the
    two entries of the first one's submenu, and no entry of depth 0
    carries 1 or 2.  In the primary cluster of the menu with a social link
    the order of the dropped link is missing, and in the language
    switcher that of the link without a label. *)
Lemma footer_orders_skip_numbers :
  (let cluster :=
     items (@extractFooterNav Sample.navEnv Sample.site
              [("footer nav ul", Some Sample.footerMenu)] []) in
   map (fun item => (depth item, order item)) cluster
   = [(0, 0); (1, 0); (1, 1); (0, 3)]%nat
   /\ denseAtEachDepth cluster = false)
  /\ (let cluster :=
        items (@extractPrimaryNav Sample.navEnv Sample.site
                 [("header nav ul", Some Sample.primaryMenuWithSocial)] None) in
      map (fun item => (url item, depth item, order item)) cluster
      = [ ("https://site.org/about", 0, 0); ("https://site.org/blog", 0, 1);
          ("https://site.org/contact", 0, 3) ]%nat
      /\ denseAtEachDepth cluster = false)
  /\ (let cluster :=
        items (@extractLanguageSwitcher Sample.navEnv Sample.site
                 [(".lang-switcher", Sample.languageLinks)]) in
      map (fun item => (depth item, order item)) cluster
      = [(0, 0); (0, 2)]%nat
      /\ denseAtEachDepth cluster = false).
Proof. cbv zeta. repeat split; vm_compute; reflexivity. Qed.

End NavProps.

(** ** The URL normalizer *)
Module UrlProps.
Import Url.

(** The redirect-collapse scenario: the two seeds have one canonical
    form. *)
Example normalize_seeds localeCompare :
  normalizeUrl localeCompare "https://EX.com/old?utm_source=x" = Ok "https://ex.com/old"
  /\ normalizeUrl localeCompare "https://ex.com/old/" = Ok "https://ex.com/old".
Proof. split; vm_compute; reflexivity. Qed.

(** Dot segments go, the default port goes, tracking parameters go, the
    fragment goes, and the rest of the query is sorted. *)
Example normalize_all_rules :
  normalizeUrl codeUnitCompare "HTTPS://Ex.com:443/a/../b/./c/?b=2&ref=x&a=1#top"
  = Ok "https://ex.com/b/c?a=1&b=2".
Proof. vm_compute. reflexivity. Qed.

Example normalize_without_host localeCompare :
  normalizeUrl localeCompare "https://" = Raises
  /\ normalizeUrl localeCompare "" = Raises
  /\ normalizeUrl localeCompare "https://ex.com:99999/" = Raises.
Proof. repeat split; vm_compute; reflexivity. Qed.

(** C2 fails on the code.  The normalizer takes one slash off the end of
    a path, so a path that ends in two slashes is normalized to a URL that
    a second normalization changes again. *)
Theorem normalizeUrl_twice_differs localeCompare :
  normalizeUrl localeCompare "https://ex.com/a//" = Ok "https://ex.com/a/"
  /\ normalizeUrl localeCompare "https://ex.com/a/" = Ok "https://ex.com/a".
Proof. split; vm_compute; reflexivity. Qed.

End UrlProps.

(* ===================================================================== *)
(** * Part II, continued. Properties of the code around the claims        *)
(* ===================================================================== *)

(** ** Strings as lists of code units *)
Module StringProps.

Lemma chars_str l : Js.chars (Js.str l) = l.
Proof. apply list_ascii_of_string_of_list_ascii. Qed.

Lemma str_chars s : Js.str (Js.chars s) = s.
Proof. apply string_of_list_ascii_of_string. Qed.

Lemma chars_app (a b : string) :
  Js.chars (a ++ b) = (Js.chars a ++ Js.chars b)%list.
Proof.
  induction a as [|c a IH]; [done|].
  change (String c a +:+ b) with (String c (a +:+ b)).
  unfold Js.chars in *. cbn. by rewrite IH.
Qed.

Lemma str_app a b : Js.str (a ++ b)%list = (Js.str a ++ Js.str b)%string.
Proof.
  induction a as [|c a IH]; [done|].
  unfold Js.str in *. cbn [app string_of_list_ascii]. rewrite IH. done.
Qed.

Lemma truthy_str l : Js.truthy (Js.str l) = negb (bool_decide (l = [])).
Proof. by destruct l. Qed.

Lemma string_length_chars s : String.length s = length (Js.chars s).
Proof. induction s as [|c s IH]; [done|]. cbn. by rewrite IH. Qed.

End StringProps.

(** ** The content hash *)
Module HashMoreProps.
Import Hash HashMore StringProps.

Lemma leBytes_length n x : length (Md5.leBytes n x) = n.
Proof. unfold Md5.leBytes. by rewrite length_map, length_seq. Qed.

Lemma leBytes_range n x : Forall (fun b => 0 <= b < 256) (Md5.leBytes n x).
Proof.
  unfold Md5.leBytes. apply Forall_map, Forall_forall. intros i _. cbn.
  change 255 with (Z.ones 8). rewrite Z.land_ones by lia.
  apply Z.mod_pos_bound. lia.
Qed.

Lemma digest_bytes msg :
  length (Md5.digest msg) = 16%nat
  /\ Forall (fun b => 0 <= b < 256) (Md5.digest msg).
Proof.
  unfold Md5.digest. destruct (fold_left _ _ _) as [[[a b] c] d].
  split.
  - by rewrite !length_app, !leBytes_length.
  - repeat (apply Forall_app; split); apply leBytes_range.
Qed.

Lemma hexDigit_isHexDigit n : 0 <= n < 16 -> isHexDigit (Md5.hexDigit n) = true.
Proof.
  intros Hn. unfold Md5.hexDigit, isHexDigit. cbv zeta.
  destruct (Z.ltb_spec n 10) as [Hdec|Hlet].
  - rewrite nat_ascii_embedding by lia. apply orb_true_iff. left.
    apply andb_true_iff. split; apply Nat.leb_le; lia.
  - rewrite nat_ascii_embedding by lia. apply orb_true_iff. right.
    apply andb_true_iff. split; apply Nat.leb_le; lia.
Qed.

Lemma hex_spec bs :
  Forall (fun b => 0 <= b < 256) bs ->
  length (Js.chars (Md5.hex bs)) = (2 * length bs)%nat
  /\ forallb isHexDigit (Js.chars (Md5.hex bs)) = true.
Proof.
  unfold Md5.hex. rewrite chars_str.
  induction 1 as [|b bs Hb _ [IHlen IHhex]]; [done|].
  cbn [flat_map app length forallb]. rewrite IHlen, IHhex. split; [lia|].
  rewrite !hexDigit_isHexDigit; [done| |].
  - change 15 with (Z.ones 4). rewrite Z.land_ones by lia.
    apply Z.mod_pos_bound. lia.
  - rewrite Z.shiftr_div_pow2 by lia. change (2 ^ 4) with 16.
    split; [apply Z.div_pos; lia|]. apply Z.div_lt_upper_bound; lia.
Qed.

(** X5.  [md5Hash] returns 32 lower-case hexadecimal digits, whatever the
    content; so [hashHtmlContent] and [hashMarkdownContent] return the
    empty string for the empty string only, and 32 such digits
    otherwise. *)
Theorem md5Hash_format content :
  (String.length (md5Hash content) = 32%nat
   /\ forallb isHexDigit (Js.chars (md5Hash content)) = true)
  /\ (hashHtmlContent content = "" <-> content = "")
  /\ (hashMarkdownContent content = "" <-> content = "")
  /\ hashMarkdownContent content = hashHtmlContent content.
Proof.
  assert (forall c, String.length (md5Hash c) = 32%nat
                    /\ forallb isHexDigit (Js.chars (md5Hash c)) = true) as Hformat.
  { intros c. unfold md5Hash.
    destruct (digest_bytes (Md5.utf8Encode c)) as [Hlen Hrange].
    destruct (hex_spec _ Hrange) as [Hl Hd]. split; [|exact Hd].
    rewrite Hlen in Hl. rewrite string_length_chars. exact Hl. }
  split; [apply Hformat|].
  assert (hashMarkdownContent content = hashHtmlContent content) as Hsame
    by reflexivity.
  assert (hashHtmlContent content = "" <-> content = "") as Hempty.
  { unfold hashHtmlContent. destruct content as [|c s]; [done|].
    change (Js.truthy (String c s)) with true. cbv iota.
    split; [|done]. intros Hnil.
    destruct (Hformat (normalizeSpace (String c s))) as [Hlen _].
    rewrite Hnil in Hlen. done. }
  split; [exact Hempty|]. split; [by rewrite Hsame|exact Hsame].
Qed.

Lemma collapseSpaceRuns_spaces inRun ws rest :
  ws <> [] -> forallb Js.isSpace ws = true ->
  Js.collapseSpaceRuns inRun (ws ++ rest)
  = ((if inRun then [] else [" "%char]) ++ Js.collapseSpaceRuns true rest)%list.
Proof.
  revert inRun. induction ws as [|c ws IH]; intros inRun Hne Hall; [done|].
  cbn in Hall. apply andb_true_iff in Hall as [Hc Hws].
  cbn [app Js.collapseSpaceRuns]. rewrite Hc.
  destruct ws as [|c' ws].
  - by destruct inRun.
  - rewrite (IH true) by done. by destruct inRun.
Qed.

Lemma collapseSpaceRuns_app inRun a ws1 ws2 b :
  ws1 <> [] -> ws2 <> [] ->
  forallb Js.isSpace ws1 = true -> forallb Js.isSpace ws2 = true ->
  Js.collapseSpaceRuns inRun (a ++ ws1 ++ b)
  = Js.collapseSpaceRuns inRun (a ++ ws2 ++ b).
Proof.
  intros Hne1 Hne2 H1 H2. revert inRun.
  induction a as [|c a IH]; intros inRun; cbn [app].
  - by rewrite !collapseSpaceRuns_spaces.
  - cbn [Js.collapseSpaceRuns]. destruct (Js.isSpace c); [destruct inRun|];
      by rewrite IH.
Qed.

(** X6.  The content hash does not see how much white space stands
    between two places of the text: a run of white space may be replaced
    by any other. *)
Theorem hashHtmlContent_whitespace a ws1 ws2 b :
  ws1 <> [] -> ws2 <> [] ->
  forallb Js.isSpace ws1 = true -> forallb Js.isSpace ws2 = true ->
  hashHtmlContent (Js.str (a ++ ws1 ++ b))
  = hashHtmlContent (Js.str (a ++ ws2 ++ b)).
Proof.
  intros Hne1 Hne2 H1 H2. unfold hashHtmlContent.
  rewrite !truthy_str.
  rewrite !bool_decide_eq_false_2.
  2:{ intros Hnil. apply app_eq_nil in Hnil as [_ Hnil].
      by apply app_eq_nil in Hnil as [Hnil _]. }
  2:{ intros Hnil. apply app_eq_nil in Hnil as [_ Hnil].
      by apply app_eq_nil in Hnil as [Hnil _]. }
  cbn [negb]. unfold normalizeSpace, Js.collapseWhitespace.
  rewrite !chars_str. by rewrite (collapseSpaceRuns_app false a ws1 ws2 b).
Qed.

(** Two line feeds and a tab in the place of one space. *)
Lemma hashHtmlContent_whitespace_witness :
  hashHtmlContent (Js.str (Js.chars "<p>a" ++ [" "%char] ++ Js.chars "b</p>"))
  = hashHtmlContent
      (Js.str (Js.chars "<p>a" ++ [Lines.nl; Lines.nl; "009"%char]
               ++ Js.chars "b</p>")).
Proof.
  apply (hashHtmlContent_whitespace (Js.chars "<p>a") [" "%char]
           [Lines.nl; Lines.nl; "009"%char] (Js.chars "b</p>"));
    done.
Defined.

End HashMoreProps.

(** ** Lines *)
Module LinesProps.
Import Lines.

Lemma splitOn_cons_inv c l : exists p ps, Url.splitOn c l = p :: ps.
Proof.
  induction l as [|x l (p & ps & IH)]; cbn; [by eexists _, _|].
  destruct (Ascii.eqb x c); [by eexists _, _|]. rewrite IH. by eexists _, _.
Qed.

Lemma split_nonempty l : split l <> [].
Proof. unfold split. by destruct (splitOn_cons_inv nl l) as (p & ps & ->). Qed.

(** No line holds a line feed. *)
Lemma split_no_nl l : Forall (fun line => nl ∉ line) (split l).
Proof.
  unfold split. induction l as [|x l IH]; cbn.
  - constructor; [apply not_elem_of_nil|constructor].
  - destruct (Ascii.eqb x nl) eqn:E.
    + constructor; [apply not_elem_of_nil|exact IH].
    + apply Ascii.eqb_neq in E.
      destruct (Url.splitOn nl l) as [|p ps].
      * constructor; [|constructor].
        apply not_elem_of_cons. split; [congruence|apply not_elem_of_nil].
      * inversion IH as [|? ? Hp Hps]; subst. constructor; [|done].
        apply not_elem_of_cons. split; [congruence|done].
Qed.

Lemma join_split l : join (split l) = l.
Proof.
  unfold split. induction l as [|x l IH]; [done|]. cbn [Url.splitOn].
  destruct (splitOn_cons_inv nl l) as (p & ps & Hs). rewrite Hs in *.
  destruct (Ascii.eqb x nl) eqn:E.
  - apply Ascii.eqb_eq in E as ->.
    change (join ([] :: p :: ps)) with (nl :: join (p :: ps)). by rewrite IH.
  - destruct ps as [|q ps].
    + cbn [join] in *. by rewrite IH.
    + change (join ((x :: p) :: q :: ps)) with (x :: join (p :: q :: ps)).
      by rewrite IH.
Qed.

Lemma splitOn_line c line : c ∉ line -> Url.splitOn c line = [line].
Proof.
  induction line as [|x line IH]; [done|].
  intros [Hx Hline]%not_elem_of_cons. cbn.
  destruct (Ascii.eqb x c) eqn:E; [apply Ascii.eqb_eq in E; congruence|].
  by rewrite IH.
Qed.

Lemma splitOn_app c line rest :
  c ∉ line -> Url.splitOn c (line ++ c :: rest) = line :: Url.splitOn c rest.
Proof.
  induction line as [|x line IH]; cbn.
  - intros _. by rewrite Ascii.eqb_refl.
  - intros [Hx Hline]%not_elem_of_cons.
    destruct (Ascii.eqb x c) eqn:E; [apply Ascii.eqb_eq in E; congruence|].
    by rewrite IH.
Qed.

Lemma split_join lines :
  lines <> [] -> Forall (fun line => nl ∉ line) lines -> split (join lines) = lines.
Proof.
  unfold split. intros Hne Hall. induction Hall as [|line rest Hline Hrest IH]; [done|].
  destruct rest as [|line' rest]; cbn [join].
  - by apply splitOn_line.
  - rewrite splitOn_app by done. f_equal. by apply IH.
Qed.

End LinesProps.

(** ** The passes of the Markdown converter over the lines *)
Module MarkdownLinesProps.
Import Markdown StringProps LinesProps.

Lemma span_repeat_hash level rest :
  (forall c r, rest = c :: r -> isHash c = false) ->
  EnhancedMarkdown.span isHash (repeat "#"%char level ++ rest)
  = (repeat "#"%char level, rest).
Proof.
  intros Hrest. induction level as [|level IH]; cbn.
  - destruct rest as [|c r]; [done|]. cbn. by rewrite (Hrest c r eq_refl).
  - by rewrite IH.
Qed.

Lemma span_all p l :
  forallb p l = true -> EnhancedMarkdown.span p l = (l, []).
Proof.
  induction l as [|c l IH]; [done|]. cbn.
  intros [-> Hl]%andb_true_iff. by rewrite IH.
Qed.

(** What [span] cuts off ends where the predicate fails. *)
Lemma span_spec p l a b :
  EnhancedMarkdown.span p l = (a, b) ->
  l = (a ++ b)%list /\ forallb p a = true
  /\ match b with c :: _ => p c = false | [] => True end.
Proof.
  revert a b. induction l as [|c l IH]; intros a b; cbn.
  - by intros [= <- <-].
  - destruct (p c) eqn:Ec.
    + destruct (EnhancedMarkdown.span p l) as [a' b'] eqn:E.
      intros [= <- <-]. destruct (IH _ _ eq_refl) as (-> & Ha & Hb).
      cbn. by rewrite Ec.
    + intros [= <- <-]. by rewrite Ec.
Qed.

(** The text of a heading is matched by [.] throughout, and is read back
    as it is after one space. *)
Lemma headingText_spec afterHashes t :
  headingText afterHashes = Some t ->
  forallb isDot t = true /\ t <> [] /\ headingText (" "%char :: t) = Some t.
Proof.
  unfold headingText.
  destruct (EnhancedMarkdown.span Js.isSpace afterHashes) as [ws rest] eqn:E.
  apply span_spec in E as (_ & Hws & Hrest).
  destruct ws as [|w ws]; [done|]. destruct rest as [|c rest].
  - destruct ws as [|w' ws]; [done|].
    destruct (last (w :: w' :: ws)) as [x|] eqn:Hlast; [|done].
    destruct (isDot x) eqn:Hx; [|done]. intros [= <-].
    assert (Js.isSpace x = true) as Hsp.
    { apply last_Some in Hlast as [l' Hl']. rewrite Hl' in Hws.
      rewrite forallb_app in Hws. apply andb_true_iff in Hws as [_ Hws].
      cbn in Hws. by apply andb_true_iff in Hws as [-> _]. }
    split; [cbn [forallb]; by rewrite Hx|]. split; [done|].
    cbn [EnhancedMarkdown.span]. replace (Js.isSpace " ") with true by reflexivity.
    rewrite Hsp. cbn [EnhancedMarkdown.span last]. rewrite Hx. reflexivity.
  - assert (match ws with
            | [] | _ => if forallb isDot (c :: rest) then Some (c :: rest) else None
            end = if forallb isDot (c :: rest) then Some (c :: rest) else None)
      as -> by (by destruct ws).
    destruct (forallb isDot (c :: rest)) eqn:Hdot; [|done]. intros [= <-].
    split; [done|]. split; [done|].
    cbn [EnhancedMarkdown.span]. replace (Js.isSpace " ") with true by reflexivity.
    cbn [EnhancedMarkdown.span]. rewrite Hrest. by rewrite Hdot.
Qed.

Lemma isDot_not_nl t : forallb isDot t = true -> Lines.nl ∉ t.
Proof.
  induction t as [|c t IH]; [intros _; apply not_elem_of_nil|].
  cbn. intros [Hc Ht]%andb_true_iff. apply not_elem_of_cons.
  split; [|by apply IH]. intros <-. done.
Qed.

Lemma headingMatch_spec max line level t :
  headingMatch max line = Some (level, t) ->
  (1 <= level <= max)%nat /\ exists afterHashes, headingText afterHashes = Some t.
Proof.
  unfold headingMatch.
  destruct (EnhancedMarkdown.span isHash line) as [hashes afterHashes].
  destruct ((1 <=? length hashes)%nat && (length hashes <=? max)%nat) eqn:Hlevel;
    [|done].
  destruct (headingText afterHashes) as [t'|] eqn:Ht; [|done].
  cbn. intros [= <- <-]. apply andb_true_iff in Hlevel as [H1 H2].
  apply Nat.leb_le in H1, H2. split; [lia|]. by exists afterHashes.
Qed.

(** A heading line is read back with its level and its text. *)
Lemma headingMatch_headingLine max level afterHashes t :
  (1 <= level <= max)%nat -> headingText afterHashes = Some t ->
  headingMatch max (headingLine level t) = Some (level, t).
Proof.
  intros Hlevel (Hdot & Hne & Hread)%headingText_spec.
  unfold headingMatch, headingLine. rewrite span_repeat_hash.
  2:{ by intros c r [= <- <-]. }
  rewrite repeat_length.
  replace ((1 <=? level)%nat && (level <=? max)%nat) with true.
  2:{ symmetry. apply andb_true_iff. split; apply Nat.leb_le; lia. }
  by rewrite Hread.
Qed.

Lemma headingLine_no_nl level afterHashes t :
  headingText afterHashes = Some t -> Lines.nl ∉ headingLine level t.
Proof.
  intros (Hdot & _ & _)%headingText_spec. unfold headingLine.
  intros [Hin|Hin]%elem_of_app.
  - apply list_elem_of_In, repeat_spec in Hin. done.
  - apply elem_of_cons in Hin as [Hin|Hin]; [done|]. by apply isDot_not_nl in Hin.
Qed.

(** *** [normalizeHeadings] *)

Lemma normalizeLoop_length last lines :
  length (normalizeLoop last lines) = length lines.
Proof.
  revert last. induction lines as [|line rest IH]; intros last; [done|].
  cbn. destruct (headingMatch 6 line) as [[level t]|]; cbn; by rewrite IH.
Qed.

Lemma normalizeLoop_no_nl last lines :
  Forall (fun line => Lines.nl ∉ line) lines ->
  Forall (fun line => Lines.nl ∉ line) (normalizeLoop last lines).
Proof.
  intros Hall. revert last.
  induction Hall as [|line rest Hline _ IH]; intros last; [constructor|].
  cbn. destruct (headingMatch 6 line) as [[level t]|] eqn:Hm.
  - constructor; [|apply IH].
    apply headingMatch_spec in Hm as (_ & r & Hr). by eapply headingLine_no_nl.
  - by constructor.
Qed.

Lemma normalizeLoop_idemp last lines :
  normalizeLoop last (normalizeLoop last lines) = normalizeLoop last lines.
Proof.
  revert last. induction lines as [|line rest IH]; intros last; [done|].
  cbn [normalizeLoop]. destruct (headingMatch 6 line) as [[level t]|] eqn:Hm.
  - apply headingMatch_spec in Hm as (Hlevel & r & Hr).
    set (adjusted := if (last + 1 <? level)%nat then (last + 1)%nat else level).
    assert (1 <= adjusted <= 6 /\ adjusted <= last + 1)%nat as [Hadj Hstep].
    { subst adjusted. destruct (Nat.ltb_spec (last + 1) level); lia. }
    cbn [normalizeLoop]. rewrite (headingMatch_headingLine 6 adjusted r t Hadj Hr).
    replace (last + 1 <? adjusted)%nat with false
      by (symmetry; apply Nat.ltb_ge; lia).
    by rewrite IH.
  - cbn [normalizeLoop]. rewrite Hm. by rewrite IH.
Qed.

Lemma normalizeLoop_levels last lines :
  noLevelSkipped last (headingLevels (normalizeLoop last lines)).
Proof.
  revert last. induction lines as [|line rest IH]; intros last; [done|].
  cbn [normalizeLoop]. destruct (headingMatch 6 line) as [[level t]|] eqn:Hm.
  - apply headingMatch_spec in Hm as (Hlevel & r & Hr).
    set (adjusted := if (last + 1 <? level)%nat then (last + 1)%nat else level).
    assert (1 <= adjusted <= 6 /\ adjusted <= last + 1)%nat as [Hadj Hstep].
    { subst adjusted. destruct (Nat.ltb_spec (last + 1) level); lia. }
    unfold headingLevels. cbn [omap list_omap].
    rewrite (headingMatch_headingLine 6 adjusted r t Hadj Hr). cbn.
    split; [lia|apply IH].
  - unfold headingLevels. cbn [omap list_omap]. rewrite Hm. cbn. apply IH.
Qed.

(** X1.  [normalizeHeadings] keeps the number of lines, and in its result
    the first heading has level 1 and no heading lies more than one level
    below the heading before it; run on its own result it changes
    nothing. *)
Theorem normalizeHeadings_levels markdown :
  let out := Lines.split (Js.chars (normalizeHeadings markdown)) in
  length out = length (Lines.split (Js.chars markdown))
  /\ noLevelSkipped 0 (headingLevels out)
  /\ normalizeHeadings (normalizeHeadings markdown) = normalizeHeadings markdown.
Proof.
  cbv zeta. unfold normalizeHeadings. rewrite !chars_str.
  set (lines := Lines.split (Js.chars markdown)).
  assert (Lines.split (Lines.join (normalizeLoop 0 lines)) = normalizeLoop 0 lines)
    as Hsplit.
  { apply split_join.
    - intros Hnil. apply (f_equal length) in Hnil.
      rewrite normalizeLoop_length in Hnil.
      by destruct lines eqn:E; [apply split_nonempty in E|].
    - apply normalizeLoop_no_nl, split_no_nl. }
  rewrite Hsplit. split; [apply normalizeLoop_length|].
  split; [apply normalizeLoop_levels|]. by rewrite normalizeLoop_idemp.
Qed.

(** *** [deduplicateLines] *)

Lemma deduplicateLoop_sublist previous lines :
  deduplicateLoop previous lines `sublist_of` lines.
Proof.
  revert previous. induction lines as [|line rest IH]; intros previous; [done|].
  cbn. destruct (_ && _).
  - apply sublist_cons, IH.
  - apply sublist_skip, IH.
Qed.

Lemma nonBlankTrimmed_cons line lines :
  nonBlankTrimmed (line :: lines)
  = if Js.truthy (Js.str (Js.trimChars line))
    then Js.trimChars line :: nonBlankTrimmed lines
    else nonBlankTrimmed lines.
Proof.
  unfold nonBlankTrimmed. cbn [map]. rewrite filter_cons, truthy_str.
  destruct (decide (Js.trimChars line <> [])) as [Hne|Heq].
  - by rewrite bool_decide_eq_false_2.
  - apply dec_stable in Heq. by rewrite bool_decide_eq_true_2.
Qed.

Lemma deduplicateLoop_noRepeat previous lines :
  noRepeat previous (nonBlankTrimmed (deduplicateLoop previous lines)).
Proof.
  revert previous. induction lines as [|line rest IH]; intros previous; [done|].
  cbn [deduplicateLoop].
  destruct (Js.truthy (Js.str (Js.trimChars line))) eqn:Htruthy; cbn [andb].
  - destruct (bool_decide_reflect (Js.trimChars line = previous)) as [Heq|Hne];
      [apply IH|].
    rewrite nonBlankTrimmed_cons, Htruthy. cbn. split; [done|apply IH].
  - rewrite nonBlankTrimmed_cons, Htruthy. apply IH.
Qed.

Lemma deduplicateLoop_idemp previous lines :
  deduplicateLoop previous (deduplicateLoop previous lines)
  = deduplicateLoop previous lines.
Proof.
  revert previous. induction lines as [|line rest IH]; intros previous; [done|].
  cbn [deduplicateLoop].
  destruct (Js.truthy (Js.str (Js.trimChars line))
            && bool_decide (Js.trimChars line = previous)) eqn:Hskip;
    [apply IH|].
  cbn [deduplicateLoop]. rewrite Hskip. by rewrite IH.
Qed.

Lemma deduplicateLoop_first lines :
  lines <> [] -> deduplicateLoop [] lines <> [].
Proof.
  destruct lines as [|line rest]; [done|]. intros _. cbn [deduplicateLoop].
  rewrite truthy_str.
  destruct (decide (Js.trimChars line = [])) as [Heq|Hne].
  - rewrite !bool_decide_eq_true_2 by done. done.
  - rewrite !bool_decide_eq_false_2 by done. done.
Qed.

(** X2.  In the result of [deduplicateLines] no line that is not blank
    repeats, trimmed, the one before it; the lines of the result are lines
    of the input, in their order; run on its own result the function
    changes nothing. *)
Theorem deduplicateLines_no_repeat markdown :
  let out := Lines.split (Js.chars (deduplicateLines markdown)) in
  noRepeat [] (nonBlankTrimmed out)
  /\ out `sublist_of` Lines.split (Js.chars markdown)
  /\ deduplicateLines (deduplicateLines markdown) = deduplicateLines markdown.
Proof.
  cbv zeta. unfold deduplicateLines. rewrite !chars_str.
  set (lines := Lines.split (Js.chars markdown)).
  assert (Lines.split (Lines.join (deduplicateLoop [] lines))
          = deduplicateLoop [] lines) as Hsplit.
  { apply split_join.
    - apply deduplicateLoop_first, split_nonempty.
    - apply Forall_forall. intros line Hline.
      apply (proj1 (Forall_forall _ _) (split_no_nl (Js.chars markdown))).
      eapply elem_of_sublist; [exact Hline|apply deduplicateLoop_sublist]. }
  rewrite Hsplit. split; [apply deduplicateLoop_noRepeat|].
  split; [apply deduplicateLoop_sublist|]. by rewrite deduplicateLoop_idemp.
Qed.

(** *** [ensureH1InMarkdown] *)

Lemma trimStart_length l : (length (Js.trimStart l) <= length l)%nat.
Proof.
  induction l as [|c l IH]; [done|]. cbn. destruct (Js.isSpace c); cbn; lia.
Qed.

(** What [trim] leaves starts with no white space. *)
Lemma trimChars_head l c r : Js.trimChars l = c :: r -> Js.isSpace c = false.
Proof.
  intros Ht. pose proof (MarkdownProps.trimStart_trimEnd l) as Hs.
  fold (Js.trimChars l) in Hs. rewrite Ht in Hs. cbn in Hs.
  destruct (Js.isSpace c); [|done].
  pose proof (trimStart_length r) as Hlen. rewrite Hs in Hlen. cbn in Hlen. lia.
Qed.

(** The line [# t] of a trimmed text without line terminators is an H1
    with that text. *)
Lemma h1Match_line t :
  t <> [] -> Js.trimChars t = t -> forallb isDot t = true ->
  h1Match ("#"%char :: " "%char :: t) = Some t.
Proof.
  intros Hne Htrim Hdot. destruct t as [|c r]; [done|].
  apply trimChars_head in Htrim as Hc.
  cbn [h1Match]. replace (isHash "#") with true by reflexivity.
  unfold headingText. cbn [EnhancedMarkdown.span].
  replace (Js.isSpace " ") with true by reflexivity. rewrite Hc.
  by rewrite Hdot.
Qed.

Lemma truthy_trim_blank h1 :
  negb (Js.truthy h1) || negb (Js.truthy (Js.trim h1))
  = negb (Js.truthy (Js.trim h1)).
Proof. destruct h1; [done|]. done. Qed.

Lemma ensureH1InMarkdown_blank md h1 detectSeoIssues :
  Js.truthy (Js.trim h1) = false ->
  ensureH1InMarkdown md h1 detectSeoIssues
  = {| markdown := md; seoIssues := []; modified := false |}.
Proof.
  intros Hblank. unfold ensureH1InMarkdown.
  by rewrite truthy_trim_blank, Hblank.
Qed.

Lemma ensureH1InMarkdown_perfect md h1 detectSeoIssues :
  detectH1InMarkdown md
  = {| hasH1 := true; position := 0; text := Some (Js.trim h1) |} ->
  ensureH1InMarkdown md h1 detectSeoIssues
  = {| markdown := md; seoIssues := []; modified := false |}.
Proof.
  intros Hdetect. unfold ensureH1InMarkdown. rewrite Hdetect.
  cbn [hasH1 position text]. rewrite bool_decide_eq_true_2 by done.
  cbn. by destruct (_ || _).
Qed.

Lemma ensureH1InMarkdown_first_line md h1 detectSeoIssues :
  forallb isDot (Js.trimChars (Js.chars h1)) = true ->
  Js.truthy (Js.trim h1) = true ->
  detectH1InMarkdown (markdown (ensureH1InMarkdown md h1 detectSeoIssues))
  = {| hasH1 := true; position := 0; text := Some (Js.trim h1) |}.
Proof.
  intros Hdot Ht. unfold ensureH1InMarkdown. rewrite truthy_trim_blank, Ht.
  cbn [negb].
  destruct (hasH1 (detectH1InMarkdown md) && (position (detectH1InMarkdown md) =? 0)
            && bool_decide (text (detectH1InMarkdown md) = Some (Js.trim h1)))
    eqn:Hperfect.
  { cbn [markdown].
    apply andb_true_iff in Hperfect as [[Hhas Hpos]%andb_true_iff Htext].
    apply Z.eqb_eq in Hpos. apply bool_decide_eq_true in Htext.
    destruct (detectH1InMarkdown md) as [has pos txt]. cbn in *. by subst. }
  cbn [markdown].
  set (cleaned := if hasH1 (detectH1InMarkdown md) then _ else md).
  unfold detectH1InMarkdown, Lines.split.
  rewrite (chars_app "# "), chars_app. unfold Js.trim at 1. rewrite chars_str.
  unfold Js.trim in Ht. rewrite truthy_str in Ht.
  apply negb_true_iff, bool_decide_eq_false in Ht.
  set (t := Js.trimChars (Js.chars h1)) in *.
  change (Js.chars "# " ++ t ++ Js.chars (Js.str [Lines.nl; Lines.nl] ++ cleaned))%list
    with (("#"%char :: " "%char :: t)
          ++ Js.chars (Js.str [Lines.nl; Lines.nl] ++ cleaned))%list.
  rewrite (chars_app (Js.str [Lines.nl; Lines.nl])), chars_str.
  change ([Lines.nl; Lines.nl] ++ Js.chars cleaned)%list
    with (Lines.nl :: Lines.nl :: Js.chars cleaned).
  rewrite splitOn_app.
  2:{ apply not_elem_of_cons. split; [done|].
      apply not_elem_of_cons. split; [done|]. by apply isDot_not_nl. }
  cbn [detectFrom]. rewrite h1Match_line.
  - subst t. unfold Js.trim. by rewrite MarkdownProps.trimChars_idemp.
  - done.
  - subst t. apply MarkdownProps.trimChars_idemp.
  - done.
Qed.

(** X3.  For a heading text without line terminators, the Markdown that
    [ensureH1InMarkdown] returns has its first H1 on the first line, with
    the trimmed text (the Markdown is returned as it is when the text is
    blank); the function run again on its result changes nothing and
    reports nothing. *)
Theorem ensureH1InMarkdown_settles md h1 detectSeoIssues detectAgain :
  forallb isDot (Js.trimChars (Js.chars h1)) = true ->
  let result := ensureH1InMarkdown md h1 detectSeoIssues in
  (if Js.truthy (Js.trim h1)
   then detectH1InMarkdown (markdown result)
        = {| hasH1 := true; position := 0; text := Some (Js.trim h1) |}
   else markdown result = md)
  /\ ensureH1InMarkdown (markdown result) h1 detectAgain
     = {| markdown := markdown result; seoIssues := []; modified := false |}.
Proof.
  intros Hdot. cbv zeta. destruct (Js.truthy (Js.trim h1)) eqn:Ht.
  - pose proof (ensureH1InMarkdown_first_line md h1 detectSeoIssues Hdot Ht)
      as Hfirst.
    split; [exact Hfirst|]. by apply ensureH1InMarkdown_perfect.
  - rewrite (ensureH1InMarkdown_blank md h1 detectSeoIssues Ht). cbn [markdown].
    split; [done|]. by apply ensureH1InMarkdown_blank.
Qed.

(** A heading that is moved to the first line, and the second run. *)
Lemma ensureH1InMarkdown_settles_witness :
  forallb isDot (Js.trimChars (Js.chars " New ")) = true
  /\ detectH1InMarkdown
       (markdown (ensureH1InMarkdown Examples.lateHeading " New " true))
     = {| hasH1 := true; position := 0; text := Some "New" |}
  /\ seoIssues (ensureH1InMarkdown Examples.lateHeading " New " true)
     = ["H1 found at line 2, not at document start"].
Proof.
  split; [reflexivity|].
  split; [|vm_compute; reflexivity].
  exact (proj1 (ensureH1InMarkdown_settles Examples.lateHeading " New " true true
                  eq_refl)).
Defined.

End MarkdownLinesProps.

(** ** The links of an enhanced Markdown text *)
Module LinkContextProps.
Import LinkContext StringProps LinesProps.

Lemma span_not_elem c l a b :
  EnhancedMarkdown.span (fun x => negb (Ascii.eqb x c)) l = (a, b) -> c ∉ a.
Proof.
  intros (_ & Ha & _)%MarkdownLinesProps.span_spec.
  induction a as [|x a IH]; [apply not_elem_of_nil|].
  cbn in Ha. apply andb_true_iff in Ha as [Hx Ha].
  apply not_elem_of_cons. split; [|by apply IH].
  apply negb_true_iff, Ascii.eqb_neq in Hx. congruence.
Qed.

(** A match is the text of a link, with a label free of []], a URL free of
    [)], neither empty. *)
Lemma linkAt_spec l lbl u rest :
  linkAt l = Some (lbl, u, rest) ->
  l = ("["%char :: lbl ++ "]"%char :: "("%char :: u ++ ")"%char :: rest)%list
  /\ lbl <> [] /\ u <> [] /\ ("]"%char ∉ lbl) /\ (")"%char ∉ u).
Proof.
  unfold linkAt. destruct l as [|c r0]; [done|].
  destruct (Ascii.eqb c "[") eqn:Ec; [|done]. apply Ascii.eqb_eq in Ec as ->.
  destruct (EnhancedMarkdown.span _ r0) as [lbl' r1] eqn:E1.
  destruct lbl' as [|x lbl']; [done|]. destruct r1 as [|c1 [|c2 r2]]; [done..|].
  destruct (Ascii.eqb c1 "]") eqn:Ec1; [|done]. apply Ascii.eqb_eq in Ec1 as ->.
  destruct (Ascii.eqb c2 "(") eqn:Ec2; [|done]. apply Ascii.eqb_eq in Ec2 as ->.
  cbn [andb].
  destruct (EnhancedMarkdown.span _ r2) as [u' r3] eqn:E2.
  destruct u' as [|y u']; [done|]. destruct r3 as [|c3 r4]; [done|].
  destruct (Ascii.eqb c3 ")") eqn:Ec3; [|done]. apply Ascii.eqb_eq in Ec3 as ->.
  intros [= <- <- <-].
  pose proof (span_not_elem _ _ _ _ E1) as Hl.
  pose proof (span_not_elem _ _ _ _ E2) as Hu.
  apply MarkdownLinesProps.span_spec in E1 as (-> & _ & _).
  apply MarkdownLinesProps.span_spec in E2 as (-> & _ & _).
  split; [reflexivity|done].
Qed.

Lemma matchesIn_weaken line from from' ms :
  (from' <= from)%nat -> matchesIn line from ms -> matchesIn line from' ms.
Proof.
  intros Hle Hms. destruct Hms; [constructor|].
  econstructor; [lia|done..].
Qed.

Lemma linkMatches_spec line skip index l :
  drop index line = l -> matchesIn line (index + skip) (linkMatches skip index l).
Proof.
  revert skip index. induction l as [|c r IH]; intros skip index Hl;
    [constructor|].
  assert (drop (S index) line = r) as Hr.
  { replace (S index) with (index + 1)%nat by lia.
    by rewrite <- drop_drop, Hl. }
  cbn [linkMatches]. destruct skip as [|k].
  - destruct (linkAt (c :: r)) as [[[lbl u] rest]|] eqn:Hat.
    + apply linkAt_spec in Hat as (Heq & Hlbl & Hu & Hl1 & Hl2).
      econstructor; [lia| |done..|].
      * rewrite Hl. exact Heq.
      * specialize (IH (length lbl + length u + 3)%nat (S index) Hr).
        replace (index + (length lbl + length u + 4))%nat
          with (S index + (length lbl + length u + 3))%nat by lia.
        exact IH.
    + eapply matchesIn_weaken; [|apply (IH 0%nat (S index) Hr)]. lia.
  - replace (index + S k)%nat with (S index + k)%nat by lia. by apply IH.
Qed.

Lemma apart_weaken from from' links :
  (from' <= from)%nat -> apart from links -> apart from' links.
Proof. destruct links; [done|]. cbn. intros ? [? ?]. split; [lia|done]. Qed.

Lemma matchesIn_bound line index lbl u rest :
  drop index line
  = ("["%char :: lbl ++ "]"%char :: "("%char :: u ++ ")"%char :: rest)%list ->
  (index + (length lbl + length u + 4) <= length line)%nat.
Proof.
  intros Hdrop. apply (f_equal length) in Hdrop.
  rewrite length_drop in Hdrop. cbn in Hdrop.
  rewrite length_app in Hdrop. cbn in Hdrop. rewrite length_app in Hdrop.
  cbn in Hdrop. lia.
Qed.

Section Line.
Variables (structure heading : option string) (charPosition : nat).
Variable line : list ascii.

Let mk (m : nat * list ascii * list ascii) : LinkWithContext :=
  let '(index, lbl, u) := m in
  {| url := Js.str u;
     label := Js.str lbl;
     linkSourceType := mapStructureToLinkSource structure;
     nearestHeading := Js.orNull heading;
     position := charPosition + index |}.

Lemma linkText_length index lbl u :
  length (linkText (mk (index, lbl, u))) = (length lbl + length u + 4)%nat.
Proof.
  unfold linkText. cbn [mk label url]. rewrite !chars_str. cbn.
  rewrite length_app. cbn. rewrite length_app. cbn. lia.
Qed.

Lemma apart_line from ms tail :
  (from <= length line)%nat -> matchesIn line from ms ->
  apart (charPosition + length line + 1) tail ->
  apart (charPosition + from) (map mk ms ++ tail).
Proof.
  intros Hfrom Hms Htail. induction Hms as [from|from index lbl u rest ms Hle Hdrop _ _ _ _ Hms IH].
  - cbn. eapply apart_weaken; [|exact Htail]. lia.
  - pose proof (matchesIn_bound _ _ _ _ _ Hdrop) as Hbound.
    cbn [map app apart]. split; [cbn; lia|].
    rewrite linkText_length. cbn [mk position].
    replace (charPosition + index + (length lbl + length u + 4))%nat
      with (charPosition + (index + (length lbl + length u + 4)))%nat by lia.
    apply IH. lia.
Qed.

Lemma prefix_line from ms pre more :
  length pre = charPosition -> matchesIn line from ms ->
  Forall (fun link =>
            linkText link `prefix_of` drop (position link) (pre ++ line ++ more)
            /\ label link <> "" /\ url link <> ""
            /\ ("]"%char ∉ Js.chars (label link))
            /\ (")"%char ∉ Js.chars (url link)))
    (map mk ms).
Proof.
  intros Hpre Hms.
  induction Hms as [from|from index lbl u rest ms Hle Hdrop Hlbl Hu Hl1 Hl2 Hms IH];
    [constructor|].
  cbn [map]. constructor; [|exact IH].
  pose proof (matchesIn_bound _ _ _ _ _ Hdrop) as Hbound.
  unfold linkText. cbn [mk label url position]. rewrite !chars_str.
  split; [|split; [|split; [|done]]].
  - rewrite <- Hpre, drop_app_add, drop_app_le by lia. rewrite Hdrop.
    exists (rest ++ more)%list. cbn. rewrite <- !app_assoc. cbn.
    by rewrite <- !app_assoc.
  - by destruct lbl.
  - by destruct u.
Qed.

End Line.

Lemma linesLoop_spec structure heading pre lines md :
  md = (pre ++ Lines.join lines)%list ->
  let links := linesLoop structure heading (length pre) lines in
  Forall (fun link =>
            linkText link `prefix_of` drop (position link) md
            /\ label link <> "" /\ url link <> ""
            /\ ("]"%char ∉ Js.chars (label link))
            /\ (")"%char ∉ Js.chars (url link)))
    links
  /\ apart (length pre) links.
Proof.
  cbv zeta. revert structure heading pre.
  induction lines as [|line rest IH]; intros structure heading pre Hmd;
    [by split|].
  cbn [linesLoop].
  set (structure' := match markerMatch "START" line with Some _ => _ | None => _ end).
  set (heading' := match Markdown.headingMatch 6 line with Some _ => _ | None => _ end).
  pose proof (linkMatches_spec line 0 0 line eq_refl) as Hms. cbn in Hms.
  assert (exists more, md = (pre ++ line ++ more)%list
            /\ (rest <> [] -> md = ((pre ++ line ++ [Lines.nl]) ++ Lines.join rest)%list))
    as (more & Hmore & Hrest).
  { destruct rest as [|line' rest].
    - exists []. cbn in Hmd. by rewrite app_nil_r.
    - exists (Lines.nl :: Lines.join (line' :: rest)). split; [exact Hmd|].
      intros _. rewrite Hmd. change (Lines.join (line :: line' :: rest))
        with (line ++ Lines.nl :: Lines.join (line' :: rest))%list.
      rewrite <- !app_assoc. done. }
  assert (Forall (fun link =>
                    linkText link `prefix_of` drop (position link) md
                    /\ label link <> "" /\ url link <> ""
                    /\ ("]"%char ∉ Js.chars (label link))
                    /\ (")"%char ∉ Js.chars (url link)))
            (linesLoop structure' heading' (length pre + length line + 1) rest)
          /\ apart (length pre + length line + 1)
               (linesLoop structure' heading' (length pre + length line + 1) rest))
    as [Hforall Hapart].
  { destruct rest as [|line' rest]; [by split|].
    specialize (IH structure' heading' (pre ++ line ++ [Lines.nl])%list
                  (Hrest ltac:(done))).
    rewrite !length_app in IH. cbn [length] in IH.
    by rewrite Nat.add_assoc in IH. }
  split.
  - apply Forall_app. split; [|exact Hforall].
    rewrite Hmore. by eapply prefix_line.
  - replace (length pre) with (length pre + 0)%nat at 1 by lia.
    eapply apart_line; [lia|exact Hms|exact Hapart].
Qed.

(** X4.  Every link [extractLinksWithContext] returns stands in the text
    at the position it is given: the text from there on starts with
    [[label](url)]; its label is not empty and holds no []], its URL is
    not empty and holds no [)].  The links come in the order of the text
    and do not overlap. *)
Theorem extractLinksWithContext_positions enhancedMarkdown :
  let links := extractLinksWithContext enhancedMarkdown in
  Forall (fun link =>
            linkText link `prefix_of` drop (position link) (Js.chars enhancedMarkdown)
            /\ label link <> "" /\ url link <> ""
            /\ ("]"%char ∉ Js.chars (label link))
            /\ (")"%char ∉ Js.chars (url link)))
    links
  /\ apart 0 links.
Proof.
  cbv zeta. unfold extractLinksWithContext.
  apply (linesLoop_spec None None [] _ (Js.chars enhancedMarkdown)).
  cbn. by rewrite join_split.
Qed.

End LinkContextProps.

(** ** The extraction cascade *)
Module ExtractMoreProps.
Import Types Extract.

Section WithDom.
Context `{Dom}.

Lemma accepted_Some r x :
  accepted r = Some x -> r = Some x /\ Constants.READABILITY_MIN_WORDS <= wordCount x.
Proof.
  destruct r as [y|]; [|done]. cbn.
  destruct (Z.leb_spec Constants.READABILITY_MIN_WORDS (wordCount y)); [|done].
  by intros [= ->].
Qed.

Lemma countWords_nonneg html : 0 <= countWords html.
Proof.
  unfold countWords, Js.wordCount.
  destruct (Js.truthy html); [|done]. destruct (bodyTextContent html); lia.
Qed.

(** What a strategy returns counts the words of the HTML it returns. *)
Lemma strategy_counts (r : option ExtractionResult) x :
  r = Some x ->
  (exists cleaned sels, r = extractByDomainSelectors cleaned sels)
  \/ (exists cleaned url, r = extractWithReadability cleaned url)
  \/ (exists cleaned, r = extractBySemantic cleaned)
  \/ (exists cleaned, r = extractByCmsPatterns cleaned) ->
  wordCount x = countWords (cleanHtml x) /\ success x = true
  /\ extractionMethod x <> fallback.
Proof.
  intros Hr [(cleaned & sels & Heq)|[(cleaned & url & Heq)|[(cleaned & Heq)|(cleaned & Heq)]]];
    rewrite Hr in Heq.
  - unfold extractByDomainSelectors in Heq.
    destruct sels as [[|sel sels]|]; [done| |done].
    destruct (extractBySelectors _ _) as [extracted|]; [|done].
    destruct (Js.truthy extracted); [|done]. by injection Heq as ->.
  - unfold extractWithReadability in Heq.
    destruct (readabilityContent _ _) as [content|]; [|done].
    destruct (Js.truthy content); [|done]. by injection Heq as ->.
  - unfold extractBySemantic in Heq.
    destruct (extractBySelectors _ _) as [extracted|]; [|done].
    by injection Heq as ->.
  - unfold extractByCmsPatterns in Heq.
    destruct (extractBySelectors _ _) as [extracted|]; [|done].
    by injection Heq as ->.
Qed.

(** X7.  [extractContent] succeeds exactly on HTML that is not empty; the
    word count it reports is that of the HTML it returns, and is never
    negative; a result of another method than [fallback] has at least
    READABILITY_MIN_WORDS words. *)
Theorem extractContent_result html url domainSelectors removeSelectors :
  let result := extractContent html url domainSelectors removeSelectors in
  success result = Js.truthy html
  /\ wordCount result = countWords (cleanHtml result)
  /\ 0 <= wordCount result
  /\ (extractionMethod result = fallback
      \/ Constants.READABILITY_MIN_WORDS <= wordCount result).
Proof.
  cbv zeta.
  assert (forall result,
            extractContent html url domainSelectors removeSelectors = result ->
            success result = Js.truthy html
            /\ wordCount result = countWords (cleanHtml result)
            /\ (extractionMethod result = fallback
                \/ Constants.READABILITY_MIN_WORDS <= wordCount result))
    as Hmain.
  { intros result. unfold extractContent.
    destruct (Js.truthy html);
      [|intros <-; split; [done|split; [reflexivity|by left]]].
    set (cleaned := cleanedHtmlOf html removeSelectors).
    destruct (accepted (extractByDomainSelectors cleaned domainSelectors))
      as [r|] eqn:E1.
    { intros <-. apply accepted_Some in E1 as [E1 Hwords].
      destruct (strategy_counts _ _ E1) as (? & ? & ?); eauto 10. }
    destruct (accepted (extractWithReadability cleaned url)) as [r|] eqn:E2.
    { intros <-. apply accepted_Some in E2 as [E2 Hwords].
      destruct (strategy_counts _ _ E2) as (? & ? & ?); eauto 10. }
    destruct (accepted (extractBySemantic cleaned)) as [r|] eqn:E3.
    { intros <-. apply accepted_Some in E3 as [E3 Hwords].
      destruct (strategy_counts _ _ E3) as (? & ? & ?); eauto 10. }
    destruct (accepted (extractByCmsPatterns cleaned)) as [r|] eqn:E4.
    { intros <-. apply accepted_Some in E4 as [E4 Hwords].
      destruct (strategy_counts _ _ E4) as (? & ? & ?); eauto 10. }
    intros <-. cbn. auto. }
  destruct (Hmain _ eq_refl) as (Hs & Hw & Hm).
  split; [exact Hs|]. split; [exact Hw|]. split; [|exact Hm].
  rewrite Hw. apply countWords_nonneg.
Qed.

End WithDom.

End ExtractMoreProps.

(** ** The clusters of the navigation extractor *)
Module NavShapeProps.
Import Nav.

Lemma fold_left_preserves {A B} (P : A -> Prop) (f : A -> B -> A) l init :
  (forall acc x, P acc -> P (f acc x)) -> P init -> P (fold_left f l init).
Proof.
  intros Hf. revert init. induction l as [|x l IH]; intros init Hinit; [done|].
  cbn. apply IH. by apply Hf.
Qed.

Lemma url_fresh (its : list NavItem) u :
  existsb (fun item => String.eqb (url item) u) its = false -> u ∉ map url its.
Proof.
  induction its as [|item its IH]; [intros _; apply not_elem_of_nil|].
  cbn. intros [Hitem Hits]%orb_false_iff. apply not_elem_of_cons.
  split; [|by apply IH]. apply String.eqb_neq in Hitem. congruence.
Qed.

Lemma NoDup_snoc_url (its : list NavItem) item :
  NoDup (map url its) -> url item ∉ map url its ->
  NoDup (map url (its ++ [item])).
Proof.
  intros Hnodup Hfresh. rewrite map_app. apply NoDup_app.
  split; [done|]. split; [|apply NoDup_singleton].
  intros u Hu [->|Hnil%elem_of_nil]%elem_of_cons; done.
Qed.

Section WithEnv.
Context `{Env} (baseUrl : string).

Lemma utilityItem_NoDup sel st a :
  NoDup (map url st.1) -> NoDup (map url (utilityItem baseUrl sel st a).1).
Proof.
  destruct st as [allItems usedSelector]. unfold utilityItem. cbn [fst].
  intros Hnodup. destruct (Js.truthy _ && _); [|done].
  destruct (existsb _ allItems) eqn:Hseen; [done|]. cbn [fst].
  apply NoDup_snoc_url; [done|]. by apply url_fresh.
Qed.

Lemma headerContactItem_NoDup allItems a :
  NoDup (map url allItems) -> NoDup (map url (headerContactItem allItems a)).
Proof.
  unfold headerContactItem. intros Hnodup.
  destruct (existsb _ allItems) eqn:Hseen; [done|].
  apply NoDup_snoc_url; [done|]. by apply url_fresh.
Qed.

Lemma extractUtilityLinks_NoDup containers headerContacts :
  NoDup (map url (items (extractUtilityLinks baseUrl containers headerContacts))).
Proof.
  unfold extractUtilityLinks.
  assert (NoDup (map url
            (fold_left (fun st c => fold_left (utilityItem baseUrl c.1) c.2 st)
               containers ([], None)).1)) as Hfold.
  { apply (fold_left_preserves (fun st => NoDup (map url st.1))); [|constructor].
    intros st [sel links] Hst. cbn [fst snd].
    apply (fold_left_preserves (fun st => NoDup (map url st.1))); [|done].
    intros ? ? ?. by apply utilityItem_NoDup. }
  destruct (fold_left _ containers _) as [allItems usedSelector].
  cbn [items]. cbn [fst] in Hfold.
  apply (fold_left_preserves (fun its => NoDup (map url its))); [|done].
  intros ? ? ?. by apply headerContactItem_NoDup.
Qed.

Lemma footerFallbackItem_NoDup its a :
  NoDup (map url its) -> NoDup (map url (footerFallbackItem baseUrl its a)).
Proof.
  unfold footerFallbackItem. intros Hnodup.
  destruct (Js.truthy _ && _ && _); [|done].
  destruct (existsb _ its) eqn:Hseen; [done|].
  apply NoDup_snoc_url; [done|]. by apply url_fresh.
Qed.

Lemma footerFallback_shape fallbacks :
  let cluster := footerFallback baseUrl fallbacks in
  NoDup (map url (items cluster))
  /\ ((items cluster = [] /\ selector cluster = None)
      \/ ((2 <= length (items cluster) <= 20)%nat /\ is_Some (selector cluster))).
Proof.
  cbv zeta.
  induction fallbacks as [|[sel [links|]] rest IH]; cbn [footerFallback].
  - split; [constructor|by left].
  - destruct (Nat.leb_spec 2 (length (fold_left (footerFallbackItem baseUrl) links [])))
      as [Hlen|Hlen]; [|exact IH].
    cbn [items selector]. split.
    + rewrite NavProps.map_take. eapply sublist_NoDup; [|apply sublist_take].
      apply (fold_left_preserves (fun its => NoDup (map url its))); [|constructor].
      intros ? ? ?. by apply footerFallbackItem_NoDup.
    + right. split; [|by eexists]. rewrite length_take. lia.
  - exact IH.
Qed.

Lemma extractFooterNav_shape candidates fallbacks :
  let cluster := extractFooterNav baseUrl candidates fallbacks in
  (items cluster = [] /\ selector cluster = None)
  \/ ((2 <= length (items cluster))%nat /\ is_Some (selector cluster)).
Proof.
  cbv zeta.
  induction candidates as [|[sel [container|]] rest IH]; cbn [extractFooterNav].
  - destruct (footerFallback_shape fallbacks) as [_ [Hempty|[Hlen Hsel]]];
      [by left|right]. split; [lia|done].
  - destruct (Nat.leb_spec 2 (length (extractMenuItems baseUrl container)));
      [|exact IH].
    right. cbn. split; [done|by eexists].
  - exact IH.
Qed.

Lemma Forall_filter_both {A} (P Q : A -> Prop) `{!forall x, Decision (P x)}
    (l : list A) :
  (forall x, P x -> Q x) -> Forall Q (filter P l).
Proof.
  intros HPQ. apply Forall_forall. intros x [Hx _]%list_elem_of_filter. by apply HPQ.
Qed.

Lemma extractPrimaryNav_shape candidates anyMenu :
  let cluster := extractPrimaryNav baseUrl candidates anyMenu in
  ((items cluster = [] /\ selector cluster = None)
   \/ ((3 <= length (items cluster))%nat /\ is_Some (selector cluster)))
  /\ Forall (fun item => isUtilityLink (url item) = false) (items cluster).
Proof.
  cbv zeta.
  induction candidates as [|[sel [container|]] rest IH]; cbn [extractPrimaryNav].
  - destruct anyMenu as [container|]; [|split; [by left|constructor]].
    match goal with
    | |- context [(3 <=? ?n)%nat] => destruct (Nat.leb_spec 3 n) as [Hlen|Hlen]
    end; [|split; [by left|constructor]].
    cbn [items selector]. split; [right; split; [done|by eexists]|].
    apply Forall_filter_both. by intros item [_ Hu].
  - destruct ((3 <=? _)%nat && (3 <=? _)%nat) eqn:Hboth; [|exact IH].
    apply andb_true_iff in Hboth as [_ Hclean%Nat.leb_le].
    cbn [items selector]. split; [right; split; [done|by eexists]|].
    by apply Forall_filter_both.
  - exact IH.
Qed.

Lemma extractLanguageSwitcher_shape containers :
  let cluster := extractLanguageSwitcher baseUrl containers in
  (items cluster = [] /\ selector cluster = None)
  \/ ((2 <= length (items cluster) <= 10)%nat /\ is_Some (selector cluster)).
Proof.
  cbv zeta.
  induction containers as [|[sel links] rest IH]; cbn [extractLanguageSwitcher];
    [by left|].
  destruct ((2 <=? _)%nat && (_ <=? 10)%nat) eqn:Hboth; [|exact IH].
  apply andb_true_iff in Hboth as [H2%Nat.leb_le H10%Nat.leb_le].
  right. cbn. split; [lia|by eexists].
Qed.

(** X8.  The clusters of a navigation structure.  [utility_header] holds
    no two items with the same URL, and neither does the footer cluster of
    the link fallback, which has at most 20 items.  A cluster is empty,
    with no selector, or has its selector and its least size: 3 items in
    [primary_nav], 2 in [footer_nav], 2 (and at most 10) in
    [language_switcher].  [primary_nav] holds no utility link. *)
Theorem nav_clusters_shape :
  (forall containers headerContacts,
     NoDup (map url (items (extractUtilityLinks baseUrl containers headerContacts))))
  /\ (forall fallbacks,
        let cluster := footerFallback baseUrl fallbacks in
        NoDup (map url (items cluster))
        /\ ((items cluster = [] /\ selector cluster = None)
            \/ ((2 <= length (items cluster) <= 20)%nat
                /\ is_Some (selector cluster))))
  /\ (forall candidates fallbacks,
        let cluster := extractFooterNav baseUrl candidates fallbacks in
        (items cluster = [] /\ selector cluster = None)
        \/ ((2 <= length (items cluster))%nat /\ is_Some (selector cluster)))
  /\ (forall candidates anyMenu,
        let cluster := extractPrimaryNav baseUrl candidates anyMenu in
        ((items cluster = [] /\ selector cluster = None)
         \/ ((3 <= length (items cluster))%nat /\ is_Some (selector cluster)))
        /\ Forall (fun item => isUtilityLink (url item) = false) (items cluster))
  /\ (forall containers,
        let cluster := extractLanguageSwitcher baseUrl containers in
        (items cluster = [] /\ selector cluster = None)
        \/ ((2 <= length (items cluster) <= 10)%nat
            /\ is_Some (selector cluster))).
Proof.
  split; [exact extractUtilityLinks_NoDup|].
  split; [exact footerFallback_shape|].
  split; [exact extractFooterNav_shape|].
  split; [exact extractPrimaryNav_shape|].
  exact extractLanguageSwitcher_shape.
Qed.

Lemma eachIndexed_Forall {A} (P : NavItem -> Prop)
    (f : list NavItem -> nat -> A -> list NavItem) l index its :
  (forall its i x, Forall P its -> Forall P (f its i x)) ->
  Forall P its -> Forall P (eachIndexed f index l its).
Proof.
  intros Hf. revert index its.
  induction l as [|x l IH]; intros index its Hits; [done|].
  cbn. apply IH. by apply Hf.
Qed.

Lemma extractSubmenuItems_nested levels submenu its labels :
  (levels <= 3)%nat -> length labels = (4 - levels)%nat ->
  Forall NavShape.wellNested its ->
  Forall NavShape.wellNested (extractSubmenuItems baseUrl levels submenu its labels).
Proof.
  revert submenu its labels.
  induction levels as [|lv IH]; intros submenu its labels Hlevels Hlabels Hits;
    [done|].
  cbn [extractSubmenuItems]. apply eachIndexed_Forall; [|done].
  clear its Hits. intros its index li Hits. unfold submenuItem.
  destruct (directLink (childrenOf li)) as [link|]; [|done].
  destruct (negb _ || negb _); [done|]. destruct (_ || _); [done|].
  match goal with |- context [(its ++ [?item])%list] => set (pushed := item) end.
  assert (Forall NavShape.wellNested (its ++ [pushed])) as Hpushed.
  { apply Forall_app. split; [done|]. constructor; [|constructor].
    unfold NavShape.wellNested. cbn [pushed depth parent_labels].
    destruct (4 - S lv)%nat as [|d] eqn:Hd; [lia|].
    split; [lia|]. exists labels. split; [done|lia]. }
  destruct (ulSubmenu (childrenOf li)) as [sub|]; [|done].
  apply IH; [lia| |done]. rewrite length_app. cbn. lia.
Qed.

Lemma menuItem_nested skip its li :
  Forall NavShape.wellNested its ->
  Forall NavShape.wellNested (menuItem baseUrl skip its li).
Proof.
  intros Hits. unfold menuItem. destruct skip; [done|].
  destruct (linkOrSpanLink (childrenOf li)) as [link|]; [|done].
  destruct (negb (Js.truthy (menuLabel link))); [done|].
  destruct (negb _ && _); [done|].
  match goal with |- context [(its ++ [?item])%list] => set (pushed := item) end.
  assert (Forall NavShape.wellNested (its ++ [pushed])) as Hpushed.
  { apply Forall_app. split; [done|]. by constructor. }
  destruct (anySubmenu (childrenOf li)) as [sub|]; [|done].
  by apply extractSubmenuItems_nested.
Qed.

(** X9.  Every item [extractMenuItems] returns is well nested: a
    top-level item has depth 0 and no parent labels; an item of a submenu
    lies at depth 1, 2 or 3 and has as many parent labels as its depth.
    Submenus below depth 3 are left out. *)
Theorem extractMenuItems_nesting container :
  Forall NavShape.wellNested (extractMenuItems baseUrl container).
Proof.
  unfold extractMenuItems.
  destruct (topLevelItems container) as [|li tops];
    (apply (fold_left_preserves (Forall NavShape.wellNested)); [|constructor]);
    intros ? ? ?; by apply menuItem_nested.
Qed.

End WithEnv.

(** The footer sample: two top-level entries and the two of a submenu. *)
Example footer_menu_nesting :
  map (fun item => (label item, depth item, parent_labels item))
    (@extractMenuItems Sample.navEnv Sample.site Sample.footerMenu)
  = [ ("Services", 0%nat, None); ("A", 1%nat, Some ["Services"]);
      ("B", 1%nat, Some ["Services"]); ("Contact", 0%nat, None) ].
Proof. vm_compute. reflexivity. Qed.

End NavShapeProps.

(** ** The breadcrumb and the fingerprint of a cluster *)
Module NavMoreProps.
Import Nav NavMore StringProps.

Lemma nat_of_ascii_inj a b : nat_of_ascii a = nat_of_ascii b -> a = b.
Proof.
  intros Heq. rewrite <- (ascii_nat_embedding a), <- (ascii_nat_embedding b).
  by rewrite Heq.
Qed.

Lemma codeUnitCompare_eq a b : Url.codeUnitCompare a b = Eq -> a = b.
Proof.
  revert b. induction a as [|x a IH]; intros [|y b]; cbn; try done.
  destruct (Nat.compare_spec (nat_of_ascii x) (nat_of_ascii y)) as [Hxy| |];
    [|done..].
  intros Hab. f_equal; [by apply nat_of_ascii_inj|by apply IH].
Qed.

Lemma codeUnitCompare_refl a : Url.codeUnitCompare a a = Eq.
Proof. induction a as [|x a IH]; [done|]. cbn. by rewrite Nat.compare_refl. Qed.

Lemma codeUnitCompare_opp a b :
  Url.codeUnitCompare b a = CompOpp (Url.codeUnitCompare a b).
Proof.
  revert b. induction a as [|x a IH]; intros [|y b]; cbn; try done.
  rewrite (Nat.compare_antisym (nat_of_ascii x) (nat_of_ascii y)).
  destruct (nat_of_ascii x ?= nat_of_ascii y)%nat; cbn; [apply IH|done..].
Qed.

Lemma codeUnitCompare_trans a b c :
  Url.codeUnitCompare a b = Lt -> Url.codeUnitCompare b c = Lt ->
  Url.codeUnitCompare a c = Lt.
Proof.
  revert b c. induction a as [|x a IH]; intros [|y b] [|z c]; cbn; try done.
  destruct (Nat.compare_spec (nat_of_ascii x) (nat_of_ascii y)) as [Hxy|Hxy|Hxy];
    destruct (Nat.compare_spec (nat_of_ascii y) (nat_of_ascii z)) as [Hyz|Hyz|Hyz];
    try done; intros Hab Hbc.
  - rewrite Hxy, Hyz, Nat.compare_refl. by eapply IH.
  - rewrite Hxy. by apply Nat.compare_lt_iff in Hyz as ->.
  - rewrite <- Hyz. by apply Nat.compare_lt_iff in Hxy as ->.
  - assert (nat_of_ascii x < nat_of_ascii z)%nat as Hxz by lia.
    by apply Nat.compare_lt_iff in Hxz as ->.
Qed.

#[local] Instance codeUnitLe_trans : Transitive codeUnitLe.
Proof.
  intros a b c. unfold codeUnitLe. intros Hab Hbc.
  destruct (Url.codeUnitCompare (Js.chars a) (Js.chars b)) eqn:Eab; [| |done].
  - apply codeUnitCompare_eq in Eab. by rewrite Eab.
  - destruct (Url.codeUnitCompare (Js.chars b) (Js.chars c)) eqn:Ebc; [| |done].
    + apply codeUnitCompare_eq in Ebc. by rewrite <- Ebc, Eab.
    + by rewrite (codeUnitCompare_trans _ _ _ Eab Ebc).
Qed.

#[local] Instance codeUnitLe_total : Total codeUnitLe.
Proof.
  intros a b. unfold codeUnitLe.
  rewrite (codeUnitCompare_opp (Js.chars a) (Js.chars b)).
  destruct (Url.codeUnitCompare (Js.chars a) (Js.chars b)); cbn; auto.
Qed.

#[local] Instance codeUnitLe_antisym : AntiSymm eq codeUnitLe.
Proof.
  intros a b. unfold codeUnitLe.
  rewrite (codeUnitCompare_opp (Js.chars a) (Js.chars b)).
  destruct (Url.codeUnitCompare (Js.chars a) (Js.chars b)) eqn:Eab; cbn;
    [|done..].
  intros _ _. apply codeUnitCompare_eq in Eab.
  by rewrite <- (str_chars a), <- (str_chars b), Eab.
Qed.

(** The sort gives one list for all orders of the same strings. *)
Lemma sort_permutation (l l' : list string) :
  l ≡ₚ l' -> merge_sort codeUnitLe l = merge_sort codeUnitLe l'.
Proof.
  intros Hperm. apply (StronglySorted_unique codeUnitLe).
  - apply StronglySorted_merge_sort; apply _.
  - apply StronglySorted_merge_sort; apply _.
  - by rewrite !merge_sort_Permutation.
Qed.

Lemma substring_chars n s :
  Js.chars (String.substring 0 n s) = take n (Js.chars s).
Proof.
  revert s. induction n as [|n IH]; intros [|c s]; cbn; try done.
  f_equal. apply IH.
Qed.

(** X10.  The fingerprint of a cluster is 16 lower-case hexadecimal
    digits, and depends on the URLs of the internal items only, not on
    their order: two clusters whose internal items have the same URLs, in
    any order, have the same fingerprint. *)
Theorem generateNavFingerprint_order items items' :
  let internal (l : list NavItem) :=
    map url (filter (fun item => is_external item = false) l) in
  (String.length (generateNavFingerprint items) = 16%nat
   /\ forallb HashMore.isHexDigit (Js.chars (generateNavFingerprint items)) = true)
  /\ (internal items ≡ₚ internal items' ->
      generateNavFingerprint items = generateNavFingerprint items').
Proof.
  cbv zeta. split.
  - unfold generateNavFingerprint.
    destruct (HashMoreProps.md5Hash_format
                (String.concat "|"
                   (merge_sort codeUnitLe
                      (map url (filter (fun item => is_external item = false) items)))))
      as [[Hlen Hhex] _].
    rewrite string_length_chars, substring_chars.
    rewrite string_length_chars in Hlen.
    set (digits := Js.chars (Hash.md5Hash _)) in *. split.
    + rewrite length_take, Hlen. done.
    + rewrite <- (take_drop 16 digits), forallb_app in Hhex.
      by apply andb_true_iff in Hhex as [-> _].
  - intros Hperm. unfold generateNavFingerprint.
    by rewrite (sort_permutation _ _ Hperm).
Qed.

(** Two internal items in either order, with an external one between. *)
Lemma generateNavFingerprint_order_witness :
  generateNavFingerprint
    [ Examples.navItem "/a" false; Examples.navItem "/b" false ]
  = generateNavFingerprint
      [ Examples.navItem "/b" false; Examples.navItem "https://x.org/" true;
        Examples.navItem "/a" false ].
Proof.
  apply (proj2 (generateNavFingerprint_order
                  [ Examples.navItem "/a" false; Examples.navItem "/b" false ]
                  [ Examples.navItem "/b" false;
                    Examples.navItem "https://x.org/" true;
                    Examples.navItem "/a" false ])).
  apply Permutation_swap.
Defined.

(** *** The breadcrumb *)

Lemma trim_idemp s : Js.trim (Js.trim s) = Js.trim s.
Proof. unfold Js.trim. by rewrite chars_str, MarkdownProps.trimChars_idemp. Qed.

Lemma truthy_not_empty s : Js.truthy s = true -> s <> "".
Proof. by destruct s. Qed.

Lemma crumbItem_labels items el :
  Forall goodLabel items -> Forall goodLabel (crumbItem items el).
Proof.
  intros Hitems. unfold crumbItem.
  destruct (Js.truthy (Js.trim (c_text el))) eqn:Ht; cbn [negb orb]; [|done].
  destruct (separatorsOnly _ || _); [done|].
  assert (Forall goodLabel
            (items ++ [ {| b_label := Js.trim (c_text el);
                           b_url := Js.orNull (if c_isA el then c_href el else None) |} ]))
    as Hpushed.
  { apply Forall_app. split; [done|]. constructor; [|constructor].
    split; cbn [b_label]; [by apply truthy_not_empty|apply trim_idemp]. }
  destruct (c_parentText el) as [parentText|].
  - destruct (String.eqb _ _); [done|]. by destruct (existsb _ items).
  - by destruct (existsb _ items).
Qed.

Lemma crumbItem_NoDup items el :
  NoDup (map b_label items) -> NoDup (map b_label (crumbItem items el)).
Proof.
  intros Hnodup. unfold crumbItem.
  destruct (_ || _ || _); [done|].
  assert (forall b : bool,
            (if b then items
             else if existsb (fun item => String.eqb (b_label item) (Js.trim (c_text el)))
                       items
                  then items
                  else (items ++ [ {| b_label := Js.trim (c_text el);
                                      b_url := Js.orNull (if c_isA el then c_href el
                                                          else None) |} ])%list)
            = if b || existsb (fun item => String.eqb (b_label item) (Js.trim (c_text el)))
                        items
              then items
              else (items ++ [ {| b_label := Js.trim (c_text el);
                                  b_url := Js.orNull (if c_isA el then c_href el
                                                      else None) |} ])%list)
    as -> by (by intros []).
  destruct (_ || existsb _ items) eqn:Hseen; [done|].
  apply orb_false_iff in Hseen as [_ Hseen].
  rewrite map_app. apply NoDup_app. split; [done|].
  split; [|apply NoDup_singleton].
  intros lbl Hlbl [->|Hnil%elem_of_nil]%elem_of_cons; [|done].
  apply list_elem_of_fmap in Hlbl as (item & Heq & Hitem).
  apply list_elem_of_In in Hitem.
  assert (existsb (fun item => String.eqb (b_label item) (Js.trim (c_text el))) items
          = true) as Hex.
  { apply existsb_exists. exists item. split; [done|].
    cbn in Heq. rewrite <- Heq. apply String.eqb_refl. }
  congruence.
Qed.

Lemma crumbParts_labels text : Forall goodLabel (crumbParts text).
Proof.
  unfold crumbParts. apply Forall_map, Forall_forall.
  intros part [Htruthy Hin]%list_elem_of_filter.
  apply list_elem_of_In, in_map_iff in Hin as (piece & <- & _).
  split; cbn [b_label]; [by apply truthy_not_empty|].
  unfold Js.trim. by rewrite chars_str, MarkdownProps.trimChars_idemp.
Qed.

(** X11.  A breadcrumb is empty or has at least two items, and each of
    its labels is trimmed and not empty.  The items that strategy 1 reads
    off the [a] and [span] elements of one container have labels that
    differ from one another. *)
Theorem extractBreadcrumb_shape containers :
  let items := extractBreadcrumb containers in
  (items = [] \/ (2 <= length items)%nat)
  /\ Forall goodLabel items
  /\ forall container,
       NoDup (map b_label (fold_left crumbItem (elements container) [])).
Proof.
  cbv zeta. split; [|split].
  - induction containers as [|container rest IH]; cbn [extractBreadcrumb];
      [by left|].
    destruct (Nat.leb_spec 2 (length (fold_left crumbItem (elements container) [])));
      [by right|].
    destruct (Nat.leb_spec 2 (length (crumbParts (fullText container))));
      [by right|exact IH].
  - induction containers as [|container rest IH]; cbn [extractBreadcrumb];
      [constructor|].
    destruct (2 <=? _)%nat.
    + apply (NavShapeProps.fold_left_preserves (Forall goodLabel)); [|constructor].
      intros ? ? ?. by apply crumbItem_labels.
    + destruct (2 <=? _)%nat; [apply crumbParts_labels|exact IH].
  - intros container.
    apply (NavShapeProps.fold_left_preserves (fun its => NoDup (map b_label its)));
      [|constructor].
    intros ? ? ?. by apply crumbItem_NoDup.
Qed.

End NavMoreProps.

(** ** The sitemap parser and the queue of the crawler *)
Module SitemapProps.
Import Sitemap StringProps.

Lemma lowerChar_slash c :
  Ascii.eqb (Regex.lowerChar c) "/" = Ascii.eqb c "/".
Proof.
  unfold Regex.lowerChar.
  destruct ((65 <=? nat_of_ascii c)%nat && (nat_of_ascii c <=? 90)%nat) eqn:Hup;
    [|done].
  apply andb_true_iff in Hup as [H1%Nat.leb_le H2%Nat.leb_le].
  transitivity false; [|symmetry]; apply Ascii.eqb_neq.
  - intros Heq. apply (f_equal nat_of_ascii) in Heq.
    rewrite nat_ascii_embedding in Heq by lia.
    change (nat_of_ascii "/") with 47%nat in Heq. lia.
  - intros ->. change (nat_of_ascii "/") with 47%nat in H1. lia.
Qed.

Lemma lowerChar_idemp c : Regex.lowerChar (Regex.lowerChar c) = Regex.lowerChar c.
Proof.
  unfold Regex.lowerChar at 2 3.
  destruct ((65 <=? nat_of_ascii c)%nat && (nat_of_ascii c <=? 90)%nat) eqn:Hup;
    [|unfold Regex.lowerChar; by rewrite Hup].
  apply andb_true_iff in Hup as [H1%Nat.leb_le H2%Nat.leb_le].
  unfold Regex.lowerChar. rewrite nat_ascii_embedding by lia.
  replace ((65 <=? nat_of_ascii c + 32)%nat && (nat_of_ascii c + 32 <=? 90)%nat)
    with false; [done|].
  symmetry. apply andb_false_iff. right. apply Nat.leb_gt. lia.
Qed.

Lemma splitOn_lower l :
  Url.splitOn "/" (map Regex.lowerChar l)
  = map (map Regex.lowerChar) (Url.splitOn "/" l).
Proof.
  induction l as [|c l IH]; [done|]. cbn [map Url.splitOn].
  rewrite lowerChar_slash, IH.
  destruct (Ascii.eqb c "/"); [done|].
  by destruct (Url.splitOn "/" l).
Qed.

Lemma last_map {A B} (f : A -> B) l : last (map f l) = f <$> last l.
Proof.
  induction l as [|x l IH]; [done|]. destruct l as [|y l]; [done|].
  exact IH.
Qed.

Lemma toLowerCase_filenameOf s :
  filenameOf (Nav.toLowerCase s) = Nav.toLowerCase (filenameOf s).
Proof.
  unfold filenameOf, Nav.toLowerCase. rewrite !chars_str, splitOn_lower, last_map.
  by destruct (last (Url.splitOn "/" (Js.chars s))).
Qed.

Lemma toLowerCase_idemp s : Nav.toLowerCase (Nav.toLowerCase s) = Nav.toLowerCase s.
Proof.
  unfold Nav.toLowerCase. rewrite chars_str, map_map. f_equal.
  apply map_ext. intros c. apply lowerChar_idemp.
Qed.

Lemma last_splitOn_app c dir file :
  c ∉ file -> last (Url.splitOn c (dir ++ c :: file)) = Some file.
Proof.
  intros Hfile.
  assert (exists p ps, Url.splitOn c (dir ++ c :: file) = (p :: ps ++ [file])%list)
    as (p & ps & ->).
  { induction dir as [|x dir (p & ps & IH)]; cbn [app Url.splitOn].
    - rewrite Ascii.eqb_refl, (LinesProps.splitOn_line c file Hfile).
      by exists [], [].
    - rewrite IH. destruct (Ascii.eqb x c).
      + by exists [], (p :: ps).
      + by exists (x :: p), ps. }
  change (p :: ps ++ [file])%list with ((p :: ps) ++ [file])%list.
  apply last_snoc.
Qed.

Lemma filenameOf_app dir file :
  ("/"%char ∉ Js.chars file) -> filenameOf (dir ++ "/" ++ file) = file.
Proof.
  intros Hfile. unfold filenameOf.
  rewrite chars_app, (chars_app "/"). cbn [Js.chars list_ascii_of_string app].
  fold (Js.chars file). rewrite last_splitOn_app by done. cbn. apply str_chars.
Qed.

Lemma hint_by_filename s s' :
  Nav.toLowerCase (filenameOf s) = Nav.toLowerCase (filenameOf s') ->
  extractSitemapTypeHint s = extractSitemapTypeHint s'.
Proof. unfold extractSitemapTypeHint. by intros ->. Qed.

(** X12.  The type hint of a sitemap is read off the last segment of its
    URL, whatever stands before the last slash, and without regard to the
    case of the letters A to Z. *)
Theorem extractSitemapTypeHint_filename dir file :
  ("/"%char ∉ Js.chars file) ->
  extractSitemapTypeHint (dir ++ "/" ++ file) = extractSitemapTypeHint file
  /\ extractSitemapTypeHint (Nav.toLowerCase (dir ++ "/" ++ file))
     = extractSitemapTypeHint file.
Proof.
  intros Hfile.
  assert (filenameOf file = file) as Hself.
  { unfold filenameOf. rewrite LinesProps.splitOn_line by done. apply str_chars. }
  split; apply hint_by_filename.
  - by rewrite filenameOf_app, Hself.
  - by rewrite toLowerCase_filenameOf, toLowerCase_idemp, filenameOf_app, Hself.
Qed.

(** The sitemap of the posts, under a directory and in capitals. *)
Lemma extractSitemapTypeHint_filename_witness :
  extractSitemapTypeHint ("https://EX.com/maps" ++ "/" ++ "Post-Sitemap2.xml")
  = Some "post"
  /\ extractSitemapTypeHint "Post-Sitemap2.xml" = Some "post".
Proof.
  assert ("/"%char ∉ Js.chars "Post-Sitemap2.xml") as Hfile.
  { intros Hin. apply list_elem_of_In in Hin. cbn in Hin.
    repeat (destruct Hin as [Hin|Hin]; [discriminate|]). done. }
  destruct (extractSitemapTypeHint_filename "https://EX.com/maps"
              "Post-Sitemap2.xml" Hfile) as [Heq _].
  split; [rewrite Heq|]; reflexivity.
Defined.

Lemma fold_left_preserves_in {A B} (P : A -> Prop) (f : A -> B -> A) l init :
  (forall acc x, x ∈ l -> P acc -> P (f acc x)) -> P init -> P (fold_left f l init).
Proof.
  revert init. induction l as [|x l IH]; intros init Hf Hinit; [done|].
  cbn. apply IH.
  - intros acc y Hy. apply Hf. by apply list_elem_of_further.
  - apply Hf; [apply list_elem_of_here|done].
Qed.

Section WithNormalizer.
Variable normalizeUrl : string -> option string.

(** What the parser knows of the entries it has collected. *)
Let collected (fetched : list (string * option (list string)))
    (st : list SitemapUrl * gset string) : Prop :=
  NoDup (map normalizedUrl st.1)
  /\ (forall u, u ∈ st.2 <-> u ∈ map normalizedUrl st.1)
  /\ Forall (fun entry =>
               normalizeUrl (url entry) = Some (normalizedUrl entry)
               /\ url entry <> ""
               /\ typeHint entry = extractSitemapTypeHint (sitemapSource entry)
               /\ exists sites, (sitemapSource entry, Some sites) ∈ fetched
                                /\ url entry ∈ sites)
       st.1.

Lemma addEntry_collected fetched st entry :
  (normalizeUrl (url entry) = Some (normalizedUrl entry)
   /\ url entry <> ""
   /\ typeHint entry = extractSitemapTypeHint (sitemapSource entry)
   /\ exists sites, (sitemapSource entry, Some sites) ∈ fetched /\ url entry ∈ sites) ->
  collected fetched st -> collected fetched (addEntry st entry).
Proof.
  destruct st as [allUrls seenUrls]. intros Hentry (Hnodup & Hseen & Hall).
  unfold addEntry. cbn [fst snd] in *.
  destruct (decide (normalizedUrl entry ∈ seenUrls)) as [Hin|Hout];
    [done|].
  split; [|split]; cbn [fst snd].
  - rewrite map_app. apply NoDup_app. split; [done|].
    split; [|apply NoDup_singleton].
    intros u Hu [->|Hnil%elem_of_nil]%elem_of_cons; [|done].
    by apply Hseen in Hu.
  - intros u. rewrite map_app, elem_of_app, elem_of_union, elem_of_singleton.
    cbn. rewrite list_elem_of_singleton, Hseen. tauto.
  - apply Forall_app. split; [done|]. by constructor.
Qed.

Lemma parseSitemapOf_entries sitemapUrl sites entry :
  entry ∈ parseSitemapOf normalizeUrl sitemapUrl sites ->
  normalizeUrl (url entry) = Some (normalizedUrl entry)
  /\ url entry <> ""
  /\ typeHint entry = extractSitemapTypeHint sitemapUrl
  /\ sitemapSource entry = sitemapUrl
  /\ url entry ∈ sites.
Proof.
  unfold parseSitemapOf. intros (u & Hu & Hentry)%list_elem_of_omap.
  unfold isValidUrl in Hentry.
  destruct (Js.truthy u) eqn:Ht; [|done]. cbn [andb] in Hentry.
  destruct (normalizeUrl u) as [normalized|] eqn:Hn.
  2:{ by rewrite bool_decide_eq_false_2 in Hentry by (by intros [? ?]). }
  rewrite bool_decide_eq_true_2 in Hentry by (by eexists).
  cbn in Hentry. injection Hentry as <-. cbn.
  split; [done|]. split; [by destruct u|]. done.
Qed.

(** X13.  [parseMultipleSitemaps] returns no two entries with the same
    normalized URL; each entry holds a URL that its sitemap listed, that
    is not empty and that [normalizeUrl] takes to the entry's normalized
    URL, and the type hint of its sitemap's name. *)
Theorem parseMultipleSitemaps_unique fetched :
  let allUrls := parseMultipleSitemaps normalizeUrl fetched in
  NoDup (map normalizedUrl allUrls)
  /\ Forall (fun entry =>
               normalizeUrl (url entry) = Some (normalizedUrl entry)
               /\ url entry <> ""
               /\ typeHint entry = extractSitemapTypeHint (sitemapSource entry)
               /\ exists sites, (sitemapSource entry, Some sites) ∈ fetched
                                /\ url entry ∈ sites)
       allUrls.
Proof.
  cbv zeta. unfold parseMultipleSitemaps.
  assert (collected fetched (fold_left (addSitemap normalizeUrl) fetched ([], ∅)))
    as (Hnodup & _ & Hall).
  { apply (fold_left_preserves_in (collected fetched)).
    - intros st [sitemapUrl [sites|]] Hin Hst; unfold addSitemap; cbn [fst snd];
        [|done].
      apply (fold_left_preserves_in (collected fetched)); [|done].
      intros st' entry Hentry Hst'. apply addEntry_collected; [|done].
      apply parseSitemapOf_entries in Hentry as (Hn & Hne & Hhint & Hsrc & Hsite).
      rewrite Hsrc. split; [done|]. split; [done|]. split; [done|].
      by exists sites.
    - split; [constructor|]. split; [|constructor].
      intros u. cbn. rewrite elem_of_nil. set_solver. }
  done.
Qed.

End WithNormalizer.

(** *** The queue *)
Section Queue.
Import Enqueue.
Variable normalizeUrl : string -> option string.
Variable recrawl : bool.
Variable pageExists : string -> option bool.

(** What holds of the queue while the loop runs over [urls]. *)
Let queued (urls : list SitemapUrl) (done : nat) (st : State) : Prop :=
  NoDup (map Crawler.url (queue st))
  /\ (forall u, u ∈ queuedUrls st <-> u ∈ map Crawler.url (queue st))
  /\ Forall (fun request =>
               (recrawl = true \/ pageExists (Crawler.url request) = Some false)
               /\ exists urlEntry,
                    urlEntry ∈ urls
                    /\ normalizeUrl (normalizedUrl urlEntry)
                       = Some (Crawler.url request)
                    /\ Crawler.originalUrl request = Some (url urlEntry)
                    /\ Crawler.sitemapTypeHint request = typeHint urlEntry)
       (queue st)
  /\ (length (queue st) + pagesSkipped st <= done)%nat.

Lemma enqueueEntry_queued urls done st urlEntry :
  urlEntry ∈ urls -> queued urls done st ->
  queued urls (S done) (enqueueEntry normalizeUrl recrawl pageExists st urlEntry).
Proof.
  intros Hin (Hnodup & Hseen & Hall & Hcount). unfold enqueueEntry.
  destruct (normalizeUrl (normalizedUrl urlEntry)) as [normalized|] eqn:Hn.
  2:{ repeat split; try done; [by apply Hseen|by apply Hseen|lia]. }
  destruct (decide (normalized ∈ queuedUrls st)) as [Hq|Hq].
  { repeat split; try done; [by apply Hseen|by apply Hseen|lia]. }
  destruct (alreadyCrawled recrawl pageExists normalized)
    as [[]|] eqn:Hskip.
  { repeat split; try done; cbn; [by apply Hseen|by apply Hseen|lia]. }
  2:{ repeat split; try done; [by apply Hseen|by apply Hseen|lia]. }
  split; [|split; [|split]]; cbn [queue queuedUrls pagesSkipped].
  - rewrite map_app. apply NoDup_app. split; [done|].
    split; [|apply NoDup_singleton].
    intros u Hu [->|Hnil%elem_of_nil]%elem_of_cons; [|done].
    apply Hseen in Hu. done.
  - intros u. rewrite map_app, elem_of_app, elem_of_union, elem_of_singleton.
    cbn. rewrite list_elem_of_singleton, Hseen. tauto.
  - apply Forall_app. split; [done|]. constructor; [|constructor]. cbn. split.
    + unfold alreadyCrawled in Hskip. destruct recrawl; [by left|by right].
    + by exists urlEntry.
  - rewrite length_app. cbn. lia.
Qed.

Lemma fold_left_queued urls rest done st :
  (forall urlEntry, urlEntry ∈ rest -> urlEntry ∈ urls) ->
  queued urls done st ->
  queued urls (done + length rest)
    (fold_left (enqueueEntry normalizeUrl recrawl pageExists) rest st).
Proof.
  revert done st. induction rest as [|urlEntry rest IH]; intros done st Hsub Hst.
  - cbn. by rewrite Nat.add_0_r.
  - cbn [fold_left length]. replace (done + S (length rest))%nat
      with (S done + length rest)%nat by lia.
    apply IH.
    + intros e He. apply Hsub. by apply list_elem_of_further.
    + apply enqueueEntry_queued; [|done]. apply Hsub, list_elem_of_here.
Qed.

(** X14.  The queue [runCrawl] fills holds no URL twice.  Each request
    carries the normalized form of an entry's normalized URL, with the
    entry's URL as [originalUrl] and its type hint; unless [recrawl] is
    set, [pageExists] answered false for each.  The requests and the pages
    skipped together are no more than the entries. *)
Theorem enqueueAll_unique urls :
  let st := enqueueAll normalizeUrl recrawl pageExists urls in
  NoDup (map Crawler.url (queue st))
  /\ Forall (fun request =>
               (recrawl = true \/ pageExists (Crawler.url request) = Some false)
               /\ exists urlEntry,
                    urlEntry ∈ urls
                    /\ normalizeUrl (normalizedUrl urlEntry)
                       = Some (Crawler.url request)
                    /\ Crawler.originalUrl request = Some (url urlEntry)
                    /\ Crawler.sitemapTypeHint request = typeHint urlEntry)
       (queue st)
  /\ (length (queue st) + pagesSkipped st <= length urls)%nat.
Proof.
  cbv zeta. unfold enqueueAll.
  destruct (fold_left_queued urls urls 0
              {| queue := []; queuedUrls := ∅; pagesSkipped := 0 |})
    as (Hnodup & _ & Hall & Hcount); [done| |done].
  split; [constructor|]. split; [|split; [constructor|cbn; lia]].
  intros u. cbn. rewrite elem_of_nil. set_solver.
Qed.

End Queue.

End SitemapProps.

(** ** src/db/queries.ts and the handlers of src/crawler/crawler.ts *)
Module QueriesMoreProps.
Import Types Queries.

Lemma hashChanged_COALESCE (new stored : option string) :
  hashChanged new (COALESCE new stored) = false.
Proof. destruct new as [h|]; cbn; [|done]. by rewrite String.eqb_refl. Qed.

Lemma COALESCE_twice {A} (new stored : option A) :
  COALESCE new (COALESCE new stored) = COALESCE new stored.
Proof. by destruct new. Qed.

Lemma COALESCE_self {A} (new : option A) : COALESCE new new = new.
Proof. by destruct new. Qed.

Lemma hashChanged_self (new : option string) : hashChanged new new = false.
Proof. destruct new as [h|]; cbn; [|done]. by rewrite String.eqb_refl. Qed.

(** A second run of the UPDATE list with the same parameters changes the
    time stamp only. *)
Lemma onDuplicateKeyUpdate_twice now now' v stored :
  onDuplicateKeyUpdate now' v (onDuplicateKeyUpdate now v stored)
  = onDuplicateKeyUpdate now' v stored.
Proof.
  rewrite !QueriesProps.onDuplicateKeyUpdate_unfold.
  cbn [r_final_url r_requested_url_original r_status_code r_crawl_status
       r_redirect_chain r_html_content r_clean_html r_markdown
       r_markdown_enhanced r_title r_h1 r_meta_description r_word_count
       r_content_hash r_sitemap_type_hint r_nav_structure r_structural_stats
       r_fetch_mode r_extraction_method r_junk_score r_last_crawled_at
       r_last_error r_run_id].
  rewrite hashChanged_COALESCE, !COALESCE_twice. reflexivity.
Qed.

Lemma onDuplicateKeyUpdate_insertedRow now now' v :
  onDuplicateKeyUpdate now' v (insertedRow now v) = insertedRow now' v.
Proof.
  rewrite QueriesProps.onDuplicateKeyUpdate_unfold. unfold insertedRow.
  cbn [r_final_url r_requested_url_original r_status_code r_crawl_status
       r_redirect_chain r_html_content r_clean_html r_markdown
       r_markdown_enhanced r_title r_h1 r_meta_description r_word_count
       r_content_hash r_sitemap_type_hint r_nav_structure r_structural_stats
       r_fetch_mode r_extraction_method r_junk_score r_last_crawled_at
       r_last_error r_run_id].
  rewrite hashChanged_self, !COALESCE_self. reflexivity.
Qed.

(** X15.  Storing the same page twice is storing it once, at the time of
    the second call: [upsertPage] after [upsertPage] of the same page
    leaves the table the later call alone would leave, whether the page
    was stored before or not.  The first call bumps [last_crawled_at]
    only for the time between the calls. *)
Theorem upsertPage_twice now now' page (t : Table) :
  upsertPage now' page (upsertPage now page t) = upsertPage now' page t.
Proof.
  unfold upsertPage. destruct (t !! v_final_url (bindParams page)) as [stored|].
  - rewrite lookup_insert_eq, insert_insert_eq.
    by rewrite onDuplicateKeyUpdate_twice.
  - rewrite lookup_insert_eq, insert_insert_eq.
    by rewrite onDuplicateKeyUpdate_insertedRow.
Qed.

(** What a handler's page puts into the status columns and the fetch
    mode of the row it writes. *)
Lemma classify_range statusCode :
  Crawler.classify statusCode <> REDIRECT_ALIAS
  /\ Crawler.classify statusCode <> SOFT_404.
Proof.
  unfold Crawler.classify.
  destruct (_ || _); [done|]. by destruct (400 <=? statusCode).
Qed.

Section Reachable.
Context `{Extract.Dom} `{Crawler.Services}.

Let statusAgrees (statusCode : option Z) (crawlStatus : CrawlStatus) : Prop :=
  match statusCode with
  | Some code => code <> 0 /\ crawlStatus = Crawler.classify code
  | None => crawlStatus = OK \/ crawlStatus = ERROR
  end.

Let chainOfTwo (chain : option (list string)) : Prop :=
  match chain with
  | Some urls =>
      exists requestedUrl finalUrl,
        urls = [requestedUrl; finalUrl] /\ requestedUrl <> finalUrl
  | None => True
  end.

Let shaped (row : Row) : Prop :=
  statusAgrees (r_status_code row) (r_crawl_status row)
  /\ r_fetch_mode row <> Some playwright
  /\ is_Some (r_word_count row)
  /\ chainOfTwo (r_redirect_chain row).

Let pageShaped (page : CrawlerPageInsert) : Prop :=
  statusAgrees (Js.orNullNum (status_code page)) (crawl_status page)
  /\ fetch_mode page <> Some playwright
  /\ chainOfTwo (redirect_chain page).

Lemma pageDataOf_shaped runId request statusCode body page :
  Crawler.pageDataOf runId request statusCode body = Some page ->
  pageShaped page.
Proof.
  unfold Crawler.pageDataOf. intros Hpage.
  destruct (Crawler.normalizeUrl _) as [finalUrl|]; [|discriminate].
  cbn in Hpage.
  destruct (Crawler.extractionFor _ _) as [extraction|]; [|discriminate].
  cbn in Hpage. injection Hpage as <-. split; [|split; [done|]]; cbn.
  - destruct (Z.eqb_spec (Js.orZero statusCode) 0) as [->|Hne]; cbn; [by left|done].
  - destruct (String.eqb_spec
                (Crawler.orString (Crawler.originalUrl request)
                   (Crawler.orString (Crawler.loadedUrl request)
                      (Crawler.url request)))
                finalUrl) as [Heq|Hne]; [done|].
    by do 2 eexists.
Qed.

Lemma failedPageDataOf_shaped runId request message page :
  Crawler.failedPageDataOf runId request message = Some page ->
  pageShaped page.
Proof.
  unfold Crawler.failedPageDataOf. intros Hpage.
  destruct (Crawler.normalizeUrl _) as [finalUrl|]; [|discriminate].
  cbn in Hpage. injection Hpage as <-. split; [|split]; cbn; [by right|done..].
Qed.

(** The UPDATE list writes the status code with the status, and the chain
    whole: it keeps the shape of whichever row the unique key finds. *)
Lemma onDuplicateKeyUpdate_shaped now page stored :
  pageShaped page -> shaped stored ->
  shaped (onDuplicateKeyUpdate now (bindParams page) stored).
Proof.
  intros (Hstatus & Hmode & Hchain) _.
  rewrite QueriesProps.onDuplicateKeyUpdate_unfold. by repeat split.
Qed.

Lemma insertedRow_shaped now page :
  pageShaped page -> shaped (insertedRow now (bindParams page)).
Proof. intros (Hstatus & Hmode & Hchain). by repeat split. Qed.

Lemma upsertPage_shaped now page (t : Table) :
  pageShaped page ->
  (forall key row, t !! key = Some row -> shaped row) ->
  forall key row, upsertPage now page t !! key = Some row -> shaped row.
Proof.
  intros Hpage Ht key row.
  destruct (decide (key = final_url page)) as [->|Hne].
  - destruct (t !! final_url page) as [stored|] eqn:Hhit.
    + rewrite (QueriesProps.upsertPage_conflict _ _ _ _ Hhit).
      intros [= <-]. apply onDuplicateKeyUpdate_shaped; [done|]. by eapply Ht.
    + rewrite (QueriesProps.upsertPage_insert _ _ _ Hhit).
      intros [= <-]. by apply insertedRow_shaped.
  - rewrite QueriesProps.upsertPage_other by done. apply Ht.
Qed.

Lemma step_shaped (t t' : Table) :
  History.step t t' ->
  (forall key row, t !! key = Some row -> shaped row) ->
  forall key row, t' !! key = Some row -> shaped row.
Proof.
  intros Hstep Ht.
  destruct Hstep as [now runId request statusCode body page t Hpage
                    |now runId request message page t Hpage
                    |key0 row0 turndownOutput stats t Hrow0 Hclean result
                    |key0 row0 nav t Hrow0 Hhtml Hnav
                    |deleted t].
  - eapply upsertPage_shaped; eauto using pageDataOf_shaped.
  - eapply upsertPage_shaped; eauto using failedPageDataOf_shaped.
  - intros key row. destruct (decide (key0 = key)) as [->|Hne].
    + rewrite lookup_insert_eq. intros [= <-]. exact (Ht _ _ Hrow0).
    + rewrite lookup_insert_ne by done. apply Ht.
  - intros key row. destruct (decide (key0 = key)) as [->|Hne].
    + rewrite lookup_insert_eq. intros [= <-]. exact (Ht _ _ Hrow0).
    + rewrite lookup_insert_ne by done. apply Ht.
  - intros key row Hlook. apply map_lookup_filter_Some in Hlook as [Hlook _].
    by eapply Ht.
Qed.

(** X16.  In every table the crawler's writes leave, the [crawl_status]
    of a row is the classification of its [status_code] (NOT_FOUND for 404
    and 410, ERROR for any other code from 400 on, OK below), and OK or
    ERROR when it stores no status code; no row carries REDIRECT_ALIAS or
    SOFT_404, none the fetch mode playwright, and every row has a word
    count.  A redirect chain, where one is stored, holds two URLs, and
    they differ. *)
Theorem stored_rows_shape (t : Table) key row :
  History.reachable t ->
  t !! key = Some row ->
  match r_status_code row with
  | Some code => code <> 0 /\ r_crawl_status row = Crawler.classify code
  | None => r_crawl_status row = OK \/ r_crawl_status row = ERROR
  end
  /\ r_crawl_status row <> REDIRECT_ALIAS
  /\ r_crawl_status row <> SOFT_404
  /\ r_fetch_mode row <> Some playwright
  /\ is_Some (r_word_count row)
  /\ match r_redirect_chain row with
     | Some urls =>
         exists requestedUrl finalUrl,
           urls = [requestedUrl; finalUrl] /\ requestedUrl <> finalUrl
     | None => True
     end.
Proof.
  intros Hreach Hrow.
  assert (shaped row) as (Hstatus & Hmode & Hcount & Hchain).
  { revert key row Hrow. induction Hreach as [|t t' _ IH Hstep].
    - intros key row. by rewrite lookup_empty.
    - by apply (step_shaped t t'). }
  assert (r_crawl_status row <> REDIRECT_ALIAS
          /\ r_crawl_status row <> SOFT_404) as [Halias Hsoft].
  { unfold statusAgrees in Hstatus. destruct (r_status_code row) as [code|].
    - destruct Hstatus as [_ ->]. apply classify_range.
    - by destruct Hstatus as [-> | ->]. }
  split; [exact Hstatus|]. done.
Qed.

End Reachable.

(** The first crawl of the sample page stores an OK row with the status
    200. *)
Lemma stored_rows_shape_witness :
  exists page row,
    Sample.firstCrawl = Some page
    /\ upsertPage 10 page ∅ !! "https://ex.com/a" = Some row
    /\ r_status_code row = Some 200
    /\ r_crawl_status row = OK
    /\ r_fetch_mode row <> Some playwright
    /\ is_Some (r_word_count row)
    /\ r_redirect_chain row = None.
Proof.
  assert (exists page, Sample.firstCrawl = Some page
                       /\ final_url page = "https://ex.com/a"
                       /\ Js.orNullNum (status_code page) = Some 200
                       /\ redirect_chain page = None)
    as (page & Hpage & Hurl & Hcode & Hnone).
  { eexists. split; [vm_compute; reflexivity|]. repeat split; reflexivity. }
  pose proof (QueriesProps.upsertPage_insert 10 page ∅ (lookup_empty _)) as Hrow.
  rewrite Hurl in Hrow.
  destruct (@stored_rows_shape Sample.plainText
              (Sample.services Sample.noMetadata None)
              (upsertPage 10 page ∅) "https://ex.com/a" _
              (History.reachable_step ∅ _ History.reachable_empty
                 (History.step_crawled 10 "run-1" Sample.requestA (Some 200)
                    "a  b" page ∅ Hpage))
              Hrow)
    as (Hstatus & _ & _ & Hmode & Hcount & _).
  exists page, (insertedRow 10 (bindParams page)).
  cbn [r_status_code insertedRow bindParams v_status_code] in Hstatus.
  rewrite Hcode in Hstatus. destruct Hstatus as [_ Hstatus].
  split; [exact Hpage|]. split; [exact Hrow|].
  split; [exact Hcode|]. split; [exact Hstatus|]. split; [exact Hmode|].
  split; [exact Hcount|]. exact Hnone.
Defined.

End QueriesMoreProps.

(** ** src/extraction/htmlCleaner.ts: [normalizeWhitespace] *)
Module HtmlCleanerProps.
Import EnhancedMarkdown HtmlCleaner StringProps.

Lemma betweenTags_spec l out rest :
  betweenTags l = Some (out, rest) ->
  out = [">"%char; "<"%char]
  /\ exists ws, ws <> [] /\ forallb Js.isSpace ws = true
                /\ l = (">"%char :: ws ++ "<"%char :: rest)%list.
Proof.
  unfold betweenTags. destruct l as [|c r]; [done|]. cbn [literal].
  destruct (Ascii.eqb_spec ">" c) as [<-|Hc]; [|done]. cbn [mbind option_bind].
  destruct (span Js.isSpace r) as [[|w ws] r2] eqn:Hspan; [done|].
  apply MarkdownLinesProps.span_spec in Hspan as (-> & Hws & _).
  destruct r2 as [|d r3]; [done|]. cbn [literal].
  destruct (Ascii.eqb_spec "<" d) as [<-|Hd]; [|done].
  cbn [mbind option_bind]. intros [= <- <-]. split; [done|].
  by exists (w :: ws).
Qed.

Lemma betweenTags_shorter l out rest :
  betweenTags l = Some (out, rest) -> (length rest < length l)%nat.
Proof.
  intros (_ & ws & _ & _ & ->)%betweenTags_spec.
  cbn [length]. rewrite length_app. cbn [length]. lia.
Qed.

(** One step of the replacement. *)
Lemma replaceAll_cons c r :
  Regex.replaceAll betweenTags (c :: r)
  = match betweenTags (c :: r) with
    | Some (out, rest) => (out ++ Regex.replaceAll betweenTags rest)%list
    | None => c :: Regex.replaceAll betweenTags r
    end.
Proof.
  unfold Regex.replaceAll at 1. cbn [length Regex.replaceAllFuel].
  destruct (betweenTags (c :: r)) as [[out rest]|] eqn:Hmatch.
  - rewrite RegexProps.replaceAllFuel_enough; [done|apply betweenTags_shorter|].
    apply betweenTags_shorter in Hmatch. cbn [length] in Hmatch. lia.
  - by rewrite RegexProps.replaceAllFuel_enough;
      [|apply betweenTags_shorter|].
Qed.

(** Where the expression matches nowhere the replacement changes
    nothing. *)
Lemma replaceAll_noGap l : noGap l = true -> Regex.replaceAll betweenTags l = l.
Proof.
  induction l as [|c r IH]; [done|]. rewrite replaceAll_cons. cbn [noGap].
  destruct (betweenTags (c :: r)); [done|]. by intros ->%IH.
Qed.

(** The replacement keeps the first character. *)
Lemma replaceAll_head l :
  head (Regex.replaceAll betweenTags l) = head l.
Proof.
  destruct l as [|c r]; [done|]. rewrite replaceAll_cons.
  destruct (betweenTags (c :: r)) as [[out rest]|] eqn:Hmatch; [|done].
  by apply betweenTags_spec in Hmatch as (-> & ws & _ & _ & [= -> _]).
Qed.

Lemma singleSpaced_mono l : singleSpaced true l = true -> singleSpaced false l = true.
Proof.
  destruct l as [|c r]; [done|]. cbn.
  destruct (Js.isSpace c); [|done]. by rewrite andb_false_r.
Qed.

Lemma singleSpaced_tail afterSpace c r :
  singleSpaced afterSpace (c :: r) = true -> singleSpaced (Js.isSpace c) r = true.
Proof.
  cbn. destruct (Js.isSpace c); [|done]. by intros [_ Hr]%andb_true_iff.
Qed.

Lemma collapseSpaceRuns_singleSpaced inRun l :
  singleSpaced inRun (Js.collapseSpaceRuns inRun l) = true.
Proof.
  revert inRun. induction l as [|c r IH]; intros inRun; [done|].
  cbn [Js.collapseSpaceRuns]. destruct (Js.isSpace c) eqn:Hc.
  - destruct inRun; [apply IH|]. cbn. apply IH.
  - cbn. rewrite Hc. apply IH.
Qed.

Lemma singleSpaced_collapseSpaceRuns afterSpace l :
  singleSpaced afterSpace l = true -> Js.collapseSpaceRuns afterSpace l = l.
Proof.
  revert afterSpace. induction l as [|c r IH]; intros afterSpace; [done|].
  cbn. destruct (Js.isSpace c) eqn:Hc.
  - intros [[Heq Hafter]%andb_true_iff Hr]%andb_true_iff.
    apply Ascii.eqb_eq in Heq as ->. apply negb_true_iff in Hafter as ->.
    by rewrite (IH true).
  - intros Hr. by rewrite (IH false).
Qed.

Lemma singleSpaced_suffix afterSpace a b :
  singleSpaced afterSpace (a ++ b) = true -> singleSpaced false b = true.
Proof.
  revert afterSpace. induction a as [|c a IH]; intros afterSpace.
  - destruct afterSpace; [apply singleSpaced_mono|done].
  - intros Hl%singleSpaced_tail. by apply IH in Hl.
Qed.

Lemma singleSpaced_cons afterSpace c r r' :
  singleSpaced afterSpace (c :: r) = true ->
  singleSpaced (Js.isSpace c) r' = true ->
  singleSpaced afterSpace (c :: r') = true.
Proof.
  cbn. destruct (Js.isSpace c); [|done].
  intros [-> _]%andb_true_iff Hr. done.
Qed.

Lemma span_prefix p ws c t :
  forallb p ws = true -> p c = false ->
  span p (ws ++ c :: t) = (ws, c :: t).
Proof.
  intros Hws Hc. induction ws as [|w ws IH]; cbn.
  - by rewrite Hc.
  - cbn in Hws. apply andb_true_iff in Hws as [-> Hws]. by rewrite IH.
Qed.

Lemma betweenTags_gap ws t :
  ws <> [] -> forallb Js.isSpace ws = true ->
  betweenTags (">"%char :: ws ++ "<"%char :: t)
  = Some ([">"%char; "<"%char], t).
Proof.
  intros Hne Hws. unfold betweenTags. cbn [literal].
  change (Ascii.eqb ">" ">") with true. cbn [mbind option_bind].
  rewrite span_prefix by done. destruct ws; [done|]. reflexivity.
Qed.

(** After the replacement, the expression matches at a place only if it
    matched there before. *)
Lemma betweenTags_replaceAll afterSpace c r :
  singleSpaced afterSpace (c :: r) = true ->
  betweenTags (c :: r) = None ->
  betweenTags (c :: Regex.replaceAll betweenTags r) = None.
Proof.
  intros Hspaced Hnone.
  destruct (betweenTags (c :: Regex.replaceAll _ r)) as [[out rest]|] eqn:Hmatch;
    [|done].
  exfalso. apply betweenTags_spec in Hmatch as (_ & ws & Hne & Hws & [= -> Hout]).
  destruct ws as [|w ws]; [done|]. cbn in Hws.
  apply andb_true_iff in Hws as [Hw Hws].
  pose proof (replaceAll_head r) as Hhead. rewrite Hout in Hhead.
  destruct r as [|w' r']; [done|]. injection Hhead as <-.
  rewrite replaceAll_cons in Hout.
  assert (betweenTags (w :: r') = None) as Hw_none.
  { unfold betweenTags. cbn [literal].
    destruct (Ascii.eqb_spec ">" w) as [<-|Hgt]; [done|done]. }
  rewrite Hw_none in Hout. injection Hout as Hout.
  apply singleSpaced_tail in Hspaced. cbn [Js.isSpace] in Hspaced.
  change (Js.isSpace ">") with false in Hspaced.
  apply singleSpaced_tail in Hspaced. rewrite Hw in Hspaced.
  pose proof (replaceAll_head r') as Hhead. rewrite Hout in Hhead.
  destruct ws as [|w2 ws].
  - destruct r' as [|d r'']; [done|]. injection Hhead as <-.
    assert (forallb Js.isSpace [w] = true) as Hall by (cbn; by rewrite Hw).
    pose proof (betweenTags_gap [w] r'' ltac:(done) Hall) as Hgap.
    cbn [app] in Hgap. congruence.
  - cbn in Hws. apply andb_true_iff in Hws as [Hw2 _].
    destruct r' as [|d r'']; [done|]. injection Hhead as <-.
    cbn in Hspaced. rewrite Hw2 in Hspaced. by rewrite andb_false_r in Hspaced.
Qed.

(** The replacement leaves single spaces single, and no place where the
    expression matches. *)
Lemma replaceAll_tidy n : forall afterSpace l,
  (length l <= n)%nat ->
  singleSpaced afterSpace l = true ->
  singleSpaced afterSpace (Regex.replaceAll betweenTags l) = true
  /\ noGap (Regex.replaceAll betweenTags l) = true.
Proof.
  induction n as [|n IH]; intros afterSpace l Hlen Hspaced.
  { destruct l; [done|]. cbn in Hlen. lia. }
  destruct l as [|c r]; [done|]. rewrite replaceAll_cons.
  destruct (betweenTags (c :: r)) as [[out rest]|] eqn:Hmatch.
  - pose proof (betweenTags_shorter _ _ _ Hmatch) as Hshorter.
    apply betweenTags_spec in Hmatch as (-> & ws & _ & _ & [= -> ->]).
    assert (singleSpaced false rest = true) as Hrest.
    { apply singleSpaced_tail, singleSpaced_suffix in Hspaced.
      by apply singleSpaced_tail in Hspaced. }
    cbn [length] in Hlen, Hshorter.
    destruct (IH false rest) as [IHs IHg]; [lia|done|].
    split; [exact IHs|]. cbn [app]. exact IHg.
  - cbn [length] in Hlen.
    destruct (IH (Js.isSpace c) r) as [IHs IHg];
      [lia|by eapply singleSpaced_tail|].
    split; [by eapply singleSpaced_cons|]. cbn [noGap].
    by rewrite (betweenTags_replaceAll afterSpace).
Qed.

Lemma singleSpaced_trimStart afterSpace l :
  singleSpaced afterSpace l = true -> singleSpaced false (Js.trimStart l) = true.
Proof.
  revert afterSpace. induction l as [|c r IH]; intros afterSpace Hl; [done|].
  cbn [Js.trimStart]. destruct (Js.isSpace c) eqn:Hc.
  - apply singleSpaced_tail in Hl. by apply IH in Hl.
  - apply singleSpaced_tail in Hl. rewrite Hc in Hl. cbn. by rewrite Hc.
Qed.

(** What [trimEnd] leaves is the text without white space at its end. *)
Lemma trimEnd_prefix l : exists ws, l = (Js.trimEnd l ++ ws)%list.
Proof.
  induction l as [|c r [ws IH]]; [by exists []|].
  rewrite MarkdownProps.trimEnd_cons. destruct (Js.trimEnd r) as [|x t].
  - cbn in IH. subst ws. destruct (Js.isSpace c); [by exists (c :: r)|by exists r].
  - exists ws. cbn. by rewrite IH at 1.
Qed.

Lemma singleSpaced_prefix afterSpace a b :
  singleSpaced afterSpace (a ++ b) = true -> singleSpaced afterSpace a = true.
Proof.
  revert afterSpace. induction a as [|c a IH]; intros afterSpace; [done|].
  cbn. destruct (Js.isSpace c).
  - intros [-> Ha%IH]%andb_true_iff. done.
  - apply IH.
Qed.

Lemma betweenTags_app a b out rest :
  betweenTags a = Some (out, rest) ->
  betweenTags (a ++ b) = Some (out, (rest ++ b)%list).
Proof.
  intros (-> & ws & Hne & Hws & ->)%betweenTags_spec.
  cbn [app]. rewrite <- app_assoc. cbn [app]. by apply betweenTags_gap.
Qed.

Lemma noGap_tail c r : noGap (c :: r) = true -> noGap r = true.
Proof. cbn [noGap]. by destruct (betweenTags (c :: r)). Qed.

Lemma noGap_suffix a b : noGap (a ++ b) = true -> noGap b = true.
Proof. induction a as [|c a IH]; [done|]. intros Hl%noGap_tail. by apply IH. Qed.

Lemma noGap_prefix a b : noGap (a ++ b) = true -> noGap a = true.
Proof.
  induction a as [|c a IH]; [done|]. cbn [noGap app].
  destruct (betweenTags (c :: a)) as [[out rest]|] eqn:Hmatch.
  - apply (betweenTags_app _ b) in Hmatch. cbn [app] in Hmatch.
    by rewrite Hmatch.
  - destruct (betweenTags (c :: a ++ b)); [done|]. apply IH.
Qed.

Lemma trimStart_suffix l : exists ws, l = (ws ++ Js.trimStart l)%list.
Proof.
  induction l as [|c r [ws IH]]; [by exists []|]. cbn.
  destruct (Js.isSpace c); [|by exists []].
  exists (c :: ws). cbn. by rewrite IH at 1.
Qed.

(** Trimming keeps both shapes. *)
Lemma trimChars_tidy afterSpace l :
  singleSpaced afterSpace l = true -> noGap l = true ->
  singleSpaced false (Js.trimChars l) = true /\ noGap (Js.trimChars l) = true.
Proof.
  intros Hs Hg. unfold Js.trimChars.
  destruct (trimEnd_prefix (Js.trimStart l)) as [ws Hend].
  destruct (trimStart_suffix l) as [ws' Hstart].
  split.
  - apply (singleSpaced_prefix _ _ ws). rewrite <- Hend.
    by eapply singleSpaced_trimStart.
  - apply (noGap_prefix _ ws). rewrite <- Hend.
    apply (noGap_suffix ws'). by rewrite <- Hstart.
Qed.

(** What the three steps of [normalizeWhitespace] leave. *)
Lemma normalized_tidy l :
  let out := Js.trimChars
               (Regex.replaceAll betweenTags (Js.collapseSpaceRuns false l)) in
  singleSpaced false out = true /\ noGap out = true.
Proof.
  cbv zeta.
  destruct (replaceAll_tidy (length (Js.collapseSpaceRuns false l)) false
              (Js.collapseSpaceRuns false l)) as [Hs Hg];
    [done|apply collapseSpaceRuns_singleSpaced|].
  by eapply trimChars_tidy.
Qed.

Lemma singleSpaced_Forall afterSpace l :
  singleSpaced afterSpace l = true ->
  Forall (fun c => Js.isSpace c = true -> c = " "%char) l.
Proof.
  revert afterSpace. induction l as [|c r IH]; intros afterSpace Hl; [constructor|].
  constructor; [|by eapply IH, singleSpaced_tail].
  cbn in Hl. intros Hc. rewrite Hc in Hl.
  apply andb_true_iff in Hl as [[Heq _]%andb_true_iff _].
  by apply Ascii.eqb_eq in Heq.
Qed.

(** A text of the shape is left as it is. *)
Lemma normalizeWhitespace_fixed out :
  singleSpaced false out = true -> noGap out = true -> Js.trimChars out = out ->
  normalizeWhitespace (Js.str out) = Js.str out.
Proof.
  intros Hs Hg Htrim. unfold normalizeWhitespace.
  destruct (Js.truthy (Js.str out)) eqn:Hout.
  - rewrite chars_str, (singleSpaced_collapseSpaceRuns false) by done.
    by rewrite replaceAll_noGap, Htrim.
  - apply negb_false_iff, String.eqb_eq in Hout. by rewrite Hout.
Qed.

Lemma normalizeWhitespace_shape html :
  exists out,
    normalizeWhitespace html = Js.str out
    /\ singleSpaced false out = true /\ noGap out = true
    /\ Js.trimChars out = out.
Proof.
  unfold normalizeWhitespace. destruct (Js.truthy html).
  - eexists. split; [reflexivity|].
    destruct (normalized_tidy (Js.chars html)) as [Hs Hg].
    split; [exact Hs|]. split; [exact Hg|]. apply MarkdownProps.trimChars_idemp.
  - by exists [].
Qed.

(** X17.  The text [normalizeWhitespace] returns holds no white space but
    single spaces: no other white-space character, no two spaces in a
    row, no space between a [>] and a [<], none at its start or end.  Run
    on its own result the function changes nothing. *)
Theorem normalizeWhitespace_normal html :
  let out := Js.chars (normalizeWhitespace html) in
  Forall (fun c => Js.isSpace c = true -> c = " "%char) out
  /\ (forall a b, out <> (a ++ " " :: " " :: b)%list%char)
  /\ (forall a b, out <> (a ++ ">" :: " " :: "<" :: b)%list%char)
  /\ Js.trimChars out = out
  /\ normalizeWhitespace (normalizeWhitespace html) = normalizeWhitespace html.
Proof.
  cbv zeta. destruct (normalizeWhitespace_shape html) as (out & -> & Hs & Hg & Htrim).
  rewrite chars_str.
  split; [by eapply singleSpaced_Forall|].
  split.
  { intros a b Heq. rewrite Heq in Hs. by apply singleSpaced_suffix in Hs. }
  split.
  { intros a b Heq. rewrite Heq in Hg. by apply noGap_suffix in Hg. }
  split; [exact Htrim|]. by apply normalizeWhitespace_fixed.
Qed.

End HtmlCleanerProps.

(** ** src/core/urlNormalizer.ts *)
Module UrlMoreProps.
Import Url StringProps.

Section Normalize.
Variable localeCompare : list ascii -> list ascii -> comparison.

Lemma trimEnd_keeps c l :
  Js.trimEnd l <> [] -> Js.trimEnd (c :: l) = c :: Js.trimEnd l.
Proof. rewrite MarkdownProps.trimEnd_cons. by destruct (Js.trimEnd l). Qed.

Lemma trimEnd_app_keeps pre l :
  Js.trimEnd l <> [] -> Js.trimEnd (pre ++ l) = (pre ++ Js.trimEnd l)%list.
Proof.
  intros Hl. induction pre as [|c pre IH]; [done|]. cbn [app].
  rewrite trimEnd_keeps, IH; [done|]. rewrite IH. by destruct pre.
Qed.

(** A trimmed text stays trimmed behind [https://]. *)
Lemma trimChars_https url :
  Js.trimChars url <> [] ->
  Js.trimChars (Js.chars "https://" ++ Js.trimChars url)
  = (Js.chars "https://" ++ Js.trimChars url)%list.
Proof.
  intros Hne. unfold Js.trimChars at 1.
  change (Js.trimStart (Js.chars "https://" ++ Js.trimChars url))
    with (Js.chars "https://" ++ Js.trimChars url)%list.
  assert (Js.trimEnd (Js.trimChars url) = Js.trimChars url) as Hend
    by apply MarkdownProps.trimEnd_idemp.
  rewrite trimEnd_app_keeps; rewrite Hend; done.
Qed.

Lemma normalizeChars_blank url :
  Js.trimChars url = [] -> normalizeChars localeCompare url = Raises.
Proof.
  intros Hblank. unfold normalizeChars. destruct url as [|c r]; [done|].
  cbv zeta. rewrite Hblank. reflexivity.
Qed.

(** White space around the URL does not count. *)
Lemma normalizeChars_trim url :
  normalizeChars localeCompare (Js.trimChars url) = normalizeChars localeCompare url.
Proof.
  destruct (Js.trimChars url) as [|a t] eqn:Htrim.
  - rewrite (normalizeChars_blank url) by done. reflexivity.
  - unfold normalizeChars. destruct url as [|c r]; [done|].
    cbv zeta. rewrite <- Htrim, MarkdownProps.trimChars_idemp. reflexivity.
Qed.

(** A URL without scheme is read as the URL behind [https://]. *)
Lemma normalizeChars_default_scheme url :
  hasHttpScheme (Js.trimChars url) = false ->
  normalizeChars localeCompare (Js.chars "https://" ++ Js.trimChars url)
  = normalizeChars localeCompare url.
Proof.
  intros Hscheme. destruct (Js.trimChars url) as [|a t] eqn:Htrim.
  - rewrite (normalizeChars_blank url) by done. reflexivity.
  - assert (Js.trimChars url <> []) as Hne by by rewrite Htrim.
    apply trimChars_https in Hne. rewrite <- Htrim in *.
    unfold normalizeChars. destruct url as [|c r]; [done|].
    cbn [app Js.chars list_ascii_of_string]. cbv zeta.
    cbn [app Js.chars list_ascii_of_string] in Hne. rewrite Hne, Hscheme.
    reflexivity.
Qed.

(** X18.  [normalizeUrl] reads a URL without regard to the white space
    around it, and a URL that does not start with [http://] or
    [https://], in any case of the letters, as the URL behind
    [https://]: the outcomes are the same, be it a value or an
    exception. *)
Theorem normalizeUrl_input url :
  normalizeUrl localeCompare (Js.trim url) = normalizeUrl localeCompare url
  /\ (hasHttpScheme (Js.chars (Js.trim url)) = false ->
      normalizeUrl localeCompare ("https://" ++ Js.trim url)
      = normalizeUrl localeCompare url).
Proof.
  unfold normalizeUrl, Js.trim. rewrite chars_app, !chars_str. split.
  - by rewrite normalizeChars_trim.
  - intros Hscheme. by rewrite normalizeChars_default_scheme.
Qed.

End Normalize.

(** A host without scheme, and the same behind [https://] with white
    space around it. *)
Example normalizeUrl_input_example :
  normalizeUrl codeUnitCompare "  Ex.com/a " = Ok "https://ex.com/a"
  /\ normalizeUrl codeUnitCompare "https://Ex.com/a" = Ok "https://ex.com/a".
Proof. split; vm_compute; reflexivity. Qed.

End UrlMoreProps.

(** ** src/core/urlNormalizer.ts: what [normalizeUrl] returns *)
Module UrlResultProps.
Import Url StringProps.

(** *** Cutting a text at a character *)

Lemma break_app p a c b :
  forallb (fun x => negb (p x)) a = true -> p c = true ->
  break p (a ++ c :: b) = (a, c :: b).
Proof.
  intros Ha Hc. induction a as [|x a IH]; cbn.
  - by rewrite Hc.
  - cbn in Ha. apply andb_true_iff in Ha as [Hx Ha].
    apply negb_true_iff in Hx. by rewrite Hx, IH.
Qed.

Lemma break_all p a :
  forallb (fun x => negb (p x)) a = true -> break p a = (a, []).
Proof.
  intros Ha. induction a as [|x a IH]; cbn; [done|].
  cbn in Ha. apply andb_true_iff in Ha as [Hx Ha].
  apply negb_true_iff in Hx. by rewrite Hx, IH.
Qed.

Lemma break_spec p l a b :
  break p l = (a, b) ->
  l = (a ++ b)%list /\ forallb (fun x => negb (p x)) a = true
  /\ match b with c :: _ => p c = true | [] => True end.
Proof.
  revert a b. induction l as [|x l IH]; intros a b; cbn.
  - by intros [= <- <-].
  - destruct (p x) eqn:Hx; [by intros [= <- <-]|].
    destruct (break p l) as [a' b'] eqn:E. intros [= <- <-].
    destruct (IH _ _ eq_refl) as (-> & Ha & Hb). cbn. by rewrite Hx.
Qed.

Lemma forallb_impl {A} (P Q : A -> bool) l :
  (forall x, P x = true -> Q x = true) ->
  forallb P l = true -> forallb Q l = true.
Proof.
  intros HPQ. induction l as [|x l IH]; [done|]. cbn.
  intros [Hx Hl]%andb_true_iff. by rewrite (HPQ x Hx), IH.
Qed.

(** *** The characters of the parts of a URL *)

Lemma hostChar_facts c :
  isDigit c || isLower c || Ascii.eqb c "-" || Ascii.eqb c "." = true ->
  isPrintable c && negb (oneOf "\" c) && negb (oneOf "/?#\" c)
  && negb (oneOf "@[]%" c) && negb (Ascii.eqb ":" c)
  && Ascii.eqb (Regex.lowerChar c) c && negb (Js.isSpace c) = true.
Proof. destruct c as [[] [] [] [] [] [] [] []]; vm_compute; done. Qed.

Lemma digit_facts c :
  isDigit c = true ->
  isPrintable c && negb (oneOf "\" c) && negb (oneOf "/?#\" c)
  && negb (oneOf "@[]%" c) && negb (Ascii.eqb ":" c) && negb (Js.isSpace c) = true.
Proof. destruct c as [[] [] [] [] [] [] [] []]; vm_compute; done. Qed.

Lemma pathChar_facts c :
  isPathChar c = true ->
  isPrintable c && negb (oneOf "\" c) && negb (oneOf "?#" c)
  && negb (Js.isSpace c) = true.
Proof. destruct c as [[] [] [] [] [] [] [] []]; vm_compute; done. Qed.

Lemma queryChar_facts c :
  isQueryChar c = true ->
  isPrintable c && negb (oneOf "\" c) && negb (Ascii.eqb "#" c)
  && negb (Ascii.eqb c "?") && negb (Js.isSpace c) = true.
Proof. destruct c as [[] [] [] [] [] [] [] []]; vm_compute; done. Qed.

(** *** The host *)

Lemma splitOn_forallb (P : ascii -> bool) c l :
  forallb (forallb P) (splitOn c l) = true ->
  forallb (fun x => P x || Ascii.eqb x c) l = true.
Proof.
  induction l as [|x l IH]; [done|]. cbn [splitOn forallb].
  destruct (Ascii.eqb x c) eqn:E.
  - cbn [forallb]. intros Hl%IH. by rewrite orb_true_r.
  - destruct (splitOn c l) as [|p ps].
    + cbn [forallb]. intros [[Hx _]%andb_true_iff _]%andb_true_iff.
      rewrite Hx. cbn. by apply IH.
    + cbn [forallb]. intros [[Hx Hp]%andb_true_iff Hps]%andb_true_iff.
      rewrite Hx. cbn. apply IH. cbn. by rewrite Hp, Hps.
Qed.

Lemma coveredHost_chars h :
  coveredHost h = true ->
  h <> []
  /\ forallb (fun c => isDigit c || isLower c || Ascii.eqb c "-" || Ascii.eqb c ".") h
     = true.
Proof.
  unfold coveredHost. cbv zeta.
  intros [[[Hne Hchars]%andb_true_iff _]%andb_true_iff _]%andb_true_iff.
  split; [by intros ->|].
  apply splitOn_forallb in Hchars. revert Hchars. apply forallb_impl.
  intros c Hc. by rewrite <- !orb_assoc in *.
Qed.

Lemma lower_fixed l :
  forallb (fun c => Ascii.eqb (Regex.lowerChar c) c) l = true -> lower l = l.
Proof.
  unfold lower. induction l as [|c l IH]; [done|]. cbn.
  intros [Hc Hl]%andb_true_iff. apply Ascii.eqb_eq in Hc. by rewrite Hc, IH.
Qed.

(** *** The port *)

Lemma digitsFuel_digits fuel n acc :
  forallb isDigit acc = true -> forallb isDigit (digitsFuel fuel n acc) = true.
Proof.
  revert n acc. induction fuel as [|fuel IH]; intros n acc Hacc; [done|].
  cbn [digitsFuel].
  assert (isDigit (ascii_of_nat (48 + N.to_nat (n mod 10))) = true) as Hd.
  { unfold isDigit. cbv zeta.
    assert (n mod 10 < 10)%N as Hlt by (apply N.mod_lt; lia).
    generalize dependent (n mod 10)%N. intros d Hlt.
    rewrite nat_ascii_embedding by lia.
    apply andb_true_iff. split; apply Nat.leb_le; lia. }
  destruct (n <? 10)%N; [cbn [forallb]; by rewrite Hd|].
  apply IH. cbn [forallb]. by rewrite Hd.
Qed.

Lemma digitsFuel_nonempty fuel n acc : digitsFuel (S fuel) n acc <> [].
Proof.
  revert n acc. induction fuel as [|fuel IH]; intros n acc; cbn [digitsFuel].
  - by destruct (n <? 10)%N.
  - destruct (n <? 10)%N; [done|]. apply IH.
Qed.

Lemma digit_value m :
  (m < 10)%N ->
  N.of_nat (nat_of_ascii (ascii_of_nat (48 + N.to_nat m)) - 48) = m.
Proof. intros Hm. rewrite nat_ascii_embedding by lia. lia. Qed.

Lemma digitsFuel_decimal fuel n acc :
  (n < 10 ^ N.of_nat fuel)%N ->
  fold_left (fun n d => (10 * n + N.of_nat (nat_of_ascii d - 48))%N)
    (digitsFuel fuel n acc) 0%N
  = fold_left (fun n d => (10 * n + N.of_nat (nat_of_ascii d - 48))%N) acc n.
Proof.
  revert n acc. induction fuel as [|fuel IH]; intros n acc Hn.
  - cbn in Hn. cbn [digitsFuel]. by replace n with 0%N by lia.
  - cbn [digitsFuel].
    assert (n mod 10 < 10)%N as Hlt by (apply N.mod_lt; lia).
    destruct (N.ltb_spec n 10) as [Hsmall|Hlarge].
    + cbn [fold_left]. rewrite digit_value by done.
      rewrite N.mod_small by done. f_equal.
    + rewrite IH.
      * cbn [fold_left]. rewrite digit_value by done. f_equal.
        pose proof (N.div_mod n 10). lia.
      * rewrite Nat2N.inj_succ, N.pow_succ_r' in Hn.
        apply N.Div0.div_lt_upper_bound; lia.
Qed.

Lemma parsePort_digits sch n :
  (n <= 65535)%N -> n <> defaultPort sch ->
  parsePort sch (digitsFuel 5 n []) = Ok (Some n).
Proof.
  intros Hmax Hdefault. unfold parsePort.
  rewrite digitsFuel_digits by done.
  destruct (digitsFuel 5 n []) as [|d ds] eqn:Hds;
    [by apply digitsFuel_nonempty in Hds|].
  rewrite <- Hds. unfold decimal. rewrite digitsFuel_decimal by (cbn; lia).
  cbn [fold_left].
  destruct (N.ltb_spec 65535 n) as [Hover|_]; [lia|].
  destruct (N.eqb_spec n (defaultPort sch)) as [Heq|_]; done.
Qed.

Lemma parsePort_spec sch ds p :
  parsePort sch ds = Ok p ->
  match p with
  | Some n => (n <= 65535)%N /\ n <> defaultPort sch
  | None => True
  end.
Proof.
  unfold parsePort. destruct (forallb isDigit ds); [|done].
  destruct ds as [|d ds]; [by intros [= <-]|].
  destruct (N.ltb_spec 65535 (decimal (d :: ds))) as [|Hmax]; [done|].
  destruct (N.eqb_spec (decimal (d :: ds)) (defaultPort sch)) as [|Hne];
    intros [= <-]; [done|]. split; [lia|done].
Qed.

(** *** The path *)

Lemma splitOn_pieces (P : ascii -> bool) c l :
  forallb P l = true ->
  Forall (fun piece => forallb P piece = true /\ (c ∉ piece)) (splitOn c l).
Proof.
  induction l as [|x l IH]; cbn [splitOn forallb].
  - intros _. constructor; [|constructor]. split; [done|apply not_elem_of_nil].
  - intros [Hx Hl]%andb_true_iff. specialize (IH Hl).
    destruct (Ascii.eqb x c) eqn:E.
    + constructor; [|exact IH]. split; [done|apply not_elem_of_nil].
    + apply Ascii.eqb_neq in E. destruct (splitOn c l) as [|p ps].
      * constructor; [|constructor]. split; [cbn; by rewrite Hx|].
        apply not_elem_of_cons. split; [congruence|apply not_elem_of_nil].
      * inversion IH as [|? ? [Hp Hc] Hps]; subst. constructor; [|done].
        split; [cbn; by rewrite Hx|]. apply not_elem_of_cons. split; [congruence|done].
Qed.

Section Shapes.

(** A segment of a path the parser leaves: path characters, no slash, no
    dot segment. *)
Let segment (s : list ascii) : Prop :=
  forallb isPathChar s = true /\ ("/"%char ∉ s)
  /\ s <> Js.chars "." /\ s <> Js.chars "..".

Let cleanPath (l : list (list ascii)) : Prop := l <> [] /\ Forall segment l.

(** [pathname], of the segments. *)
Let pathOf (l : list (list ascii)) : list ascii :=
  flat_map (fun s => "/"%char :: s) l.

Lemma segment_nil : segment [].
Proof. split; [done|]. split; [apply not_elem_of_nil|done]. Qed.

Lemma Forall_removelast {A} (P : A -> Prop) l : Forall P l -> Forall P (removelast l).
Proof.
  induction 1 as [|x l Hx Hl IH]; [constructor|]. cbn.
  destruct l; [constructor|]. by constructor.
Qed.

Lemma pathSegments_segments acc segs :
  Forall segment acc ->
  Forall (fun s => forallb isPathChar s = true /\ ("/"%char ∉ s)) segs ->
  Forall segment (pathSegments acc segs).
Proof.
  intros Hacc Hsegs. revert acc Hacc.
  induction Hsegs as [|s rest [Hs Hslash] _ IH]; intros acc Hacc; [done|].
  cbn [pathSegments].
  destruct (decide (s = Js.chars "..")) as [Hdd|Hdd].
  - rewrite bool_decide_eq_true_2 by done. apply IH.
    destruct rest; [apply Forall_app; split|];
      try apply Forall_removelast; try done.
    constructor; [apply segment_nil|constructor].
  - rewrite bool_decide_eq_false_2 by done.
    destruct (decide (s = Js.chars ".")) as [Hd|Hd].
    + rewrite bool_decide_eq_true_2 by done. apply IH.
      destruct rest; [apply Forall_app; split|]; try done.
      constructor; [apply segment_nil|constructor].
    + rewrite bool_decide_eq_false_2 by done. apply IH.
      apply Forall_app. split; [done|]. constructor; [|constructor]. done.
Qed.

Lemma pathSegments_nonempty acc segs : segs <> [] -> pathSegments acc segs <> [].
Proof.
  revert acc. induction segs as [|s rest IH]; intros acc Hne; [done|].
  cbn [pathSegments]. destruct rest as [|s' rest].
  - destruct (bool_decide (s = Js.chars "..")); [cbn; by destruct (removelast acc)|].
    destruct (bool_decide (s = Js.chars ".")); cbn; by destruct acc.
  - destruct (bool_decide (s = Js.chars "..")); [by apply IH|].
    destruct (bool_decide (s = Js.chars ".")); by apply IH.
Qed.

(** The path the parser builds from a text of path characters. *)
Lemma parsePath_clean t : forallb isPathChar t = true -> cleanPath (parsePath t).
Proof.
  intros Ht. unfold parsePath. destruct t as [|c r].
  { split; [done|]. constructor; [apply segment_nil|constructor]. }
  cbn in Ht. apply andb_true_iff in Ht as [_ Hr]. split.
  - apply pathSegments_nonempty.
    by destruct (LinesProps.splitOn_cons_inv "/" r) as (p & ps & ->).
  - apply pathSegments_segments; [constructor|]. by apply splitOn_pieces.
Qed.

Lemma pathname_chars l :
  Forall segment l -> forallb isPathChar (pathOf l) = true.
Proof.
  unfold pathOf. induction 1 as [|s l (Hs & _) _ IH]; [done|].
  cbn [flat_map]. rewrite forallb_app. cbn [forallb]. by rewrite Hs, IH.
Qed.

Lemma pathname_head l : cleanPath l -> exists t, pathOf l = "/"%char :: t.
Proof. intros [Hne _]. destruct l as [|s l]; [done|]. by eexists. Qed.

Lemma splitOn_pathname s l :
  Forall (fun s => "/"%char ∉ s) (s :: l) ->
  splitOn "/" (s ++ pathOf l) = s :: l.
Proof.
  unfold pathOf. revert s. induction l as [|s' l IH]; intros s Hall.
  - cbn. rewrite app_nil_r. apply LinesProps.splitOn_line.
    by inversion Hall.
  - inversion Hall as [|? ? Hs Hrest]; subst. cbn [flat_map app].
    rewrite LinesProps.splitOn_app by done. f_equal. by apply IH.
Qed.

Lemma pathSegments_plain acc segs :
  Forall segment segs -> pathSegments acc segs = (acc ++ segs)%list.
Proof.
  intros Hsegs. revert acc.
  induction Hsegs as [|s rest (_ & _ & Hd & Hdd) _ IH]; intros acc.
  - by rewrite app_nil_r.
  - cbn [pathSegments]. rewrite !bool_decide_eq_false_2 by done.
    rewrite IH, <- app_assoc. done.
Qed.

(** The path of a URL is read back from its text. *)
Lemma parsePath_pathname l : cleanPath l -> parsePath (pathOf l) = l.
Proof.
  intros [Hne Hall]. destruct l as [|s l]; [done|].
  change (pathOf (s :: l)) with ("/"%char :: s ++ pathOf l)%list.
  unfold parsePath. rewrite splitOn_pathname.
  - by rewrite pathSegments_plain.
  - eapply Forall_impl; [exact Hall|]. by intros x (_ & Hx & _).
Qed.

(** *** The query *)

Let pairOK (p : Pair) : Prop :=
  forallb isQueryChar p.1 = true /\ forallb isQueryChar p.2 = true
  /\ ("="%char ∉ p.1) /\ ("&"%char ∉ p.1)
  /\ ("="%char ∉ p.2) /\ ("&"%char ∉ p.2).

Let piece (p : Pair) : list ascii := (p.1 ++ "="%char :: p.2)%list.

Lemma filter_all {A} (P : A -> Prop) `{forall x, Decision (P x)} l :
  Forall P l -> filter P l = l.
Proof.
  induction 1 as [|x l Hx _ IH]; [done|].
  by rewrite filter_cons, decide_True, IH.
Qed.

Lemma filter_none {A} (P : A -> Prop) `{forall x, Decision (P x)} l :
  Forall (fun x => ~ P x) l -> filter P l = [].
Proof.
  induction 1 as [|x l Hx _ IH]; [done|].
  by rewrite filter_cons, decide_False, IH.
Qed.

Lemma not_elem_Forall (c : ascii) l : c ∉ l -> Forall (fun x => ~ x = c) l.
Proof.
  intros Hc. apply Forall_forall. intros x Hx ->. done.
Qed.

Lemma forallb_not_elem c l :
  forallb (fun x => negb (Ascii.eqb c x)) l = true -> c ∉ l.
Proof.
  induction l as [|x l IH]; [intros _; apply not_elem_of_nil|]. cbn.
  intros [Hx Hl]%andb_true_iff. apply not_elem_of_cons.
  apply negb_true_iff, Ascii.eqb_neq in Hx. split; [done|by apply IH].
Qed.

Lemma not_elem_forallb c l :
  c ∉ l -> forallb (fun x => negb (Ascii.eqb c x)) l = true.
Proof.
  induction l as [|x l IH]; [done|]. intros [Hx Hl]%not_elem_of_cons. cbn.
  rewrite IH by done. apply Ascii.eqb_neq in Hx. by rewrite Hx.
Qed.

Lemma piece_pieces (p : Pair) :
  pairOK p ->
  ("&"%char ∉ piece p) /\ piece p <> []
  /\ forallb isQueryChar (piece p) = true
  /\ filter (fun c => c = "="%char) (piece p) = ["="%char].
Proof.
  intros (H1 & H2 & He1 & Ha1 & He2 & Ha2). unfold piece. split.
  { intros [Hin|Hin]%elem_of_app; [done|].
    apply elem_of_cons in Hin as [Hin|Hin]; done. }
  split; [by destruct p.1|]. split.
  { rewrite forallb_app. cbn. by rewrite H1, H2. }
  rewrite filter_app, filter_cons, decide_True by done.
  by rewrite !filter_none by by apply not_elem_Forall.
Qed.

Lemma serializeParams_pieces ps :
  ps <> [] -> Forall pairOK ps ->
  splitOn "&" (serializeParams ps) = map piece ps.
Proof.
  intros Hne Hall. induction Hall as [|[n v] rest Hp Hrest IH]; [done|].
  destruct (piece_pieces _ Hp) as (Hamp & _).
  destruct rest as [|q rest].
  - cbn [serializeParams map]. by apply LinesProps.splitOn_line.
  - change (serializeParams ((n, v) :: q :: rest))
      with (n ++ "="%char :: v ++ "&"%char :: serializeParams (q :: rest))%list.
    change (n ++ "="%char :: v ++ "&"%char :: serializeParams (q :: rest))%list
      with (n ++ ("="%char :: v) ++ "&"%char :: serializeParams (q :: rest))%list.
    rewrite app_assoc, LinesProps.splitOn_app by done.
    cbn [map]. f_equal. by apply IH.
Qed.

Lemma parsePair_piece p : pairOK p -> parsePair (piece p) = p.
Proof.
  intros (_ & _ & He1 & _). unfold parsePair, piece.
  rewrite break_app; [by destruct p| |done].
  by apply not_elem_forallb.
Qed.

Lemma parsePairs_pieces ps :
  Forall pairOK ps ->
  map parsePair (filter (fun p => p <> []) (map piece ps)) = ps.
Proof.
  induction 1 as [|p ps Hp _ IH]; [done|]. cbn [map].
  destruct (piece_pieces _ Hp) as (_ & Hne & _).
  rewrite filter_cons, decide_True by done. cbn [map].
  by rewrite parsePair_piece, IH.
Qed.

(** The parameters are read back from their text. *)
Lemma parseParams_serializeParams ps :
  ps <> [] -> Forall pairOK ps ->
  parseParams ("?"%char :: serializeParams ps) = ps.
Proof.
  intros Hne Hall. unfold parseParams. cbn [Ascii.eqb Bool.eqb].
  rewrite serializeParams_pieces by done. by apply parsePairs_pieces.
Qed.

Lemma serializeParams_chars ps :
  Forall pairOK ps -> forallb isQueryChar (serializeParams ps) = true.
Proof.
  induction 1 as [|[n v] rest Hp Hrest IH]; [done|].
  destruct (piece_pieces _ Hp) as (_ & _ & Hchars & _). unfold piece in Hchars.
  cbn [fst snd] in Hchars. destruct rest as [|q rest]; [exact Hchars|].
  change (serializeParams ((n, v) :: q :: rest))
    with (n ++ ("="%char :: v) ++ "&"%char :: serializeParams (q :: rest))%list.
  rewrite app_assoc, forallb_app. cbn [forallb]. by rewrite Hchars, IH.
Qed.

Lemma serializeParams_nonempty ps : ps <> [] -> Forall pairOK ps -> serializeParams ps <> [].
Proof.
  intros Hne Hall Hnil.
  pose proof (serializeParams_pieces ps Hne Hall) as Hpieces.
  rewrite Hnil in Hpieces. destruct ps as [|p ps]; [done|].
  cbn in Hpieces. injection Hpieces as Hp _.
  inversion Hall as [|? ? Hok _]; subst.
  by destruct (piece_pieces _ Hok) as (_ & ? & _).
Qed.

Lemma serializeParams_check ps :
  Forall pairOK ps ->
  existsb (fun piece => (1 <? length (filter (fun c => c = "="%char) piece))%nat)
    (splitOn "&" (serializeParams ps)) = false.
Proof.
  intros Hall. destruct ps as [|p ps]; [done|].
  rewrite serializeParams_pieces by done.
  induction Hall as [|q qs Hq _ IH]; [done|]. cbn [map existsb].
  destruct (piece_pieces _ Hq) as (_ & _ & _ & ->). exact IH.
Qed.

(** *** The parser, step by step *)

Let oneEquals (q : list ascii) : bool :=
  existsb (fun piece => (1 <? length (filter (fun c => c = "="%char) piece))%nat)
    (splitOn "&" q).

(** What the parser has checked of a URL it returns. *)
Lemma parse_Ok input u :
  parse input = Ok u ->
  scheme u = lower (break (Ascii.eqb ":") input).1
  /\ coveredHost (hostname u) = true
  /\ match port u with
     | Some n => (n <= 65535)%N /\ n <> defaultPort (scheme u)
     | None => True
     end
  /\ (exists t, forallb isPathChar t = true /\ path u = parsePath t)
  /\ match query u with
     | Some q => forallb isQueryChar q = true /\ oneEquals q = false
     | None => True
     end.
Proof.
  unfold parse.
  destruct (negb (forallb isPrintable input) || existsb (oneOf "\") input); [done|].
  destruct (break (Ascii.eqb ":") input) as [sch afterScheme] eqn:Hsch.
  cbv zeta.
  destruct (break (oneOf "/?#\") _) as [authority afterAuthority] eqn:Hauth.
  destruct (existsb (oneOf "@[]%") authority); [done|].
  destruct (break (Ascii.eqb ":") authority) as [host afterHost] eqn:Hhost.
  destruct (lower host) as [|h0 hs] eqn:Hlow; [done|].
  destruct (coveredHost (h0 :: hs)) eqn:Hcov; [|done]. cbn [negb].
  destruct (parsePort (lower sch) (drop 1 afterHost)) as [p| |] eqn:Hport;
    [|done|done].
  change (Ok p ≫= ?f) with (f p). cbv beta.
  destruct (break (oneOf "?#") afterAuthority) as [pathText afterPath] eqn:Hpath.
  destruct (forallb isPathChar pathText) eqn:Hchars; [|done]. cbn [negb].
  destruct (match afterPath with
            | [] => ([], [])
            | c :: r => if Ascii.eqb c "?" then break (Ascii.eqb "#") r else ([], [])
            end) as [q rest] eqn:Hq.
  destruct (forallb isQueryChar q) eqn:Hqchars; [|done]. cbn [negb orb].
  destruct (existsb _ (splitOn "&" q)) eqn:Hcheck; [done|].
  intros [= <-]. cbn [scheme hostname port path query fst].
  split; [done|]. split; [done|].
  split; [by apply parsePort_spec in Hport|].
  split; [by exists pathText|].
  by destruct (match afterPath with [] => false | c :: _ => Ascii.eqb c "?" end).
Qed.

(** The parser's steps, for a text whose parts are at hand. *)
Lemma parse_steps input sch afterScheme authority afterAuthority host afterHost
    p pathText afterPath q :
  forallb isPrintable input = true -> existsb (oneOf "\") input = false ->
  break (Ascii.eqb ":") input = (sch, afterScheme) ->
  break (oneOf "/?#\") (dropSlashes (drop 1 afterScheme))
  = (authority, afterAuthority) ->
  existsb (oneOf "@[]%") authority = false ->
  break (Ascii.eqb ":") authority = (host, afterHost) ->
  coveredHost (lower host) = true ->
  parsePort (lower sch) (drop 1 afterHost) = Ok p ->
  break (oneOf "?#") afterAuthority = (pathText, afterPath) ->
  forallb isPathChar pathText = true ->
  match q with
  | Some qt =>
      afterPath = "?"%char :: qt /\ ("#"%char ∉ qt)
      /\ forallb isQueryChar qt = true /\ oneEquals qt = false
  | None => afterPath = []
  end ->
  parse input
  = Ok {| scheme := lower sch; hostname := lower host; port := p;
          path := parsePath pathText; query := q |}.
Proof.
  intros Hprint Hback Hsch Hauth Hat Hhost Hcov Hport Hpath Hchars Hq.
  unfold parse. rewrite Hprint, Hback, Hsch. cbn [negb orb]. cbv zeta.
  rewrite Hauth, Hat, Hhost.
  destruct (lower host) as [|h0 hs] eqn:Hlow; [done|].
  rewrite Hcov. cbn [negb]. rewrite Hport.
  change (Ok p ≫= ?f) with (f p). cbv beta.
  rewrite Hpath, Hchars. cbn [negb].
  destruct q as [qt|].
  - destruct Hq as (-> & Hhash & Hqchars & Hcheck).
    change (Ascii.eqb "?" "?") with true. cbv iota.
    rewrite break_all by by apply not_elem_forallb.
    unfold oneEquals in Hcheck. by rewrite Hqchars, Hcheck.
  - by rewrite Hq.
Qed.

(** *** A URL read back from its text *)

Lemma existsb_none {A} (p : A -> bool) l :
  forallb (fun x => negb (p x)) l = true -> existsb p l = false.
Proof.
  induction l as [|x l IH]; [done|]. cbn.
  intros [Hx Hl]%andb_true_iff. apply negb_true_iff in Hx. by rewrite Hx, IH.
Qed.

(** The URLs [normalizeUrl] builds: the scheme is [http] or [https], the
    host one the model covers, the port no default port, the path free of
    dot segments, the query well formed. *)
Let built (u : URL) : Prop :=
  (scheme u = Js.chars "http" \/ scheme u = Js.chars "https")
  /\ coveredHost (hostname u) = true
  /\ match port u with
     | Some n => (n <= 65535)%N /\ n <> defaultPort (scheme u)
     | None => True
     end
  /\ cleanPath (path u)
  /\ match query u with
     | Some q => forallb isQueryChar q = true /\ oneEquals q = false
     | None => True
     end.

Let portText (u : URL) : list ascii :=
  match port u with
  | Some n => ":"%char :: digitsFuel 5 n []
  | None => []
  end.

Let queryText (u : URL) : list ascii :=
  match query u with
  | Some q => "?"%char :: q
  | None => []
  end.

Let plain (c : ascii) : bool :=
  isPrintable c && negb (oneOf "\" c) && negb (Js.isSpace c).

Ltac weaken_chars :=
  let c := fresh "c" in
  let Hc := fresh "Hc" in
  intros c Hc; unfold plain in *;
  repeat (apply andb_true_iff in Hc as [Hc ?]);
  repeat (apply andb_true_iff; split); done.

Lemma portText_chars u :
  forallb (fun c => plain c && negb (oneOf "/?#\" c) && negb (oneOf "@[]%" c))
    (portText u) = true.
Proof.
  unfold portText. destruct (port u) as [n|]; [|done]. cbn [forallb].
  apply andb_true_iff. split; [done|].
  apply (forallb_impl isDigit); [|by apply digitsFuel_digits].
  intros c Hc%digit_facts. unfold plain.
  repeat (apply andb_true_iff in Hc as [Hc ?]). by repeat (apply andb_true_iff; split).
Qed.

Lemma hostname_chars u :
  coveredHost (hostname u) = true ->
  forallb (fun c => plain c && negb (oneOf "/?#\" c) && negb (oneOf "@[]%" c)
                    && negb (Ascii.eqb ":" c) && Ascii.eqb (Regex.lowerChar c) c)
    (hostname u) = true.
Proof.
  intros [_ Hchars]%coveredHost_chars. revert Hchars. apply forallb_impl.
  intros c Hc%hostChar_facts. unfold plain.
  repeat (apply andb_true_iff in Hc as [Hc ?]). by repeat (apply andb_true_iff; split).
Qed.

Lemma pathname_plain u :
  cleanPath (path u) ->
  forallb (fun c => plain c && negb (oneOf "?#" c)) (pathname u) = true.
Proof.
  intros [_ Hall%pathname_chars]. revert Hall. apply forallb_impl.
  intros c Hc%pathChar_facts. unfold plain.
  repeat (apply andb_true_iff in Hc as [Hc ?]). by repeat (apply andb_true_iff; split).
Qed.

Lemma queryText_chars u :
  match query u with
  | Some q => forallb isQueryChar q = true /\ oneEquals q = false
  | None => True
  end ->
  forallb plain (queryText u) = true
  /\ match query u with Some q => "#"%char ∉ q | None => True end.
Proof.
  unfold queryText. destruct (query u) as [q|]; [|done]. intros [Hq _].
  split.
  - cbn [forallb]. apply andb_true_iff. split; [done|].
    revert Hq. apply forallb_impl. intros c Hc%queryChar_facts. unfold plain.
    repeat (apply andb_true_iff in Hc as [Hc ?]). by repeat (apply andb_true_iff; split).
  - apply forallb_not_elem. revert Hq. apply forallb_impl.
    intros c Hc%queryChar_facts. by repeat (apply andb_true_iff in Hc as [Hc ?]).
Qed.

Lemma href_parts u :
  href u
  = (scheme u ++ Js.chars "://" ++ hostname u ++ portText u ++ pathname u
     ++ queryText u)%list.
Proof. reflexivity. Qed.

Lemma href_plain u : built u -> forallb plain (href u) = true.
Proof.
  intros (Hscheme & Hhost & _ & Hpath & Hquery). rewrite href_parts.
  rewrite !forallb_app.
  apply hostname_chars in Hhost. apply pathname_plain in Hpath.
  apply queryText_chars in Hquery as [Hquery _].
  pose proof (portText_chars u) as Hport.
  apply andb_true_iff; split; [by destruct Hscheme as [-> | ->]|].
  apply andb_true_iff; split; [done|].
  apply andb_true_iff; split.
  { revert Hhost. apply forallb_impl. weaken_chars. }
  apply andb_true_iff; split.
  { revert Hport. apply forallb_impl. weaken_chars. }
  apply andb_true_iff; split; [|done].
  revert Hpath. apply forallb_impl. weaken_chars.
Qed.

(** The parser reads a URL of this shape back from its text. *)
Lemma parse_href u : built u -> parse (href u) = Ok u.
Proof.
  intros Hbuilt. pose proof (href_plain u Hbuilt) as Hplain.
  destruct Hbuilt as (Hscheme & Hhost & Hport & Hpath & Hquery).
  pose proof (hostname_chars u Hhost) as Hhc.
  pose proof (portText_chars u) as Hpc.
  pose proof (pathname_plain u Hpath) as Hpl.
  destruct (queryText_chars u Hquery) as [_ Hhash].
  destruct (pathname_head _ Hpath) as [t Ht]. unfold pathOf in Ht.
  destruct (coveredHost_chars _ Hhost) as [Hne _].
  assert (lower (hostname u) = hostname u) as Hlow.
  { apply lower_fixed. revert Hhc. apply forallb_impl. weaken_chars. }
  assert (lower (scheme u) = scheme u) as Hlowsch
    by by destruct Hscheme as [-> | ->].
  transitivity (Ok {| scheme := lower (scheme u); hostname := lower (hostname u);
                      port := port u; path := parsePath (pathname u);
                      query := query u |});
    [|pose proof (parsePath_pathname (path u) Hpath) as Hrt; unfold pathOf in Hrt;
      unfold pathname; rewrite Hlow, Hlowsch, Hrt; by destruct u].
  apply (parse_steps (href u) (scheme u)
           (Js.chars "://" ++ hostname u ++ portText u ++ pathname u ++ queryText u)
           (hostname u ++ portText u) (pathname u ++ queryText u)
           (hostname u) (portText u) (port u) (pathname u) (queryText u)).
  - revert Hplain. apply forallb_impl. weaken_chars.
  - apply existsb_none. revert Hplain. apply forallb_impl. weaken_chars.
  - rewrite href_parts. by destruct Hscheme as [-> | ->].
  - cbn [Js.chars list_ascii_of_string app drop dropSlashes].
    change (Ascii.eqb "/" "/") with true. cbv iota.
    assert (dropSlashes (hostname u ++ portText u ++ pathname u ++ queryText u)
            = hostname u ++ portText u ++ pathname u ++ queryText u)%list as ->.
    { destruct (hostname u) as [|c h]; [done|]. cbn [app dropSlashes forallb] in *.
      apply andb_true_iff in Hhc as [Hc _].
      repeat (apply andb_true_iff in Hc as [Hc ?]).
      destruct (Ascii.eqb_spec c "/") as [->|]; done. }
    rewrite (app_assoc (hostname u)). unfold pathname in Ht |- *. rewrite Ht.
    cbn [app]. apply break_app; [|done].
    rewrite forallb_app. apply andb_true_iff. split.
    + revert Hhc. apply forallb_impl. weaken_chars.
    + revert Hpc. apply forallb_impl. weaken_chars.
  - apply existsb_none. rewrite forallb_app. apply andb_true_iff. split.
    + revert Hhc. apply forallb_impl. weaken_chars.
    + revert Hpc. apply forallb_impl. weaken_chars.
  - assert (forallb (fun x => negb (Ascii.eqb ":" x)) (hostname u) = true) as Hcolon.
    { revert Hhc. apply forallb_impl. weaken_chars. }
    unfold portText. destruct (port u) as [n|].
    + by apply break_app.
    + rewrite app_nil_r. by apply break_all.
  - by rewrite Hlow.
  - rewrite Hlowsch. unfold portText. destruct (port u) as [n|]; [|done].
    cbn [drop]. destruct Hport. by apply parsePort_digits.
  - assert (forallb (fun x => negb (oneOf "?#" x)) (pathname u) = true) as Hq.
    { revert Hpl. apply forallb_impl. weaken_chars. }
    unfold queryText. destruct (query u) as [q|].
    + by apply break_app.
    + rewrite app_nil_r. by apply break_all.
  - apply pathname_chars. by destruct Hpath.
  - unfold queryText. destruct (query u) as [q|]; [|done].
    destruct Hquery as [Hqc Hcheck]. done.
Qed.

(** *** The parameters: parsed, filtered, sorted *)

Lemma existsb_Forall {A} (p : A -> bool) l :
  existsb p l = false -> Forall (fun x => p x = false) l.
Proof.
  induction l as [|x l IH]; [constructor|]. cbn.
  intros [Hx Hl]%orb_false_iff. constructor; [done|by apply IH].
Qed.

Lemma count_none (c : ascii) l :
  length (filter (fun x => x = c) l) = 0%nat -> c ∉ l.
Proof.
  induction l as [|x l IH]; [intros _; apply not_elem_of_nil|].
  rewrite filter_cons. destruct (decide (x = c)) as [->|Hne]; [done|].
  intros Hl. apply not_elem_of_cons. split; [congruence|by apply IH].
Qed.

(** A piece of a query with at most one [=] gives a pair of this shape. *)
Lemma parsePair_ok piece0 :
  forallb isQueryChar piece0 = true -> ("&"%char ∉ piece0) ->
  (1 <? length (filter (fun c => c = "="%char) piece0))%nat = false ->
  pairOK (parsePair piece0).
Proof.
  intros Hchars Hamp Hcount. unfold parsePair.
  destruct (break (Ascii.eqb "=") piece0) as [n rest] eqn:Hbreak.
  apply break_spec in Hbreak as (-> & Hn & Hrest).
  apply forallb_not_elem in Hn.
  rewrite forallb_app in Hchars. apply andb_true_iff in Hchars as [Hcn Hcr].
  apply not_elem_of_app in Hamp as [Han Har].
  rewrite filter_app, (filter_none _ n), app_nil_l in Hcount
    by by apply not_elem_Forall.
  apply Nat.ltb_ge in Hcount.
  destruct rest as [|x v]; unfold pairOK; cbn [drop fst snd].
  { repeat split; try done; apply not_elem_of_nil. }
  apply Ascii.eqb_eq in Hrest as <-.
  rewrite filter_cons, decide_True in Hcount by done. cbn [length] in Hcount.
  cbn [forallb] in Hcr. apply andb_true_iff in Hcr as [_ Hcv].
  apply not_elem_of_cons in Har as [_ Hav].
  repeat split; try done. apply count_none.
  apply le_S_n, Nat.le_0_r in Hcount. exact Hcount.
Qed.

Lemma parseParams_ok u :
  match query u with
  | Some q => forallb isQueryChar q = true /\ oneEquals q = false
  | None => True
  end ->
  Forall pairOK (parseParams (search u)).
Proof.
  unfold search. destruct (query u) as [[|c q]|]; [done| |done].
  intros [Hchars Hcheck]. unfold parseParams.
  assert (Ascii.eqb "?" "?" = true) as -> by done.
  apply Forall_map, Forall_forall. intros piece0 [Hne Hin]%list_elem_of_filter.
  pose proof (splitOn_pieces isQueryChar "&" (c :: q) Hchars) as Hpieces.
  apply existsb_Forall in Hcheck.
  rewrite Forall_forall in Hpieces, Hcheck.
  destruct (Hpieces _ Hin) as [Hc Hamp]. apply parsePair_ok; [done|done|].
  by apply Hcheck.
Qed.

Lemma deleteAll_sublist names ps :
  fold_left (fun ps param => deleteParam param ps) names ps `sublist_of` ps.
Proof.
  revert ps. induction names as [|name names IH]; intros ps; [done|].
  cbn [fold_left]. etrans; [apply IH|]. apply sublist_filter.
Qed.

Lemma deleteAll_names names ps :
  Forall (fun p : Pair => Forall (fun name => p.1 <> Js.chars name) names)
    (fold_left (fun ps param => deleteParam param ps) names ps).
Proof.
  revert ps. induction names as [|name names IH]; intros ps.
  - apply Forall_forall. by intros.
  - cbn [fold_left]. apply Forall_forall. intros p Hp. constructor.
    + pose proof (deleteAll_sublist names (deleteParam name ps)) as Hsub.
      eapply elem_of_sublist in Hsub; [|exact Hp].
      by apply list_elem_of_filter in Hsub as [? _].
    + specialize (IH (deleteParam name ps)). rewrite Forall_forall in IH.
      by apply IH.
Qed.

Lemma deleteAll_fixed names ps :
  Forall (fun p : Pair => Forall (fun name => p.1 <> Js.chars name) names) ps ->
  fold_left (fun ps param => deleteParam param ps) names ps = ps.
Proof.
  revert ps. induction names as [|name names IH]; intros ps Hall; [done|].
  cbn [fold_left]. unfold deleteParam at 2. rewrite filter_all.
  - apply IH. eapply Forall_impl; [exact Hall|]. intros p Hp. by inversion Hp.
  - eapply Forall_impl; [exact Hall|]. intros p Hp. by inversion Hp.
Qed.

Section Sorting.
Variable localeCompare : list ascii -> list ascii -> comparison.

Lemma insertPair_Permutation x l : insertPair localeCompare x l ≡ₚ x :: l.
Proof.
  induction l as [|y l IH]; [done|]. cbn [insertPair].
  destruct (localeCompare y.1 x.1); [done| |done].
  rewrite IH. apply Permutation_swap.
Qed.

Lemma sortPairs_Permutation l : sortPairs localeCompare l ≡ₚ l.
Proof.
  unfold sortPairs. induction l as [|x l IH]; [done|]. cbn [foldr].
  by rewrite insertPair_Permutation, IH.
Qed.

(** No pair stands after a pair it goes before. *)
Let ordered (l : list Pair) : Prop :=
  forall a x y b, l = (a ++ x :: y :: b)%list -> localeCompare y.1 x.1 <> Lt.

Lemma ordered_tail x l : ordered (x :: l) -> ordered l.
Proof. intros Hl a y z b ->. by apply (Hl (x :: a) y z b). Qed.

Lemma ordered_cons x l :
  match l with y :: _ => localeCompare y.1 x.1 <> Lt | [] => True end ->
  ordered l -> ordered (x :: l).
Proof.
  intros Hhead Hl [|a0 a] y z b Heq.
  - injection Heq as <- ->. exact Hhead.
  - injection Heq as <- ->. by apply (Hl a y z b).
Qed.

Lemma ordered_sortPairs l : ordered l -> sortPairs localeCompare l = l.
Proof.
  unfold sortPairs. induction l as [|x l IH]; [done|]. intros Hl.
  cbn [foldr]. rewrite IH by by eapply ordered_tail.
  destruct l as [|y l]; [done|]. cbn [insertPair].
  specialize (Hl [] x y l eq_refl). by destruct (localeCompare y.1 x.1).
Qed.

Hypothesis localeCompare_asym :
  forall a b, localeCompare a b = Lt -> localeCompare b a <> Lt.

Lemma insertPair_ordered x l : ordered l -> ordered (insertPair localeCompare x l).
Proof.
  induction l as [|y l IH]; intros Hl.
  - by apply ordered_cons; [|intros [|? ?] ? ? ? ?].
  - cbn [insertPair]. destruct (localeCompare y.1 x.1) eqn:Hyx.
    + apply ordered_cons; [by rewrite Hyx|done].
    + apply ordered_cons; [|by eapply IH, ordered_tail].
      destruct l as [|z l]; cbn [insertPair]; [by apply localeCompare_asym|].
      destruct (localeCompare z.1 x.1) eqn:Hzx;
        try by apply localeCompare_asym.
      apply (Hl [] y z l eq_refl).
    + apply ordered_cons; [by rewrite Hyx|done].
Qed.

Lemma sortPairs_ordered l : ordered (sortPairs localeCompare l).
Proof.
  unfold sortPairs. induction l as [|x l IH]; cbn [foldr].
  - by intros [|? ?] ? ? ? ?.
  - by apply insertPair_ordered.
Qed.

(** Sorting what is sorted changes nothing. *)
Lemma sortPairs_twice l :
  sortPairs localeCompare (sortPairs localeCompare l) = sortPairs localeCompare l.
Proof. apply ordered_sortPairs, sortPairs_ordered. Qed.

End Sorting.

(** *** The normalizer *)

Lemma lowerChar_colon c : Ascii.eqb ":" (Regex.lowerChar c) = true -> c = ":"%char.
Proof. destruct c as [[] [] [] [] [] [] [] []]; vm_compute; done. Qed.

Lemma stripPrefix_scheme lit more l rest :
  forallb isLower lit = true ->
  Regex.stripPrefix (lit ++ ":"%char :: more) l = Some rest ->
  lower (break (Ascii.eqb ":") l).1 = lit.
Proof.
  revert l. induction lit as [|a lit IH]; intros l Hlit; cbn [app Regex.stripPrefix].
  - destruct l as [|c l]; [done|].
    destruct (Ascii.eqb ":" (Regex.lowerChar c)) eqn:Hc; [|done].
    apply lowerChar_colon in Hc as ->. done.
  - destruct l as [|c l]; [done|]. cbn [forallb] in Hlit.
    apply andb_true_iff in Hlit as [Ha Hlit].
    destruct (Ascii.eqb a (Regex.lowerChar c)) eqn:Hc; [|done].
    apply Ascii.eqb_eq in Hc. intros Hrest%IH; [|done]. cbn [break].
    destruct (Ascii.eqb_spec ":" c) as [<-|Hne].
    { subst a. done. }
    destruct (break (Ascii.eqb ":") l) as [sch afterScheme].
    cbn [fst] in *. unfold lower in *. cbn [map]. by rewrite Hrest, Hc.
Qed.

Lemma hasHttpScheme_scheme l :
  hasHttpScheme l = true ->
  lower (break (Ascii.eqb ":") l).1 = Js.chars "http"
  \/ lower (break (Ascii.eqb ":") l).1 = Js.chars "https".
Proof.
  unfold hasHttpScheme.
  destruct (Regex.stripPrefix (Js.chars "http://") l) as [rest|] eqn:Hhttp.
  { intros _. left.
    by apply (stripPrefix_scheme (Js.chars "http") (Js.chars "//") l rest). }
  destruct (Regex.stripPrefix (Js.chars "https://") l) as [rest|] eqn:Hhttps;
    [|done].
  intros _. right.
  by apply (stripPrefix_scheme (Js.chars "https") (Js.chars "//") l rest).
Qed.

Lemma trimChars_plain l :
  forallb (fun c => negb (Js.isSpace c)) l = true -> Js.trimChars l = l.
Proof.
  intros Hl. unfold Js.trimChars.
  assert (Js.trimStart l = l) as ->.
  { destruct l as [|c l]; [done|]. cbn in *.
    apply andb_true_iff in Hl as [Hc _]. apply negb_true_iff in Hc. by rewrite Hc. }
  induction l as [|c l IH]; [done|]. cbn in Hl.
  apply andb_true_iff in Hl as [Hc Hl]. apply negb_true_iff in Hc.
  rewrite MarkdownProps.trimEnd_cons, IH by done. rewrite Hc. by destruct l.
Qed.

Lemma forallb_removelast {A} (p : A -> bool) l :
  forallb p l = true -> forallb p (removelast l) = true.
Proof.
  induction l as [|x l IH]; [done|]. cbn.
  intros [Hx Hl]%andb_true_iff. destruct l; [done|]. cbn [forallb].
  by rewrite Hx, IH.
Qed.

Section Normalizer.
Variable localeCompare : list ascii -> list ascii -> comparison.

(** What the normalizer has made of the parameters. *)
Let normalParams (ps : list Pair) : Prop :=
  Forall pairOK ps
  /\ Forall (fun p : Pair =>
               Forall (fun name => p.1 <> Js.chars name) Constants.TRACKING_PARAMS) ps
  /\ exists ps0, ps = sortPairs localeCompare ps0.

Let queryOf (ps : list Pair) : option (list ascii) :=
  match ps with
  | [] => None
  | _ => Some (serializeParams ps)
  end.

Lemma setSearch_serializeParams ps u :
  Forall pairOK ps ->
  query (setSearch (serializeParams ps) u) = queryOf ps.
Proof.
  intros Hall. unfold setSearch, queryOf. cbn [query].
  destruct ps as [|p ps]; [done|].
  pose proof (serializeParams_nonempty (p :: ps) ltac:(done) Hall) as Hne.
  pose proof (serializeParams_chars _ Hall) as Hchars.
  destruct (serializeParams (p :: ps)) as [|c q]; [done|].
  cbn in Hchars. apply andb_true_iff in Hchars as [Hc%queryChar_facts _].
  repeat (apply andb_true_iff in Hc as [Hc ?]).
  by destruct (Ascii.eqb c "?").
Qed.

(** The URL the normalizer returns the text of. *)
Lemma normalizeChars_built url out :
  normalizeChars localeCompare url = Ok out ->
  exists u ps,
    out = href u /\ built u /\ query u = queryOf ps /\ normalParams ps.
Proof.
  unfold normalizeChars. destruct url as [|c0 url0]; [done|]. cbv zeta.
  set (trimmed := Js.trimChars (c0 :: url0)).
  set (normalized := if hasHttpScheme trimmed then trimmed
                     else (Js.chars "https://" ++ trimmed)%list).
  assert (hasHttpScheme normalized = true) as Hscheme.
  { unfold normalized. by destruct (hasHttpScheme trimmed) eqn:E. }
  destruct (parse normalized) as [u1| |] eqn:Hparse; [|done|done].
  change (Ok u1 ≫= ?f) with (f u1). cbv beta.
  apply parse_Ok in Hparse as (Hsch & Hhost & Hport & (t & Ht & Hpath) & Hquery).
  apply hasHttpScheme_scheme in Hscheme. rewrite <- Hsch in Hscheme.
  set (ps := sortPairs localeCompare _).
  assert (normalParams ps) as Hps.
  { split; [|split; [|by eexists]].
    - unfold ps. rewrite sortPairs_Permutation.
      apply Forall_forall. intros x Hx.
      eapply elem_of_sublist in Hx; [|apply deleteAll_sublist].
      pose proof (parseParams_ok u1 Hquery) as Hall.
      rewrite Forall_forall in Hall. by apply Hall.
    - unfold ps. rewrite sortPairs_Permutation. apply deleteAll_names. }
  set (p := pathname (setSearch (serializeParams ps) u1)).
  set (p' := if negb (bool_decide (p = Js.chars "/"))
                && bool_decide (last p = Some "/"%char)
             then removelast p else p).
  intros [= <-]. eexists _, ps. split; [reflexivity|].
  split; [|split; [|done]].
  - split; [exact Hscheme|]. split; [exact Hhost|]. split; [exact Hport|].
    split.
    + cbn [path setPathname]. apply parsePath_clean.
      assert (forallb isPathChar p = true) as Hp.
      { unfold p, pathname. cbn [path setSearch]. rewrite Hpath.
        apply (pathname_chars (parsePath t)). by apply parsePath_clean. }
      unfold p'. destruct (_ && _); [by apply forallb_removelast|done].
    + cbn [query setPathname]. destruct Hps as [Hok _].
      rewrite setSearch_serializeParams by done. unfold queryOf.
      destruct ps as [|q0 ps0] eqn:Eps; [done|]. rewrite <- Eps in *.
      split; [by apply serializeParams_chars|by apply serializeParams_check].
  - cbn [query setPathname]. destruct Hps as [Hok _].
    by apply setSearch_serializeParams.
Qed.

Lemma parseParams_search u ps :
  Forall pairOK ps -> query u = queryOf ps -> parseParams (search u) = ps.
Proof.
  intros Hall Hquery. unfold search. rewrite Hquery. unfold queryOf.
  destruct ps as [|p ps]; [done|].
  pose proof (serializeParams_nonempty (p :: ps) ltac:(done) Hall) as Hne.
  destruct (serializeParams (p :: ps)) as [|c q] eqn:Hser; [done|].
  rewrite <- Hser. by apply parseParams_serializeParams.
Qed.

Lemma setSearch_same value u :
  query (setSearch value u) = query u -> setSearch value u = u.
Proof. destruct u. unfold setSearch. cbn. by intros ->. Qed.

Lemma setPathname_built value u :
  forallb isPathChar value = true -> built u -> built (setPathname value u).
Proof.
  intros Hvalue (Hscheme & Hhost & Hport & _ & Hquery).
  split; [done|]. split; [done|]. split; [done|]. split; [|done].
  by apply parsePath_clean.
Qed.

Lemma normalizeUrl_chars url out :
  normalizeUrl localeCompare url = Ok out ->
  normalizeChars localeCompare (Js.chars url) = Ok (Js.chars out).
Proof.
  unfold normalizeUrl.
  destruct (normalizeChars localeCompare (Js.chars url)) as [l| |]; [|done..].
  intros [= <-]. by rewrite chars_str.
Qed.

(** X19.  On the URLs that [Url.parse] covers (no user name, no percent
    escape, no bracketed address, no character outside the ones it lists
    for the host, the path and the query), what [normalizeUrl] returns is
    the text of a URL that the parser reads back as it stands.
    Its scheme is [http] or [https]; none of its parameters is a tracking
    parameter; its host is what [extractDomain] returns for the URL that
    was normalized. *)
Theorem normalizeUrl_valid url out :
  normalizeUrl localeCompare url = Ok out ->
  exists u,
    parse (Js.chars out) = Ok u
    /\ href u = Js.chars out
    /\ (scheme u = Js.chars "http" \/ scheme u = Js.chars "https")
    /\ Forall (fun p : Pair =>
                 Forall (fun name => p.1 <> Js.chars name)
                   Constants.TRACKING_PARAMS)
         (parseParams (search u))
    /\ extractDomain localeCompare url = Ok (Js.str (hostname u)).
Proof.
  intros Hout%normalizeUrl_chars.
  destruct (normalizeChars_built _ _ Hout)
    as (u & ps & Hhref & Hbuilt & Hquery & Hok & Htracking & _).
  exists u. rewrite Hhref. split; [by apply parse_href|]. split; [done|].
  split; [by destruct Hbuilt|].
  split; [by rewrite (parseParams_search u ps)|].
  unfold extractDomain. by rewrite Hout, Hhref, parse_href.
Qed.

Hypothesis localeCompare_asym :
  forall a b, localeCompare a b = Lt -> localeCompare b a <> Lt.

(** A second normalization reads the URL back, finds the parameters as
    they are, and takes a slash off the end of the path once more. *)
Lemma normalizeChars_href u ps :
  built u -> query u = queryOf ps -> normalParams ps ->
  normalizeChars localeCompare (href u)
  = Ok (href (setPathname
                (if negb (bool_decide (pathname u = Js.chars "/"))
                    && bool_decide (last (pathname u) = Some "/"%char)
                 then removelast (pathname u) else pathname u) u)).
Proof.
  intros Hbuilt Hquery (Hok & Htracking & ps0 & Hsorted).
  unfold normalizeChars. destruct (href u) as [|c0 r0] eqn:Hhref.
  { rewrite href_parts in Hhref. by destruct Hbuilt as ([Hs | Hs] & _); rewrite Hs in Hhref. }
  cbv beta iota. rewrite <- Hhref. cbv zeta. clear c0 r0 Hhref.
  pose proof (href_plain u Hbuilt) as Hplain.
  assert (hasHttpScheme (href u) = true) as Hscheme.
  { rewrite href_parts. destruct Hbuilt as ([-> | ->] & _); done. }
  rewrite trimChars_plain by (revert Hplain; apply forallb_impl; weaken_chars).
  rewrite Hscheme, parse_href by done.
  change (Ok u ≫= ?f) with (f u). cbv beta.
  rewrite (parseParams_search u ps), deleteAll_fixed by done.
  assert (sortPairs localeCompare ps = ps) as ->.
  { rewrite Hsorted. by apply sortPairs_twice. }
  rewrite setSearch_same; [done|]. by rewrite setSearch_serializeParams.
Qed.

Lemma last_pathOf l s :
  ("/"%char ∉ s) ->
  last (pathOf (l ++ [s])) = Some "/"%char -> s = [].
Proof.
  intros Hs. unfold pathOf. rewrite flat_map_app. cbn [flat_map].
  rewrite app_nil_r, last_app_cons. destruct s as [|c s]; [done|].
  rewrite last_cons_cons. intros [s' Hlast]%last_Some. exfalso. apply Hs.
  rewrite Hlast. apply elem_of_app. right. apply list_elem_of_here.
Qed.

(** A path that ends in a slash, the root apart, loses its last
    segment. *)
Lemma removelast_pathOf l :
  cleanPath l -> pathOf l <> Js.chars "/" ->
  last (pathOf l) = Some "/"%char ->
  exists l', l = (l' ++ [[]])%list /\ cleanPath l'
             /\ removelast (pathOf l) = pathOf l'.
Proof.
  intros [Hne Hall] Hroot Hlast.
  destruct (exists_last Hne) as (l' & s & ->).
  apply Forall_app in Hall as [Hl' Hs]. inversion Hs as [|? ? (_ & Hslash & _) _]; subst.
  apply last_pathOf in Hlast as ->; [|done].
  exists l'. split; [done|]. split.
  - split; [|done]. by intros ->.
  - unfold pathOf. rewrite flat_map_app. cbn [flat_map]. rewrite app_nil_r.
    apply removelast_last.
Qed.

Lemma href_inj u u' : built u -> built u' -> href u = href u' -> u = u'.
Proof.
  intros Hu Hu' Heq. apply parse_href in Hu, Hu'. rewrite Heq in Hu. congruence.
Qed.

(** The result is left as it is if and only if its path is the root or
    does not end in a slash. *)
Lemma normalizeChars_fixed u ps :
  built u -> query u = queryOf ps -> normalParams ps ->
  normalizeChars localeCompare (href u) = Ok (href u)
  <-> (pathname u = Js.chars "/" \/ last (pathname u) <> Some "/"%char).
Proof.
  intros Hbuilt Hquery Hps. rewrite (normalizeChars_href u ps) by done.
  pose proof Hbuilt as (_ & _ & _ & Hpath & _).
  assert (forallb isPathChar (pathname u) = true) as Hchars
    by (apply pathname_chars; by destruct Hpath).
  destruct (decide (pathname u = Js.chars "/")) as [Hroot|Hroot].
  { rewrite bool_decide_eq_true_2 by done. cbn [negb andb].
    split; [by left|]. intros _. unfold setPathname, pathname.
    pose proof (parsePath_pathname _ Hpath) as Hrt. unfold pathOf in Hrt.
    rewrite Hrt. by destruct u. }
  rewrite (bool_decide_eq_false_2 _ Hroot). cbn [negb andb].
  destruct (decide (last (pathname u) = Some "/"%char)) as [Hlast|Hlast].
  - rewrite bool_decide_eq_true_2 by done. split; [|by intros [?|?]].
    intros [= Heq]. exfalso.
    apply href_inj in Heq;
      [|by apply setPathname_built; [apply forallb_removelast|]|done].
    apply (f_equal path) in Heq. cbn [path setPathname] in Heq.
    destruct (removelast_pathOf (path u) Hpath Hroot Hlast) as (l' & Hl & Hclean & Hrm).
    unfold pathname in Heq. unfold pathOf in Hrm. rewrite Hrm in Heq.
    pose proof (parsePath_pathname _ Hclean) as Hrt. unfold pathOf in Hrt.
    rewrite Hrt, Hl in Heq. apply (f_equal length) in Heq.
    rewrite length_app in Heq. cbn in Heq. lia.
  - rewrite bool_decide_eq_false_2 by done. split; [by right|]. intros _.
    unfold setPathname, pathname.
    pose proof (parsePath_pathname _ Hpath) as Hrt. unfold pathOf in Hrt.
    rewrite Hrt. by destruct u.
Qed.

(** X20.  On the URLs that [Url.parse] covers, and with a comparison of
    names that never puts each of two names before the other, a second
    normalization leaves the result of [normalizeUrl] as it is if and only
    if the path of the result is the root or does not end in a slash. *)
Theorem normalizeUrl_fixed_point url out :
  normalizeUrl localeCompare url = Ok out ->
  exists u,
    parse (Js.chars out) = Ok u
    /\ (normalizeUrl localeCompare out = Ok out
        <-> (pathname u = Js.chars "/" \/ last (pathname u) <> Some "/"%char)).
Proof.
  intros Hout%normalizeUrl_chars.
  destruct (normalizeChars_built _ _ Hout)
    as (u & ps & Hhref & Hbuilt & Hquery & Hps).
  exists u. rewrite Hhref. split; [by apply parse_href|].
  rewrite <- (normalizeChars_fixed u ps) by done.
  unfold normalizeUrl. rewrite Hhref.
  destruct (normalizeChars localeCompare (href u)) as [l| |]; [|done..].
  split.
  - intros [= Heq]. apply (f_equal Js.chars) in Heq.
    rewrite chars_str, Hhref in Heq. by rewrite Heq.
  - intros [= ->]. by rewrite <- Hhref, str_chars.
Qed.

End Normalizer.

End Shapes.

(** A URL with every rule at work: the parser reads the result back, and
    [extractDomain] gives its host. *)
Lemma normalizeUrl_valid_witness :
  exists u,
    parse (Js.chars "https://ex.com/b/c?a=1&b=2") = Ok u
    /\ href u = Js.chars "https://ex.com/b/c?a=1&b=2"
    /\ (scheme u = Js.chars "http" \/ scheme u = Js.chars "https")
    /\ Forall (fun p : Pair =>
                 Forall (fun name => p.1 <> Js.chars name)
                   Constants.TRACKING_PARAMS)
         (parseParams (search u))
    /\ extractDomain codeUnitCompare
         "HTTPS://Ex.com:443/a/../b/./c/?b=2&ref=x&a=1#top"
       = Ok (Js.str (hostname u)).
Proof.
  apply (normalizeUrl_valid codeUnitCompare
           "HTTPS://Ex.com:443/a/../b/./c/?b=2&ref=x&a=1#top").
  vm_compute. reflexivity.
Defined.

Lemma codeUnitCompare_asym a b :
  codeUnitCompare a b = Lt -> codeUnitCompare b a <> Lt.
Proof. intros Hab. by rewrite NavMoreProps.codeUnitCompare_opp, Hab. Qed.

(** The result for a path that ends in two slashes ends in one, and is
    not left as it is. *)
Lemma normalizeUrl_fixed_point_witness :
  exists u,
    parse (Js.chars "https://ex.com/a/") = Ok u
    /\ (normalizeUrl codeUnitCompare "https://ex.com/a/" = Ok "https://ex.com/a/"
        <-> (pathname u = Js.chars "/" \/ last (pathname u) <> Some "/"%char)).
Proof.
  apply (normalizeUrl_fixed_point codeUnitCompare codeUnitCompare_asym
           "https://ex.com/a//").
  vm_compute. reflexivity.
Defined.

End UrlResultProps.

(** ** src/extraction/structuralDetector.ts *)
Module StructuralDetectorProps.
Import Nav StructuralDetector StringProps.

Lemma literal_app lit l rest :
  EnhancedMarkdown.literal lit l = Some rest -> l = (lit ++ rest)%list.
Proof.
  revert l. induction lit as [|a lit IH]; intros [|c l]; cbn; try done.
  - by intros [= <-].
  - by intros [= <-].
  - destruct (Ascii.eqb_spec a c) as [<-|]; [|done]. by intros ->%IH.
Qed.

(** Where [indexOf] finds the text, the text stands. *)
Lemma indexFrom_spec needle hay i :
  indexFrom needle hay i = -1
  \/ (i <= indexFrom needle hay i
      /\ take (List.length needle) (drop (Z.to_nat (indexFrom needle hay i - i)) hay)
         = needle).
Proof.
  revert i. induction hay as [|c hay IH]; intros i; cbn [indexFrom].
  - destruct needle as [|a needle]; [|by left].
    right. split; [cbn; lia|]. done.
  - destruct (EnhancedMarkdown.literal needle (c :: hay)) as [rest|] eqn:Hlit.
    + right. split; [lia|]. apply literal_app in Hlit.
      rewrite Z.sub_diag. change (Z.to_nat 0) with 0%nat.
      rewrite drop_0, Hlit. by rewrite take_app_length.
    + destruct (IH (i + 1)) as [Hnone|[Hle Hfound]]; [by left|]. right.
      split; [lia|].
      replace (Z.to_nat (indexFrom needle hay (i + 1) - i))
        with (S (Z.to_nat (indexFrom needle hay (i + 1) - (i + 1)))) by lia.
      exact Hfound.
Qed.

Lemma indexOf_standsAt hay needle :
  indexOf hay needle <> -1 -> standsAt hay needle (indexOf hay needle).
Proof.
  unfold indexOf, standsAt. intros Hfound.
  destruct (indexFrom_spec (Js.chars needle) (Js.chars hay) 0) as [|[Hle Hat]];
    [done|].
  split; [done|]. rewrite Z.sub_0_r in Hat. by rewrite string_length_chars.
Qed.

Section WithPage.
Context `{Page}.
Variable html : string.

(** What a detector has found so far. *)
Let found (ty : StructuralElementType) (passOver : gset Z) (st : Found) : Prop :=
  Forall (fun element =>
            type element = ty
            /\ (exists node,
                  node ∈ select (selector element)
                  /\ standsAt html (outerHtml node) (startIndex element)
                  /\ endIndex element
                     = startIndex element + StructuralDetector.length (outerHtml node))
            /\ startIndex element ∈ st.2
            /\ startIndex element ∉ passOver)
    st.1
  /\ NoDup (map startIndex st.1).

Lemma eachElement_found ty passOver push sel st el :
  el ∈ select sel ->
  found ty passOver st ->
  found ty passOver (eachElement html ty passOver push sel st el).
Proof.
  intros Hel Hst. destruct st as [els seen]. unfold eachElement.
  destruct (Z.eqb_spec (indexOf html (outerHtml el)) (-1)) as [|Hfound]; [done|].
  cbn [orb]. destruct (decide (indexOf html (outerHtml el) ∈ seen)) as [|Hnew].
  { by rewrite bool_decide_eq_true_2. }
  rewrite (bool_decide_eq_false_2 _ Hnew).
  destruct (decide (indexOf html (outerHtml el) ∈ passOver)) as [|Hpass].
  { by rewrite bool_decide_eq_true_2. }
  rewrite (bool_decide_eq_false_2 _ Hpass). cbv zeta.
  destruct Hst as [Hall Hnodup]. cbn [fst snd] in *.
  assert (Forall (fun element =>
            type element = ty
            /\ (exists node,
                  node ∈ select (selector element)
                  /\ standsAt html (outerHtml node) (startIndex element)
                  /\ endIndex element
                     = startIndex element + StructuralDetector.length (outerHtml node))
            /\ startIndex element ∈ {[ indexOf html (outerHtml el) ]} ∪ seen
            /\ startIndex element ∉ passOver) els) as Hall'.
  { eapply Forall_impl; [exact Hall|]. intros e (? & ? & ? & ?).
    repeat split; try done. apply elem_of_union. by right. }
  destruct (push el); [|by split].
  split; cbn [fst snd].
  - apply Forall_app. split; [done|]. constructor; [|constructor].
    cbn [type startIndex endIndex selector]. split; [done|]. split.
    + exists el. split; [done|]. split; [by apply indexOf_standsAt|done].
    + split; [|done]. apply elem_of_union. left. by apply elem_of_singleton.
  - rewrite map_app. apply NoDup_app. split; [done|]. split; [|apply NoDup_singleton].
    intros start Hin [->|Hnil%elem_of_nil]%elem_of_cons; [|done].
    apply list_elem_of_fmap in Hin as (e & He & Hin).
    rewrite Forall_forall in Hall. destruct (Hall e Hin) as (_ & _ & Hseen & _).
    cbn in He. rewrite <- He in Hseen. done.
Qed.

Lemma detectWith_found ty selectors passOver push :
  exists seen, found ty passOver (detectWith html ty selectors passOver push, seen).
Proof.
  unfold detectWith.
  assert (found ty passOver ([], ∅)) as Hinit by (split; constructor).
  revert Hinit. generalize (([], ∅) : Found).
  induction selectors as [|sel selectors IH]; intros st Hst.
  - exists st.2. by destruct st.
  - cbn [fold_left]. apply IH.
    assert (forall nodes, (forall node, node ∈ nodes -> node ∈ select sel) ->
              found ty passOver
                (fold_left (eachElement html ty passOver push sel) nodes st))
      as Hnodes; [|by apply Hnodes].
    intros nodes. revert st Hst. induction nodes as [|node nodes IHn]; intros st Hst Hsub;
      [done|].
    cbn [fold_left]. apply IHn.
    + apply eachElement_found; [|done]. apply Hsub, list_elem_of_here.
    + intros n Hn. by apply Hsub, list_elem_of_further.
Qed.

Lemma eachFaq_type sel st el :
  Forall (fun element => type element = s_faq_module) st.1 ->
  Forall (fun element => type element = s_faq_module) (eachFaq html sel st el).1.
Proof.
  destruct st as [els seen]. unfold eachFaq. cbv zeta. intros Hall.
  destruct (bool_decide _); [done|]. cbn [fst].
  apply Forall_app. split; [done|]. by constructor.
Qed.

Lemma detectFAQSections_type :
  Forall (fun element => type element = s_faq_module) (detectFAQSections html).
Proof.
  unfold detectFAQSections. cbv zeta.
  set (init := match detectJsonLdFAQ html with
               | Some jsonLdFaq => ([jsonLdFaq], {[ startIndex jsonLdFaq ]})
               | None => ([], ∅)
               end : Found).
  assert (Forall (fun element => type element = s_faq_module) init.1) as Hinit.
  { unfold init, detectJsonLdFAQ. destruct jsonLdFaqScript; cbn; [|constructor].
    by constructor. }
  revert Hinit. generalize init. clear init.
  induction FAQ_SELECTORS as [|sel selectors IH]; intros st Hst; [done|].
  cbn [fold_left]. apply IH. clear IH.
  revert st Hst. induction (select sel) as [|node nodes IHn]; intros st Hst; [done|].
  cbn [fold_left]. apply IHn. by apply eachFaq_type.
Qed.

Lemma detectWith_type ty selectors passOver push :
  Forall (fun element => type element = ty)
    (detectWith html ty selectors passOver push).
Proof.
  destruct (detectWith_found ty selectors passOver push) as [seen [Hall _]].
  eapply Forall_impl; [exact Hall|]. by intros e [? _].
Qed.

(** The elements of one type among those of one detector: all or none. *)
Lemma ofType_same ty els :
  Forall (fun element => type element = ty) els -> ofType ty els = els.
Proof.
  unfold ofType. induction 1 as [|e els He _ IH]; [done|].
  by rewrite filter_cons, decide_True, IH.
Qed.

Lemma ofType_other ty ty' els :
  Forall (fun element => type element = ty') els -> ty <> ty' ->
  ofType ty els = [].
Proof.
  unfold ofType. intros Hall Hne. induction Hall as [|e els He _ IH]; [done|].
  rewrite filter_cons, decide_False, IH; [done|congruence].
Qed.

Lemma ofType_app ty a b : ofType ty (a ++ b) = (ofType ty a ++ ofType ty b)%list.
Proof. apply filter_app. Qed.

(** The eight lists of [detectStructuralElements], by type. *)
Lemma elements_by_type ty :
  ofType ty (elements (detectStructuralElements html))
  = match ty with
    | s_faq_module => detectFAQSections html
    | s_toc_or_jump => detectTOCSections html
    | s_breadcrumb => detectBreadcrumbs html
    | s_template_cta => detectCTAs html
    | s_accordion => detectAccordions html (detectFAQSections html)
    | s_testimonial => detectTestimonials html
    | s_author_bio => detectAuthorBios html
    | s_related_posts => detectRelatedPosts html
    end.
Proof.
  unfold detectStructuralElements. cbv zeta. cbn [elements].
  rewrite !ofType_app.
  pose proof detectFAQSections_type as Hfaq.
  pose proof (detectWith_type s_toc_or_jump TOC_SELECTORS ∅ isAnchorBased) as Htoc.
  pose proof (detectWith_type s_breadcrumb BREADCRUMB_SELECTORS ∅ (fun _ => true))
    as Hbreadcrumb.
  pose proof (detectWith_type s_template_cta CTA_SELECTORS ∅ (fun _ => true)) as Hcta.
  pose proof (detectWith_type s_accordion ACCORDION_SELECTORS
                (list_to_set (map startIndex (detectFAQSections html)))
                (fun _ => true)) as Haccordion.
  pose proof (detectWith_type s_testimonial TESTIMONIAL_SELECTORS ∅ (fun _ => true))
    as Htestimonial.
  pose proof (detectWith_type s_author_bio AUTHOR_BIO_SELECTORS ∅ (fun _ => true))
    as Hauthor.
  pose proof (detectWith_type s_related_posts RELATED_POSTS_SELECTORS ∅ (fun _ => true))
    as Hrelated.
  fold (detectTOCSections html) in Htoc.
  fold (detectBreadcrumbs html) in Hbreadcrumb.
  fold (detectCTAs html) in Hcta.
  fold (detectAccordions html (detectFAQSections html)) in Haccordion.
  fold (detectTestimonials html) in Htestimonial.
  fold (detectAuthorBios html) in Hauthor.
  fold (detectRelatedPosts html) in Hrelated.
  destruct ty;
    repeat match goal with
           | |- context [ofType ?t ?l] =>
               first [ rewrite (ofType_same t l) by assumption
                     | rewrite (ofType_other t _ l) by (eassumption || discriminate) ]
           end;
    cbn [app]; by rewrite ?app_nil_r.
Qed.

(** What the detector of a type other than [faq_module] has found. *)
Lemma detector_found ty :
  ty <> s_faq_module ->
  exists passOver seen,
    found ty passOver (ofType ty (elements (detectStructuralElements html)), seen)
    /\ (ty = s_accordion ->
        passOver = list_to_set (map startIndex (detectFAQSections html))).
Proof.
  intros Hty. rewrite elements_by_type.
  destruct ty; [done|..];
    unfold detectTOCSections, detectBreadcrumbs, detectCTAs, detectAccordions,
      detectTestimonials, detectAuthorBios, detectRelatedPosts;
    match goal with
    | |- context [detectWith html ?ty ?selectors ?passOver ?push] =>
        destruct (detectWith_found ty selectors passOver push) as [seen Hfound];
        exists passOver, seen; split; [exact Hfound|done]
    end.
Qed.

(** X21.  Every element [detectStructuralElements] returns of another
    type than [faq_module] delimits an occurrence, in the page, of the
    outer HTML of an element that its selector finds: the HTML stands at
    the start index, and the end index lies its length further.  No two
    elements of one such type start at the same index, and no accordion
    starts where a FAQ element starts. *)
Theorem detected_elements_stand :
  let result := detectStructuralElements html in
  (forall element,
     element ∈ elements result -> type element <> s_faq_module ->
     exists node,
       node ∈ select (selector element)
       /\ standsAt html (outerHtml node) (startIndex element)
       /\ endIndex element
          = startIndex element + StructuralDetector.length (outerHtml node))
  /\ (forall ty, ty <> s_faq_module ->
                 NoDup (map startIndex (ofType ty (elements result))))
  /\ (forall accordion faq,
        accordion ∈ elements result -> faq ∈ elements result ->
        type accordion = s_accordion -> type faq = s_faq_module ->
        startIndex accordion <> startIndex faq).
Proof.
  cbv zeta. split; [|split].
  - intros element Hin Hty.
    destruct (detector_found (type element) Hty) as (passOver & seen & [Hall _] & _).
    cbn [fst] in Hall. rewrite Forall_forall in Hall.
    destruct (Hall element) as (_ & Hnode & _); [|done].
    apply list_elem_of_filter. done.
  - intros ty Hty.
    by destruct (detector_found ty Hty) as (passOver & seen & [_ Hnodup] & _).
  - intros accordion faq Ha Hf Hta Htf Heq.
    destruct (detector_found s_accordion ltac:(done))
      as (passOver & seen & [Hall _] & Hpass).
    cbn [fst] in Hall. rewrite Forall_forall in Hall.
    destruct (Hall accordion) as (_ & _ & _ & Hnot).
    { apply list_elem_of_filter. done. }
    apply Hnot. rewrite Hpass by done. apply elem_of_list_to_set.
    apply list_elem_of_fmap. exists faq. split; [done|].
    rewrite <- (elements_by_type s_faq_module). by apply list_elem_of_filter.
Qed.

End WithPage.

Section Priority.
Context `{Page}.
Variable html : string.

Let before (a b : StructuralElement) : Prop :=
  (detectionOrder (type a) <= detectionOrder (type b))%nat.

Lemma segment_sorted ty l :
  Forall (fun element => type element = ty) l -> StronglySorted before l.
Proof.
  induction 1 as [|e l He Hl IH]; constructor; [done|].
  eapply Forall_impl; [exact Hl|]. intros e' He'. unfold before.
  by rewrite He, He'.
Qed.

Lemma segments_sorted ty l rest k :
  Forall (fun element => type element = ty) l ->
  (k <= detectionOrder ty)%nat ->
  StronglySorted before rest
  /\ Forall (fun e => (detectionOrder ty <= detectionOrder (type e))%nat) rest ->
  StronglySorted before (l ++ rest)
  /\ Forall (fun e => (k <= detectionOrder (type e))%nat) (l ++ rest).
Proof.
  intros Hl Hk [Hsorted Hrest]. split.
  - apply StronglySorted_app_2; [|by eapply segment_sorted|done].
    intros a b Ha Hb. rewrite Forall_forall in Hl, Hrest. unfold before.
    rewrite (Hl a Ha). by apply Hrest.
  - apply Forall_app. split.
    + eapply Forall_impl; [exact Hl|]. intros e He. by rewrite He.
    + eapply Forall_impl; [exact Hrest|]. intros e He. cbn in He. lia.
Qed.

(** The elements come in the order of the detectors. *)
Lemma elements_sorted :
  StronglySorted before (elements (detectStructuralElements html)).
Proof.
  unfold detectStructuralElements. cbv zeta. cbn [elements].
  eapply proj1.
  apply (segments_sorted s_faq_module _ _ 0);
    [apply detectFAQSections_type|cbn; lia|].
  apply (segments_sorted s_toc_or_jump); [apply detectWith_type|cbn; lia|].
  apply (segments_sorted s_breadcrumb); [apply detectWith_type|cbn; lia|].
  apply (segments_sorted s_template_cta); [apply detectWith_type|cbn; lia|].
  apply (segments_sorted s_accordion); [apply detectWith_type|cbn; lia|].
  apply (segments_sorted s_testimonial); [apply detectWith_type|cbn; lia|].
  apply (segments_sorted s_author_bio); [apply detectWith_type|cbn; lia|].
  rewrite <- (app_nil_r (detectRelatedPosts html)).
  apply (segments_sorted s_related_posts); [apply detectWith_type|cbn; lia|].
  split; constructor.
Qed.

Lemma find_sorted (f : StructuralElement -> bool) l e :
  StronglySorted before l -> List.find f l = Some e ->
  e ∈ l /\ f e = true
  /\ forall e', e' ∈ l -> f e' = true -> before e e'.
Proof.
  induction 1 as [|x l Hsorted IH Hx]; [done|]. cbn [List.find].
  destruct (f x) eqn:Hfx.
  - intros [= <-]. split; [apply list_elem_of_here|]. split; [done|].
    intros e' [->|Hin]%elem_of_cons _; [unfold before; lia|].
    rewrite Forall_forall in Hx. by apply Hx.
  - intros Hfind. destruct (IH Hfind) as (Hin & Hfe & Hfirst).
    split; [by apply list_elem_of_further|]. split; [done|].
    intros e' [->|Hin']%elem_of_cons Hfe'; [congruence|]. by apply Hfirst.
Qed.

Lemma find_nowhere (f : StructuralElement -> bool) l :
  List.find f l = None -> forall e', e' ∈ l -> f e' = false.
Proof.
  induction l as [|x l IH]; [by intros _ e' Hin%elem_of_nil|].
  cbn [List.find]. destruct (f x) eqn:Hfx; [done|].
  intros Hfind e' [->|Hin]%elem_of_cons; [done|]. by apply IH.
Qed.

(** X22.  The counts of a detection are the numbers of its elements of
    each type.  For a position, [getStructuralTypeAtPosition] returns an
    element of the detection that holds the position, of the type that
    comes first in the order of the detectors among the elements that
    hold it, and nothing only when no element holds the position. *)
Theorem detection_counts_and_priority :
  let result := detectStructuralElements html in
  stats result
  = {| faq_modules := List.length (ofType s_faq_module (elements result));
       toc_sections := List.length (ofType s_toc_or_jump (elements result));
       breadcrumbs := List.length (ofType s_breadcrumb (elements result));
       template_ctas := List.length (ofType s_template_cta (elements result));
       accordions := List.length (ofType s_accordion (elements result));
       testimonials := List.length (ofType s_testimonial (elements result));
       author_bios := List.length (ofType s_author_bio (elements result));
       related_posts := List.length (ofType s_related_posts (elements result)) |}
  /\ forall position,
       match getStructuralTypeAtPosition position (elements result) with
       | Some element =>
           element ∈ elements result
           /\ startIndex element <= position <= endIndex element
           /\ forall other,
                other ∈ elements result ->
                startIndex other <= position <= endIndex other ->
                (detectionOrder (type element) <= detectionOrder (type other))%nat
       | None =>
           forall other,
             other ∈ elements result ->
             ~ (startIndex other <= position <= endIndex other)
       end.
Proof.
  cbv zeta. split; [by rewrite !elements_by_type|].
  intros position. unfold getStructuralTypeAtPosition.
  destruct (List.find _ _) as [element|] eqn:Hfind.
  - apply find_sorted in Hfind as (Hin & Hholds & Hfirst); [|apply elements_sorted].
    split; [done|]. split; [lia|].
    intros other Hother Hpos. apply Hfirst; [done|]. 
    apply andb_true_iff. split; apply Z.leb_le; lia.
  - intros other Hother Hpos.
    pose proof (find_nowhere _ _ Hfind other Hother) as Hnot. cbn in Hnot.
    apply andb_false_iff in Hnot as [Hnot|Hnot]; apply Z.leb_gt in Hnot; lia.
Qed.

End Priority.

End StructuralDetectorProps.

(** ** src/parsers/metadataExtractor.ts *)
Module MetadataProps.
Import Metadata StringProps.

Lemma trim_trim s : Js.trim (Js.trim s) = Js.trim s.
Proof. unfold Js.trim. by rewrite chars_str, MarkdownProps.trimChars_idemp. Qed.

Lemma substring_length n s : (String.length (String.substring 0 n s) <= n)%nat.
Proof.
  revert s. induction n as [|n IH]; intros [|c s]; cbn; try lia.
  specialize (IH s). lia.
Qed.

Lemma substring_length_cut n s :
  (n <= String.length s)%nat -> String.length (String.substring 0 n s) = n.
Proof.
  revert s. induction n as [|n IH]; intros [|c s]; cbn; try lia.
  intros Hn. rewrite IH; lia.
Qed.

Section WithDom.
Variable parse : string -> option string -> option Document.
Variable resolve : string -> string -> option string.

Lemma extractH1_title document h :
  extractH1 document = Some h ->
  (String.length h <= 500)%nat
  /\ is_Some (extractTitle document)
  /\ ((String.length h < 500)%nat -> Js.trim h = h).
Proof.
  unfold extractH1, extractTitle.
  destruct (Js.orNull (h1Text document)) as [t|]; [|done]. cbv zeta.
  intros [= <-]. split; [|split].
  - destruct (Nat.ltb_spec 500 (String.length (Js.trim t))); [|lia].
    apply substring_length.
  - destruct (Js.orNull (titleText document)); [done|].
    by destruct (attribute (ogTitleContent document)).
  - destruct (Nat.ltb_spec 500 (String.length (Js.trim t))) as [Hlong|Hshort].
    + intros Hcut. rewrite substring_length_cut in Hcut; lia.
    + intros _. apply trim_trim.
Qed.

(** X23.  [extractMetadata] returns no metadata for empty HTML and for
    HTML the parser raises on.  An H1 it returns has at most 500
    characters and comes with a title; it is trimmed unless it was cut at
    500.  A title, a description and a language it returns are
    trimmed. *)
Theorem extractMetadata_shape html url :
  let metadata := extractMetadata parse resolve html url in
  (html = "" \/ parse html url = None -> metadata = noMetadata)
  /\ (forall text, h1 metadata = Some text ->
        (String.length text <= 500)%nat
        /\ is_Some (title metadata)
        /\ ((String.length text < 500)%nat -> Js.trim text = text))
  /\ (forall text, title metadata = Some text -> Js.trim text = text)
  /\ (forall text, metaDescription metadata = Some text -> Js.trim text = text)
  /\ (forall text, language metadata = Some text -> Js.trim text = text).
Proof.
  cbv zeta. unfold extractMetadata. split.
  { intros [->|Hraises]; [done|]. rewrite Hraises. by destruct (negb _). }
  destruct (negb (Js.truthy html)); [by repeat split|].
  destruct (parse html url) as [document|]; [|by repeat split].
  cbn [h1 title metaDescription language].
  split; [intros text; apply extractH1_title|].
  split; [|split].
  - unfold extractTitle. intros text.
    destruct (Js.orNull (titleText document)); [intros [= <-]; apply trim_trim|].
    destruct (attribute (ogTitleContent document)); [intros [= <-]; apply trim_trim|].
    destruct (Js.orNull (h1Text document)); [intros [= <-]; apply trim_trim|done].
  - unfold extractMetaDescription. intros text.
    destruct (attribute (descriptionContent document));
      [intros [= <-]; apply trim_trim|].
    destruct (attribute (ogDescriptionContent document));
      [intros [= <-]; apply trim_trim|done].
  - unfold extractLanguage. intros text.
    destruct (Js.orNull (htmlLang document)); [intros [= <-]; apply trim_trim|].
    destruct (attribute (contentLanguage document));
      [intros [= <-]; apply trim_trim|done].
Qed.

Lemma headings_of_level level texts :
  Forall (fun heading : nat * string =>
            heading.1 = level /\ heading.2 <> "" /\ Js.trim heading.2 = heading.2)
    (omap (fun textContent =>
             let text := Js.trim textContent in
             if Js.truthy text then Some (level, text) else None) texts).
Proof.
  induction texts as [|t texts IH]; [constructor|]. cbn [omap list_omap].
  destruct (Js.truthy (Js.trim t)) eqn:Ht; [|exact IH].
  constructor; [|exact IH]. cbn. split; [done|]. split; [|apply trim_trim].
  intros Hempty. by rewrite Hempty in Ht.
Qed.

Lemma one_level_sorted level (l : list (nat * string)) :
  Forall (fun heading : nat * string => heading.1 = level) l ->
  StronglySorted (fun a b : nat * string => (a.1 <= b.1)%nat) l.
Proof.
  induction 1 as [|a l Ha Hl IH]; constructor; [done|].
  eapply Forall_impl; [exact Hl|]. intros b Hb. cbn beta in Ha, Hb |- *.
  by rewrite Ha, Hb.
Qed.

Lemma headings_sorted (texts : nat -> list string) start count :
  StronglySorted (fun a b : nat * string => (a.1 <= b.1)%nat)
    (flat_map
       (fun level =>
          omap (fun textContent =>
                  let text := Js.trim textContent in
                  if Js.truthy text then Some (level, text) else None)
            (texts level))
       (seq start count))
  /\ Forall (fun heading : nat * string =>
               (start <= heading.1 < start + count)%nat
               /\ heading.2 <> "" /\ Js.trim heading.2 = heading.2)
       (flat_map
          (fun level =>
             omap (fun textContent =>
                     let text := Js.trim textContent in
                     if Js.truthy text then Some (level, text) else None)
               (texts level))
          (seq start count)).
Proof.
  revert start. induction count as [|count IH]; intros start.
  { split; constructor. }
  cbn [seq flat_map]. destruct (IH (S start)) as [IHsorted IHall].
  pose proof (headings_of_level start (texts start)) as Hlevel.
  split.
  - apply StronglySorted_app_2; [| |done].
    + intros a b Ha Hb. rewrite Forall_forall in Hlevel, IHall.
      destruct (Hlevel a Ha) as [-> _]. destruct (IHall b Hb) as [? _]. lia.
    + apply (one_level_sorted start).
      eapply Forall_impl; [exact Hlevel|]. by intros a [? _].
  - apply Forall_app. split.
    + eapply Forall_impl; [exact Hlevel|]. intros a (-> & ? & ?).
      split; [lia|done].
    + eapply Forall_impl; [exact IHall|]. intros a ([? ?] & ? & ?).
      split; [lia|done].
Qed.

(** X24.  [extractHeadingStructure] returns the headings level by level,
    not in the order of the document: the levels, from 1 to 6, never go
    down along the list; each text is trimmed and not empty.  *)
Theorem extractHeadingStructure_by_level html :
  let headings := extractHeadingStructure parse html in
  StronglySorted (fun a b : nat * string => (a.1 <= b.1)%nat) headings
  /\ Forall (fun heading : nat * string =>
               (1 <= heading.1 <= 6)%nat
               /\ heading.2 <> "" /\ Js.trim heading.2 = heading.2)
       headings.
Proof.
  cbv zeta. unfold extractHeadingStructure.
  destruct (parse html None) as [document|]; [|split; constructor].
  destruct (headings_sorted (headingTexts document) 1 6) as [Hsorted Hall].
  split; [exact Hsorted|].
  eapply Forall_impl; [exact Hall|]. intros a ([? ?] & ? & ?). split; [lia|done].
Qed.

End WithDom.

(** A document whose [h2] comes before its [h1]: the [h1] is listed
    first. *)
Example headings_out_of_document_order :
  extractHeadingStructure
    (fun _ _ => Some {| titleText := None; ogTitleContent := None;
                        h1Text := Some "Title"; descriptionContent := None;
                        ogDescriptionContent := None; canonicalHref := None;
                        ogImageContent := None; htmlLang := None;
                        contentLanguage := None;
                        headingTexts := fun level =>
                          match level with
                          | 1%nat => ["Title"]
                          | 2%nat => [" Intro "; "  "]
                          | _ => []
                          end |})
    "<h2> Intro </h2><h2>  </h2><h1>Title</h1>"
  = [(1%nat, "Title"); (2%nat, "Intro")].
Proof. vm_compute. reflexivity. Qed.

End MetadataProps.

(** ** src/db/queries.ts: what [x || null] keeps out of the table *)
Module FalsyProps.
Import Types Queries.

Lemma orNull_filled x : Js.orNull x <> Some "".
Proof. intros Hx. by apply QueriesProps.orNull_Some in Hx as [_ ?]. Qed.

Lemma orNullFrac_nonzero x q : Js.orNullFrac x = Some q -> Qnum q <> 0.
Proof.
  destruct x as [p|]; cbn; [|done].
  destruct (Z.eqb_spec (Qnum p) 0); [done|]. by intros [= <-].
Qed.

Lemma COALESCE_filled (new stored : option string) :
  new <> Some "" -> stored <> Some "" -> COALESCE new stored <> Some "".
Proof. by destruct new. Qed.

Section Reachable.
Context `{Extract.Dom} `{Crawler.Services}.

(** No text column but the three Markdown and navigation columns of the
    backfills holds the empty string, and no junk score is 0. *)
Let filled (row : Row) : Prop :=
  r_requested_url_original row <> Some ""
  /\ r_html_content row <> Some ""
  /\ r_clean_html row <> Some ""
  /\ r_title row <> Some ""
  /\ r_h1 row <> Some ""
  /\ r_meta_description row <> Some ""
  /\ r_content_hash row <> Some ""
  /\ r_sitemap_type_hint row <> Some ""
  /\ r_last_error row <> Some ""
  /\ r_run_id row <> Some ""
  /\ (forall score, r_junk_score row = Some score -> Qnum score <> 0).

Lemma insertedRow_filled now page : filled (insertedRow now (bindParams page)).
Proof.
  unfold filled. cbn. repeat split; try apply orNull_filled.
  apply orNullFrac_nonzero.
Qed.

Lemma onDuplicateKeyUpdate_filled now page stored :
  filled stored -> filled (onDuplicateKeyUpdate now (bindParams page) stored).
Proof.
  intros (Hrequested & Hhtml & Hclean & Htitle & Hh1 & Hdescription & Hhash
          & Hhint & Herror & Hrun & Hscore).
  rewrite QueriesProps.onDuplicateKeyUpdate_unfold. unfold filled.
  cbn [r_requested_url_original r_html_content r_clean_html r_title r_h1
       r_meta_description r_content_hash r_sitemap_type_hint r_last_error
       r_run_id r_junk_score bindParams v_html_content v_clean_html v_title
       v_h1 v_meta_description v_content_hash v_sitemap_type_hint
       v_last_error v_run_id v_junk_score].
  split; [done|].
  split; [destruct (hashChanged _ _); [apply orNull_filled|done]|].
  split; [destruct (hashChanged _ _); [apply orNull_filled|done]|].
  split; [apply COALESCE_filled; [apply orNull_filled|done]|].
  split; [apply COALESCE_filled; [apply orNull_filled|done]|].
  split; [apply COALESCE_filled; [apply orNull_filled|done]|].
  split; [apply COALESCE_filled; [apply orNull_filled|done]|].
  split; [apply COALESCE_filled; [apply orNull_filled|done]|].
  split; [apply orNull_filled|]. split; [apply orNull_filled|].
  intros score. destruct (Js.orNullFrac (junk_score page)) as [q|] eqn:Hq; cbn.
  - intros [= <-]. by apply orNullFrac_nonzero in Hq.
  - apply Hscore.
Qed.

Lemma upsertPage_filled now page (t : Table) :
  (forall key row, t !! key = Some row -> filled row) ->
  forall key row, upsertPage now page t !! key = Some row -> filled row.
Proof.
  intros Ht key row.
  destruct (decide (key = final_url page)) as [->|Hne].
  - destruct (t !! final_url page) as [stored|] eqn:Hhit.
    + rewrite (QueriesProps.upsertPage_conflict _ _ _ _ Hhit).
      intros [= <-]. apply onDuplicateKeyUpdate_filled. by eapply Ht.
    + rewrite (QueriesProps.upsertPage_insert _ _ _ Hhit).
      intros [= <-]. apply insertedRow_filled.
  - rewrite QueriesProps.upsertPage_other by done. apply Ht.
Qed.

Lemma step_filled (t t' : Table) :
  History.step t t' ->
  (forall key row, t !! key = Some row -> filled row) ->
  forall key row, t' !! key = Some row -> filled row.
Proof.
  intros Hstep Ht.
  destruct Hstep as [now runId request statusCode body page t Hpage
                    |now runId request message page t Hpage
                    |key0 row0 turndownOutput stats t Hrow0 Hclean result
                    |key0 row0 nav t Hrow0 Hhtml Hnav
                    |deleted t].
  - by apply upsertPage_filled.
  - by apply upsertPage_filled.
  - intros key row. destruct (decide (key0 = key)) as [->|Hne].
    + rewrite lookup_insert_eq. intros [= <-]. exact (Ht _ _ Hrow0).
    + rewrite lookup_insert_ne by done. apply Ht.
  - intros key row. destruct (decide (key0 = key)) as [->|Hne].
    + rewrite lookup_insert_eq. intros [= <-]. exact (Ht _ _ Hrow0).
    + rewrite lookup_insert_ne by done. apply Ht.
  - intros key row Hlook. apply map_lookup_filter_Some in Hlook as [Hlook _].
    by eapply Ht.
Qed.

(** X25.  In every table the crawler's writes leave, a column that
    [upsertPage] binds as [x || null] holds no falsy value: the requested
    URL, the two HTML columns, the title, the H1, the description, the
    content hash, the type hint, the error and the run are absent or not
    empty, and no junk score is 0 (a page without link text is stored
    without its score). *)
Theorem stored_rows_hold_no_falsy_value (t : Table) key row :
  History.reachable t ->
  t !! key = Some row ->
  r_requested_url_original row <> Some ""
  /\ r_html_content row <> Some ""
  /\ r_clean_html row <> Some ""
  /\ r_title row <> Some ""
  /\ r_h1 row <> Some ""
  /\ r_meta_description row <> Some ""
  /\ r_content_hash row <> Some ""
  /\ r_sitemap_type_hint row <> Some ""
  /\ r_last_error row <> Some ""
  /\ r_run_id row <> Some ""
  /\ (forall score, r_junk_score row = Some score -> Qnum score <> 0).
Proof.
  intros Hreach. revert key row.
  induction Hreach as [|t t' _ IH Hstep].
  - intros key row. by rewrite lookup_empty.
  - by apply (step_filled t t').
Qed.

End Reachable.

(** The first crawl of the sample page: a page without metadata is stored
    without title. *)
Lemma stored_rows_hold_no_falsy_value_witness :
  exists page row,
    Sample.firstCrawl = Some page
    /\ upsertPage 10 page ∅ !! "https://ex.com/a" = Some row
    /\ r_title row = None
    /\ r_html_content row <> Some ""
    /\ r_content_hash row <> Some "".
Proof.
  assert (exists page, Sample.firstCrawl = Some page
                       /\ final_url page = "https://ex.com/a"
                       /\ Js.orNull (title page) = None)
    as (page & Hpage & Hurl & Htitle).
  { eexists. split; [vm_compute; reflexivity|]. split; reflexivity. }
  pose proof (QueriesProps.upsertPage_insert 10 page ∅ (lookup_empty _)) as Hrow.
  rewrite Hurl in Hrow.
  destruct (@stored_rows_hold_no_falsy_value Sample.plainText
              (Sample.services Sample.noMetadata None)
              (upsertPage 10 page ∅) "https://ex.com/a" _
              (History.reachable_step ∅ _ History.reachable_empty
                 (History.step_crawled 10 "run-1" Sample.requestA (Some 200)
                    "a  b" page ∅ Hpage))
              Hrow)
    as (_ & Hhtml & _ & _ & _ & _ & Hhash & _).
  exists page, (insertedRow 10 (bindParams page)).
  split; [exact Hpage|]. split; [exact Hrow|]. split; [exact Htitle|].
  split; [exact Hhtml|exact Hhash].
Defined.

End FalsyProps.
